(* ===== verification/_CoqProject ===== *)
-Q . S2P
Prelude.v
PyFloat.v
PyStr.v
Isa.v
Ram.v
Cpu.v
Rvc.v
CpuSem.v
Exec.v
ExecSem.v
ExecSafe.v
RamSafe.v
Core.v
MemInstr.v
Trap.v
IsaMachine.v
Board.v
IsaRefine.v
Machine.v
Peripherals.v
World.v
Lift.v
PeriphThms.v
MachineThms.v
IsaRun.v
IsaMonitor.v
Hosted.v
Argv.v
Syscalls.v
SyscallThms.v
GdbPacket.v
Gdb.v
GdbThms.v
MemClass.v
MmioSafe.v
BoardRefine.v
HostedBoard.v
Robust.v
SyscallSafe.v
Log.v
ArgParse.v
Emu.v
EmuThms.v
GdbSafe.v
EmuSafe.v
EmuBoot.v
Unix.v
EmuIsa.v
EmuBoard.v
Script.v
ScriptThms.v
CommandLine.v
UnitTests.v
Liveness.v
BrowserSyscalls.v
Browser.v
BrowserThms.v
Witnesses.v
AppWitnesses.v
ApiExample.v
Deviations.v
