(* ===== verification/Prelude.v ===== *)
(** * A verified model of the riscv-python emulator

    riscv-python emulates a RV32IMAC processor with machine mode, a timer, memory,
    memory-mapped peripherals, system calls for bare-metal programs and a GDB stub.
    This development is a shallow embedding of its Python code with the theorems that
    make it correct.

    ** The program

    - cpu.py: the CPU object, one handler per opcode, traps, CSRs, the timer and the
      decode caches; rvc.py expands compressed instructions to 32-bit ones.
    - ram.py: five memory classes with one interface: RAM (unchecked), SafeRAM
      (checked), SafeRAMOffset (checked, based at an address) and the two classes
      that route word accesses to peripherals.
    - peripherals.py: the memory-mapped timer, UART and block device.
    - machine.py: the Machine object that loads programs, checks invariants and runs
      one of several execution loops, including the ones of the debugger.
    - syscalls.py: the handler the CPU calls for ECALL when no trap handler is set.
    - gdbstub.py: the packets and commands of the GDB remote protocol.
    - riscv-emu.py wires the objects together behind a command line;
      run_unit_tests.py runs the architecture's test programs on such a machine.
    - advanced/webapp/py: a copy of the emulator under an emulation session
      (browser_entry.py) a web page drives by requests, running the program in chunks,
      and its system calls (browser_syscalls.py) on a terminal and uploaded files.

    ** How the code is modelled

    A method is a function of the state and exception monad [ST W A] (Prelude.v): it
    takes the state of the objects it can reach, and returns a value or an exception
    together with the state it leaves, which survives an exception.  Objects are
    records; a method of one object runs inside a larger world through the lens class
    [Has].  Python integers are [Z], with every mask of the source written out;
    lists, slices and negative indices follow Python ([py_get], [py_slice], ...).
    Exceptions are the constructors of [exn], with Python's own (IndexError,
    TypeError, ...) beside those of the emulator; a missing key, a bad index or a
    failing conversion is such a value.  The messages of the log are not part of the
    state; what is printed about the end of a run and of a test is.

    Interfaces between components are classes: [RamOps] (Ram.v) is what every memory class
    offers, [RamSafe] (ExecSafe.v) what it promises to the processor, [Allows] (MmioSafe.v)
    which failures of the host a memory with peripherals may pass on, [CpuInv] (Cpu.v) an
    invariant of the processor the handlers keep, [LoopSafe] (MachineThms.v) what the
    processor with its memory promises to the loops, [RamKeeps] (Robust.v) what a memory
    promises to a processor whose registers hold any integers, [Lapses] (Robust.v) which
    exceptions of Python the surroundings may provoke, [Host] (Syscalls.v) the operating
    system and [HostSafe] (SyscallSafe.v) its promise, [Separate] and [LiftMem] (Lift.v)
    what a world and its memory promise for the processor in it to behave as on its own,
    [InWorld] (BoardRefine.v) that a world contains the objects of the emulator,
    [Implements] (Hosted.v) what the handler of the system calls promises to a run. The
    theorems are proved against them, and the memory classes and the handler are instances.

    The abstract specification of the emulator is a reference machine for RV32IMAC
    (IsaMachine.v), a hart with a byte memory, written from the ISA manual; the execution
    loops are refined against it in three steps: every instruction on a processor with a
    checked memory (IsaRefine.v), the same in any world (Lift.v), whole runs (IsaRun.v,
    IsaMonitor.v, EmuBoot.v, EmuIsa.v).  For programs with system calls the specification is
    the hart in an environment that takes an ECALL (Hosted.v), which is a Unix with a terminal,
    files and a heap (Unix.v); the handler of syscalls.py is refined against it call by call.
    With the peripherals the specification is a board (Board.v): that hart with a serial line,
    a block drive and the timer registers, stated as what they are for the program; the
    loop with peripherals is refined against it device by device and round by round
    (BoardRefine.v), in the same environment (HostedBoard.v, EmuBoard.v).

    ** Files

    - Prelude: the monad, lenses, triples and the [keeps] rules with their hint
      databases and the tactic [keep]; machine words, masks, Python sequences.
    - PyFloat: Python's division of integers by floating point, used by DIV and REM.
    - PyStr: int(s, base) and str(n), hexadecimal digits, split and strip.
    - Isa: the instruction set as a specification: syntax, decoding and the outcome
      of every instruction without memory access, written from the ISA manual.
    - Ram: the memory classes (ram.py); the abstract memory [mem_byte]; theorems.
    - Cpu: the CPU object, opcode handlers, traps, CSRs and timer (cpu.py).
    - Rvc: expand_compressed (rvc.py) against the specification of RV32C.
    - CpuSem: closed forms of the handlers.  Exec: loads, stores, SYSTEM, atomics,
      dispatch and the decode caches (cpu.py).  ExecSem: execution against Isa.
    - ExecSafe, RamSafe, Core: every instruction keeps the invariant, the memory
      classes keep their promise, construction of a machine, the caches.
    - MemInstr: loads, stores, atomics and LR/SC.  Trap: traps, MRET, timer, CSRs.
    - IsaMachine: the reference machine.  Board: the same with its devices.  IsaRefine:
      every instruction against the reference machine.
    - Machine: machine.py without the debugger.  Peripherals: peripherals.py.
      World: the whole emulator state and the routing of accesses.
    - Lift: from the processor and its memory to every world that contains them.
      IsaRun: the loops against the reference machine.  IsaMonitor: the loop with logging
      and checks.  Hosted: the loops with system calls, against the hart in an environment.
    - PeriphThms, MachineThms, Argv: theorems about peripherals, loops, checks and
      program arguments.
    - Syscalls, SyscallThms: syscalls.py.
    - GdbPacket: packets and the connection (gdbstub.py).  Gdb: the stub, its commands
      and the debugger's loops (gdbstub.py, machine.py).  GdbThms: their theorems.
    - MemClass: the choice of a memory class at run time.  MmioSafe: the classes with
      peripherals keep the promise of [RamSafe] too.  BoardRefine: the loop with
      peripherals against the board.  HostedBoard: the same with system calls.
    - Robust: the processor keeps its shape whatever its registers hold.  SyscallSafe: so
      do the system calls.  GdbSafe: so does a session of the debugger with any client.
    - Log: the formatters and handlers of the log and print_registers (riscv-emu.py,
      cpu.py), the logger of the web application (browser_logger.py).
    - ArgParse: the options of riscv-emu.py and what argparse does with them.
    - Emu, EmuThms: riscv-emu.py from the parsed options on.  EmuSafe: the whole program
      with all its parts.  EmuBoot: the process from the file to the start of the run.
      Unix: the environment of a program as a specification, and the handler of syscalls.py
      against it.  EmuIsa: the run of the process on the reference machine, system calls
      included.  EmuBoard: the same with peripherals, on the
      reference board.
    - Script, ScriptThms: riscv-emu.py from sys.argv to the end of the process, with the
      terminal, the log and Ctrl-C.  CommandLine: what a command line means.
    - UnitTests: run_unit_tests.py.  Liveness: a program waiting for the timer is
      interrupted.
    - BrowserSyscalls, Browser, BrowserThms: the web application's session.
    - Witnesses, AppWitnesses: the theorems applied to concrete machines.
    - ApiExample: the two programs of tests/ that drive the machine, run to their ends.
    - Deviations: what the emulator does where it departs from the ISA manual.

    ** What the theorems show

    - The instruction set (C1, C3, C4): a flat binary or an ELF file given to riscv-emu.py,
      with the arguments of the program, runs on the reference machine of the ISA in a Unix
      environment, round by round, system call by system call and up to the exit status; so
      does, up to its system calls, every program from every ready state of a machine in any
      world; and logging and checking leave the run alone or stop it in a state of the
      reference machine.
    - The devices (C2): with the UART, the block device and the memory-mapped timer,
      riscv-emu.py runs the reference board in that environment: every load and store of a
      device register, every byte on the line, every block of the disk and every transfer to
      and from the memory are those of the board, round by round.
    - The whole script (C5): riscv-emu.py, for every command line, all peripherals, the
      system calls, any client of the debugger and Ctrl-C, restores the terminal, keeps its
      shape whatever program it runs, and ends with an exit status, a host's OSError, the
      OverflowError of a division, the termios.error of a standard input that is no terminal,
      with --gdb the ValueError or IndexError of a client's command, or a lapse that the
      files and the terminal around it provoke.
    - Instructions (C6-C14): execution of a 32-bit or compressed instruction is the outcome
      of the ISA specification; the expansion of compressed instructions is exact on all
      65536 words; loads, stores and atomics act on the abstract memory as specified; every
      instruction and every execution loop keeps the machine well formed and lets no
      exception of Python escape, given a system-call handler that does; the decode caches
      are transparent when compressed instructions are enabled.
    - Web session (C15-C17, C23, C24): running in chunks with pauses is running at
      once; a chunk lets no exception escape; every sequence of requests keeps the
      session well formed; a reset leaves nothing of the program before; the terminal
      delivers its input in order.
    - The timer interrupts a program that waits (C18), receiving a packet ends on
      every stream (C19).
    - Memory classes chosen at run time, with the UART and the block device attached,
      keep their data well typed and fail only with the errors of the emulator and of the
      host (C20); riscv-emu.py builds a well-formed machine for every combination of its
      options (C21), and the configuration its command line describes (C22); the test runner
      reports the first result that the program leaves, and nothing else (C25).
    - Traps (C26); the memory classes (C27, C28).  [lr_sc], [csr_instructions] and
      [timer_interrupt] state the effect of LR/SC, of the CSR instructions and of the
      timer by themselves.
    - The machine (C29, C30): the invariant checks are exact, the layout of the program
      arguments.  Peripherals (C31, C32): the UART as a FIFO in
      both directions, with the bytes that the host does not take; the block device as an
      array, with the failures of its file.
    - Debugger (C33-C38): the packet codec is a round trip and detects corruption,
      reception works for every cutting of the stream that keeps the digits of the checksum
      together, registers and memory read back
      what was written, debugging is transparent; [gdb_session_breakpoint]: breakpoints
      stop before the instruction.
    - System calls (C39, C40): heap bounds, transfers; [open_close_roundtrip]: the table of
      open files.
    - The results of the scripts of tests/ ([api_sum], [api_trap]) and the lines of the
      log in raw mode ([raw_log_lines]).
    - Deviations: the behaviours in which the code departs from its comments or from
      the architecture are theorems beside the ones above: [readonly_csr_is_written],
      [csr_mtimecmp_leaves_mip_stale], [decode_cache_confuses_low_bits],
      [setup_argv_overlaps_non_ascii], [recv_packet_hash_interrupts],
      [error_result_negative], [mtime_overflows], [restart_after_exit],
      [load_file_overlays], [division_overflows], [sbrk_without_heap],
      [recv_packet_short_read], and the whole file Deviations.v: a failing SC keeps the
      reservation, a misaligned LR has the cause of a store, mepc keeps its low bits, unknown
      CSRs are storage, minstret does not count, compressed hints are rejected, reserved
      shifts expand to a word, the debugger executes compressed words in any case.

    ** Bounds

    A [while True] loop of the source is [loop n], n rounds for an arbitrary n: the
    theorems hold for every n, and an exception is the only way out of such a loop.
    recv_packet takes a byte in every round, so that its fuel, one more than the number
    of bytes in the stream, is never exhausted before the stream (C19).  A chunk of the
    web session has the number of instructions the source gives it.  The loop of the
    test runner is a number of rounds, too: C25 says of every number which of its three ends
    it comes to.  Other recursions are structural.

    ** Not modelled

    The messages of the log while the program runs (traces, register lines); sockets and
    terminals beyond the bytes they deliver, the calls that fail and their settings; a
    pseudo-terminal that cannot be created, a disk image that cannot be opened, terminal
    settings that cannot be restored; a Ctrl-C before the run; the parsing of ELF files
    (a library: load_elf takes the parsed file); the texts of argparse and of exceptions;
    the JavaScript page.  cpu.py, rvc.py and ram.py of the web application are identical to
    the files modelled here, and its machine.py to machine.py without the debugger: the
    session uses these definitions.

    The reference machine leaves open what the ISA leaves open or the emulator does by
    other means: C3 and C4 say nothing of a program from its first system call taken by the
    host on, and C1 and C2 nothing from a call on that the host fails, that names no open file
    or bytes outside the memory, or that does not exist (kill included), where the handler puts
    a negative number into a register or raises; C1 to C4 say nothing of a program from a
    semihosting code on, an access to the emulator's own timer CSRs, to a CSR the platform
    does not have or a counter, a write to a read-only CSR or of a value that a CSR cannot hold
    (mepc with low bits), a misaligned LR, a SC to another address than the reserved one, a
    reserved encoding of an atomic, a rejected compressed hint, a wrap of mtime, or, where
    compressed instructions are disabled, a word with their encoding.  C1 and C2 are about
    programs that fit with arguments in ASCII, C2 about memory below the addresses of the
    devices and a disk image of the size asked for; the board leaves open an atomic, a fetch
    or a narrow access at the address of a device.
    The alignment of the pc is not an invariant of all loops: those that are not chosen for
    the lack of compressed instructions execute them in any case, as their comments say.
    The system-call handler does not keep registers at 32 bits ([error_result_negative]) and
    the upper half of the memory-mapped timer has no bound ([mtime_overflows]), so that C8,
    C9 and C20 assume a handler that does and leave that timer out, and C5, which has both,
    says less about the values in the registers. *)

From Stdlib Require Import ZArith Lia Bool String.
From stdpp Require Import base numbers list option gmap strings.

Local Open Scope Z_scope.

(** ** Exceptions

    The exception classes of machine.py, ram.py and syscalls.py, and the
    built-in Python exceptions the modelled code can raise.  Messages are kept
    as structured data: the part of the text that other code inspects. *)

(** Why an [ExecutionTerminated] was raised. *)
Inductive term_reason :=
| TrapWithoutHandler (pc cause : Z)
| BreakpointAt (pc : Z)
| ExitCode (code : Z)
| KilledByGDB.

Inductive exn :=
| MachineError (msg : string)
| SetupError (msg : string)
| InvariantViolationError (msg : string)
| ExecutionTerminated (why : term_reason)
| DebugBreak (reason : string) (signal : Z)
| MemoryAccessError (msg : string) (addr : Z)
| InvalidSyscallError (msg : string)
| IndexError
| BufferError
| ValueError
| TypeError
| AttributeError
| OSError
| RuntimeError
| OverflowError
| TermiosError.

#[export] Instance term_reason_eq_dec : EqDecision term_reason.
Proof. solve_decision. Defined.

#[export] Instance exn_eq_dec : EqDecision exn.
Proof. solve_decision. Defined.

(** [isinstance(e, MachineError)]: the classes derived from MachineError. *)
Definition is_machine_error (e : exn) : bool :=
  match e with
  | MachineError _ | SetupError _ | InvariantViolationError _
  | ExecutionTerminated _ | DebugBreak _ _ | MemoryAccessError _ _
  | InvalidSyscallError _ => true
  | _ => false
  end.

(** ** The state and exception monad

    A Python method is a function from the state of the objects it can reach
    to an outcome and the state it leaves behind.  The state survives an
    exception: what was mutated before the [raise] stays mutated. *)

Inductive res (A : Type) :=
| Ok (a : A)
| Exn (e : exn).
Arguments Ok {A} a.
Arguments Exn {A} e.

Definition ST (S A : Type) : Type := S -> res A * S.

Definition ret {S A} (a : A) : ST S A := fun s => (Ok a, s).

Definition raise {S A} (e : exn) : ST S A := fun s => (Exn e, s).

Definition bind {S A B} (m : ST S A) (f : A -> ST S B) : ST S B :=
  fun s => match m s with
           | (Ok a, s') => f a s'
           | (Exn e, s') => (Exn e, s')
           end.

(** [try: m except E: h], where [h] declines an exception by raising it again. *)
Definition catch {S A} (m : ST S A) (h : exn -> ST S A) : ST S A :=
  fun s => match m s with
           | (Ok a, s') => (Ok a, s')
           | (Exn e, s') => h e s'
           end.

Definition gets {S A} (f : S -> A) : ST S A := fun s => (Ok (f s), s).

Definition modify {S} (f : S -> S) : ST S unit := fun s => (Ok tt, f s).

Definition of_option {S A} (e : exn) (o : option A) : ST S A :=
  match o with Some a => ret a | None => raise e end.

Declare Scope py_scope.
Delimit Scope py_scope with py.

Notation "x <- m ;; k" := (bind m (fun x => k))
  (at level 100, m at next level, right associativity) : py_scope.
Notation "m ;;; k" := (bind m (fun _ => k))
  (at level 100, right associativity) : py_scope.

Local Open Scope py_scope.

(** [for x in l: body(x)] *)
Fixpoint for_each {S A} (body : A -> ST S unit) (l : list A) : ST S unit :=
  match l with
  | [] => ret tt
  | x :: l' => body x ;;; for_each body l'
  end.

(** [n] rounds of a [while True] body that threads a loop variable; an
    exception leaves the loop, [Ok] means that the loop is still running. *)
Fixpoint loop {S A} (n : nat) (body : A -> ST S A) (a : A) : ST S A :=
  match n with
  | O => ret a
  | S n' => a' <- body a ;; loop n' body a'
  end.

(** Rounds compose. *)
Lemma loop_add {S A} (body : A -> ST S A) n k a s :
  loop (n + k) body a s =
  match loop n body a s with
  | (Ok a', s') => loop k body a' s'
  | (Exn e, s') => (Exn e, s')
  end.
Proof.
  revert a s. induction n as [|n IH]; intros a s; simpl; [done|].
  unfold bind. destruct (body a s) as [[a'|e] s']; [apply IH|done].
Qed.

(** *** Lenses: an object reachable from a larger state *)

Class Has (A W : Type) := {
  view : W -> A;
  put : A -> W -> W;
  view_put : forall a w, view (put a w) = a;
  put_view : forall w, put (view w) w = w;
  put_put : forall a b w, put a (put b w) = put a w
}.

#[export] Instance Has_self (A : Type) : Has A A.
Proof. by refine {| view := id; put := fun a _ => a |}. Defined.

#[export] Instance Has_fst (A B : Type) : Has A (A * B).
Proof. by refine {| view := fst; put := fun a w => (a, snd w) |}; intros; destruct w. Defined.

#[export] Instance Has_snd (A B : Type) : Has B (A * B).
Proof. by refine {| view := snd; put := fun b w => (fst w, b) |}; intros; destruct w. Defined.

(** Run a method of the object [A] inside the larger state [W]. *)
Definition zoom {A W X} `{Has A W} (m : ST A X) : ST W X :=
  fun w => let '(r, a) := m (view w) in (r, put a w).

(** *** Triples

    [triple P m Q E]: from a state satisfying [P], [m] either returns with [Q]
    or raises with [E]. *)
Definition triple {S A} (P : S -> Prop) (m : ST S A)
    (Q : A -> S -> Prop) (E : exn -> S -> Prop) : Prop :=
  forall s, P s ->
    match m s with
    | (Ok a, s') => Q a s'
    | (Exn e, s') => E e s'
    end.

(** [keeps X I m Q]: [m] preserves [I], on the exceptional exits too, what it
    returns satisfies [Q], and it raises only the exceptions of [X]. *)
Definition keeps {S A} (X : exn -> Prop) (I : S -> Prop) (m : ST S A) (Q : A -> Prop) : Prop :=
  triple I m (fun a s => I s /\ Q a) (fun e s => I s /\ X e).

(** The exceptions of the emulator itself, as opposed to Python's. *)
Definition machine_error (e : exn) : Prop := is_machine_error e = true.

Section Triples.
Context {S : Type}.
Implicit Types (P I : S -> Prop) (E : exn -> S -> Prop).

Lemma triple_ret {A} P (a : A) (Q : A -> S -> Prop) E :
  (forall s, P s -> Q a s) -> triple P (ret a) Q E.
Proof. intros H s Hs. by apply H. Qed.

Lemma triple_raise {A} P e (Q : A -> S -> Prop) E :
  (forall s, P s -> E e s) -> triple P (raise e) Q E.
Proof. intros H s Hs. by apply H. Qed.

Lemma triple_bind {A B} P (m : ST S A) (f : A -> ST S B) R Q E :
  triple P m R E -> (forall a, triple (R a) (f a) Q E) ->
  triple P (bind m f) Q E.
Proof.
  intros Hm Hf s Hs. unfold bind. specialize (Hm s Hs).
  destruct (m s) as [[a|e] s']; [by apply Hf|done].
Qed.

Lemma triple_conseq {A} P P' (m : ST S A) (Q Q' : A -> S -> Prop) E E' :
  triple P' m Q' E' -> (forall s, P s -> P' s) ->
  (forall a s, Q' a s -> Q a s) -> (forall e s, E' e s -> E e s) ->
  triple P m Q E.
Proof.
  intros Hm HP HQ HE s Hs. specialize (Hm s (HP s Hs)).
  destruct (m s) as [[a|e] s']; auto.
Qed.

Section Keeps.
Context (X : exn -> Prop).

Lemma keeps_ret {A} I (a : A) (Q : A -> Prop) : Q a -> keeps X I (ret a) Q.
Proof. intros HQ. apply triple_ret. auto. Qed.

Lemma keeps_raise {A} I e (Q : A -> Prop) : X e -> keeps X I (raise e) Q.
Proof. intros HX. apply triple_raise. auto. Qed.

Lemma keeps_bind {A B} I (m : ST S A) (f : A -> ST S B) R Q :
  keeps X I m R -> (forall a, R a -> keeps X I (f a) Q) -> keeps X I (bind m f) Q.
Proof.
  intros Hm Hf. eapply triple_bind; [exact Hm|].
  intros a s [Hs Ha]. exact (Hf a Ha s Hs).
Qed.

Lemma keeps_weaken {A} I (m : ST S A) (R Q : A -> Prop) :
  keeps X I m R -> (forall a, R a -> Q a) -> keeps X I m Q.
Proof. intros Hm HQ. eapply triple_conseq; eauto. intros a s []; eauto. Qed.

Lemma keeps_if {A} I (b : bool) (m1 m2 : ST S A) Q :
  (b = true -> keeps X I m1 Q) -> (b = false -> keeps X I m2 Q) ->
  keeps X I (if b then m1 else m2) Q.
Proof. destruct b; auto. Qed.

Lemma keeps_gets {A} I (f : S -> A) (Q : A -> Prop) :
  (forall s, I s -> Q (f s)) -> keeps X I (gets f) Q.
Proof. intros H s Hs. split; auto. Qed.

Lemma keeps_modify I (f : S -> S) (Q : unit -> Prop) :
  (forall s, I s -> I (f s)) -> Q tt -> keeps X I (modify f) Q.
Proof. intros H HQ s Hs. split; auto. Qed.

Lemma keeps_of_option {A} I e (o : option A) (Q : A -> Prop) :
  (forall a, o = Some a -> Q a) -> (o = None -> X e) -> keeps X I (of_option e o) Q.
Proof. destruct o; simpl; intros H HX; [apply keeps_ret|apply keeps_raise]; auto. Qed.

(** A handler sees the exceptions of the body; what it lets through must be in [X]. *)
Lemma keeps_catch {A} (Y : exn -> Prop) I (m : ST S A) (h : exn -> ST S A) (Q : A -> Prop) :
  keeps Y I m Q -> (forall e, Y e -> keeps X I (h e) Q) -> keeps X I (catch m h) Q.
Proof.
  intros Hm Hh s Hs. unfold catch. specialize (Hm s Hs).
  destruct (m s) as [[a|e] s']; [done|]. destruct Hm as [HI HY]. by apply (Hh e HY).
Qed.

Lemma keeps_for_each {A} I (body : A -> ST S unit) (l : list A) :
  (forall x, x ∈ l -> keeps X I (body x) (fun _ => True)) ->
  keeps X I (for_each body l) (fun _ => True).
Proof.
  induction l as [|x l IH]; intros H; simpl; [by apply keeps_ret|].
  eapply keeps_bind; [apply H; by left|].
  intros _ _. apply IH. intros y Hy. apply H. by right.
Qed.

Lemma keeps_loop {A} I (body : A -> ST S A) (R : A -> Prop) n a :
  (forall a, R a -> keeps X I (body a) R) -> R a -> keeps X I (loop n body a) R.
Proof.
  intros Hb. revert a. induction n as [|n IH]; intros a Ha; simpl.
  - by apply keeps_ret.
  - eapply keeps_bind; [by apply Hb|]. intros a' Ha'. by apply IH.
Qed.
End Keeps.
End Triples.

(** A property of a part that a method keeps is kept in the whole, together
    with anything that does not depend on the part. *)
Lemma keeps_zoom {A W Y} `{Has A W} (X : exn -> Prop) (I : A -> Prop) (J : W -> Prop)
    (m : ST A Y) (Q : Y -> Prop) :
  keeps X I m Q ->
  (forall w, J w -> I (view w)) ->
  (forall w a, J w -> I a -> J (put a w)) ->
  keeps X J (zoom m) Q.
Proof.
  intros Hm H1 H2 w Hw. unfold zoom. specialize (Hm (view w) (H1 w Hw)).
  destruct (m (view w)) as [[x|e] a]; destruct Hm; auto.
Qed.

(** Walk through a computation, leaving the elementary steps to the hint
    database [keeps]. *)
Create HintDb keeps.

Lemma keeps_skip {S} (X : exn -> Prop) (I : S -> Prop) : keeps X I (ret tt) (fun _ => True).
Proof. by apply keeps_ret. Qed.

Lemma keeps_any {S A} (X : exn -> Prop) (I : S -> Prop) (f : S -> A) :
  keeps X I (gets f) (fun _ => True).
Proof. by apply keeps_gets. Qed.

#[export] Hint Resolve keeps_skip : keeps.
#[export] Hint Extern 2 (keeps _ _ (raise _) _) => apply keeps_raise; reflexivity : keeps.

Ltac keep :=
  cbv beta zeta;
  lazymatch goal with
  | |- keeps _ _ (bind _ _) _ => eapply keeps_bind; [keep|cbv beta; intros ? ?; keep]
  | |- keeps _ _ (if ?b then _ else _) _ =>
      first [apply keeps_if; intros ?; keep | destruct b; keep]
  | |- keeps _ _ (gets _) _ => first [solve [eauto 4 with keeps words] | apply keeps_any]
  | |- _ => try solve [eauto 4 with keeps words]
  end.

(** ** Machine words

    Python integers are unbounded, so a w-bit quantity is a [Z] in range and
    every wrap-around of the source is written out as the mask it uses. *)

Definition uN (n z : Z) : Prop := 0 <= z < 2 ^ n.
Abbreviation u8 := (uN 8).
Abbreviation u32 := (uN 32).
Abbreviation u64 := (uN 64).

#[export] Instance uN_dec n z : Decision (uN n z).
Proof. unfold uN. apply _. Defined.

(** Python's bit operators, with Python's precedences: shifts bind tighter than
    [&], which binds tighter than [|]. *)
Declare Scope bits_scope.
Delimit Scope bits_scope with bits.
Infix "<<" := Z.shiftl (at level 52, left associativity) : bits_scope.
Infix ">>" := Z.shiftr (at level 52, left associativity) : bits_scope.
Infix ".&" := Z.land (at level 54, left associativity) : bits_scope.
Infix ".|" := Z.lor (at level 58, left associativity) : bits_scope.

Create HintDb words.

(** Unfold the bounds and leave the rest to [lia]. *)
Ltac word_lia :=
  unfold uN in *;
  change (2 ^ 8) with 256 in *; change (2 ^ 32) with 4294967296 in *;
  change (2 ^ 64) with 18446744073709551616 in *; lia.

Lemma land_ones_mod z m n : 0 <= n -> m = Z.ones n -> Z.land z m = z mod 2 ^ n.
Proof. intros Hn ->. by apply Z.land_ones. Qed.

Lemma land_1 z : Z.land z 0x1 = z mod 2.
Proof. by apply (land_ones_mod z _ 1). Qed.
Lemma land_3 z : Z.land z 0x3 = z mod 4.
Proof. by apply (land_ones_mod z _ 2). Qed.
Lemma land_7 z : Z.land z 0x7 = z mod 8.
Proof. by apply (land_ones_mod z _ 3). Qed.
Lemma land_f z : Z.land z 0xF = z mod 16.
Proof. by apply (land_ones_mod z _ 4). Qed.
Lemma land_1f z : Z.land z 0x1F = z mod 32.
Proof. by apply (land_ones_mod z _ 5). Qed.
Lemma land_3f z : Z.land z 0x3F = z mod 64.
Proof. by apply (land_ones_mod z _ 6). Qed.
Lemma land_7f z : Z.land z 0x7F = z mod 128.
Proof. by apply (land_ones_mod z _ 7). Qed.
Lemma land_ff z : Z.land z 0xFF = z mod 256.
Proof. by apply (land_ones_mod z _ 8). Qed.
Lemma land_3ff z : Z.land z 0x3FF = z mod 1024.
Proof. by apply (land_ones_mod z _ 10). Qed.
Lemma land_fff z : Z.land z 0xFFF = z mod 4096.
Proof. by apply (land_ones_mod z _ 12). Qed.
Lemma land_ffff z : Z.land z 0xFFFF = z mod 65536.
Proof. by apply (land_ones_mod z _ 16). Qed.
Lemma land_ffffffff z : Z.land z 0xFFFFFFFF = z mod 2 ^ 32.
Proof. by apply (land_ones_mod z _ 32). Qed.

Create Rewrite HintDb masks.
#[export] Hint Rewrite land_1 land_3 land_7 land_f land_1f land_3f land_7f land_ff
  land_3ff land_fff land_ffff land_ffffffff : masks.

Lemma u32_wrap z : u32 (z mod 2 ^ 32).
Proof. by apply Z.mod_pos_bound. Qed.

Lemma u32_mask z : u32 (Z.land z 0xFFFFFFFF).
Proof. rewrite land_ffffffff. apply u32_wrap. Qed.

Lemma u32_mask_id z : u32 z -> Z.land z 0xFFFFFFFF = z.
Proof. intros H. rewrite land_ffffffff. by apply Z.mod_small. Qed.

Lemma u32_b2z b : u32 (Z.b2z b).
Proof. destruct b; unfold uN; simpl; lia. Qed.

(** Bitwise operators keep a width. *)
Lemma uN_testbit n z : 0 <= n -> 0 <= z ->
  uN n z <-> (forall i, n <= i -> Z.testbit z i = false).
Proof.
  intros Hn Hz. split.
  - intros [_ Hlt] i Hi. destruct (decide (z = 0)) as [->|Hz0]; [apply Z.testbit_0_l|].
    apply Z.bits_above_log2; [done|]. apply Z.log2_lt_pow2; [lia|].
    eapply Z.lt_le_trans; [exact Hlt|]. apply Z.pow_le_mono_r; lia.
  - intros H. split; [done|].
    destruct (decide (z = 0)) as [->|Hz0]; [by apply Z.pow_pos_nonneg|].
    apply Z.log2_lt_pow2; [lia|]. apply Z.nle_gt. intros Hle.
    specialize (H (Z.log2 z) Hle). by rewrite Z.bit_log2 in H by lia.
Qed.

Lemma uN_lor n a b : 0 <= n -> uN n a -> uN n b -> uN n (Z.lor a b).
Proof.
  intros Hn Ha Hb. assert (0 <= Z.lor a b) by (apply Z.lor_nonneg; unfold uN in *; lia).
  rewrite uN_testbit in Ha, Hb |- * by (unfold uN in *; lia).
  intros i Hi. by rewrite Z.lor_spec, Ha, Hb.
Qed.

Lemma uN_lxor n a b : 0 <= n -> uN n a -> uN n b -> uN n (Z.lxor a b).
Proof.
  intros Hn Ha Hb. assert (0 <= Z.lxor a b) by (apply Z.lxor_nonneg; unfold uN in *; lia).
  rewrite uN_testbit in Ha, Hb |- * by (unfold uN in *; lia).
  intros i Hi. by rewrite Z.lxor_spec, Ha, Hb.
Qed.

Lemma uN_land_l n a b : 0 <= n -> uN n a -> uN n (Z.land a b).
Proof.
  intros Hn Ha. assert (0 <= Z.land a b) by (apply Z.land_nonneg; unfold uN in *; lia).
  rewrite uN_testbit in Ha |- * by (unfold uN in *; lia).
  intros i Hi. by rewrite Z.land_spec, Ha.
Qed.

Lemma uN_land_r n z m : 0 <= n -> uN n m -> uN n (Z.land z m).
Proof. intros. rewrite Z.land_comm. by apply uN_land_l. Qed.

Lemma uN_shiftl n x k : 0 <= k <= n -> uN (n - k) x -> uN n (Z.shiftl x k).
Proof.
  intros Hk Hx. rewrite Z.shiftl_mul_pow2 by lia. unfold uN in *.
  replace (2 ^ n) with (2 ^ (n - k) * 2 ^ k) by (rewrite <- Z.pow_add_r by lia; f_equal; lia).
  assert (0 < 2 ^ k) by lia. nia.
Qed.

Lemma uN_shiftr n x k : 0 <= k -> uN n x -> uN n (Z.shiftr x k).
Proof.
  intros Hk Hx. rewrite Z.shiftr_div_pow2 by lia. unfold uN in *.
  assert (0 < 2 ^ k) by lia. split; [apply Z.div_pos; lia|].
  apply Z.div_lt_upper_bound; nia.
Qed.

Lemma u32_lor a b : u32 a -> u32 b -> u32 (Z.lor a b).
Proof. by apply uN_lor. Qed.

Lemma u32_lxor a b : u32 a -> u32 b -> u32 (Z.lxor a b).
Proof. by apply uN_lxor. Qed.

Lemma u32_land_l a b : u32 a -> u32 (Z.land a b).
Proof. by apply uN_land_l. Qed.

Lemma u32_shiftr a n : u32 a -> 0 <= n -> u32 (Z.shiftr a n).
Proof.
  intros Ha Hn. unfold uN in *. rewrite Z.shiftr_div_pow2 by done.
  assert (0 < 2 ^ n) by lia. split; [apply Z.div_pos; lia|].
  eapply Z.le_lt_trans; [|apply Ha]. apply Z.div_le_upper_bound; nia.
Qed.

(** One bit moved to position [k]. *)
Lemma u32_bit z k : 0 <= k < 32 -> u32 (Z.shiftl (Z.land z 1) k).
Proof.
  intros Hk. rewrite land_1, Z.shiftl_mul_pow2 by lia. unfold uN.
  pose proof (Z.mod_pos_bound z 2 ltac:(lia)).
  assert (0 < 2 ^ k <= 2 ^ 31) by (split; [lia|apply Z.pow_le_mono_r; lia]). nia.
Qed.

#[export] Hint Resolve u32_wrap u32_mask u32_b2z u32_lor u32_lxor u32_land_l
  u32_shiftr : words.
#[export] Hint Extern 1 (u32 (Z.shiftl (Z.land _ 1) _)) => apply u32_bit; lia : words.
#[export] Hint Extern 3 (uN _ (Z.land _ (Zpos _))) =>
  apply uN_land_r; [lia|by (split; vm_compute)] : words.
#[export] Hint Extern 3 (uN _ (Z.shiftl 1 _)) => by (split; vm_compute) : words.
#[export] Hint Extern 5 (uN _ _) => unfold uN in *; lia : words.

(** Joining disjoint bit fields is addition. *)
Lemma land_shifted_disjoint a b n : 0 <= n -> 0 <= a < 2 ^ n ->
  Z.land a (b * 2 ^ n) = 0.
Proof.
  intros Hn Ha. apply Z.bits_inj'. intros i Hi.
  rewrite Z.land_spec, Z.testbit_0_l.
  destruct (decide (i < n)).
  - rewrite Z.mul_pow2_bits_low by lia. apply andb_false_r.
  - rewrite (proj1 (uN_testbit n a Hn (proj1 Ha)) Ha) by lia. done.
Qed.

Lemma lor_shiftl_add a b n : 0 <= n -> 0 <= a < 2 ^ n ->
  Z.lor a (Z.shiftl b n) = a + b * 2 ^ n.
Proof.
  intros Hn Ha. rewrite Z.shiftl_mul_pow2 by done.
  rewrite <- Z.lxor_lor.
  - symmetry. apply Z.add_nocarry_lxor. by apply land_shifted_disjoint.
  - by apply land_shifted_disjoint.
Qed.

(** ** Python sequences

    Indexing counts from the end for a negative index and raises IndexError
    outside [-len, len); slicing clamps its bounds.  The range test comes first,
    so that a 32-bit address is never converted to a [nat]. *)

Definition py_len {A} (l : list A) : Z := Z.of_nat (length l).

(** The position an index denotes. *)
Definition py_index (n i : Z) : option Z :=
  if (0 <=? i) && (i <? n) then Some i
  else if (- n <=? i) && (i <? 0) then Some (i + n)
  else None.

(** [l[i]] *)
Definition py_get {A} (l : list A) (i : Z) : option A :=
  match py_index (py_len l) i with
  | Some k => l !! Z.to_nat k
  | None => None
  end.

(** [l[i] = v] *)
Definition py_set {A} (l : list A) (i : Z) (v : A) : option (list A) :=
  match py_index (py_len l) i with
  | Some k => Some (<[Z.to_nat k := v]> l)
  | None => None
  end.

(** A slice bound, clamped to the sequence. *)
Definition py_clamp (n i : Z) : Z :=
  if i <? 0 then Z.max 0 (i + n) else Z.min i n.

(** [l[a:b]] *)
Definition py_slice {A} (l : list A) (a b : Z) : list A :=
  let lo := py_clamp (py_len l) a in
  let hi := py_clamp (py_len l) b in
  take (Z.to_nat (hi - lo)) (drop (Z.to_nat lo) l).

(** [l[a:b] = v] for a bytearray whose buffer is exported by a memoryview: a
    change of length is a BufferError ([None]). *)
Definition py_slice_set {A} (l : list A) (a b : Z) (v : list A) : option (list A) :=
  let lo := py_clamp (py_len l) a in
  let hi := Z.max lo (py_clamp (py_len l) b) in
  if py_len v =? hi - lo
  then Some (take (Z.to_nat lo) l ++ v ++ drop (Z.to_nat hi) l)
  else None.

(** [l.find(x)] on a list of byte values: the first position, if any. *)
Fixpoint py_find (x : Z) (l : list Z) : option nat :=
  match l with
  | [] => None
  | y :: l' => if y =? x then Some O else Nat.succ <$> py_find x l'
  end.

Section Sequences.
Context {A : Type}.
Implicit Types (l : list A) (v : A).

Lemma py_index_in n i : 0 <= i < n -> py_index n i = Some i.
Proof.
  intros Hi. unfold py_index.
  by rewrite (proj2 (Z.leb_le 0 i)), (proj2 (Z.ltb_lt i n)) by lia.
Qed.

Lemma py_index_range n i k : py_index n i = Some k -> 0 <= k < n.
Proof. unfold py_index. repeat case_match; intros; simplify_eq; lia. Qed.

Lemma py_index_none n i : n <= i -> 0 <= n -> py_index n i = None.
Proof. intros. unfold py_index. repeat case_match; try done; lia. Qed.

Lemma py_get_in l i : 0 <= i < py_len l -> py_get l i = l !! Z.to_nat i.
Proof. intros Hi. unfold py_get. by rewrite py_index_in. Qed.

Lemma py_get_is_Some l i : 0 <= i < py_len l -> exists v, py_get l i = Some v.
Proof.
  intros Hi. rewrite py_get_in by done. apply lookup_lt_is_Some.
  unfold py_len in Hi. lia.
Qed.

Lemma py_get_Forall (P : A -> Prop) l i v :
  Forall P l -> py_get l i = Some v -> P v.
Proof.
  unfold py_get. intros Hl. destruct (py_index _ _) as [k|]; [|done].
  intros Hk. by eapply Forall_lookup_1.
Qed.

Lemma py_set_in l i v : 0 <= i < py_len l ->
  py_set l i v = Some (<[Z.to_nat i := v]> l).
Proof. intros Hi. unfold py_set. by rewrite py_index_in. Qed.

Lemma py_set_len l i v l' : py_set l i v = Some l' -> py_len l' = py_len l.
Proof.
  unfold py_set. destruct (py_index _ _); intros; simplify_eq.
  unfold py_len. by rewrite length_insert.
Qed.

Lemma py_set_Forall (P : A -> Prop) l i v l' :
  Forall P l -> P v -> py_set l i v = Some l' -> Forall P l'.
Proof.
  unfold py_set. intros Hl Hv. destruct (py_index _ _); intros; simplify_eq.
  by apply Forall_insert.
Qed.

Lemma py_get_set_eq l i v l' : py_set l i v = Some l' -> py_get l' i = Some v.
Proof.
  intros H. pose proof (py_set_len _ _ _ _ H) as Hlen.
  unfold py_set in H. unfold py_get. rewrite Hlen.
  destruct (py_index _ _) as [k|] eqn:Hk; simplify_eq.
  apply py_index_range in Hk. apply list_lookup_insert_eq. unfold py_len in Hk. lia.
Qed.

Lemma py_get_set_ne l i j v l' :
  0 <= i -> 0 <= j -> i <> j -> py_set l i v = Some l' -> py_get l' j = py_get l j.
Proof.
  intros Hi Hj Hij H. pose proof (py_set_len _ _ _ _ H) as Hlen.
  unfold py_set in H. unfold py_get. rewrite Hlen.
  destruct (py_index (py_len l) i) as [k|] eqn:Hk; simplify_eq.
  destruct (py_index (py_len l) j) as [k'|] eqn:Hk'; [|done].
  unfold py_index in Hk, Hk'. repeat case_match; simplify_eq; try lia.
  apply list_lookup_insert_ne. lia.
Qed.

Lemma py_clamp_in n i : 0 <= i <= n -> py_clamp n i = i.
Proof. intros. unfold py_clamp. case_match; lia. Qed.

Lemma py_clamp_range n i : 0 <= n -> 0 <= py_clamp n i <= n.
Proof. intros. unfold py_clamp. case_match; lia. Qed.

Lemma py_slice_in l a n : 0 <= a -> 0 <= n -> a + n <= py_len l ->
  py_slice l a (a + n) = take (Z.to_nat n) (drop (Z.to_nat a) l).
Proof.
  intros. unfold py_slice. rewrite !py_clamp_in by lia.
  by replace (a + n - a) with n by lia.
Qed.

Lemma py_slice_Forall (P : A -> Prop) l a b : Forall P l -> Forall P (py_slice l a b).
Proof. intros. unfold py_slice. by apply Forall_take, Forall_drop. Qed.

Lemma py_slice_set_in l a (w : list A) : 0 <= a -> a + py_len w <= py_len l ->
  py_slice_set l a (a + py_len w) w =
    Some (take (Z.to_nat a) l ++ w ++ drop (Z.to_nat (a + py_len w)) l).
Proof.
  intros. pose proof (Nat2Z.is_nonneg (length w)). unfold py_slice_set, py_len in *.
  rewrite !py_clamp_in by lia. rewrite Z.max_r by lia.
  by rewrite (proj2 (Z.eqb_eq _ _)) by lia.
Qed.

Lemma py_slice_set_len l a b (w : list A) l' :
  py_slice_set l a b w = Some l' -> py_len l' = py_len l.
Proof.
  unfold py_slice_set. case_match eqn:E; intros; simplify_eq.
  apply Z.eqb_eq in E. unfold py_len in *.
  pose proof (py_clamp_range (Z.of_nat (length l)) a ltac:(lia)).
  pose proof (py_clamp_range (Z.of_nat (length l)) b ltac:(lia)).
  rewrite !length_app, length_take, length_drop. lia.
Qed.

Lemma py_slice_set_Forall (P : A -> Prop) l a b (w : list A) l' :
  Forall P l -> Forall P w -> py_slice_set l a b w = Some l' -> Forall P l'.
Proof.
  unfold py_slice_set. case_match; intros; simplify_eq.
  repeat apply Forall_app_2; auto using Forall_take, Forall_drop.
Qed.

(** Reading back a slice that was just written. *)
Lemma py_slice_set_slice l a (w : list A) l' :
  0 <= a -> a + py_len w <= py_len l ->
  py_slice_set l a (a + py_len w) w = Some l' ->
  py_slice l' a (a + py_len w) = w.
Proof.
  intros Ha Hb H. pose proof (py_slice_set_len _ _ _ _ _ H) as Hlen.
  rewrite py_slice_in; [|lia|unfold py_len in *; lia|lia].
  rewrite py_slice_set_in in H by lia.
  simplify_eq. unfold py_len in *.
  rewrite drop_app_length' by (rewrite length_take; lia).
  by rewrite take_app_length' by lia.
Qed.
End Sequences.

(** A decidable property of bounded integers, checked by enumeration. *)
Lemma enumZ (P : Z -> Prop) `{forall d, Decision (P d)} n :
  forallb (fun d => bool_decide (P d)) (seqZ 0 n) = true ->
  forall d, 0 <= d < n -> P d.
Proof.
  intros Hall d Hd. rewrite forallb_forall in Hall.
  apply (bool_decide_unpack (P d)). apply Is_true_true. apply Hall.
  apply list_elem_of_In, elem_of_seqZ. lia.
Qed.

(** Close [forall d, 0 <= d < n -> P d] by running through the values. *)
Ltac enumerate :=
  lazymatch goal with
  | |- forall d, 0 <= d < ?n -> @?P d => refine (enumZ P n _); vm_compute; reflexivity
  end.

(** ** Little-endian words *)

(** Four bytes as the word view of the memory reads them. *)
Definition le32 (b0 b1 b2 b3 : Z) : Z :=
  Z.lor (Z.lor (Z.lor b0 (Z.shiftl b1 8)) (Z.shiftl b2 16)) (Z.shiftl b3 24).

(** Byte [k] of a word. *)
Definition byte_of (w k : Z) : Z := Z.land (Z.shiftr w (8 * k)) 0xFF.

Lemma byte_of_div w k : 0 <= k -> byte_of w k = (w / 2 ^ (8 * k)) mod 256.
Proof. intros. unfold byte_of. rewrite land_ff, Z.shiftr_div_pow2; [done|lia]. Qed.

Lemma u8_byte_of w k : u8 (byte_of w k).
Proof. unfold byte_of. rewrite land_ff. by apply Z.mod_pos_bound. Qed.

Lemma le32_add b0 b1 b2 b3 : u8 b0 -> u8 b1 -> u8 b2 -> u8 b3 ->
  le32 b0 b1 b2 b3 = b0 + b1 * 2 ^ 8 + b2 * 2 ^ 16 + b3 * 2 ^ 24.
Proof.
  intros. unfold le32, uN in *.
  rewrite (lor_shiftl_add b0), (lor_shiftl_add (b0 + _)), (lor_shiftl_add (b0 + _ + _)) by lia.
  lia.
Qed.

Lemma u32_le32 b0 b1 b2 b3 : u8 b0 -> u8 b1 -> u8 b2 -> u8 b3 ->
  u32 (le32 b0 b1 b2 b3).
Proof. intros. rewrite le32_add by done. unfold uN in *. lia. Qed.

Lemma le32_bytes w : u32 w ->
  le32 (byte_of w 0) (byte_of w 1) (byte_of w 2) (byte_of w 3) = w.
Proof.
  intros Hw. rewrite le32_add by apply u8_byte_of. rewrite !byte_of_div by lia.
  change (2 ^ (8 * 0)) with 1. change (2 ^ (8 * 1)) with 256.
  change (2 ^ (8 * 2)) with 65536. change (2 ^ (8 * 3)) with 16777216.
  change (2 ^ 8) with 256. change (2 ^ 16) with 65536. change (2 ^ 24) with 16777216.
  unfold uN in Hw. Z.div_mod_to_equations. lia.
Qed.

Lemma byte_of_le32 b0 b1 b2 b3 : u8 b0 -> u8 b1 -> u8 b2 -> u8 b3 ->
  byte_of (le32 b0 b1 b2 b3) 0 = b0 /\ byte_of (le32 b0 b1 b2 b3) 1 = b1 /\
  byte_of (le32 b0 b1 b2 b3) 2 = b2 /\ byte_of (le32 b0 b1 b2 b3) 3 = b3.
Proof.
  intros. rewrite le32_add by done. rewrite !byte_of_div by lia.
  change (2 ^ (8 * 0)) with 1. change (2 ^ (8 * 1)) with 256.
  change (2 ^ (8 * 2)) with 65536. change (2 ^ (8 * 3)) with 16777216.
  change (2 ^ 8) with 256. change (2 ^ 16) with 65536. change (2 ^ 24) with 16777216.
  unfold uN in *. repeat split; Z.div_mod_to_equations; lia.
Qed.

#[export] Hint Resolve u8_byte_of u32_le32 : words.
