(* ===== verification/PyFloat.v ===== *)
(** * Python's [int(a / b)] on integers

    [a / b] on two ints is the IEEE 754 binary64 number nearest to the exact
    quotient (ties to even), and [int] truncates it towards zero.  cpu.py uses
    it for DIV and REM.  For operands of up to 32 bits the rounding never
    reaches the next integer, so the result is the truncated quotient. *)

From Stdlib Require Import ZArith Lia Bool.
From stdpp Require Import base numbers.
From S2P Require Import Prelude.

Local Open Scope Z_scope.

(** [n / d] rounded to the nearest integer, ties to even ([0 < d]). *)
Definition round_half_even (n d : Z) : Z :=
  let q := n / d in
  let r := n mod d in
  if 2 * r <? d then q
  else if d <? 2 * r then q + 1
  else if Z.even q then q else q + 1.

(** The scale [k] for which [n * 2^k / d] has a 53-bit integer part. *)
Definition binary64_scale (n d : Z) : Z :=
  let k := 52 - (Z.log2 n - Z.log2 d) in
  if n * 2 ^ Z.max 0 k <? 2 ^ 52 * d * 2 ^ Z.max 0 (- k) then k + 1 else k.

(** [int(n / d)] for positive [n] and [d]: the 53-bit significand [m] of the
    nearest double, which stands for [m * 2^-k], and its integer part. *)
Definition float_quot_pos (n d : Z) : Z :=
  let k := binary64_scale n d in
  let m := round_half_even (n * 2 ^ Z.max 0 k) (d * 2 ^ Z.max 0 (- k)) in
  if 0 <=? k then m / 2 ^ k else m * 2 ^ (- k).

(** The integer part of the double nearest to [a / b], for [b <> 0] and a double of any
    size. *)
Definition py_int_truediv (a b : Z) : Z :=
  if a =? 0 then 0
  else Z.sgn a * Z.sgn b * float_quot_pos (Z.abs a) (Z.abs b).

(** The first number that is too large for a double. *)
Definition DBL_LIMIT : Z := 2 ^ 1024.

(** [int(a / b)] for [b <> 0]: a quotient that no finite double is near to is an
    OverflowError, the operands themselves can have any size. *)
Definition py_div (a b : Z) : option Z :=
  if DBL_LIMIT <=? Z.abs (py_int_truediv a b) then None else Some (py_int_truediv a b).

(** Where rounding is visible: a 54-bit quotient is not representable. *)
Example float_rounds : py_int_truediv (2 ^ 53 + 1) 1 = 2 ^ 53.
Proof. reflexivity. Qed.

Example float_overflow : py_div (2 ^ 1024) 1 = None /\ py_div (2 ^ 1024) 3 <> None /\
  py_div (2 ^ 1024 - 2 ^ 970) 1 = None /\ py_div (2 ^ 1024 - 2 ^ 970 - 1) 1 <> None.
Proof. by vm_compute. Qed.

Example float_trunc : py_int_truediv (-7) 2 = -3.
Proof. reflexivity. Qed.

Lemma round_half_even_bounds n d : 0 < d ->
  2 * d * round_half_even n d <= 2 * n + d /\ n / d <= round_half_even n d.
Proof.
  intros Hd. unfold round_half_even.
  pose proof (Z.div_mod n d ltac:(lia)). pose proof (Z.mod_pos_bound n d Hd).
  repeat case_match; nia.
Qed.

(** For a dividend below [2^32] the significand is scaled by at least the divisor. *)
Lemma binary64_scale_big n d : 0 < n < 2 ^ 32 -> 0 < d ->
  d < 2 ^ 32 -> 0 <= binary64_scale n d /\ d <= 2 ^ binary64_scale n d.
Proof.
  intros Hn Hd Hd'.
  assert (0 <= Z.log2 n < 32) as Hln.
  { split; [apply Z.log2_nonneg|]. apply Z.log2_lt_pow2; lia. }
  assert (0 <= Z.log2 d < 32) as Hld.
  { split; [apply Z.log2_nonneg|]. apply Z.log2_lt_pow2; lia. }
  unfold binary64_scale. set (k := 52 - (Z.log2 n - Z.log2 d)).
  assert (d <= 2 ^ k) as Hk.
  { apply Z.le_trans with (2 ^ Z.succ (Z.log2 d)).
    - apply Z.lt_le_incl, Z.log2_spec. lia.
    - apply Z.pow_le_mono_r; lia. }
  case_match; split; try lia.
  eapply Z.le_trans; [exact Hk|]. apply Z.pow_le_mono_r; lia.
Qed.

Lemma float_quot_pos_div n d : 0 < n < 2 ^ 32 -> 0 < d < 2 ^ 32 ->
  float_quot_pos n d = n / d.
Proof.
  intros Hn Hd. destruct (binary64_scale_big n d) as [Hk Hdk]; try lia.
  unfold float_quot_pos. set (k := binary64_scale n d) in *.
  rewrite Z.max_r, (Z.max_l 0 (- k)) by lia. rewrite (proj2 (Z.leb_le 0 k)) by done.
  change (2 ^ 0) with 1. rewrite Z.mul_1_r.
  destruct (round_half_even_bounds (n * 2 ^ k) d) as [Hu Hl]; [lia|].
  set (m := round_half_even (n * 2 ^ k) d) in *. set (p := 2 ^ k) in *.
  pose proof (Z.div_mod n d ltac:(lia)) as Hdm.
  pose proof (Z.mod_pos_bound n d ltac:(lia)) as Hr.
  set (q := n / d) in *. set (r := n mod d) in *.
  assert (q * p <= m) as H1.
  { eapply Z.le_trans; [|exact Hl]. apply Z.div_le_lower_bound; nia. }
  assert (m < (q + 1) * p) as H2 by nia.
  symmetry. apply Z.div_unique with (m - q * p); nia.
Qed.

Lemma py_int_truediv_quot a b :
  - 2 ^ 32 < a < 2 ^ 32 -> - 2 ^ 32 < b < 2 ^ 32 -> b <> 0 ->
  py_int_truediv a b = Z.quot a b.
Proof.
  intros Ha Hb Hb0. unfold py_int_truediv.
  destruct (Z.eqb_spec a 0) as [->|Ha0]; [by rewrite Z.quot_0_l|].
  rewrite float_quot_pos_div by lia.
  rewrite Z.quot_div by done. nia.
Qed.

(** For 32-bit operands there is no overflow. *)
Lemma py_div_quot a b :
  - 2 ^ 32 < a < 2 ^ 32 -> - 2 ^ 32 < b < 2 ^ 32 -> b <> 0 -> py_div a b = Some (Z.quot a b).
Proof.
  intros Ha Hb Hb0. unfold py_div. rewrite py_int_truediv_quot by done.
  assert (Z.abs (Z.quot a b) <= Z.abs a) as Hq.
  { rewrite <- Z.quot_abs by done. rewrite Z.quot_div_nonneg by lia.
    apply Z.div_le_upper_bound; nia. }
  assert (2 ^ 32 < DBL_LIMIT) by (by vm_compute).
  by rewrite (proj2 (Z.leb_gt _ _)) by lia.
Qed.
