(* ===== verification/PyStr.v ===== *)
(** * Python strings: [int(s, base)] and hexadecimal formatting

    The parser of [int(s, base)] for bases 0 and 16 on ASCII strings (surrounding
    white space, sign, base prefix, single underscores between digits) and the
    format specifier [:02x].  The option parsing of cpu.py, ram.py and machine.py
    and the packet code of gdbstub.py use them. *)

From Stdlib Require Import ZArith Lia Bool Ascii String.
From stdpp Require Import base numbers list option strings.
From S2P Require Import Prelude.

Local Open Scope Z_scope.

(** [ord] *)
Definition ord (c : ascii) : Z := Z.of_N (N_of_ascii c).

(** [chr], for code points below 256. *)
Definition chr (z : Z) : ascii := ascii_of_N (Z.to_N z).

Lemma ord_range c : 0 <= ord c < 256.
Proof. unfold ord. pose proof (N_ascii_bounded c). lia. Qed.

Lemma chr_ord c : chr (ord c) = c.
Proof. unfold chr, ord. rewrite N2Z.id. apply ascii_N_embedding. Qed.

Lemma ord_chr z : 0 <= z < 256 -> ord (chr z) = z.
Proof. intros. unfold chr, ord. rewrite N_ascii_embedding; lia. Qed.

(** A string with arbitrary characters is the list of its code points. *)
Definition pystr : Type := list Z.

(** The code points of a literal, and back for code points below 256. *)
Definition codes (s : string) : pystr := map ord (list_ascii_of_string s).
Definition uncodes (l : pystr) : string := string_of_list_ascii (map chr l).

Lemma uncodes_codes s : uncodes (codes s) = s.
Proof.
  unfold uncodes, codes. rewrite map_map, (map_ext _ id), map_id by apply chr_ord.
  apply string_of_list_ascii_of_string.
Qed.

Definition is_space (c : ascii) : bool :=
  let z := ord c in
  (z =? 32) || ((9 <=? z) && (z <=? 13)) || ((28 <=? z) && (z <=? 31)).

(** The value of a digit, in any base up to 36. *)
Definition digit_value (c : ascii) : option Z :=
  let z := ord c in
  if (48 <=? z) && (z <=? 57) then Some (z - 48)
  else if (97 <=? z) && (z <=? 122) then Some (z - 87)
  else if (65 <=? z) && (z <=? 90) then Some (z - 55)
  else None.

Fixpoint lstrip (l : list ascii) : list ascii :=
  match l with
  | c :: l' => if is_space c then lstrip l' else l
  | [] => []
  end.

(** [prev_us]: the previous character was an underscore. *)
Fixpoint int_digits (base : Z) (prev_us : bool) (acc : Z) (l : list ascii) : option Z :=
  match l with
  | [] => if prev_us then None else Some acc
  | c :: l' =>
      if ord c =? 95 then if prev_us then None else int_digits base true acc l'
      else match digit_value c with
           | Some d => if d <? base then int_digits base false (acc * base + d) l' else None
           | None => None
           end
  end.

(** The letter of a base prefix. *)
Definition prefix_base (c : ascii) : option Z :=
  let z := ord c in
  if (z =? 120) || (z =? 88) then Some 16
  else if (z =? 111) || (z =? 79) then Some 8
  else if (z =? 98) || (z =? 66) then Some 2
  else None.

(** After the sign: the base in force, whether only zero is allowed (a C-style
    octal literal in base 0), and the digits. *)
Definition int_unsigned (base : Z) (l : list ascii) : option Z :=
  let '(b, only_zero) :=
    if base =? 0 then
      match l with
      | c0 :: l' =>
          if ord c0 =? 48 then
            match l' with
            | c1 :: _ => match prefix_base c1 with Some b => (b, false) | None => (10, true) end
            | [] => (10, true)
            end
          else (10, false)
      | [] => (10, false)
      end
    else (base, false) in
  let body :=
    match l with
    | c0 :: c1 :: l' =>
        if (ord c0 =? 48) && bool_decide (prefix_base c1 = Some b)
        then match l' with
             | c2 :: l'' => if ord c2 =? 95 then l'' else l'
             | [] => []
             end
        else l
    | _ => l
    end in
  match body with
  | [] => None
  | c :: _ =>
      if ord c =? 95 then None
      else match int_digits b false 0 body with
           | Some v => if only_zero && negb (v =? 0) then None else Some v
           | None => None
           end
  end.

(** [int(s, base)]; [None] is ValueError. *)
Definition py_int_list (base : Z) (l : list ascii) : option Z :=
  match lstrip (rev (lstrip (rev l))) with
  | c :: l' =>
      if ord c =? 43 then int_unsigned base l'
      else if ord c =? 45 then Z.opp <$> int_unsigned base l'
      else int_unsigned base (c :: l')
  | [] => None
  end.

Definition py_int (base : Z) (s : string) : option Z :=
  py_int_list base (list_ascii_of_string s).

Example int_hex : py_int 0 "0xDEADBEEF" = Some 0xDEADBEEF. Proof. reflexivity. Qed.
Example int_dec : py_int 0 " 1_000 " = Some 1000. Proof. reflexivity. Qed.
Example int_octal : py_int 0 "0123" = None. Proof. reflexivity. Qed.
Example int_base16 : py_int 16 "-1f" = Some (-31). Proof. reflexivity. Qed.
Example int_underscores : py_int 16 "1__0" = None. Proof. reflexivity. Qed.

(** ** Hexadecimal formatting *)

Definition hex_digit (d : Z) : ascii :=
  if d <? 10 then chr (48 + d) else chr (87 + d).

(** [f"{b:02x}"] for a byte. *)
Definition hex2 (b : Z) : list ascii := [hex_digit (b / 16); hex_digit (b mod 16)].

Lemma digit_value_hex d : 0 <= d < 16 -> digit_value (hex_digit d) = Some d.
Proof. revert d. enumerate. Qed.

Lemma hex_digit_not_special d : 0 <= d < 16 ->
  is_space (hex_digit d) = false /\ ord (hex_digit d) <> 43 /\
  ord (hex_digit d) <> 45 /\ ord (hex_digit d) <> 95 /\
  prefix_base (hex_digit d) <> Some 16.
Proof. revert d. enumerate. Qed.

(** A byte printed with [:02x] reads back with [int(_, 16)]. *)
Lemma py_int_hex2 b : 0 <= b < 256 -> py_int_list 16 (hex2 b) = Some b.
Proof. revert b. enumerate. Qed.

(** ** Splitting and stripping *)

Definition lower_char (c : ascii) : ascii :=
  let z := ord c in if (65 <=? z) && (z <=? 90) then chr (z + 32) else c.

(** [s.lower()] on ASCII. *)
Definition py_lower (s : string) : string :=
  string_of_list_ascii (map lower_char (list_ascii_of_string s)).

(** [s.strip()] *)
Definition py_strip (s : string) : string :=
  string_of_list_ascii (rev (lstrip (rev (lstrip (list_ascii_of_string s))))).

(** [s.split(sep)], the separator given by its code. *)
Fixpoint split_list (sep : Z) (acc : list ascii) (l : list ascii) : list (list ascii) :=
  match l with
  | [] => [rev acc]
  | c :: l' =>
      if ord c =? sep then rev acc :: split_list sep [] l' else split_list sep (c :: acc) l'
  end.

Definition py_split (sep : Z) (s : string) : list string :=
  map string_of_list_ascii (split_list sep [] (list_ascii_of_string s)).

(** ** Decimal formatting *)

Definition dec_digit (d : Z) : ascii := chr (48 + d).

(** The decimal digits of [n], in front of [acc]; [fuel] bounds their number. *)
Fixpoint dec_digits (fuel : nat) (n : Z) (acc : list ascii) : list ascii :=
  match fuel with
  | O => acc
  | S f => let acc' := dec_digit (n mod 10) :: acc in
           if n <? 10 then acc' else dec_digits f (n / 10) acc'
  end.

(** [str(z)]: a number below 2^k has at most k + 1 digits. *)
Definition py_str_list (z : Z) : list ascii :=
  let digits n := dec_digits (S (Z.to_nat (Z.log2 n))) n [] in
  if z <? 0 then "-"%char :: digits (- z) else digits z.

Definition py_str (z : Z) : string := string_of_list_ascii (py_str_list z).

Lemma dec_digit_ok d : 0 <= d < 10 -> is_space (dec_digit d) = false /\
  ord (dec_digit d) = 48 + d /\ digit_value (dec_digit d) = Some d.
Proof. revert d. enumerate. Qed.

Definition is_digit (c : ascii) : Prop := exists d, 0 <= d < 10 /\ c = dec_digit d.

Lemma dec_digits_spec fuel n acc : 0 <= n < 2 ^ Z.of_nat fuel -> (0 < fuel)%nat ->
  exists k l, 0 <= k /\ dec_digits fuel n acc = (l ++ acc)%list /\ l <> [] /\ Forall is_digit l /\
  forall a, int_digits 10 false a (dec_digits fuel n acc) =
            int_digits 10 false (a * 10 ^ k + n) acc.
Proof.
  revert n acc. induction fuel as [|f IH]; intros n acc Hn Hf; [lia|]. simpl.
  pose proof (Z.mod_pos_bound n 10 ltac:(lia)) as Hm.
  destruct (dec_digit_ok (n mod 10) Hm) as (_ & Ho & Hv).
  assert (forall a, int_digits 10 false a (dec_digit (n mod 10) :: acc) =
    int_digits 10 false (a * 10 + n mod 10) acc) as Hd.
  { intros a. simpl. rewrite Ho, Hv. rewrite (proj2 (Z.eqb_neq _ 95)) by lia.
    by rewrite (proj2 (Z.ltb_lt _ 10)) by lia. }
  destruct (Z.ltb_spec n 10).
  - exists 1, [dec_digit (n mod 10)]. split_and!; [lia|done|done| |].
    + constructor; [by exists (n mod 10)|done].
    + intros a. rewrite Hd, (Z.mod_small n) by lia. f_equal; lia.
  - assert (f <> O) by (intros ->; simpl in Hn; lia).
    destruct (IH (n / 10) (dec_digit (n mod 10) :: acc)) as (k & l & Hk & E & Hl & Hdg & Hi); [|lia|].
    { rewrite Nat2Z.inj_succ, Z.pow_succ_r in Hn by lia. Z.div_mod_to_equations. lia. }
    exists (k + 1), (l ++ [dec_digit (n mod 10)])%list. split_and!; [lia| | | |].
    + rewrite E, <- app_assoc. done.
    + by destruct l.
    + apply Forall_app. split; [done|]. constructor; [by exists (n mod 10)|done].
    + intros a. rewrite Hi, Hd, Z.pow_add_r, Z.pow_1_r by lia. f_equal.
      pose proof (Z.div_mod n 10 ltac:(lia)). lia.
Qed.

Lemma lstrip_id l : Forall (fun c => is_space c = false) l -> lstrip l = l.
Proof. destruct 1 as [|c l Hc]; simpl; [done|]. by rewrite Hc. Qed.

Lemma strip_id l : Forall (fun c => is_space c = false) l -> lstrip (rev (lstrip (rev l))) = l.
Proof.
  intros Hl. rewrite (lstrip_id (rev l)), rev_involutive by by apply Forall_rev. by apply lstrip_id.
Qed.

Lemma dec_fuel n : 0 <= n -> 0 <= n < 2 ^ Z.of_nat (S (Z.to_nat (Z.log2 n))).
Proof.
  intros Hn. rewrite Nat2Z.inj_succ, Z2Nat.id by apply Z.log2_nonneg.
  split; [done|]. destruct (Z.eq_dec n 0) as [->|]; [done|]. by apply Z.log2_spec; lia.
Qed.

Lemma int_unsigned_dec n : 0 <= n ->
  int_unsigned 10 (dec_digits (S (Z.to_nat (Z.log2 n))) n []) = Some n.
Proof.
  intros Hn. set (f := S _).
  pose proof (dec_fuel n Hn : 0 <= n < 2 ^ Z.of_nat f) as Hb.
  destruct (dec_digits_spec f n [] Hb ltac:(lia)) as (k & l & Hk & E & Hl & Hd & Hi).
  specialize (Hi 0). rewrite app_nil_r in E. rewrite E in *. rewrite Z.mul_0_l in Hi.
  unfold int_unsigned. cbn [Z.eqb].
  assert (match l with
    | c0 :: c1 :: l' => if (ord c0 =? 48) && bool_decide (prefix_base c1 = Some 10)
        then match l' with c2 :: l'' => if ord c2 =? 95 then l'' else l' | [] => [] end else l
    | _ => l end = l) as ->.
  { destruct l as [|c0 [|c1 l]]; [done..|].
    assert (bool_decide (prefix_base c1 = Some 10) = false) as ->; [|by rewrite andb_false_r].
    apply bool_decide_eq_false_2. unfold prefix_base. by repeat case_match. }
  destruct l as [|c l]; [done|]. inversion Hd as [|? ? (d & Hd0 & ->) _]; subst.
  destruct (dec_digit_ok d Hd0) as (_ & Ho & _). rewrite Ho, (proj2 (Z.eqb_neq _ 95)) by lia.
  by rewrite Hi.
Qed.

(** What [str] prints, [int] reads. *)
Lemma py_int_str z : py_int 10 (py_str z) = Some z.
Proof.
  unfold py_int, py_str. rewrite list_ascii_of_string_of_list_ascii. unfold py_int_list, py_str_list.
  assert (forall n, 0 <= n -> let l := dec_digits (S (Z.to_nat (Z.log2 n))) n [] in
    Forall (fun c => is_space c = false) l /\
    exists d l', l = dec_digit d :: l' /\ 0 <= d < 10) as Hdig.
  { intros n Hn l. set (f := S (Z.to_nat (Z.log2 n))) in *.
    pose proof (dec_fuel n Hn : 0 <= n < 2 ^ Z.of_nat f) as Hb.
    destruct (dec_digits_spec f n [] Hb ltac:(lia)) as (k & l1 & _ & E & Hl & Hd & _).
    unfold l. rewrite E, app_nil_r. split.
    - eapply Forall_impl; [exact Hd|]. intros c (d & Hd0 & ->). by apply dec_digit_ok.
    - destruct Hd as [|c l2 (d & Hd0 & ->) _]; [done|]. eauto. }
  destruct (Z.ltb_spec z 0).
  - destruct (Hdig (- z) ltac:(lia)) as [Hs _].
    rewrite strip_id by (constructor; [done|exact Hs]).
    change (ord "-" =? 43) with false. change (ord "-" =? 45) with true. cbv iota.
    rewrite int_unsigned_dec by lia. simpl. f_equal. lia.
  - destruct (Hdig z ltac:(lia)) as [Hs (d & l' & E & Hd)].
    rewrite strip_id by exact Hs. pose proof (int_unsigned_dec z ltac:(lia)) as Hu.
    rewrite E in *. destruct (dec_digit_ok d Hd) as (_ & Ho & _). rewrite Ho.
    by rewrite !(proj2 (Z.eqb_neq _ _)) by lia.
Qed.
