(* ===== verification/Isa.v ===== *)
(** * The RV32IMA instruction set, as the reference for the emulator

    An abstract syntax, a decoder and the meaning of the integer instructions,
    written from the unprivileged ISA manual with arithmetic on [Z] (field
    extraction by division, sign extension and wrap-around by [mod]) and no mask
    or shift of the emulator.  Nothing here models code: the handlers of cpu.py
    and the expansion of rvc.py are compared with it. *)

From Stdlib Require Import ZArith Lia Bool.
From stdpp Require Import base numbers option.
From S2P Require Import Prelude.

Local Open Scope Z_scope.

(** ** Bit fields *)

(** Bits [lo], ..., [lo + n - 1] of [z]. *)
Definition field (z lo n : Z) : Z := (z / 2 ^ lo) mod 2 ^ n.

(** An [n]-bit value read as two's complement. *)
Definition sext (n z : Z) : Z := (z + 2 ^ (n - 1)) mod 2 ^ n - 2 ^ (n - 1).

Definition wrap (z : Z) : Z := z mod 2 ^ 32.
Definition sint (z : Z) : Z := sext 32 z.

(** ** Syntax *)

Inductive rop :=
| ADD | SUB | SLL | SLT | SLTU | XOR | SRL | SRA | OR | AND
| MUL | MULH | MULHSU | MULHU | DIV | DIVU | REM | REMU.

Inductive bop := BEQ | BNE | BLT | BGE | BLTU | BGEU.
Inductive lop := LB | LH | LW | LBU | LHU.
Inductive sop := SB | SH | SW.
Inductive aop :=
| LR | SC | AMOSWAP | AMOADD | AMOXOR | AMOAND | AMOOR
| AMOMIN | AMOMAX | AMOMINU | AMOMAXU.
Inductive cop := CSRRW | CSRRS | CSRRC.

(** The source operand of a CSR instruction. *)
Inductive csrc := CReg (rs1 : Z) | CImm (uimm : Z).

Inductive instr :=
| Op (o : rop) (rd rs1 rs2 : Z)
| OpImm (o : rop) (rd rs1 imm : Z)
| Lui (rd imm : Z)
| Auipc (rd imm : Z)
| Jal (rd off : Z)
| Jalr (rd rs1 off : Z)
| Branch (o : bop) (rs1 rs2 off : Z)
| Load (o : lop) (rd rs1 off : Z)
| Store (o : sop) (rs1 rs2 off : Z)
| Amo (o : aop) (rd rs1 rs2 : Z)
| Csr (o : cop) (rd : Z) (src : csrc) (csr : Z)
| Fence
| Ecall
| Ebreak
| Mret
| Wfi.

#[export] Instance rop_eq_dec : EqDecision rop. Proof. solve_decision. Defined.
#[export] Instance bop_eq_dec : EqDecision bop. Proof. solve_decision. Defined.
#[export] Instance lop_eq_dec : EqDecision lop. Proof. solve_decision. Defined.
#[export] Instance sop_eq_dec : EqDecision sop. Proof. solve_decision. Defined.
#[export] Instance aop_eq_dec : EqDecision aop. Proof. solve_decision. Defined.
#[export] Instance cop_eq_dec : EqDecision cop. Proof. solve_decision. Defined.
#[export] Instance csrc_eq_dec : EqDecision csrc. Proof. solve_decision. Defined.
#[export] Instance instr_eq_dec : EqDecision instr. Proof. solve_decision. Defined.

(** ** Immediates *)

Definition imm_I (i : Z) : Z := sext 12 (field i 20 12).
Definition imm_S (i : Z) : Z := sext 12 (field i 25 7 * 2 ^ 5 + field i 7 5).
Definition imm_B (i : Z) : Z :=
  sext 13 (field i 31 1 * 2 ^ 12 + field i 7 1 * 2 ^ 11 + field i 25 6 * 2 ^ 5 + field i 8 4 * 2).
Definition imm_U (i : Z) : Z := field i 12 20 * 2 ^ 12.
Definition imm_J (i : Z) : Z :=
  sext 21 (field i 31 1 * 2 ^ 20 + field i 12 8 * 2 ^ 12 + field i 20 1 * 2 ^ 11
           + field i 21 10 * 2).

(** ** Decoding *)

Definition rop_of (funct3 funct7 : Z) : option rop :=
  match funct7 with
  | 0x00 => match funct3 with
            | 0 => Some ADD | 1 => Some SLL | 2 => Some SLT | 3 => Some SLTU
            | 4 => Some XOR | 5 => Some SRL | 6 => Some OR | 7 => Some AND | _ => None
            end
  | 0x20 => match funct3 with 0 => Some SUB | 5 => Some SRA | _ => None end
  | 0x01 => match funct3 with
            | 0 => Some MUL | 1 => Some MULH | 2 => Some MULHSU | 3 => Some MULHU
            | 4 => Some DIV | 5 => Some DIVU | 6 => Some REM | 7 => Some REMU | _ => None
            end
  | _ => None
  end.

(** OP-IMM: the operation and whether the immediate is a shift amount. *)
Definition iop_of (funct3 funct7 : Z) : option (rop * bool) :=
  match funct3 with
  | 0 => Some (ADD, false) | 2 => Some (SLT, false) | 3 => Some (SLTU, false)
  | 4 => Some (XOR, false) | 6 => Some (OR, false) | 7 => Some (AND, false)
  | 1 => if funct7 =? 0 then Some (SLL, true) else None
  | 5 => if funct7 =? 0 then Some (SRL, true)
         else if funct7 =? 0x20 then Some (SRA, true) else None
  | _ => None
  end.

Definition bop_of (funct3 : Z) : option bop :=
  match funct3 with
  | 0 => Some BEQ | 1 => Some BNE | 4 => Some BLT | 5 => Some BGE
  | 6 => Some BLTU | 7 => Some BGEU | _ => None
  end.

Definition lop_of (funct3 : Z) : option lop :=
  match funct3 with
  | 0 => Some LB | 1 => Some LH | 2 => Some LW | 4 => Some LBU | 5 => Some LHU | _ => None
  end.

Definition sop_of (funct3 : Z) : option sop :=
  match funct3 with 0 => Some SB | 1 => Some SH | 2 => Some SW | _ => None end.

Definition aop_of (funct5 : Z) : option aop :=
  match funct5 with
  | 2 => Some LR | 3 => Some SC | 1 => Some AMOSWAP | 0 => Some AMOADD | 4 => Some AMOXOR
  | 12 => Some AMOAND | 8 => Some AMOOR | 16 => Some AMOMIN | 20 => Some AMOMAX
  | 24 => Some AMOMINU | 28 => Some AMOMAXU | _ => None
  end.

Definition csr_of (i rd funct3 rs1 : Z) : option instr :=
  let c := field i 20 12 in
  match funct3 with
  | 1 => Some (Csr CSRRW rd (CReg rs1) c) | 2 => Some (Csr CSRRS rd (CReg rs1) c)
  | 3 => Some (Csr CSRRC rd (CReg rs1) c) | 5 => Some (Csr CSRRW rd (CImm rs1) c)
  | 6 => Some (Csr CSRRS rd (CImm rs1) c) | 7 => Some (Csr CSRRC rd (CImm rs1) c)
  | _ => None
  end.

Definition decode (i : Z) : option instr :=
  let rd := field i 7 5 in
  let funct3 := field i 12 3 in
  let rs1 := field i 15 5 in
  let rs2 := field i 20 5 in
  let funct7 := field i 25 7 in
  match field i 0 7 with
  | 0x33 => o ← rop_of funct3 funct7; Some (Op o rd rs1 rs2)
  | 0x13 => p ← iop_of funct3 funct7;
            Some (OpImm (fst p) rd rs1 (if snd p : bool then rs2 else imm_I i))
  | 0x03 => o ← lop_of funct3; Some (Load o rd rs1 (imm_I i))
  | 0x23 => o ← sop_of funct3; Some (Store o rs1 rs2 (imm_S i))
  | 0x63 => o ← bop_of funct3; Some (Branch o rs1 rs2 (imm_B i))
  | 0x37 => Some (Lui rd (imm_U i))
  | 0x17 => Some (Auipc rd (imm_U i))
  | 0x6F => Some (Jal rd (imm_J i))
  | 0x67 => if funct3 =? 0 then Some (Jalr rd rs1 (imm_I i)) else None
  | 0x0F => if (funct3 =? 0) || (funct3 =? 1) then Some Fence else None
  | 0x2F => if funct3 =? 2
            then o ← aop_of (field i 27 5); Some (Amo o rd rs1 rs2) else None
  | 0x73 => if i =? 0x00000073 then Some Ecall
            else if i =? 0x30200073 then Some Mret
            else if i =? 0x00100073 then Some Ebreak
            else if i =? 0x10500073 then Some Wfi
            else csr_of i rd funct3 rs1
  | _ => None
  end.

(** ** Meaning of the integer instructions *)

Definition rop_sem (o : rop) (a b : Z) : Z :=
  match o with
  | ADD => wrap (a + b)
  | SUB => wrap (a - b)
  | SLL => wrap (a * 2 ^ (b mod 32))
  | SLT => Z.b2z (sint a <? sint b)
  | SLTU => Z.b2z (a <? b)
  | XOR => Z.lxor a b
  | SRL => a / 2 ^ (b mod 32)
  | SRA => wrap (sint a / 2 ^ (b mod 32))
  | OR => Z.lor a b
  | AND => Z.land a b
  | MUL => wrap (a * b)
  | MULH => wrap ((sint a * sint b) / 2 ^ 32)
  | MULHSU => wrap ((sint a * b) / 2 ^ 32)
  | MULHU => (a * b) / 2 ^ 32
  | DIV => if b =? 0 then 2 ^ 32 - 1 else wrap (Z.quot (sint a) (sint b))
  | DIVU => if b =? 0 then 2 ^ 32 - 1 else a / b
  | REM => if b =? 0 then a else wrap (Z.rem (sint a) (sint b))
  | REMU => if b =? 0 then a else a mod b
  end.

Definition bop_sem (o : bop) (a b : Z) : bool :=
  match o with
  | BEQ => a =? b
  | BNE => negb (a =? b)
  | BLT => sint a <? sint b
  | BGE => sint b <=? sint a
  | BLTU => a <? b
  | BGEU => b <=? a
  end.

(** What an instruction without memory access does: it retires, with a register
    write and the next pc, or it raises a synchronous exception. *)
Inductive outcome :=
| Retire (wb : option (Z * Z)) (npc : Z)
| Except (cause tval : Z).

(** A control transfer: instruction-address-misaligned unless the target is a
    multiple of [ialign]. *)
Definition jump (ialign : Z) (wb : option (Z * Z)) (target : Z) : outcome :=
  if target mod ialign =? 0 then Retire wb target else Except 0 target.

(** [regs] are the register values, [len] the length of the instruction. *)
Definition sem (regs : Z -> Z) (pc len ialign : Z) (i : instr) : option outcome :=
  let next := wrap (pc + len) in
  match i with
  | Op o rd rs1 rs2 => Some (Retire (Some (rd, rop_sem o (regs rs1) (regs rs2))) next)
  | OpImm o rd rs1 imm => Some (Retire (Some (rd, rop_sem o (regs rs1) (wrap imm))) next)
  | Lui rd imm => Some (Retire (Some (rd, wrap imm)) next)
  | Auipc rd imm => Some (Retire (Some (rd, wrap (pc + imm))) next)
  | Jal rd off => Some (jump ialign (Some (rd, next)) (wrap (pc + off)))
  | Jalr rd rs1 off =>
      let t := wrap (regs rs1 + off) in
      Some (jump ialign (Some (rd, next)) (t - t mod 2))
  | Branch o rs1 rs2 off =>
      Some (if bop_sem o (regs rs1) (regs rs2)
            then jump ialign None (wrap (pc + off)) else Retire None next)
  | Fence | Wfi => Some (Retire None next)
  | _ => None
  end.

(** ** Facts about fields and words *)

Lemma field_range z lo n : 0 <= n -> 0 <= field z lo n < 2 ^ n.
Proof. intros. apply Z.mod_pos_bound. lia. Qed.

Lemma sint_range a : - 2 ^ 31 <= sint a < 2 ^ 31.
Proof.
  unfold sint, sext. pose proof (Z.mod_pos_bound (a + 2 ^ (32 - 1)) (2 ^ 32)). lia.
Qed.

Lemma sint_u32 a : u32 a -> sint a = if a <? 0x80000000 then a else a - 0x100000000.
Proof.
  unfold uN, sint, sext. change (2 ^ (32 - 1)) with 0x80000000. change (2 ^ 32) with 0x100000000.
  intros Ha. case_match; Z.div_mod_to_equations; lia.
Qed.

Lemma sint_mod a : (sint a) mod 2 ^ 32 = a mod 2 ^ 32.
Proof.
  unfold sint, sext. change (2 ^ (32 - 1)) with 0x80000000. change (2 ^ 32) with 0x100000000.
  Z.div_mod_to_equations. lia.
Qed.

Lemma wrap_u32 a : u32 a -> wrap a = a.
Proof. intros. by apply Z.mod_small. Qed.

Lemma rop_sem_u32 o a b : u32 a -> u32 b -> u32 (rop_sem o a b).
Proof.
  intros Ha Hb. destruct o; simpl; auto with words; try apply u32_wrap.
  - rewrite <- Z.shiftr_div_pow2 by (apply Z.mod_pos_bound; lia).
    apply u32_shiftr; [done|]. apply Z.mod_pos_bound; lia.
  - unfold uN in *. split; [apply Z.div_pos; nia|]. apply Z.div_lt_upper_bound; nia.
  - case_match; [unfold uN; lia|apply u32_wrap].
  - case_match; [unfold uN; lia|]. unfold uN in *. split; [apply Z.div_pos; lia|].
    apply Z.div_lt_upper_bound; nia.
  - case_match; [done|apply u32_wrap].
  - case_match; [done|]. unfold uN in *. pose proof (Z.mod_pos_bound a b ltac:(lia)). lia.
Qed.

#[export] Hint Resolve rop_sem_u32 : words.
