(* ===== verification/Ram.v ===== *)
(** * The memory classes of ram.py

    [ram] is the state the five classes RAM, SafeRAM, SafeRAMOffset, RAM_MMIO
    and SafeRAM_MMIO share: a bytearray with four bytes of padding, its word
    view [memory32] (which aliases the bytes), the size, the base address and
    the list of memory-mapped ranges.  The operations of each class are
    definitions named after the class and the method.  [RamOps] is the duck-typed
    interface the CPU, the machine, the system calls and the debugger use. *)

From Stdlib Require Import ZArith Lia Bool String.
From stdpp Require Import base numbers list option strings.
From S2P Require Import Prelude PyStr.

Local Open Scope Z_scope.
Local Open Scope py_scope.

(** ** State *)

(** The peripheral whose bound methods a memory-mapped range holds. *)
Inductive periph := PtyUART | MMIOBlockDevice | MMIOTimer.

#[export] Instance periph_eq_dec : EqDecision periph.
Proof. solve_decision. Defined.

Record ram := mkRam {
  memory : list Z;
  size : Z;
  base_addr : Z;
  mmio_ranges : list (Z * Z * periph)
}.

Definition set_memory (m : list Z) (r : ram) : ram :=
  mkRam m (size r) (base_addr r) (mmio_ranges r).

(** ** Construction *)

(** [initialize_ram(ram, fill)]; [getrandbits8 i] is the i-th random byte. *)
Definition initialize_ram (getrandbits8 : nat -> Z) (fill : string) (r : ram) : res ram :=
  let fill_with (f : nat -> Z) :=
    Ok (set_memory (imap (fun i b => if Z.of_nat i <? size r then f i else b) (memory r)) r) in
  if String.eqb fill "random" then fill_with getrandbits8
  else if String.eqb fill "addr" then fill_with (fun i => Z.land (Z.of_nat i) 0xFF)
  else match py_int 0 fill with
       | Some v => let value := Z.land v 0xFF in fill_with (fun _ => value)
       | None => Exn ValueError
       end.

(** [RAM(size, init)], with the base address of SafeRAMOffset and the empty list
    of ranges of the MMIO classes.  [bytearray] rejects a negative length and
    the cast to a word view a length that is not a multiple of four. *)
Definition RAM_init (getrandbits8 : nat -> Z) (sz base : Z) (init : option string) : res ram :=
  let padding := 4 in
  if sz + padding <? 0 then Exn ValueError
  else if negb ((sz + padding) mod 4 =? 0) then Exn TypeError
  else
    let r := mkRam (replicate (Z.to_nat (sz + padding)) 0) sz base [] in
    match init with
    | Some fill => if String.eqb fill "zero" then Ok r else initialize_ram getrandbits8 fill r
    | None => Ok r
    end.

(** ** Elementary accesses *)

(** [self.memory[i]] *)
Definition mem_get (i : Z) : ST ram Z :=
  fun r => of_option IndexError (py_get (memory r) i) r.

(** [self.memory[i] = v] *)
Definition mem_set (i v : Z) : ST ram unit :=
  fun r => match py_set (memory r) i v with
           | Some m => (Ok tt, set_memory m r)
           | None => (Exn IndexError, r)
           end.

(** [self.memory32[i]]: the little-endian word the view reads. *)
Definition mem32_get (i : Z) : ST ram Z :=
  fun r => match py_index (py_len (memory r) / 4) i with
           | Some k =>
               (b0 <- mem_get (4 * k) ;; b1 <- mem_get (4 * k + 1) ;;
                b2 <- mem_get (4 * k + 2) ;; b3 <- mem_get (4 * k + 3) ;;
                ret (le32 b0 b1 b2 b3)) r
           | None => (Exn IndexError, r)
           end.

(** [self.memory32[i] = v] *)
Definition mem32_set (i v : Z) : ST ram unit :=
  fun r => match py_index (py_len (memory r) / 4) i with
           | Some k =>
               (mem_set (4 * k) (byte_of v 0) ;;; mem_set (4 * k + 1) (byte_of v 1) ;;;
                mem_set (4 * k + 2) (byte_of v 2) ;;; mem_set (4 * k + 3) (byte_of v 3)) r
           | None => (Exn IndexError, r)
           end.

(** The bodies the methods of all classes share. *)
Definition sign8 (signed : bool) (val : Z) : Z :=
  if negb signed || (val <? 0x80) then val else val - 0x100.

Definition sign16 (signed : bool) (val : Z) : Z :=
  if negb signed || (val <? 0x8000) then val else val - 0x10000.

Definition body_load_byte (addr : Z) (signed : bool) : ST ram Z :=
  val <- mem_get addr ;; ret (sign8 signed val).

Definition body_load_half (addr : Z) (signed : bool) : ST ram Z :=
  b0 <- mem_get addr ;; b1 <- mem_get (addr + 1) ;;
  ret (sign16 signed (Z.lor b0 (Z.shiftl b1 8))).

Definition body_load_word (addr : Z) : ST ram Z :=
  if Z.land addr 0x3 =? 0 then mem32_get (Z.shiftr addr 2)
  else
    b0 <- mem_get addr ;; b1 <- mem_get (addr + 1) ;;
    b2 <- mem_get (addr + 2) ;; b3 <- mem_get (addr + 3) ;;
    ret (Z.lor (Z.lor (Z.lor b0 (Z.shiftl b1 8)) (Z.shiftl b2 16)) (Z.shiftl b3 24)).

Definition body_store_byte (addr value : Z) : ST ram unit :=
  mem_set addr (Z.land value 0xFF).

Definition body_store_half (addr value : Z) : ST ram unit :=
  let value := Z.land value 0xFFFF in
  mem_set addr (Z.land value 0xFF) ;;;
  mem_set (addr + 1) (Z.land (Z.shiftr value 8) 0xFF).

Definition body_store_word (addr value : Z) : ST ram unit :=
  let value := Z.land value 0xFFFFFFFF in
  if Z.land addr 0x3 =? 0 then mem32_set (Z.shiftr addr 2) value
  else
    mem_set addr (Z.land value 0xFF) ;;;
    mem_set (addr + 1) (Z.land (Z.shiftr value 8) 0xFF) ;;;
    mem_set (addr + 2) (Z.land (Z.shiftr value 16) 0xFF) ;;;
    mem_set (addr + 3) (Z.land (Z.shiftr value 24) 0xFF).

Definition body_load_binary (addr n : Z) : ST ram (list Z) :=
  gets (fun r => py_slice (memory r) addr (addr + n)).

Definition body_store_binary (addr : Z) (binary : list Z) : ST ram unit :=
  fun r => match py_slice_set (memory r) addr (addr + py_len binary) binary with
           | Some m => (Ok tt, set_memory m r)
           | None => (Exn BufferError, r)
           end.

(** The bytes of the string; the decoding to [str] is left to the caller. *)
Definition body_load_cstring (addr max_len : Z) : ST ram (list Z) :=
  fun r =>
    let end_ := Z.min (addr + max_len) (size r) in
    let memory_slice := py_slice (memory r) addr end_ in
    match py_find 0 memory_slice with
    | None => (Exn (MemoryAccessError "Exceeded maximum length while reading C string" addr), r)
    | Some nul_index => (Ok (take nul_index memory_slice), r)
    end.

Definition out_of_bounds (addr : Z) : exn := MemoryAccessError "Access out of bounds" addr.

(** [except IndexError: raise MemoryAccessError(...)] *)
Definition on_index_error {A} (addr : Z) (m : ST ram A) : ST ram A :=
  catch m (fun e => match e with IndexError => raise (out_of_bounds addr) | _ => raise e end).

(** ** RAM: no address checks *)

Definition RAM_load_byte (addr : Z) (signed : bool) : ST ram Z :=
  on_index_error addr (body_load_byte addr signed).

Definition RAM_load_half (addr : Z) (signed : bool) : ST ram Z :=
  on_index_error addr (body_load_half addr signed).

Definition RAM_load_word (addr : Z) : ST ram Z :=
  on_index_error addr (body_load_word addr).

Definition RAM_store_byte (addr value : Z) : ST ram unit :=
  on_index_error addr (body_store_byte addr value).

Definition RAM_store_half (addr value : Z) : ST ram unit :=
  on_index_error addr (body_store_half addr value).

Definition RAM_store_word (addr value : Z) : ST ram unit :=
  on_index_error addr (body_store_word addr value).

Definition RAM_load_binary (addr n : Z) : ST ram (list Z) := body_load_binary addr n.

Definition RAM_store_binary (addr : Z) (binary : list Z) : ST ram unit :=
  catch (body_store_binary addr binary)
    (fun e => match e with
              | IndexError | BufferError => raise (out_of_bounds addr)
              | _ => raise e
              end).

Definition RAM_load_cstring (addr max_len : Z) : ST ram (list Z) :=
  body_load_cstring addr max_len.

(** ** SafeRAM: all accesses checked *)

Definition SafeRAM_check (addr n : Z) : ST ram unit :=
  fun r => if (addr <? 0) || (size r <? addr + n)
           then (Exn (out_of_bounds addr), r) else (Ok tt, r).

Definition SafeRAM_load_byte (addr : Z) (signed : bool) : ST ram Z :=
  SafeRAM_check addr 1 ;;; body_load_byte addr signed.

Definition SafeRAM_load_half (addr : Z) (signed : bool) : ST ram Z :=
  SafeRAM_check addr 2 ;;; body_load_half addr signed.

Definition SafeRAM_load_word (addr : Z) : ST ram Z :=
  SafeRAM_check addr 4 ;;; body_load_word addr.

Definition SafeRAM_store_byte (addr value : Z) : ST ram unit :=
  SafeRAM_check addr 1 ;;; body_store_byte addr value.

Definition SafeRAM_store_half (addr value : Z) : ST ram unit :=
  SafeRAM_check addr 2 ;;; body_store_half addr value.

Definition SafeRAM_store_word (addr value : Z) : ST ram unit :=
  SafeRAM_check addr 4 ;;; body_store_word addr value.

Definition SafeRAM_load_binary (addr n : Z) : ST ram (list Z) :=
  SafeRAM_check addr n ;;; body_load_binary addr n.

Definition SafeRAM_store_binary (addr : Z) (binary : list Z) : ST ram unit :=
  SafeRAM_check addr (py_len binary) ;;; body_store_binary addr binary.

Definition SafeRAM_load_cstring (addr max_len : Z) : ST ram (list Z) :=
  fun r => if (addr <? 0) || (size r <=? addr)
           then (Exn (MemoryAccessError "Invalid start address reading C string" addr), r)
           else body_load_cstring addr max_len r.

(** ** SafeRAMOffset: checked accesses relative to a base address *)

(** The check is the one of SafeRAM; the message shows the address with the base. *)
Definition SafeRAMOffset_check (addr n : Z) : ST ram unit :=
  fun r => if (addr <? 0) || (size r <? addr + n)
           then (Exn (out_of_bounds (base_addr r + addr)), r) else (Ok tt, r).

(** [addr -= self.base_addr] *)
Definition rebase {A} (addr : Z) (k : Z -> ST ram A) : ST ram A :=
  fun r => k (addr - base_addr r) r.

Definition SafeRAMOffset_load_byte (addr : Z) (signed : bool) : ST ram Z :=
  rebase addr (fun addr => SafeRAMOffset_check addr 1 ;;; body_load_byte addr signed).

Definition SafeRAMOffset_load_half (addr : Z) (signed : bool) : ST ram Z :=
  rebase addr (fun addr => SafeRAMOffset_check addr 2 ;;; body_load_half addr signed).

Definition SafeRAMOffset_load_word (addr : Z) : ST ram Z :=
  rebase addr (fun addr => SafeRAMOffset_check addr 4 ;;; body_load_word addr).

Definition SafeRAMOffset_store_byte (addr value : Z) : ST ram unit :=
  rebase addr (fun addr => SafeRAMOffset_check addr 1 ;;; body_store_byte addr value).

Definition SafeRAMOffset_store_half (addr value : Z) : ST ram unit :=
  rebase addr (fun addr => SafeRAMOffset_check addr 2 ;;; body_store_half addr value).

Definition SafeRAMOffset_store_word (addr value : Z) : ST ram unit :=
  rebase addr (fun addr => SafeRAMOffset_check addr 4 ;;; body_store_word addr value).

Definition SafeRAMOffset_load_binary (addr n : Z) : ST ram (list Z) :=
  rebase addr (fun addr => SafeRAMOffset_check addr n ;;; body_load_binary addr n).

Definition SafeRAMOffset_store_binary (addr : Z) (binary : list Z) : ST ram unit :=
  rebase addr (fun addr =>
    SafeRAMOffset_check addr (py_len binary) ;;; body_store_binary addr binary).

Definition SafeRAMOffset_load_cstring (addr max_len : Z) : ST ram (list Z) :=
  rebase addr (fun addr => SafeRAM_load_cstring addr max_len).

(** [register_peripheral] of RAM_MMIO and SafeRAM_MMIO. *)
Definition register_mmio (base end_ : Z) (p : periph) : ST ram unit :=
  modify (fun r => mkRam (memory r) (size r) (base_addr r)
                         (mmio_ranges r ++ [(base, end_, p)])).

(** ** The interface of a memory object *)

Class RamOps (W : Type) := {
  load_byte : Z -> bool -> ST W Z;
  load_half : Z -> bool -> ST W Z;
  load_word : Z -> ST W Z;
  store_byte : Z -> Z -> ST W unit;
  store_half : Z -> Z -> ST W unit;
  store_word : Z -> Z -> ST W unit;
  load_binary : Z -> Z -> ST W (list Z);
  store_binary : Z -> list Z -> ST W unit;
  load_cstring : Z -> Z -> ST W (list Z)
}.

Section Instances.
Context {W : Type} `{Has ram W}.

Definition RAM_ops : RamOps W := {|
  load_byte a s := zoom (RAM_load_byte a s);
  load_half a s := zoom (RAM_load_half a s);
  load_word a := zoom (RAM_load_word a);
  store_byte a v := zoom (RAM_store_byte a v);
  store_half a v := zoom (RAM_store_half a v);
  store_word a v := zoom (RAM_store_word a v);
  load_binary a n := zoom (RAM_load_binary a n);
  store_binary a b := zoom (RAM_store_binary a b);
  load_cstring a n := zoom (RAM_load_cstring a n)
|}.

Definition SafeRAM_ops : RamOps W := {|
  load_byte a s := zoom (SafeRAM_load_byte a s);
  load_half a s := zoom (SafeRAM_load_half a s);
  load_word a := zoom (SafeRAM_load_word a);
  store_byte a v := zoom (SafeRAM_store_byte a v);
  store_half a v := zoom (SafeRAM_store_half a v);
  store_word a v := zoom (SafeRAM_store_word a v);
  load_binary a n := zoom (SafeRAM_load_binary a n);
  store_binary a b := zoom (SafeRAM_store_binary a b);
  load_cstring a n := zoom (SafeRAM_load_cstring a n)
|}.

Definition SafeRAMOffset_ops : RamOps W := {|
  load_byte a s := zoom (SafeRAMOffset_load_byte a s);
  load_half a s := zoom (SafeRAMOffset_load_half a s);
  load_word a := zoom (SafeRAMOffset_load_word a);
  store_byte a v := zoom (SafeRAMOffset_store_byte a v);
  store_half a v := zoom (SafeRAMOffset_store_half a v);
  store_word a v := zoom (SafeRAMOffset_store_word a v);
  load_binary a n := zoom (SafeRAMOffset_load_binary a n);
  store_binary a b := zoom (SafeRAMOffset_store_binary a b);
  load_cstring a n := zoom (SafeRAMOffset_load_cstring a n)
|}.

(** ** RAM_MMIO and SafeRAM_MMIO

    A word access inside a registered range goes to the bound method of the
    peripheral; everything else is RAM or SafeRAM. *)

Context (read32 : periph -> Z -> ST W Z) (write32 : periph -> Z -> Z -> ST W unit).

(** The first range that contains the address. *)
Fixpoint mmio_find (addr : Z) (l : list (Z * Z * periph)) : option periph :=
  match l with
  | [] => None
  | (mmio_addr_base, mmio_addr_end, p) :: l' =>
      if (mmio_addr_base <=? addr) && (addr <? mmio_addr_end) then Some p
      else mmio_find addr l'
  end.

Definition RAM_MMIO_load_word (addr : Z) : ST W Z :=
  fun w => match mmio_find addr (mmio_ranges (view w)) with
           | Some p => read32 p addr w
           | None => zoom (on_index_error addr (body_load_word addr)) w
           end.

Definition RAM_MMIO_store_word (addr value : Z) : ST W unit :=
  fun w => let value := Z.land value 0xFFFFFFFF in
           match mmio_find addr (mmio_ranges (view w)) with
           | Some p => write32 p addr value w
           | None => zoom (on_index_error addr (body_store_word addr value)) w
           end.

Definition SafeRAM_MMIO_load_word (addr : Z) : ST W Z :=
  fun w => match mmio_find addr (mmio_ranges (view w)) with
           | Some p => read32 p addr w
           | None => zoom (SafeRAM_check addr 4 ;;; body_load_word addr) w
           end.

Definition SafeRAM_MMIO_store_word (addr value : Z) : ST W unit :=
  fun w => let value := Z.land value 0xFFFFFFFF in
           match mmio_find addr (mmio_ranges (view w)) with
           | Some p => write32 p addr value w
           | None => zoom (SafeRAM_check addr 4 ;;; body_store_word addr value) w
           end.

Definition RAM_MMIO_ops : RamOps W := {|
  load_byte a s := zoom (RAM_load_byte a s);
  load_half a s := zoom (RAM_load_half a s);
  load_word := RAM_MMIO_load_word;
  store_byte a v := zoom (RAM_store_byte a v);
  store_half a v := zoom (RAM_store_half a v);
  store_word := RAM_MMIO_store_word;
  load_binary a n := zoom (RAM_load_binary a n);
  store_binary a b := zoom (RAM_store_binary a b);
  load_cstring a n := zoom (RAM_load_cstring a n)
|}.

Definition SafeRAM_MMIO_ops : RamOps W := {|
  load_byte a s := zoom (SafeRAM_load_byte a s);
  load_half a s := zoom (SafeRAM_load_half a s);
  load_word := SafeRAM_MMIO_load_word;
  store_byte a v := zoom (SafeRAM_store_byte a v);
  store_half a v := zoom (SafeRAM_store_half a v);
  store_word := SafeRAM_MMIO_store_word;
  load_binary a n := zoom (SafeRAM_load_binary a n);
  store_binary a b := zoom (SafeRAM_store_binary a b);
  load_cstring a n := zoom (SafeRAM_load_cstring a n)
|}.
End Instances.

(** ** Well-formedness and the abstract memory

    The bytes are bytes, the padding is there and the word view covers the
    whole buffer. *)

Record wf_ram (r : ram) : Prop := {
  wf_bytes : Forall u8 (memory r);
  wf_size : 0 <= size r;
  wf_len : py_len (memory r) = size r + 4;
  wf_align : size r mod 4 = 0
}.

(** The memory as a function from addresses to bytes. *)
Definition mem_byte (r : ram) (a : Z) : Z := default 0 (py_get (memory r) a).

Definition mem_half (r : ram) (a : Z) : Z :=
  Z.lor (mem_byte r a) (Z.shiftl (mem_byte r (a + 1)) 8).

Definition mem_word (r : ram) (a : Z) : Z :=
  le32 (mem_byte r a) (mem_byte r (a + 1)) (mem_byte r (a + 2)) (mem_byte r (a + 3)).

(** An access of [n] bytes inside the memory proper. *)
Definition in_bounds (r : ram) (a n : Z) : bool := (0 <=? a) && (a + n <=? size r).

(** [r'] is [r] with the [n] bytes of [v] stored at [a], little end first. *)
Record stored (r : ram) (a n v : Z) (r' : ram) : Prop := {
  stored_wf : wf_ram r';
  stored_size : size r' = size r;
  stored_base : base_addr r' = base_addr r;
  stored_ranges : mmio_ranges r' = mmio_ranges r;
  stored_bytes : forall b, 0 <= b ->
    mem_byte r' b = if (a <=? b) && (b <? a + n) then byte_of v (b - a) else mem_byte r b
}.

(** One byte changed. *)
Definition upd (r : ram) (a v : Z) : ram :=
  set_memory (<[Z.to_nat a := v]> (memory r)) r.

Section RamLemmas.
Implicit Types r : ram.

Lemma mem_byte_u8 r a : wf_ram r -> u8 (mem_byte r a).
Proof.
  intros Hr. unfold mem_byte. destruct (py_get _ _) eqn:E; simpl; [|by unfold uN].
  eapply py_get_Forall; [apply Hr|done].
Qed.

Lemma mem_get_eq r a : 0 <= a < py_len (memory r) -> mem_get a r = (Ok (mem_byte r a), r).
Proof.
  intros Ha. unfold mem_get, mem_byte.
  destruct (py_get_is_Some (memory r) a Ha) as [v ->]. done.
Qed.

Lemma mem_set_eq r a v : 0 <= a < py_len (memory r) -> mem_set a v r = (Ok tt, upd r a v).
Proof. intros Ha. unfold mem_set. by rewrite py_set_in. Qed.

Lemma upd_len r a v : py_len (memory (upd r a v)) = py_len (memory r).
Proof. unfold py_len, upd. simpl. by rewrite length_insert. Qed.

Lemma upd_wf r a v : wf_ram r -> u8 v -> wf_ram (upd r a v).
Proof.
  intros [Hb Hs Hl Ha] Hv. split; simpl; try done.
  - by apply Forall_insert.
  - by rewrite <- Hl, <- (upd_len r a v).
Qed.

Lemma upd_byte r a v b : 0 <= a < py_len (memory r) -> 0 <= b ->
  mem_byte (upd r a v) b = if a =? b then v else mem_byte r b.
Proof.
  intros Ha Hb. unfold mem_byte.
  assert (py_set (memory r) a v = Some (memory (upd r a v))) as Hset by by apply py_set_in.
  destruct (Z.eqb_spec a b) as [->|Hne].
  - by rewrite (py_get_set_eq _ _ _ _ Hset).
  - by rewrite (py_get_set_ne _ _ _ _ _ (proj1 Ha) Hb Hne Hset).
Qed.

Lemma stored_one r a v : wf_ram r -> 0 <= a < py_len (memory r) ->
  stored r a 1 v (upd r a (byte_of v 0)).
Proof.
  intros Hr Ha. split; try done; [apply upd_wf; auto with words|].
  intros b Hb. rewrite upd_byte by done.
  destruct (Z.eqb_spec a b) as [->|Hne].
  - rewrite Z.leb_refl, (proj2 (Z.ltb_lt _ _)) by lia. simpl. f_equal. lia.
  - destruct ((a <=? b) && (b <? a + 1)) eqn:E; [lia|done].
Qed.

(** Storing byte after byte. *)
Lemma stored_snoc r a n v r' : stored r a n v r' -> 0 <= a -> 0 <= n ->
  a + n < py_len (memory r) ->
  py_len (memory r') = py_len (memory r) ->
  stored r a (n + 1) v (upd r' (a + n) (byte_of v n)).
Proof.
  intros [Hw Hs Hba Hra Hby] Ha Hn Hlt Hlen. split; try done; [apply upd_wf; auto with words|].
  intros b Hb. rewrite upd_byte by lia. rewrite Hby by done.
  destruct (Z.eqb_spec (a + n) b) as [<-|Hne].
  - rewrite !(proj2 (Z.leb_le _ _)), (proj2 (Z.ltb_lt _ _)) by lia. simpl. f_equal. lia.
  - destruct ((a <=? b) && (b <? a + n)) eqn:E1; destruct ((a <=? b) && (b <? a + (n + 1))) eqn:E2;
      try done; lia.
Qed.

Definition upd2 r a v : ram := upd (upd r a (byte_of v 0)) (a + 1) (byte_of v 1).
Definition upd4 r a v : ram :=
  upd (upd (upd2 r a v) (a + 2) (byte_of v 2)) (a + 3) (byte_of v 3).

Lemma stored_two r a v : wf_ram r -> 0 <= a -> a + 2 <= py_len (memory r) ->
  stored r a 2 v (upd2 r a v).
Proof.
  intros. apply (stored_snoc r a 1); [apply stored_one| | | |]; rewrite ?upd_len; try done; lia.
Qed.

Lemma stored_four r a v : wf_ram r -> 0 <= a -> a + 4 <= py_len (memory r) ->
  stored r a 4 v (upd4 r a v).
Proof.
  intros. apply (stored_snoc r a 3); [|lia|lia|lia|unfold upd2; by rewrite !upd_len].
  apply (stored_snoc r a 2); [|lia|lia|lia|unfold upd2; by rewrite !upd_len].
  apply stored_two; [done|lia|lia].
Qed.

Lemma byte_of_mask v n k : 0 <= k -> 8 * (k + 1) <= n ->
  byte_of (Z.land v (Z.ones n)) k = byte_of v k.
Proof.
  intros Hk Hn. unfold byte_of. change 0xFF with (Z.ones 8).
  apply Z.bits_inj'. intros i Hi.
  rewrite !Z.land_spec, !Z.shiftr_spec, Z.land_spec by done.
  destruct (decide (i < 8)).
  - rewrite (Z.ones_spec_low n) by lia. by rewrite andb_true_r.
  - rewrite (Z.ones_spec_high 8) by lia. by rewrite !andb_false_r.
Qed.

(** The two ways of a word access, through the word view and byte by byte. *)
Lemma body_load_word_eq r a : wf_ram r -> 0 <= a -> a + 4 <= py_len (memory r) ->
  body_load_word a r = (Ok (mem_word r a), r).
Proof.
  intros Hr Ha Hb. unfold body_load_word. rewrite land_3.
  destruct (Z.eqb_spec (a mod 4) 0) as [H4|H4].
  - unfold mem32_get. rewrite Z.shiftr_div_pow2 by lia. change (2 ^ 2) with 4.
    assert (py_len (memory r) mod 4 = 0) as Hl.
    { rewrite (wf_len r Hr). pose proof (wf_align r Hr). Z.div_mod_to_equations; lia. }
    rewrite py_index_in by (Z.div_mod_to_equations; lia).
    replace (4 * (a / 4)) with a by (Z.div_mod_to_equations; lia).
    unfold bind. by rewrite !mem_get_eq by lia.
  - unfold bind. by rewrite !mem_get_eq by lia.
Qed.

Lemma body_store_word_eq r a v : wf_ram r -> 0 <= a -> a + 4 <= py_len (memory r) ->
  body_store_word a v r = (Ok tt, upd4 r a v).
Proof.
  intros Hr Ha Hb. unfold body_store_word. change 0xFFFFFFFF with (Z.ones 32).
  rewrite land_3. set (w := Z.land v (Z.ones 32)).
  assert (upd4 r a w = upd4 r a v) as <-
    by (unfold upd4, upd2, w; by rewrite !byte_of_mask by lia).
  destruct (Z.eqb_spec (a mod 4) 0) as [H4|H4].
  - unfold mem32_set. rewrite Z.shiftr_div_pow2 by lia. change (2 ^ 2) with 4.
    assert (py_len (memory r) mod 4 = 0) as Hl.
    { rewrite (wf_len r Hr). pose proof (wf_align r Hr). Z.div_mod_to_equations; lia. }
    rewrite py_index_in by (Z.div_mod_to_equations; lia).
    replace (4 * (a / 4)) with a by (Z.div_mod_to_equations; lia).
    unfold bind. by rewrite !mem_set_eq by (rewrite ?upd_len; lia).
  - unfold bind.
    rewrite (mem_set_eq r), (mem_set_eq (upd _ _ _)), (mem_set_eq (upd (upd _ _ _) _ _)),
      (mem_set_eq (upd (upd (upd _ _ _) _ _) _ _)) by (rewrite ?upd_len; lia).
    done.
Qed.

Lemma body_load_half_eq r a s : 0 <= a -> a + 2 <= py_len (memory r) ->
  body_load_half a s r = (Ok (sign16 s (mem_half r a)), r).
Proof. intros. unfold body_load_half, bind. by rewrite !mem_get_eq by lia. Qed.

Lemma body_load_byte_eq r a s : 0 <= a < py_len (memory r) ->
  body_load_byte a s r = (Ok (sign8 s (mem_byte r a)), r).
Proof. intros. unfold body_load_byte, bind. by rewrite mem_get_eq. Qed.

Lemma body_store_half_eq r a v : 0 <= a -> a + 2 <= py_len (memory r) ->
  body_store_half a v r = (Ok tt, upd2 r a v).
Proof.
  intros. unfold body_store_half, bind. change 0xFFFF with (Z.ones 16).
  rewrite (mem_set_eq r), (mem_set_eq (upd _ _ _)) by (rewrite ?upd_len; lia).
  unfold upd2. rewrite <- (byte_of_mask v 16 0), <- (byte_of_mask v 16 1) by lia. done.
Qed.

Lemma body_store_byte_eq r a v : 0 <= a < py_len (memory r) ->
  body_store_byte a v r = (Ok tt, upd r a (byte_of v 0)).
Proof. intros. unfold body_store_byte. by rewrite mem_set_eq. Qed.

Lemma SafeRAM_check_eq r a n : SafeRAM_check a n r =
  if in_bounds r a n then (Ok tt, r) else (Exn (out_of_bounds a), r).
Proof. unfold SafeRAM_check, in_bounds. repeat case_match; try done; lia. Qed.

(** A checked access is its body inside the bounds and an error outside. *)
Lemma checked_eq {A} r a n (m : ST ram A) : (SafeRAM_check a n ;;; m) r =
  if in_bounds r a n then m r else (Exn (out_of_bounds a), r).
Proof. unfold bind. rewrite SafeRAM_check_eq. by destruct (in_bounds r a n). Qed.

Lemma on_index_error_ok {A} r a (m : ST ram A) x r' :
  m r = (Ok x, r') -> on_index_error a m r = (Ok x, r').
Proof. intros Hm. unfold on_index_error, catch. by rewrite Hm. Qed.

Lemma in_bounds_spec r a n : in_bounds r a n = true <-> 0 <= a /\ a + n <= size r.
Proof. unfold in_bounds. lia. Qed.
End RamLemmas.

(** ** Checked accesses implement the abstract memory *)

Lemma SafeRAM_load_word_eq (r : ram) (a : Z) : wf_ram r -> SafeRAM_load_word a r =
  if in_bounds r a 4 then (Ok (mem_word r a), r) else (Exn (out_of_bounds a), r).
Proof.
  intros Hr. pose proof (wf_len r Hr). unfold SafeRAM_load_word. rewrite checked_eq.
  destruct (in_bounds r a 4) eqn:E; [|done]. apply in_bounds_spec in E.
  by rewrite body_load_word_eq by (try done; lia).
Qed.

Lemma SafeRAM_load_half_eq (r : ram) (a : Z) (s : bool) : wf_ram r -> SafeRAM_load_half a s r =
  if in_bounds r a 2 then (Ok (sign16 s (mem_half r a)), r) else (Exn (out_of_bounds a), r).
Proof.
  intros Hr. pose proof (wf_len r Hr). unfold SafeRAM_load_half. rewrite checked_eq.
  destruct (in_bounds r a 2) eqn:E; [|done]. apply in_bounds_spec in E.
  by rewrite body_load_half_eq by lia.
Qed.

Lemma SafeRAM_load_byte_eq (r : ram) (a : Z) (s : bool) : wf_ram r -> SafeRAM_load_byte a s r =
  if in_bounds r a 1 then (Ok (sign8 s (mem_byte r a)), r) else (Exn (out_of_bounds a), r).
Proof.
  intros Hr. pose proof (wf_len r Hr). unfold SafeRAM_load_byte. rewrite checked_eq.
  destruct (in_bounds r a 1) eqn:E; [|done]. apply in_bounds_spec in E.
  by rewrite body_load_byte_eq by lia.
Qed.

(** The stores, on both branches of the check. *)
Definition store_ok (r : ram) (a n v : Z) (out : res unit * ram) : Prop :=
  if in_bounds r a n then exists r', out = (Ok tt, r') /\ stored r a n v r'
  else out = (Exn (out_of_bounds a), r).

Lemma SafeRAM_store_word_ok (r : ram) (a v : Z) : wf_ram r ->
  store_ok r a 4 v (SafeRAM_store_word a v r).
Proof.
  intros Hr. pose proof (wf_len r Hr). unfold store_ok, SafeRAM_store_word. rewrite checked_eq.
  destruct (in_bounds r a 4) eqn:E; [|done]. apply in_bounds_spec in E.
  rewrite body_store_word_eq by (try done; lia). eexists; split; [done|].
  apply stored_four; [done|lia..].
Qed.

Lemma SafeRAM_store_half_ok (r : ram) (a v : Z) : wf_ram r ->
  store_ok r a 2 v (SafeRAM_store_half a v r).
Proof.
  intros Hr. pose proof (wf_len r Hr). unfold store_ok, SafeRAM_store_half. rewrite checked_eq.
  destruct (in_bounds r a 2) eqn:E; [|done]. apply in_bounds_spec in E.
  rewrite body_store_half_eq by lia. eexists; split; [done|]. apply stored_two; [done|lia..].
Qed.

Lemma SafeRAM_store_byte_ok (r : ram) (a v : Z) : wf_ram r ->
  store_ok r a 1 v (SafeRAM_store_byte a v r).
Proof.
  intros Hr. pose proof (wf_len r Hr). unfold store_ok, SafeRAM_store_byte. rewrite checked_eq.
  destruct (in_bounds r a 1) eqn:E; [|done]. apply in_bounds_spec in E.
  rewrite body_store_byte_eq by lia. eexists; split; [done|]. apply stored_one; [done|lia].
Qed.

(** A stored value reads back, and a disjoint access is unaffected. *)
Lemma stored_word_same r a v r' : stored r a 4 v r' -> 0 <= a ->
  mem_word r' a = v mod 2 ^ 32.
Proof.
  intros Hst Ha. unfold mem_word. rewrite !(stored_bytes _ _ _ _ _ Hst) by lia.
  rewrite !(proj2 (Z.leb_le _ _)), !(proj2 (Z.ltb_lt _ _)) by lia. simpl.
  replace (a - a) with 0 by lia. replace (a + 1 - a) with 1 by lia.
  replace (a + 2 - a) with 2 by lia. replace (a + 3 - a) with 3 by lia.
  rewrite <- !(byte_of_mask v 32) by lia. rewrite Z.land_ones by lia.
  apply le32_bytes, u32_wrap.
Qed.

Lemma stored_word_other r a n v r' b : stored r a n v r' -> 0 <= b ->
  b + 4 <= a \/ a + n <= b -> mem_word r' b = mem_word r b.
Proof.
  intros Hst Hb Hdis. unfold mem_word. rewrite !(stored_bytes _ _ _ _ _ Hst) by lia.
  repeat match goal with
  | |- context [(?x <=? ?y) && (?z <? ?t)] =>
      replace ((x <=? y) && (z <? t)) with false by lia
  end. done.
Qed.

(** ** Binary transfers *)

(** The [n] bytes from address [a] on. *)
Definition bytes_at (r : ram) (a n : Z) : list Z :=
  take (Z.to_nat n) (drop (Z.to_nat a) (memory r)).

(** The memory with a byte string written at [a]. *)
Definition with_bytes (r : ram) (a : Z) (b : list Z) : ram :=
  set_memory (take (Z.to_nat a) (memory r) ++ b ++ drop (Z.to_nat (a + py_len b)) (memory r)) r.

Lemma SafeRAM_load_binary_eq (r : ram) (a n : Z) : wf_ram r -> 0 <= n ->
  SafeRAM_load_binary a n r =
    if in_bounds r a n then (Ok (bytes_at r a n), r) else (Exn (out_of_bounds a), r).
Proof.
  intros Hr Hn. pose proof (wf_len r Hr). unfold SafeRAM_load_binary. rewrite checked_eq.
  destruct (in_bounds r a n) eqn:E; [|done]. apply in_bounds_spec in E.
  unfold body_load_binary, gets. by rewrite py_slice_in by lia.
Qed.

Lemma SafeRAM_store_binary_eq (r : ram) (a : Z) (b : list Z) : wf_ram r ->
  SafeRAM_store_binary a b r =
    if in_bounds r a (py_len b) then (Ok tt, with_bytes r a b) else (Exn (out_of_bounds a), r).
Proof.
  intros Hr. pose proof (wf_len r Hr). unfold SafeRAM_store_binary. rewrite checked_eq.
  destruct (in_bounds r a (py_len b)) eqn:E; [|done]. apply in_bounds_spec in E.
  unfold body_store_binary. by rewrite py_slice_set_in by lia.
Qed.

Lemma with_bytes_len r a b : 0 <= a -> a + py_len b <= py_len (memory r) ->
  py_len (memory (with_bytes r a b)) = py_len (memory r).
Proof.
  intros Ha Hb. unfold with_bytes, py_len in *. simpl.
  rewrite !length_app, length_take, length_drop. lia.
Qed.

Lemma with_bytes_wf r a b : wf_ram r -> Forall u8 b -> 0 <= a -> a + py_len b <= size r + 4 ->
  wf_ram (with_bytes r a b).
Proof.
  intros Hr Hb Ha Hl. pose proof (wf_len r Hr) as Hlen.
  split; simpl; [|apply Hr| |apply Hr].
  - repeat apply Forall_app_2; [apply Forall_take, Hr|done|apply Forall_drop, Hr].
  - rewrite <- Hlen. by rewrite <- (with_bytes_len r a b) by lia.
Qed.

Lemma with_bytes_same r a b : 0 <= a -> a + py_len b <= py_len (memory r) ->
  bytes_at (with_bytes r a b) a (py_len b) = b.
Proof.
  intros Ha Hb. unfold bytes_at, with_bytes, py_len in *. simpl.
  rewrite drop_app_length' by (rewrite length_take; lia). by rewrite take_app_length' by lia.
Qed.

(** A single byte of the result. *)
Lemma with_bytes_byte r a b x : 0 <= a -> a + py_len b <= py_len (memory r) -> 0 <= x ->
  mem_byte (with_bytes r a b) x =
    if (a <=? x) && (x <? a + py_len b) then default 0 (b !! Z.to_nat (x - a)) else mem_byte r x.
Proof.
  intros Ha Hb Hx. unfold mem_byte.
  assert (forall l : list Z, default 0 (py_get l x) = default 0 (l !! Z.to_nat x)) as Hget.
  { intros l. destruct (decide (x < py_len l)); [by rewrite py_get_in|].
    unfold py_get. rewrite py_index_none by (unfold py_len in *; lia).
    by rewrite lookup_ge_None_2 by (unfold py_len in *; lia). }
  rewrite !Hget. unfold with_bytes, py_len in *. simpl.
  destruct (Z.leb_spec a x); simpl.
  - rewrite lookup_app_r by (rewrite length_take; lia). rewrite length_take.
    destruct (Z.ltb_spec x (a + Z.of_nat (length b))); simpl.
    + rewrite lookup_app_l by lia. f_equal. f_equal. lia.
    + rewrite lookup_app_r by lia. rewrite lookup_drop. f_equal. f_equal. lia.
  - rewrite lookup_app_l by (rewrite length_take; lia). by rewrite lookup_take_lt by lia.
Qed.

(** ** Theorems *)

(** C27: SafeRAM is a little-endian byte memory: loads of every width return the value
    of the bytes at the address, aligned or not, and leave the memory alone; stores
    change exactly the addressed bytes, to the bytes of the value; and an access that
    leaves [0, size) is a MemoryAccessError that changes nothing. *)
Theorem safe_memory_spec (r : ram) (a v : Z) (s : bool) (Hr : wf_ram r) :
  SafeRAM_load_byte a s r =
    (if in_bounds r a 1 then (Ok (sign8 s (mem_byte r a)), r) else (Exn (out_of_bounds a), r)) /\
  SafeRAM_load_half a s r =
    (if in_bounds r a 2 then (Ok (sign16 s (mem_half r a)), r) else (Exn (out_of_bounds a), r)) /\
  SafeRAM_load_word a r =
    (if in_bounds r a 4 then (Ok (mem_word r a), r) else (Exn (out_of_bounds a), r)) /\
  store_ok r a 1 v (SafeRAM_store_byte a v r) /\
  store_ok r a 2 v (SafeRAM_store_half a v r) /\
  store_ok r a 4 v (SafeRAM_store_word a v r).
Proof.
  auto 7 using SafeRAM_load_byte_eq, SafeRAM_load_half_eq, SafeRAM_load_word_eq,
    SafeRAM_store_byte_ok, SafeRAM_store_half_ok, SafeRAM_store_word_ok.
Qed.

(** A word stored through SafeRAM is read back by a load of the same
    address, modulo 2^32, and every word that does not overlap it is unchanged. *)
Theorem safe_word_roundtrip (r : ram) (a v : Z) (Hr : wf_ram r) (Hb : in_bounds r a 4 = true) :
  exists r', SafeRAM_store_word a v r = (Ok tt, r') /\
    SafeRAM_load_word a r' = (Ok (v mod 2 ^ 32), r') /\
    (forall b, b + 4 <= a \/ a + 4 <= b ->
       fst (SafeRAM_load_word b r') = fst (SafeRAM_load_word b r)).
Proof.
  pose proof (SafeRAM_store_word_ok r a v Hr) as Hs. unfold store_ok in Hs.
  rewrite Hb in Hs. destruct Hs as (r' & Hs & Hst). apply in_bounds_spec in Hb as [Ha Hsz].
  pose proof (stored_wf _ _ _ _ _ Hst) as Hr'. pose proof (stored_size _ _ _ _ _ Hst) as Hs'.
  exists r'. split_and!; [done| |].
  - rewrite SafeRAM_load_word_eq by done. unfold in_bounds. rewrite Hs'.
    rewrite !(proj2 (Z.leb_le _ _)) by lia. by rewrite (stored_word_same r a v).
  - intros b Hdis. rewrite !SafeRAM_load_word_eq by done. unfold in_bounds. rewrite Hs'.
    destruct (0 <=? b) eqn:E0; [|done]. destruct (b + 4 <=? size r) eqn:E1; [|done].
    simpl. f_equal. by rewrite (stored_word_other r a 4 v r' b Hst) by lia.
Qed.

(** C28: the unchecked RAM and the checked SafeRAM are the same memory inside the
    bounds: every load and store that SafeRAM accepts has the same outcome and
    leaves the same memory in RAM. *)
Theorem ram_refines_saferam (r : ram) (a v : Z) (s : bool) (Hr : wf_ram r) :
  (in_bounds r a 1 = true -> RAM_load_byte a s r = SafeRAM_load_byte a s r /\
                             RAM_store_byte a v r = SafeRAM_store_byte a v r) /\
  (in_bounds r a 2 = true -> RAM_load_half a s r = SafeRAM_load_half a s r /\
                             RAM_store_half a v r = SafeRAM_store_half a v r) /\
  (in_bounds r a 4 = true -> RAM_load_word a r = SafeRAM_load_word a r /\
                             RAM_store_word a v r = SafeRAM_store_word a v r).
Proof.
  pose proof (wf_len r Hr).
  split_and!; intros Hb; pose proof (proj1 (in_bounds_spec _ _ _) Hb); split.
  1: unfold SafeRAM_load_byte. 2: unfold SafeRAM_store_byte. 3: unfold SafeRAM_load_half.
  4: unfold SafeRAM_store_half. 5: unfold SafeRAM_load_word. 6: unfold SafeRAM_store_word.
  all: rewrite checked_eq, Hb.
  - rewrite body_load_byte_eq by lia. apply on_index_error_ok, body_load_byte_eq. lia.
  - rewrite body_store_byte_eq by lia. apply on_index_error_ok, body_store_byte_eq. lia.
  - rewrite body_load_half_eq by lia. apply on_index_error_ok, body_load_half_eq; lia.
  - rewrite body_store_half_eq by lia. apply on_index_error_ok, body_store_half_eq; lia.
  - rewrite body_load_word_eq by (try done; lia).
    apply on_index_error_ok, body_load_word_eq; try done; lia.
  - rewrite body_store_word_eq by (try done; lia).
    apply on_index_error_ok, body_store_word_eq; try done; lia.
Qed.
