(* ===== verification/Cpu.v ===== *)
(** * The processor of cpu.py: state, traps, timer and integer handlers

    [cpu] is the CPU object.  The methods that touch nothing but the CPU, and the
    opcode handlers that do not access memory, are computations over [cpu]; the
    handlers that reach the memory or the system-call handler are in Exec.v.
    Register and CSR numbers index Python lists, so that an out-of-range number is
    an IndexError; the decoded fields never are. *)

From Stdlib Require Import ZArith Lia Bool String.
From stdpp Require Import base numbers list option gmap strings.
From S2P Require Import Prelude PyFloat PyStr Isa.

Local Open Scope Z_scope.
Local Open Scope py_scope.

(** ** State *)

(** An entry of the decode caches. *)
Record decoded := mkDecoded {
  d_opcode : Z; d_rd : Z; d_funct3 : Z; d_rs1 : Z; d_rs2 : Z; d_funct7 : Z
}.

#[export] Instance decoded_eq_dec : EqDecision decoded.
Proof. solve_decision. Defined.

Record cpu := mkCpu {
  registers : list Z;
  pc : Z;
  next_pc : Z;
  csrs : list Z;
  mtime : Z;
  mtimecmp : Z;
  mtime_lo_updated : bool;
  mtime_hi_updated : bool;
  mtimecmp_lo_updated : bool;
  mtimecmp_hi_updated : bool;
  mtime_countdown : option Z;
  mtip : bool;
  reservation_valid : bool;
  reservation_addr : Z;
  rvc_enabled : bool;
  alignment_mask : Z;
  has_logger : bool;
  decode_cache : gmap Z decoded;
  decode_cache_compressed : gmap Z (decoded * Z)
}.

Definition set_registers (v : list Z) (c : cpu) : cpu :=
  mkCpu v (pc c) (next_pc c) (csrs c) (mtime c) (mtimecmp c) (mtime_lo_updated c)
    (mtime_hi_updated c) (mtimecmp_lo_updated c) (mtimecmp_hi_updated c) (mtime_countdown c)
    (mtip c) (reservation_valid c) (reservation_addr c) (rvc_enabled c) (alignment_mask c)
    (has_logger c) (decode_cache c) (decode_cache_compressed c).

Definition set_pc (v : Z) (c : cpu) : cpu :=
  mkCpu (registers c) v (next_pc c) (csrs c) (mtime c) (mtimecmp c) (mtime_lo_updated c)
    (mtime_hi_updated c) (mtimecmp_lo_updated c) (mtimecmp_hi_updated c) (mtime_countdown c)
    (mtip c) (reservation_valid c) (reservation_addr c) (rvc_enabled c) (alignment_mask c)
    (has_logger c) (decode_cache c) (decode_cache_compressed c).

Definition set_next_pc (v : Z) (c : cpu) : cpu :=
  mkCpu (registers c) (pc c) v (csrs c) (mtime c) (mtimecmp c) (mtime_lo_updated c)
    (mtime_hi_updated c) (mtimecmp_lo_updated c) (mtimecmp_hi_updated c) (mtime_countdown c)
    (mtip c) (reservation_valid c) (reservation_addr c) (rvc_enabled c) (alignment_mask c)
    (has_logger c) (decode_cache c) (decode_cache_compressed c).

Definition set_csrs (v : list Z) (c : cpu) : cpu :=
  mkCpu (registers c) (pc c) (next_pc c) v (mtime c) (mtimecmp c) (mtime_lo_updated c)
    (mtime_hi_updated c) (mtimecmp_lo_updated c) (mtimecmp_hi_updated c) (mtime_countdown c)
    (mtip c) (reservation_valid c) (reservation_addr c) (rvc_enabled c) (alignment_mask c)
    (has_logger c) (decode_cache c) (decode_cache_compressed c).

Definition set_mtime (v : Z) (c : cpu) : cpu :=
  mkCpu (registers c) (pc c) (next_pc c) (csrs c) v (mtimecmp c) (mtime_lo_updated c)
    (mtime_hi_updated c) (mtimecmp_lo_updated c) (mtimecmp_hi_updated c) (mtime_countdown c)
    (mtip c) (reservation_valid c) (reservation_addr c) (rvc_enabled c) (alignment_mask c)
    (has_logger c) (decode_cache c) (decode_cache_compressed c).

Definition set_mtimecmp (v : Z) (c : cpu) : cpu :=
  mkCpu (registers c) (pc c) (next_pc c) (csrs c) (mtime c) v (mtime_lo_updated c)
    (mtime_hi_updated c) (mtimecmp_lo_updated c) (mtimecmp_hi_updated c) (mtime_countdown c)
    (mtip c) (reservation_valid c) (reservation_addr c) (rvc_enabled c) (alignment_mask c)
    (has_logger c) (decode_cache c) (decode_cache_compressed c).

Definition set_mtime_lo_updated (v : bool) (c : cpu) : cpu :=
  mkCpu (registers c) (pc c) (next_pc c) (csrs c) (mtime c) (mtimecmp c) v
    (mtime_hi_updated c) (mtimecmp_lo_updated c) (mtimecmp_hi_updated c) (mtime_countdown c)
    (mtip c) (reservation_valid c) (reservation_addr c) (rvc_enabled c) (alignment_mask c)
    (has_logger c) (decode_cache c) (decode_cache_compressed c).

Definition set_mtime_hi_updated (v : bool) (c : cpu) : cpu :=
  mkCpu (registers c) (pc c) (next_pc c) (csrs c) (mtime c) (mtimecmp c)
    (mtime_lo_updated c) v (mtimecmp_lo_updated c) (mtimecmp_hi_updated c)
    (mtime_countdown c) (mtip c) (reservation_valid c) (reservation_addr c) (rvc_enabled c)
    (alignment_mask c) (has_logger c) (decode_cache c) (decode_cache_compressed c).

Definition set_mtimecmp_lo_updated (v : bool) (c : cpu) : cpu :=
  mkCpu (registers c) (pc c) (next_pc c) (csrs c) (mtime c) (mtimecmp c)
    (mtime_lo_updated c) (mtime_hi_updated c) v (mtimecmp_hi_updated c) (mtime_countdown c)
    (mtip c) (reservation_valid c) (reservation_addr c) (rvc_enabled c) (alignment_mask c)
    (has_logger c) (decode_cache c) (decode_cache_compressed c).

Definition set_mtimecmp_hi_updated (v : bool) (c : cpu) : cpu :=
  mkCpu (registers c) (pc c) (next_pc c) (csrs c) (mtime c) (mtimecmp c)
    (mtime_lo_updated c) (mtime_hi_updated c) (mtimecmp_lo_updated c) v (mtime_countdown c)
    (mtip c) (reservation_valid c) (reservation_addr c) (rvc_enabled c) (alignment_mask c)
    (has_logger c) (decode_cache c) (decode_cache_compressed c).

Definition set_mtime_countdown (v : option Z) (c : cpu) : cpu :=
  mkCpu (registers c) (pc c) (next_pc c) (csrs c) (mtime c) (mtimecmp c)
    (mtime_lo_updated c) (mtime_hi_updated c) (mtimecmp_lo_updated c)
    (mtimecmp_hi_updated c) v (mtip c) (reservation_valid c) (reservation_addr c)
    (rvc_enabled c) (alignment_mask c) (has_logger c) (decode_cache c)
    (decode_cache_compressed c).

Definition set_mtip (v : bool) (c : cpu) : cpu :=
  mkCpu (registers c) (pc c) (next_pc c) (csrs c) (mtime c) (mtimecmp c)
    (mtime_lo_updated c) (mtime_hi_updated c) (mtimecmp_lo_updated c)
    (mtimecmp_hi_updated c) (mtime_countdown c) v (reservation_valid c) (reservation_addr c)
    (rvc_enabled c) (alignment_mask c) (has_logger c) (decode_cache c)
    (decode_cache_compressed c).

Definition set_reservation_valid (v : bool) (c : cpu) : cpu :=
  mkCpu (registers c) (pc c) (next_pc c) (csrs c) (mtime c) (mtimecmp c)
    (mtime_lo_updated c) (mtime_hi_updated c) (mtimecmp_lo_updated c)
    (mtimecmp_hi_updated c) (mtime_countdown c) (mtip c) v (reservation_addr c)
    (rvc_enabled c) (alignment_mask c) (has_logger c) (decode_cache c)
    (decode_cache_compressed c).

Definition set_reservation_addr (v : Z) (c : cpu) : cpu :=
  mkCpu (registers c) (pc c) (next_pc c) (csrs c) (mtime c) (mtimecmp c)
    (mtime_lo_updated c) (mtime_hi_updated c) (mtimecmp_lo_updated c)
    (mtimecmp_hi_updated c) (mtime_countdown c) (mtip c) (reservation_valid c) v
    (rvc_enabled c) (alignment_mask c) (has_logger c) (decode_cache c)
    (decode_cache_compressed c).

Definition set_rvc_enabled (v : bool) (c : cpu) : cpu :=
  mkCpu (registers c) (pc c) (next_pc c) (csrs c) (mtime c) (mtimecmp c)
    (mtime_lo_updated c) (mtime_hi_updated c) (mtimecmp_lo_updated c)
    (mtimecmp_hi_updated c) (mtime_countdown c) (mtip c) (reservation_valid c)
    (reservation_addr c) v (alignment_mask c) (has_logger c) (decode_cache c)
    (decode_cache_compressed c).

Definition set_alignment_mask (v : Z) (c : cpu) : cpu :=
  mkCpu (registers c) (pc c) (next_pc c) (csrs c) (mtime c) (mtimecmp c)
    (mtime_lo_updated c) (mtime_hi_updated c) (mtimecmp_lo_updated c)
    (mtimecmp_hi_updated c) (mtime_countdown c) (mtip c) (reservation_valid c)
    (reservation_addr c) (rvc_enabled c) v (has_logger c) (decode_cache c)
    (decode_cache_compressed c).

Definition set_has_logger (v : bool) (c : cpu) : cpu :=
  mkCpu (registers c) (pc c) (next_pc c) (csrs c) (mtime c) (mtimecmp c)
    (mtime_lo_updated c) (mtime_hi_updated c) (mtimecmp_lo_updated c)
    (mtimecmp_hi_updated c) (mtime_countdown c) (mtip c) (reservation_valid c)
    (reservation_addr c) (rvc_enabled c) (alignment_mask c) v (decode_cache c)
    (decode_cache_compressed c).

Definition set_decode_cache (v : gmap Z decoded) (c : cpu) : cpu :=
  mkCpu (registers c) (pc c) (next_pc c) (csrs c) (mtime c) (mtimecmp c)
    (mtime_lo_updated c) (mtime_hi_updated c) (mtimecmp_lo_updated c)
    (mtimecmp_hi_updated c) (mtime_countdown c) (mtip c) (reservation_valid c)
    (reservation_addr c) (rvc_enabled c) (alignment_mask c) (has_logger c) v
    (decode_cache_compressed c).

Definition set_decode_cache_compressed (v : gmap Z (decoded * Z)) (c : cpu) : cpu :=
  mkCpu (registers c) (pc c) (next_pc c) (csrs c) (mtime c) (mtimecmp c)
    (mtime_lo_updated c) (mtime_hi_updated c) (mtimecmp_lo_updated c)
    (mtimecmp_hi_updated c) (mtime_countdown c) (mtip c) (reservation_valid c)
    (reservation_addr c) (rvc_enabled c) (alignment_mask c) (has_logger c) (decode_cache c)
    v.

(** Read-only CSRs: writes trap ([CSR_RO]) or are ignored ([CSR_NOWRITE]). *)
Definition CSR_RO (csr : Z) : bool :=
  (csr =? 0xF11) || (csr =? 0xF12) || (csr =? 0xF13) || (csr =? 0xF14).

Definition CSR_NOWRITE (csr : Z) : bool :=
  (csr =? 0x301) || (csr =? 0xB02) || (csr =? 0xB82) ||
  (csr =? 0x7A0) || (csr =? 0x7A1) || (csr =? 0x7A2).

(** [init_registers(mode)]; [getrandbits32 i] is the random value of register i. *)
Definition init_registers (getrandbits32 : nat -> Z) (mode : string) (regs : list Z)
    : res (list Z) :=
  let fill (f : nat -> Z) := Ok (imap (fun i _ => match i with O => 0 | _ => f i end) regs) in
  if String.eqb mode "random" then fill getrandbits32
  else match py_int 0 mode with
       | Some v => let value := Z.land v 0xFFFFFFFF in fill (fun _ => value)
       | None => Exn (SetupError "Invalid --init-regs value")
       end.

(** The CSR file of a new CPU. *)
Definition initial_csrs (rvc : bool) : list Z :=
  <[Z.to_nat 0xF13 := 0x20250400]> (<[Z.to_nat 0xF12 := 0x00000001]>
  (<[Z.to_nat 0x7C3 := 0xFFFFFFFF]> (<[Z.to_nat 0x7C2 := 0xFFFFFFFF]>
  (<[Z.to_nat 0x300 := 0x00001800]>
  (<[Z.to_nat 0x301 := Z.lor 0x40001101 (if rvc then Z.shiftl 1 2 else 0)]>
  (replicate (Z.to_nat 4096) 0)))))).

(** [CPU(ram, rvc_enabled, init_regs, logger)]: pc, the timer, the reservation
    and the caches are reset. *)
Definition CPU_init (getrandbits32 : nat -> Z) (rvc : bool) (init_regs : option string)
    (logger : bool) : res cpu :=
  let zero := replicate 32 0 in
  let regs := match init_regs with
              | Some mode => if String.eqb mode "zero" then Ok zero
                             else init_registers getrandbits32 mode zero
              | None => Ok zero
              end in
  match regs with
  | Exn e => Exn e
  | Ok regs =>
      Ok (mkCpu regs 0 0 (initial_csrs rvc) 0 0xFFFFFFFFFFFFFFFF
            false false false false None false false 0
            rvc (if rvc then 0x1 else 0x3) logger ∅ ∅)
  end.

(** ** Elementary accesses *)

(** [cpu.registers[i]] *)
Definition reg (i : Z) : ST cpu Z :=
  fun c => of_option IndexError (py_get (registers c) i) c.

(** [cpu.registers[i] = v] *)
Definition set_reg (i v : Z) : ST cpu unit :=
  fun c => match py_set (registers c) i v with
           | Some l => (Ok tt, set_registers l c)
           | None => (Exn IndexError, c)
           end.

(** [cpu.csrs[i]] *)
Definition csr (i : Z) : ST cpu Z :=
  fun c => of_option IndexError (py_get (csrs c) i) c.

(** [cpu.csrs[i] = v] *)
Definition set_csr (i v : Z) : ST cpu unit :=
  fun c => match py_set (csrs c) i v with
           | Some l => (Ok tt, set_csrs l c)
           | None => (Exn IndexError, c)
           end.

(** ** Traps and the timer *)

(** [trap(cause, mtval, sync)] *)
Definition trap (cause mtval : Z) (sync : bool) : ST cpu unit :=
  mtvec <- csr 0x305 ;;
  if mtvec =? 0 then
    p <- gets pc ;; raise (ExecutionTerminated (TrapWithoutHandler p cause))
  else
    epc <- gets (if sync then pc else next_pc) ;;
    set_csr 0x341 epc ;;;
    set_csr 0x342 cause ;;;
    set_csr 0x343 mtval ;;;
    mstatus <- csr 0x300 ;;
    let mie := Z.land (Z.shiftr mstatus 3) 1 in
    let mstatus := Z.land mstatus (Z.lnot (Z.lor (Z.shiftl 1 3) (Z.shiftl 1 7))) in
    let mstatus := Z.lor mstatus (Z.shiftl mie 7) in
    set_csr 0x300 mstatus ;;;
    mtvec <- csr 0x305 ;;
    modify (set_next_pc (Z.land mtvec (Z.lnot 0x3))).

(** [cpu.trap(cause=2, mtval=inst)] *)
Definition illegal (inst : Z) : ST cpu unit := trap 2 inst true.

(** [bypassed_trap_return(cause, mtval)] *)
Definition bypassed_trap_return (cause mtval : Z) : ST cpu unit :=
  p <- gets pc ;;
  set_csr 0x341 p ;;;
  set_csr 0x342 cause ;;;
  set_csr 0x343 mtval ;;;
  mstatus <- csr 0x300 ;;
  set_csr 0x300 (Z.lor mstatus (Z.shiftl 1 7)).

(** [timer_update()] *)
Definition timer_update : ST cpu unit :=
  mt <- gets mtime ;;
  modify (set_mtime (mt + 1)) ;;;
  cmp <- gets mtimecmp ;;
  let mtip_asserted := cmp <=? mt in
  tip <- gets mtip ;;
  (if negb (eqb mtip_asserted tip) then
     mip <- csr 0x344 ;;
     (if mtip_asserted then set_csr 0x344 (Z.lor mip (Z.shiftl 1 7))
      else set_csr 0x344 (Z.land mip (Z.lnot (Z.shiftl 1 7)))) ;;;
     modify (set_mtip mtip_asserted)
   else ret tt) ;;;
  if negb mtip_asserted then ret tt
  else
    mstatus <- csr 0x300 ;;
    if Z.land mstatus (Z.shiftl 1 3) =? 0 then ret tt
    else
      mie <- csr 0x304 ;;
      if Z.land mie (Z.shiftl 1 7) =? 0 then ret tt
      else trap 0x80000007 0 false.

(** ** Opcode handlers *)

Definition signed32 (val : Z) : Z :=
  if val <? 0x80000000 then val else val - 0x100000000.

Definition exec_Rtype (inst rd funct3 rs1 rs2 funct7 : Z) : ST cpu unit :=
  if funct3 =? 0x0 then
    if funct7 =? 0x00 then
      a <- reg rs1 ;; b <- reg rs2 ;; set_reg rd (Z.land (a + b) 0xFFFFFFFF)
    else if funct7 =? 0x20 then
      a <- reg rs1 ;; b <- reg rs2 ;; set_reg rd (Z.land (a - b) 0xFFFFFFFF)
    else if funct7 =? 0x01 then
      a <- reg rs1 ;; b <- reg rs2 ;;
      set_reg rd (Z.land (signed32 a * signed32 b) 0xFFFFFFFF)
    else illegal inst
  else if funct3 =? 0x1 then
    if funct7 =? 0x00 then
      a <- reg rs1 ;; b <- reg rs2 ;;
      set_reg rd (Z.land (Z.shiftl a (Z.land b 0x1F)) 0xFFFFFFFF)
    else if funct7 =? 0x01 then
      a <- reg rs1 ;; b <- reg rs2 ;;
      set_reg rd (Z.land (Z.shiftr (signed32 a * signed32 b) 32) 0xFFFFFFFF)
    else illegal inst
  else if funct3 =? 0x2 then
    if funct7 =? 0x00 then
      a <- reg rs1 ;; b <- reg rs2 ;; set_reg rd (Z.b2z (signed32 a <? signed32 b))
    else if funct7 =? 0x01 then
      a <- reg rs1 ;; b <- reg rs2 ;;
      set_reg rd (Z.land (Z.shiftr (signed32 a * Z.land b 0xFFFFFFFF) 32) 0xFFFFFFFF)
    else illegal inst
  else if funct3 =? 0x3 then
    if funct7 =? 0x00 then
      a <- reg rs1 ;; b <- reg rs2 ;;
      set_reg rd (Z.b2z (Z.land a 0xFFFFFFFF <? Z.land b 0xFFFFFFFF))
    else if funct7 =? 0x01 then
      a <- reg rs1 ;; b <- reg rs2 ;;
      set_reg rd (Z.land (Z.shiftr (Z.land a 0xFFFFFFFF * Z.land b 0xFFFFFFFF) 32) 0xFFFFFFFF)
    else illegal inst
  else if funct3 =? 0x4 then
    if funct7 =? 0x00 then
      a <- reg rs1 ;; b <- reg rs2 ;; set_reg rd (Z.lxor a b)
    else if funct7 =? 0x01 then
      a <- reg rs1 ;; b <- reg rs2 ;;
      let dividend := signed32 a in
      let divisor := signed32 b in
      if divisor =? 0 then set_reg rd 0xFFFFFFFF
      else if (dividend =? -0x80000000) && (divisor =? -1) then set_reg rd 0x80000000
      else q <- of_option OverflowError (py_div dividend divisor) ;;
           set_reg rd (Z.land q 0xFFFFFFFF)
    else illegal inst
  else if funct3 =? 0x5 then
    b <- reg rs2 ;;
    let shamt := Z.land b 0x1F in
    if funct7 =? 0x00 then
      a <- reg rs1 ;; set_reg rd (Z.shiftr (Z.land a 0xFFFFFFFF) shamt)
    else if funct7 =? 0x20 then
      a <- reg rs1 ;; set_reg rd (Z.land (Z.shiftr (signed32 a) shamt) 0xFFFFFFFF)
    else if funct7 =? 0x01 then
      a <- reg rs1 ;; b <- reg rs2 ;;
      let dividend := Z.land a 0xFFFFFFFF in
      let divisor := Z.land b 0xFFFFFFFF in
      if divisor =? 0 then set_reg rd 0xFFFFFFFF
      else set_reg rd (Z.land (dividend / divisor) 0xFFFFFFFF)
    else illegal inst
  else if funct3 =? 0x6 then
    if funct7 =? 0x00 then
      a <- reg rs1 ;; b <- reg rs2 ;; set_reg rd (Z.lor a b)
    else if funct7 =? 0x01 then
      a <- reg rs1 ;; b <- reg rs2 ;;
      let dividend := signed32 a in
      let divisor := signed32 b in
      if divisor =? 0 then set_reg rd (Z.land a 0xFFFFFFFF)
      else if (dividend =? -0x80000000) && (divisor =? -1) then set_reg rd 0
      else q <- of_option OverflowError (py_div dividend divisor) ;;
           set_reg rd (Z.land (dividend - q * divisor) 0xFFFFFFFF)
    else illegal inst
  else if funct3 =? 0x7 then
    if funct7 =? 0x00 then
      a <- reg rs1 ;; b <- reg rs2 ;; set_reg rd (Z.land a b)
    else if funct7 =? 0x01 then
      a <- reg rs1 ;; b <- reg rs2 ;;
      let dividend := Z.land a 0xFFFFFFFF in
      let divisor := Z.land b 0xFFFFFFFF in
      if divisor =? 0 then set_reg rd (Z.land a 0xFFFFFFFF)
      else set_reg rd (Z.land (dividend mod divisor) 0xFFFFFFFF)
    else illegal inst
  else ret tt.

(** [imm_i = inst >> 20; if imm_i >= 0x800: imm_i -= 0x1000] *)
Definition get_imm_i (inst : Z) : Z :=
  let imm_i := Z.shiftr inst 20 in
  if 0x800 <=? imm_i then imm_i - 0x1000 else imm_i.

Definition exec_Itype (inst rd funct3 rs1 funct7 : Z) : ST cpu unit :=
  let imm_i := get_imm_i inst in
  if funct3 =? 0x0 then
    a <- reg rs1 ;; set_reg rd (Z.land (a + imm_i) 0xFFFFFFFF)
  else if funct3 =? 0x1 then
    if funct7 =? 0x00 then
      a <- reg rs1 ;; set_reg rd (Z.land (Z.shiftl a (Z.land imm_i 0x1F)) 0xFFFFFFFF)
    else illegal inst
  else if funct3 =? 0x2 then
    a <- reg rs1 ;; set_reg rd (Z.b2z (signed32 a <? signed32 imm_i))
  else if funct3 =? 0x3 then
    a <- reg rs1 ;; set_reg rd (Z.b2z (Z.land a 0xFFFFFFFF <? Z.land imm_i 0xFFFFFFFF))
  else if funct3 =? 0x4 then
    a <- reg rs1 ;; set_reg rd (Z.land (Z.lxor a imm_i) 0xFFFFFFFF)
  else if funct3 =? 0x5 then
    let shamt := Z.land imm_i 0x1F in
    if funct7 =? 0x00 then
      a <- reg rs1 ;; set_reg rd (Z.shiftr (Z.land a 0xFFFFFFFF) shamt)
    else if funct7 =? 0x20 then
      a <- reg rs1 ;; set_reg rd (Z.land (Z.shiftr (signed32 a) shamt) 0xFFFFFFFF)
    else illegal inst
  else if funct3 =? 0x6 then
    a <- reg rs1 ;; set_reg rd (Z.land (Z.lor a imm_i) 0xFFFFFFFF)
  else if funct3 =? 0x7 then
    a <- reg rs1 ;; set_reg rd (Z.land (Z.land a imm_i) 0xFFFFFFFF)
  else ret tt.

(** A jump or a taken branch: [k] runs when the target is aligned. *)
Definition check_target (addr_target : Z) (k : ST cpu unit) : ST cpu unit :=
  mask <- gets alignment_mask ;;
  if negb (Z.land addr_target mask =? 0) then trap 0 addr_target true else k.

Definition exec_branches (inst funct3 rs1 rs2 : Z) : ST cpu unit :=
  a <- reg rs1 ;; b <- reg rs2 ;;
  if ((funct3 =? 0x0) && (a =? b)) ||
     ((funct3 =? 0x1) && negb (a =? b)) ||
     ((funct3 =? 0x4) && (signed32 a <? signed32 b)) ||
     ((funct3 =? 0x5) && (signed32 b <=? signed32 a)) ||
     ((funct3 =? 0x6) && (Z.land a 0xFFFFFFFF <? Z.land b 0xFFFFFFFF)) ||
     ((funct3 =? 0x7) && (Z.land b 0xFFFFFFFF <=? Z.land a 0xFFFFFFFF))
  then
    let imm_b := Z.lor (Z.lor (Z.lor (Z.shiftl (Z.land (Z.shiftr inst 7) 0x1) 11)
                                     (Z.shiftl (Z.land (Z.shiftr inst 8) 0xF) 1))
                              (Z.shiftl (Z.land (Z.shiftr inst 25) 0x3F) 5))
                       (Z.shiftl (Z.shiftr inst 31) 12) in
    let imm_b := if 0x1000 <=? imm_b then imm_b - 0x2000 else imm_b in
    p <- gets pc ;;
    let addr_target := Z.land (p + imm_b) 0xFFFFFFFF in
    check_target addr_target (modify (set_next_pc addr_target))
  else if (funct3 =? 0x2) || (funct3 =? 0x3) then illegal inst
  else ret tt.

Definition exec_LUI (inst rd : Z) : ST cpu unit :=
  let imm_u := Z.shiftr inst 12 in
  set_reg rd (Z.land (Z.shiftl imm_u 12) 0xFFFFFFFF).

Definition exec_AUIPC (inst rd : Z) : ST cpu unit :=
  let imm_u := Z.shiftr inst 12 in
  p <- gets pc ;;
  set_reg rd (Z.land (p + Z.shiftl imm_u 12) 0xFFFFFFFF).

(** The link register and the jump of JAL and JALR. *)
Definition link_and_jump (inst_size rd addr_target : Z) : ST cpu unit :=
  (if negb (rd =? 0)
   then p <- gets pc ;; set_reg rd (Z.land (p + inst_size) 0xFFFFFFFF)
   else ret tt) ;;;
  modify (set_next_pc addr_target).

Definition exec_JAL (inst inst_size rd : Z) : ST cpu unit :=
  let imm_j := Z.lor (Z.lor (Z.lor (Z.shiftl (Z.land (Z.shiftr inst 21) 0x3FF) 1)
                                   (Z.shiftl (Z.land (Z.shiftr inst 20) 0x1) 11))
                            (Z.shiftl (Z.land (Z.shiftr inst 12) 0xFF) 12))
                     (Z.shiftl (Z.shiftr inst 31) 20) in
  let imm_j := if 0x100000 <=? imm_j then imm_j - 0x200000 else imm_j in
  p <- gets pc ;;
  let addr_target := Z.land (p + imm_j) 0xFFFFFFFF in
  check_target addr_target (link_and_jump inst_size rd addr_target).

Definition exec_JALR (inst inst_size rd funct3 rs1 : Z) : ST cpu unit :=
  if negb (funct3 =? 0x0) then illegal inst
  else
    let imm_i := get_imm_i inst in
    a <- reg rs1 ;;
    let addr_target := Z.land (a + imm_i) 0xFFFFFFFE in
    check_target addr_target (link_and_jump inst_size rd addr_target).

Definition exec_MISCMEM (inst funct3 : Z) : ST cpu unit :=
  if (funct3 =? 0) || (funct3 =? 1) then ret tt else illegal inst.

(** MRET *)
Definition exec_MRET : ST cpu unit :=
  mepc <- csr 0x341 ;;
  check_target mepc (
    modify (set_next_pc mepc) ;;;
    mstatus <- csr 0x300 ;;
    let mpie := Z.land (Z.shiftr mstatus 7) 1 in
    let mstatus := Z.lor (Z.land mstatus (Z.lnot (Z.shiftl 1 3))) (Z.shiftl mpie 3) in
    let mstatus := Z.lor mstatus (Z.shiftl 1 7) in
    set_csr 0x300 mstatus).

(** The 64-bit timer registers change when both halves have been written. *)
Definition update_mtime (n : Z) : ST cpu unit :=
  modify (fun c => set_mtime_lo_updated (mtime_lo_updated c || (n =? 0x7C0)) c) ;;;
  modify (fun c => set_mtime_hi_updated (mtime_hi_updated c || (n =? 0x7C1)) c) ;;;
  both <- gets (fun c => mtime_lo_updated c && mtime_hi_updated c) ;;
  if both : bool then
    hi <- csr 0x7C1 ;; lo <- csr 0x7C0 ;;
    modify (set_mtime (Z.lor (Z.shiftl hi 32) lo)) ;;;
    modify (set_mtime_lo_updated false) ;;;
    modify (set_mtime_hi_updated false) ;;;
    modify (fun c => set_mtip (mtimecmp c <=? mtime c) c)
  else ret tt.

Definition update_mtimecmp (n : Z) : ST cpu unit :=
  modify (fun c => set_mtimecmp_lo_updated (mtimecmp_lo_updated c || (n =? 0x7C2)) c) ;;;
  modify (fun c => set_mtimecmp_hi_updated (mtimecmp_hi_updated c || (n =? 0x7C3)) c) ;;;
  both <- gets (fun c => mtimecmp_lo_updated c && mtimecmp_hi_updated c) ;;
  if both : bool then
    hi <- csr 0x7C3 ;; lo <- csr 0x7C2 ;;
    modify (set_mtimecmp (Z.lor (Z.shiftl hi 32) lo)) ;;;
    modify (set_mtimecmp_lo_updated false) ;;;
    modify (set_mtimecmp_hi_updated false) ;;;
    modify (fun c => set_mtime_countdown (Some (mtimecmp c - mtime c)) c) ;;;
    modify (fun c => set_mtip (mtimecmp c <=? mtime c) c)
  else ret tt.

(** The value a CSR instruction returns: the timer registers are read live. *)
Definition csr_result (n old : Z) : ST cpu Z :=
  gets (fun c =>
    if n =? 0x7C0 then Z.land (mtime c) 0xFFFFFFFF
    else if n =? 0x7C1 then Z.land (Z.shiftr (mtime c) 32) 0xFFFFFFFF
    else if n =? 0x7C2 then Z.land (mtimecmp c) 0xFFFFFFFF
    else if n =? 0x7C3 then Z.land (Z.shiftr (mtimecmp c) 32) 0xFFFFFFFF
    else old).

(** CSRRW[I], CSRRS[I], CSRRC[I]: the trap of a read-only CSR does not end the
    handler, which goes on to the write and the register result. *)
Definition exec_CSR (inst rd funct3 rs1 : Z) : ST cpu unit :=
  let n := Z.land (Z.shiftr inst 20) 0xFFF in
  old <- csr n ;;
  rs1_val <- (if funct3 <? 5 then reg rs1 else ret rs1) ;;
  let is_rw := (funct3 =? 1) || (funct3 =? 5) in
  (if CSR_RO n && (is_rw || negb (rs1_val =? 0)) then illegal inst else ret tt) ;;;
  (if is_rw then
     (if n =? 0x305 then set_csr n (Z.land rs1_val (Z.lnot 0x3))
      else if negb (CSR_NOWRITE n) then set_csr n rs1_val else ret tt) ;;;
     (if (n =? 0x7C0) || (n =? 0x7C1) then update_mtime n else ret tt) ;;;
     (if (n =? 0x7C2) || (n =? 0x7C3) then update_mtimecmp n else ret tt)
   else if (funct3 =? 2) || (funct3 =? 6) then
     (if negb (rs1_val =? 0) && negb (CSR_NOWRITE n) then set_csr n (Z.lor old rs1_val)
      else ret tt)
   else if (funct3 =? 3) || (funct3 =? 7) then
     (if negb (rs1_val =? 0) && negb (CSR_NOWRITE n)
      then set_csr n (Z.land old (Z.lnot rs1_val)) else ret tt)
   else ret tt) ;;;
  (if n =? 0x300 then mstatus <- csr 0x300 ;; set_csr 0x300 (Z.lor mstatus 0x00001800)
   else ret tt) ;;;
  if negb (rd =? 0) then
    old <- csr_result n old ;; set_reg rd old
  else ret tt.

(** ** Decoding to fields *)

(** The fields execute_32 and execute_16 extract from an instruction word. *)
Definition decode_fields (inst : Z) : decoded :=
  mkDecoded (Z.land inst 0x7F) (Z.land (Z.shiftr inst 7) 0x1F) (Z.land (Z.shiftr inst 12) 0x7)
    (Z.land (Z.shiftr inst 15) 0x1F) (Z.land (Z.shiftr inst 20) 0x1F)
    (Z.land (Z.shiftr inst 25) 0x7F).

(** ** Well-formed processors

    The register file and the CSR file have their sizes and hold 32-bit values,
    the program counters are 32-bit values, and a cached decoding is the decoding
    of some instruction. *)

Definition fields_ok (d : decoded) : Prop :=
  0 <= d_rd d < 32 /\ 0 <= d_rs1 d < 32 /\ 0 <= d_rs2 d < 32 /\ 0 <= d_funct3 d < 8.

Record wf_cpu (c : cpu) : Prop := {
  wf_regs_len : py_len (registers c) = 32;
  wf_regs : Forall u32 (registers c);
  wf_csrs_len : py_len (csrs c) = 4096;
  wf_csrs : Forall u32 (csrs c);
  wf_pc : u32 (pc c);
  wf_next_pc : u32 (next_pc c);
  wf_mtime : 0 <= mtime c;
  wf_mtimecmp : u64 (mtimecmp c);
  wf_align_mask : alignment_mask c = 0x1 \/ alignment_mask c = 0x3;
  wf_cache : forall k d, decode_cache c !! k = Some d -> fields_ok d;
  wf_cache_c : forall k d e, decode_cache_compressed c !! k = Some (d, e) ->
                 fields_ok d /\ u32 e
}.

(** The value of a register and of a CSR. *)
Definition rv (c : cpu) (i : Z) : Z := default 0 (py_get (registers c) i).
Definition cv (c : cpu) (i : Z) : Z := default 0 (py_get (csrs c) i).

(** A register and a CSR written. *)
Definition wr (i v : Z) (c : cpu) : cpu :=
  set_registers (<[Z.to_nat i := v]> (registers c)) c.
Definition wc (i v : Z) (c : cpu) : cpu :=
  set_csrs (<[Z.to_nat i := v]> (csrs c)) c.

Lemma decode_fields_ok inst : fields_ok (decode_fields inst).
Proof.
  unfold fields_ok. cbn [decode_fields d_rd d_rs1 d_rs2 d_funct3].
  rewrite !land_1f, land_7. repeat split; apply Z.mod_pos_bound; lia.
Qed.

Section CpuLemmas.
Implicit Types c : cpu.

Lemma rv_u32 c i : wf_cpu c -> u32 (rv c i).
Proof.
  intros Hc. unfold rv. destruct (py_get _ _) eqn:E; simpl; [|by unfold uN].
  eapply py_get_Forall; [apply (wf_regs c Hc)|done].
Qed.

Lemma cv_u32 c i : wf_cpu c -> u32 (cv c i).
Proof.
  intros Hc. unfold cv. destruct (py_get _ _) eqn:E; simpl; [|by unfold uN].
  eapply py_get_Forall; [apply (wf_csrs c Hc)|done].
Qed.

Lemma reg_eq c i : py_len (registers c) = 32 -> 0 <= i < 32 -> reg i c = (Ok (rv c i), c).
Proof.
  intros Hl Hi. unfold reg, rv.
  destruct (py_get_is_Some (registers c) i) as [v ->]; [lia|done].
Qed.

Lemma set_reg_eq c i v : py_len (registers c) = 32 -> 0 <= i < 32 ->
  set_reg i v c = (Ok tt, wr i v c).
Proof. intros Hl Hi. unfold set_reg, wr. by rewrite py_set_in by lia. Qed.

Lemma csr_eq c i : py_len (csrs c) = 4096 -> 0 <= i < 4096 -> csr i c = (Ok (cv c i), c).
Proof.
  intros Hl Hi. unfold csr, cv.
  destruct (py_get_is_Some (csrs c) i) as [v ->]; [lia|done].
Qed.

Lemma set_csr_eq c i v : py_len (csrs c) = 4096 -> 0 <= i < 4096 ->
  set_csr i v c = (Ok tt, wc i v c).
Proof. intros Hl Hi. unfold set_csr, wc. by rewrite py_set_in by lia. Qed.

Lemma wr_len c i v : py_len (registers (wr i v c)) = py_len (registers c).
Proof. unfold py_len, wr. simpl. by rewrite length_insert. Qed.

Lemma wc_len c i v : py_len (csrs (wc i v c)) = py_len (csrs c).
Proof. unfold py_len, wc. simpl. by rewrite length_insert. Qed.

Lemma rv_wr c i j v : py_len (registers c) = 32 -> 0 <= i < 32 -> 0 <= j ->
  rv (wr i v c) j = if i =? j then v else rv c j.
Proof.
  intros Hl Hi Hj. unfold rv.
  assert (py_set (registers c) i v = Some (registers (wr i v c))) as Hset
    by (apply py_set_in; lia).
  destruct (Z.eqb_spec i j) as [->|Hne].
  - by rewrite (py_get_set_eq _ _ _ _ Hset).
  - by rewrite (py_get_set_ne _ _ _ _ _ (proj1 Hi) Hj Hne Hset).
Qed.

Lemma cv_wc c i j v : py_len (csrs c) = 4096 -> 0 <= i < 4096 -> 0 <= j ->
  cv (wc i v c) j = if i =? j then v else cv c j.
Proof.
  intros Hl Hi Hj. unfold cv.
  assert (py_set (csrs c) i v = Some (csrs (wc i v c))) as Hset
    by (apply py_set_in; lia).
  destruct (Z.eqb_spec i j) as [->|Hne].
  - by rewrite (py_get_set_eq _ _ _ _ Hset).
  - by rewrite (py_get_set_ne _ _ _ _ _ (proj1 Hi) Hj Hne Hset).
Qed.

Lemma wr_wf c i v : wf_cpu c -> u32 v -> wf_cpu (wr i v c).
Proof.
  intros [] Hv. split; simpl; try done; [|by apply Forall_insert].
  by rewrite <- (wr_len c i v) in *.
Qed.

Lemma wc_wf c i v : wf_cpu c -> u32 v -> wf_cpu (wc i v c).
Proof.
  intros [] Hv. split; simpl; try done; [|by apply Forall_insert].
  by rewrite <- (wc_len c i v) in *.
Qed.
End CpuLemmas.

(** ** Invariants of the processor

    [CpuInv I]: an invariant that implies well-formedness and is only sensitive
    to the decode caches beyond it.  [wf_cpu] is the weakest; the coherence of the
    caches is another. *)

Class CpuInv (I : cpu -> Prop) : Prop := {
  inv_wf : forall c, I c -> wf_cpu c;
  inv_frame : forall c c', I c -> wf_cpu c' ->
    decode_cache c' = decode_cache c ->
    decode_cache_compressed c' = decode_cache_compressed c -> I c'
}.

#[export] Instance wf_cpu_inv : CpuInv wf_cpu.
Proof. by split. Qed.

Abbreviation cpu_safe I m Q := (keeps machine_error I m Q).

Section Safety.
Context (I : cpu -> Prop) `{HI : CpuInv I}.
Implicit Types c : cpu.

Lemma reg_safe i : 0 <= i < 32 -> cpu_safe I (reg i) u32.
Proof.
  intros Hi c Hc. pose proof (inv_wf c Hc). rewrite reg_eq by (done || by apply wf_regs_len).
  auto using rv_u32.
Qed.

Lemma set_reg_safe i v : 0 <= i < 32 -> u32 v -> cpu_safe I (set_reg i v) (fun _ => True).
Proof.
  intros Hi Hv c Hc. pose proof (inv_wf c Hc).
  rewrite set_reg_eq by (done || by apply wf_regs_len).
  split; [|done]. eapply inv_frame; [exact Hc|by apply wr_wf|done..].
Qed.

Lemma csr_safe i : 0 <= i < 4096 -> cpu_safe I (csr i) u32.
Proof.
  intros Hi c Hc. pose proof (inv_wf c Hc). rewrite csr_eq by (done || by apply wf_csrs_len).
  auto using cv_u32.
Qed.

Lemma set_csr_safe i v : 0 <= i < 4096 -> u32 v -> cpu_safe I (set_csr i v) (fun _ => True).
Proof.
  intros Hi Hv c Hc. pose proof (inv_wf c Hc).
  rewrite set_csr_eq by (done || by apply wf_csrs_len).
  split; [|done]. eapply inv_frame; [exact Hc|by apply wc_wf|done..].
Qed.

Lemma gets_pc_safe : cpu_safe I (gets pc) u32.
Proof. apply keeps_gets. intros c Hc. by apply wf_pc, inv_wf. Qed.

Lemma gets_epc_safe (sync : bool) : cpu_safe I (gets (if sync then pc else next_pc)) u32.
Proof.
  apply keeps_gets. intros c Hc%inv_wf. destruct sync; [by apply wf_pc|by apply wf_next_pc].
Qed.

Lemma gets_mtime_safe : cpu_safe I (gets mtime) (fun v => 0 <= v).
Proof. apply keeps_gets. intros c Hc. by apply wf_mtime, inv_wf. Qed.

Lemma modify_safe (f : cpu -> cpu) : (forall c, wf_cpu c -> wf_cpu (f c)) ->
  (forall c, decode_cache (f c) = decode_cache c) ->
  (forall c, decode_cache_compressed (f c) = decode_cache_compressed c) ->
  cpu_safe I (modify f) (fun _ => True).
Proof.
  intros Hf H1 H2. apply keeps_modify; [|done]. intros c Hc.
  eapply inv_frame; [exact Hc|by apply Hf, inv_wf|done..].
Qed.

Lemma set_next_pc_safe v : u32 v -> cpu_safe I (modify (set_next_pc v)) (fun _ => True).
Proof. intros Hv. apply modify_safe; try done. by intros c []. Qed.

Lemma set_mtime_safe v : 0 <= v -> cpu_safe I (modify (set_mtime v)) (fun _ => True).
Proof. intros Hv. apply modify_safe; try done. by intros c []. Qed.

Lemma set_mtimecmp_safe v : u64 v -> cpu_safe I (modify (set_mtimecmp v)) (fun _ => True).
Proof. intros Hv. apply modify_safe; try done. by intros c []. Qed.
End Safety.

#[export] Hint Extern 1 (keeps _ _ (reg _) _) => apply reg_safe; [exact _|lia] : keeps.
#[export] Hint Extern 1 (keeps _ _ (set_reg _ _) _) =>
  apply set_reg_safe; [exact _|lia|auto with words] : keeps.
#[export] Hint Extern 1 (keeps _ _ (csr _) _) => apply csr_safe; [exact _|lia] : keeps.
#[export] Hint Extern 1 (keeps _ _ (set_csr _ _) _) =>
  apply set_csr_safe; [exact _|lia|auto with words] : keeps.
#[export] Hint Extern 1 (keeps _ _ (gets pc) _) => apply gets_pc_safe; exact _ : keeps.
#[export] Hint Extern 1 (keeps _ _ (gets mtime) _) => apply gets_mtime_safe; exact _ : keeps.
#[export] Hint Extern 1 (keeps _ _ (gets (if _ then pc else next_pc)) _) =>
  apply gets_epc_safe; exact _ : keeps.
#[export] Hint Extern 1 (keeps _ _ (modify (set_next_pc _)) _) =>
  apply set_next_pc_safe; [exact _|auto with words] : keeps.
#[export] Hint Extern 3 (keeps _ _ (modify _) _) =>
  apply modify_safe; [exact _|by intros ? []|done|done] : keeps.

Section TrapSafety.
Context (I : cpu -> Prop) `{HI : CpuInv I}.

Lemma trap_safe cause mtval sync : u32 cause -> u32 mtval ->
  cpu_safe I (trap cause mtval sync) (fun _ => True).
Proof. intros Hc Hm. unfold trap. keep. Qed.

Lemma illegal_safe inst : u32 inst -> cpu_safe I (illegal inst) (fun _ => True).
Proof. intros. unfold illegal. apply trap_safe; auto with words. Qed.
End TrapSafety.

#[export] Hint Extern 1 (keeps _ _ (trap _ _ _) _) =>
  apply trap_safe; [exact _|auto with words|auto with words] : keeps.
#[export] Hint Extern 1 (keeps _ _ (illegal _) _) =>
  apply illegal_safe; [exact _|auto with words] : keeps.
