(* ===== verification/Rvc.v ===== *)
(** * Compressed instructions: rvc.py

    [expand_compressed] turns a 16-bit instruction into the 32-bit word it
    stands for and a success flag, quadrant by quadrant.  [rvc_spec] is the
    meaning the ISA manual gives to a compressed instruction, as an instruction
    of Isa.v; the theorem says that decoding the expansion gives exactly it. *)

From Stdlib Require Import ZArith Lia Bool.
From stdpp Require Import base numbers option list.
From S2P Require Import Prelude Isa.

Local Open Scope Z_scope.
Local Open Scope bits_scope.

(** ** The expansion *)

Definition expand_C0 (c_inst funct3 : Z) : Z * bool :=
  if funct3 =? 0 then (* C.ADDI4SPN *)
    let nzuimm := (c_inst >> 7) .& 0x30 .| (c_inst >> 1) .& 0x3C0
                  .| (c_inst >> 4) .& 0x4 .| (c_inst >> 2) .& 0x8 in
    let rd_prime := ((c_inst >> 2) .& 0x7) + 8 in
    if nzuimm =? 0 then (0, false)
    else ((nzuimm << 20) .| (2 << 15) .| (0 << 12) .| (rd_prime << 7) .| 0x13, true)
  else if funct3 =? 2 then (* C.LW *)
    let imm := (c_inst >> 7) .& 0x38 .| (c_inst >> 4) .& 0x4 .| (c_inst << 1) .& 0x40 in
    let rs1_prime := ((c_inst >> 7) .& 0x7) + 8 in
    let rd_prime := ((c_inst >> 2) .& 0x7) + 8 in
    ((imm << 20) .| (rs1_prime << 15) .| (0x2 << 12) .| (rd_prime << 7) .| 0x03, true)
  else if funct3 =? 6 then (* C.SW *)
    let imm := (c_inst >> 7) .& 0x38 .| (c_inst >> 4) .& 0x4 .| (c_inst << 1) .& 0x40 in
    let rs1_prime := ((c_inst >> 7) .& 0x7) + 8 in
    let rs2_prime := ((c_inst >> 2) .& 0x7) + 8 in
    let imm_low := imm .& 0x1F in
    let imm_high := (imm >> 5) .& 0x7F in
    ((imm_high << 25) .| (rs2_prime << 20) .| (rs1_prime << 15) .| (0x2 << 12)
     .| (imm_low << 7) .| 0x23, true)
  else (0, false).

(** The 12-bit offset of C.J and C.JAL and its place in JAL. *)
Definition cj_imm (c_inst : Z) : Z :=
  let imm := (c_inst >> 1) .& 0x800 .| (c_inst << 2) .& 0x400 .| (c_inst >> 1) .& 0x300
             .| (c_inst << 1) .& 0x80 .| (c_inst >> 1) .& 0x40 .| (c_inst << 3) .& 0x20
             .| (c_inst >> 7) .& 0x10 .| (c_inst >> 2) .& 0xE in
  if negb (imm .& 0x800 =? 0) then imm - 0x1000 else imm.

Definition jal_imm_bits (imm : Z) : Z :=
  ((imm .& 0x100000) << 11) .| ((imm .& 0x7FE) << 20) .| ((imm .& 0x800) << 9) .| (imm .& 0xFF000).

(** The offset of C.BEQZ and C.BNEZ and its place in BEQ. *)
Definition cb_imm (c_inst : Z) : Z :=
  let imm := (c_inst >> 4) .& 0x100 .| (c_inst << 1) .& 0xC0 .| (c_inst << 3) .& 0x20
             .| (c_inst >> 7) .& 0x18 .| (c_inst >> 2) .& 0x6 in
  if negb (imm .& 0x100 =? 0) then imm - 0x200 else imm.

Definition branch_imm_bits (imm : Z) : Z :=
  ((imm .& 0x1000) << 19) .| ((imm .& 0x7E0) << 20) .| ((imm .& 0x1E) << 7) .| ((imm .& 0x800) >> 4).

(** The 6-bit immediate of the CI format, before and after sign extension. *)
Definition ci_uimm (c_inst : Z) : Z := (c_inst >> 7) .& 0x20 .| (c_inst >> 2) .& 0x1F.

Definition ci_imm (c_inst : Z) : Z :=
  let imm := ci_uimm c_inst in
  if negb (imm .& 0x20 =? 0) then imm - 0x40 else imm.

(** Funct3 = 100 of quadrant 1. *)
Definition expand_C1_arith (c_inst : Z) : Z * bool :=
  let funct2 := (c_inst >> 10) .& 0x3 in
  let rd_rs1_prime := ((c_inst >> 7) .& 0x7) + 8 in
  if funct2 =? 0 then (* C.SRLI *)
    let shamt := ci_uimm c_inst in
    if shamt =? 0 then (0, false)
    else ((0x00 << 25) .| (shamt << 20) .| (rd_rs1_prime << 15) .| (0x5 << 12)
          .| (rd_rs1_prime << 7) .| 0x13, true)
  else if funct2 =? 1 then (* C.SRAI *)
    let shamt := ci_uimm c_inst in
    if shamt =? 0 then (0, false)
    else ((0x20 << 25) .| (shamt << 20) .| (rd_rs1_prime << 15) .| (0x5 << 12)
          .| (rd_rs1_prime << 7) .| 0x13, true)
  else if funct2 =? 2 then (* C.ANDI *)
    let imm := ci_imm c_inst .& 0xFFF in
    ((imm << 20) .| (rd_rs1_prime << 15) .| (0x7 << 12) .| (rd_rs1_prime << 7) .| 0x13, true)
  else if funct2 =? 3 then
    let funct2_low := (c_inst >> 5) .& 0x3 in
    let rs2_prime := ((c_inst >> 2) .& 0x7) + 8 in
    let bit12 := (c_inst >> 12) .& 0x1 in
    if bit12 =? 0 then
      if funct2_low =? 0 then (* C.SUB *)
        ((0x20 << 25) .| (rs2_prime << 20) .| (rd_rs1_prime << 15) .| (0x0 << 12)
         .| (rd_rs1_prime << 7) .| 0x33, true)
      else if funct2_low =? 1 then (* C.XOR *)
        ((0x00 << 25) .| (rs2_prime << 20) .| (rd_rs1_prime << 15) .| (0x4 << 12)
         .| (rd_rs1_prime << 7) .| 0x33, true)
      else if funct2_low =? 2 then (* C.OR *)
        ((0x00 << 25) .| (rs2_prime << 20) .| (rd_rs1_prime << 15) .| (0x6 << 12)
         .| (rd_rs1_prime << 7) .| 0x33, true)
      else if funct2_low =? 3 then (* C.AND *)
        ((0x00 << 25) .| (rs2_prime << 20) .| (rd_rs1_prime << 15) .| (0x7 << 12)
         .| (rd_rs1_prime << 7) .| 0x33, true)
      else (0, false)
    else (0, false)
  else (0, false).

Definition expand_C1 (c_inst funct3 : Z) : Z * bool :=
  if funct3 =? 0 then (* C.NOP / C.ADDI *)
    let rd_rs1 := (c_inst >> 7) .& 0x1F in
    let imm := ci_imm c_inst .& 0xFFF in
    ((imm << 20) .| (rd_rs1 << 15) .| (0 << 12) .| (rd_rs1 << 7) .| 0x13, true)
  else if funct3 =? 1 then (* C.JAL *)
    (jal_imm_bits (cj_imm c_inst) .| (1 << 7) .| 0x6F, true)
  else if funct3 =? 2 then (* C.LI *)
    let rd := (c_inst >> 7) .& 0x1F in
    let imm := ci_imm c_inst .& 0xFFF in
    ((imm << 20) .| (0 << 15) .| (0 << 12) .| (rd << 7) .| 0x13, true)
  else if funct3 =? 3 then
    let rd := (c_inst >> 7) .& 0x1F in
    if rd =? 2 then (* C.ADDI16SP *)
      let nzimm := (c_inst >> 3) .& 0x200 .| (c_inst >> 2) .& 0x10 .| (c_inst << 1) .& 0x40
                   .| (c_inst << 4) .& 0x180 .| (c_inst << 3) .& 0x20 in
      let nzimm := if negb (nzimm .& 0x200 =? 0) then nzimm - 0x400 else nzimm in
      if nzimm =? 0 then (0, false)
      else
        let imm := nzimm .& 0xFFF in
        ((imm << 20) .| (2 << 15) .| (0 << 12) .| (2 << 7) .| 0x13, true)
    else (* C.LUI *)
      let nzimm := ci_imm c_inst in
      if (nzimm =? 0) || (rd =? 0) then (0, false)
      else
        let imm_20bit := nzimm .& 0xFFFFF in
        ((imm_20bit << 12) .| (rd << 7) .| 0x37, true)
  else if funct3 =? 4 then expand_C1_arith c_inst
  else if funct3 =? 5 then (* C.J *)
    (jal_imm_bits (cj_imm c_inst) .| (0 << 7) .| 0x6F, true)
  else if funct3 =? 6 then (* C.BEQZ *)
    let rs1_prime := ((c_inst >> 7) .& 0x7) + 8 in
    (branch_imm_bits (cb_imm c_inst) .| (0 << 20) .| (rs1_prime << 15) .| (0x0 << 12) .| 0x63, true)
  else if funct3 =? 7 then (* C.BNEZ *)
    let rs1_prime := ((c_inst >> 7) .& 0x7) + 8 in
    (branch_imm_bits (cb_imm c_inst) .| (0 << 20) .| (rs1_prime << 15) .| (0x1 << 12) .| 0x63, true)
  else (0, false).

Definition expand_C2 (c_inst funct3 : Z) : Z * bool :=
  if funct3 =? 0 then (* C.SLLI *)
    let shamt := ci_uimm c_inst in
    let rd_rs1 := (c_inst >> 7) .& 0x1F in
    if (shamt =? 0) || (rd_rs1 =? 0) then (0, false)
    else ((0x00 << 25) .| (shamt << 20) .| (rd_rs1 << 15) .| (0x1 << 12)
          .| (rd_rs1 << 7) .| 0x13, true)
  else if funct3 =? 2 then (* C.LWSP *)
    let offset_5 := (c_inst >> 12) .& 0x1 in
    let offset_4_2 := (c_inst >> 4) .& 0x7 in
    let offset_7_6 := (c_inst >> 2) .& 0x3 in
    let imm := (offset_7_6 << 6) .| (offset_5 << 5) .| (offset_4_2 << 2) in
    let rd := (c_inst >> 7) .& 0x1F in
    if rd =? 0 then (0, false)
    else ((imm << 20) .| (2 << 15) .| (0x2 << 12) .| (rd << 7) .| 0x03, true)
  else if funct3 =? 4 then
    let bit12 := (c_inst >> 12) .& 0x1 in
    let rs1 := (c_inst >> 7) .& 0x1F in
    let rs2 := (c_inst >> 2) .& 0x1F in
    if bit12 =? 0 then
      if rs2 =? 0 then (* C.JR *)
        if rs1 =? 0 then (0, false)
        else ((0 << 20) .| (rs1 << 15) .| (0 << 12) .| (0 << 7) .| 0x67, true)
      else (* C.MV *)
        if rs1 =? 0 then (0, false)
        else ((0x00 << 25) .| (rs2 << 20) .| (0 << 15) .| (0x0 << 12) .| (rs1 << 7) .| 0x33, true)
    else
      if (rs1 =? 0) && (rs2 =? 0) then (0x00100073, true) (* C.EBREAK *)
      else if rs2 =? 0 then (* C.JALR *)
        ((0 << 20) .| (rs1 << 15) .| (0 << 12) .| (1 << 7) .| 0x67, true)
      else (* C.ADD *)
        ((0x00 << 25) .| (rs2 << 20) .| (rs1 << 15) .| (0x0 << 12) .| (rs1 << 7) .| 0x33, true)
  else if funct3 =? 6 then (* C.SWSP *)
    let imm := (c_inst >> 7) .& 0x3C .| (c_inst >> 1) .& 0xC0 in
    let rs2 := (c_inst >> 2) .& 0x1F in
    let imm_low := imm .& 0x1F in
    let imm_high := (imm >> 5) .& 0x7F in
    ((imm_high << 25) .| (rs2 << 20) .| (2 << 15) .| (0x2 << 12) .| (imm_low << 7) .| 0x23, true)
  else (0, false).

Definition expand_compressed (c_inst : Z) : Z * bool :=
  let quadrant := c_inst .& 0x3 in
  let funct3 := (c_inst >> 13) .& 0x7 in
  if quadrant =? 0 then expand_C0 c_inst funct3
  else if quadrant =? 1 then expand_C1 c_inst funct3
  else if quadrant =? 2 then expand_C2 c_inst funct3
  else (0, false).

(** ** The specification: RV32C of the ISA manual *)

(** One bit of [c], moved to position [p]. *)
Definition bit (c i p : Z) : Z := field c i 1 * 2 ^ p.

(** A three-bit register field names x8 to x15. *)
Definition creg (c lo : Z) : Z := field c lo 3 + 8.

(** Immediates, bit by bit as the manual's tables give them. *)
Definition imm_CIW (c : Z) : Z := field c 11 2 * 2 ^ 4 + field c 7 4 * 2 ^ 6 + bit c 6 2 + bit c 5 3.
Definition imm_CL (c : Z) : Z := field c 10 3 * 2 ^ 3 + bit c 6 2 + bit c 5 6.
Definition imm_CI (c : Z) : Z := sext 6 (bit c 12 5 + field c 2 5).
Definition shamt_CI (c : Z) : Z := field c 2 5.
Definition imm_CI16 (c : Z) : Z :=
  sext 10 (bit c 12 9 + bit c 6 4 + bit c 5 6 + field c 3 2 * 2 ^ 7 + bit c 2 5).
Definition imm_CLWSP (c : Z) : Z := bit c 12 5 + field c 4 3 * 2 ^ 2 + field c 2 2 * 2 ^ 6.
Definition imm_CSWSP (c : Z) : Z := field c 9 4 * 2 ^ 2 + field c 7 2 * 2 ^ 6.
Definition imm_CJ (c : Z) : Z :=
  sext 12 (bit c 12 11 + bit c 11 4 + field c 9 2 * 2 ^ 8 + bit c 8 10 + bit c 7 6 + bit c 6 7
           + field c 3 3 * 2 + bit c 2 5).
Definition imm_CB (c : Z) : Z :=
  sext 9 (bit c 12 8 + field c 10 2 * 2 ^ 3 + field c 5 2 * 2 ^ 6 + field c 3 2 * 2 + bit c 2 5).

Definition rvc_spec_C0 (c : Z) : option instr :=
  match field c 13 3 with
  | 0 => if imm_CIW c =? 0 then None else Some (OpImm ADD (creg c 2) 2 (imm_CIW c))
  | 2 => Some (Load LW (creg c 2) (creg c 7) (imm_CL c))
  | 6 => Some (Store SW (creg c 7) (creg c 2) (imm_CL c))
  | _ => None
  end.

(** Shift amounts of RV32C have bit 12 clear; the emulator also rejects a zero
    shift amount, a hint. *)
Definition rvc_shift (o : rop) (c rd : Z) : option instr :=
  if field c 12 1 =? 1 then None
  else if shamt_CI c =? 0 then None else Some (OpImm o rd rd (shamt_CI c)).

Definition rvc_spec_C1 (c : Z) : option instr :=
  let rd := field c 7 5 in
  match field c 13 3 with
  | 0 => Some (OpImm ADD rd rd (imm_CI c))
  | 1 => Some (Jal 1 (imm_CJ c))
  | 2 => Some (OpImm ADD rd 0 (imm_CI c))
  | 3 => if rd =? 2
         then if imm_CI16 c =? 0 then None else Some (OpImm ADD 2 2 (imm_CI16 c))
         else if (imm_CI c =? 0) || (rd =? 0) then None
              else Some (Lui rd (wrap (imm_CI c * 2 ^ 12)))
  | 4 => match field c 10 2 with
         | 0 => rvc_shift SRL c (creg c 7)
         | 1 => rvc_shift SRA c (creg c 7)
         | 2 => Some (OpImm AND (creg c 7) (creg c 7) (imm_CI c))
         | _ => if field c 12 1 =? 0
                then Some (Op (match field c 5 2 with 0 => SUB | 1 => XOR | 2 => OR | _ => AND end)
                              (creg c 7) (creg c 7) (creg c 2))
                else None
         end
  | 5 => Some (Jal 0 (imm_CJ c))
  | 6 => Some (Branch BEQ (creg c 7) 0 (imm_CB c))
  | _ => Some (Branch BNE (creg c 7) 0 (imm_CB c))
  end.

Definition rvc_spec_C2 (c : Z) : option instr :=
  let rd := field c 7 5 in
  let rs2 := field c 2 5 in
  match field c 13 3 with
  | 0 => if rd =? 0 then None else rvc_shift SLL c rd
  | 2 => if rd =? 0 then None else Some (Load LW rd 2 (imm_CLWSP c))
  | 4 => if field c 12 1 =? 0
         then if rd =? 0 then None
              else if rs2 =? 0 then Some (Jalr 0 rd 0) else Some (Op ADD rd 0 rs2)
         else if rs2 =? 0 then if rd =? 0 then Some Ebreak else Some (Jalr 1 rd 0)
              else Some (Op ADD rd rd rs2)
  | 6 => Some (Store SW 2 rs2 (imm_CSWSP c))
  | _ => None
  end.

Definition rvc_spec (c : Z) : option instr :=
  match field c 0 2 with
  | 0 => rvc_spec_C0 c
  | 1 => rvc_spec_C1 c
  | 2 => rvc_spec_C2 c
  | _ => None
  end.

(** What the emulator makes of a compressed instruction: [None] when the
    expansion fails or the expanded word has no meaning. *)
Definition rvc_meaning (c : Z) : option instr :=
  let '(e, ok) := expand_compressed c in
  if ok : bool then decode e else None.

(** ** From masks and shifts to fields and sums *)

Lemma field_testbit z lo n i : 0 <= lo -> 0 <= n -> 0 <= i ->
  Z.testbit (field z lo n) i = (i <? n) && Z.testbit z (i + lo).
Proof.
  intros. unfold field. rewrite <- Z.land_ones, <- Z.shiftr_div_pow2 by lia.
  rewrite Z.land_spec, Z.shiftr_spec by lia.
  destruct (Z.ltb_spec i n).
  - by rewrite Z.ones_spec_low, andb_true_r by lia.
  - by rewrite Z.ones_spec_high, andb_false_r by lia.
Qed.

(** A contiguous mask selects a field. *)
Lemma land_field z m k n : 0 <= k -> 0 <= n -> m = Z.shiftl (Z.ones n) k ->
  Z.land z m = field z k n * 2 ^ k.
Proof.
  intros Hk Hn ->. rewrite <- Z.shiftl_mul_pow2 by done.
  apply Z.bits_inj'. intros i Hi.
  rewrite Z.land_spec, !Z.shiftl_spec by done.
  destruct (decide (k <= i)).
  - rewrite field_testbit by lia. replace (i - k + k) with i by lia.
    destruct (Z.ltb_spec (i - k) n).
    + by rewrite Z.ones_spec_low, andb_true_r by lia.
    + by rewrite Z.ones_spec_high, andb_false_r by lia.
  - by rewrite !(Z.testbit_neg_r _ (i - k)), andb_false_r by lia.
Qed.

Lemma field_shiftr z s lo n : 0 <= s -> 0 <= lo ->
  field (Z.shiftr z s) lo n = field z (lo + s) n.
Proof.
  intros. unfold field. rewrite Z.shiftr_div_pow2, Z.div_div by lia.
  by rewrite <- Z.pow_add_r, Z.add_comm by lia.
Qed.

Lemma field_shiftl z s lo n : 0 <= s <= lo -> 0 <= n ->
  field (Z.shiftl z s) lo n = field z (lo - s) n.
Proof.
  intros. apply Z.bits_inj'. intros i Hi. rewrite !field_testbit, Z.shiftl_spec by lia.
  by replace (i + (lo - s)) with (i + lo - s) by lia.
Qed.

(** Disjoint masks make [|] an addition. *)
Definition within (m a : Z) : Prop := Z.land a m = a.

Lemma within_land a m : within m (Z.land a m).
Proof. unfold within. by rewrite <- Z.land_assoc, Z.land_diag. Qed.

Lemma within_const m a : Z.land a m = a -> within m a.
Proof. done. Qed.

Lemma within_shiftl m a k : 0 <= k -> within m a -> within (Z.shiftl m k) (Z.shiftl a k).
Proof. intros Hk Ha. unfold within in *. by rewrite <- Z.shiftl_land, Ha. Qed.

Lemma within_shiftr m a k : 0 <= k -> within m a -> within (Z.shiftr m k) (Z.shiftr a k).
Proof. intros Hk Ha. unfold within in *. by rewrite <- Z.shiftr_land, Ha. Qed.

Lemma within_ones n a : 0 <= n -> 0 <= a < 2 ^ n -> within (Z.ones n) a.
Proof. intros. unfold within. rewrite Z.land_ones by done. by apply Z.mod_small. Qed.

Lemma within_lor m1 m2 a b : within m1 a -> within m2 b -> within (Z.lor m1 m2) (Z.lor a b).
Proof.
  unfold within. intros Ha Hb. rewrite Z.land_lor_distr_l, !Z.land_lor_distr_r.
  rewrite Ha, Hb. rewrite <- Ha at 2. rewrite <- Hb at 1.
  apply Z.bits_inj'. intros i Hi. rewrite !Z.lor_spec, !Z.land_spec.
  rewrite <- Ha, <- Hb, !Z.land_spec.
  destruct (Z.testbit a i), (Z.testbit b i), (Z.testbit m1 i), (Z.testbit m2 i); done.
Qed.

Lemma lor_add m1 m2 a b : within m1 a -> within m2 b -> Z.land m1 m2 = 0 ->
  Z.lor a b = a + b.
Proof.
  unfold within. intros Ha Hb Hm.
  assert (Z.land a b = 0) as H.
  { rewrite <- Ha, <- Hb. apply Z.bits_inj'. intros i Hi.
    assert (Z.testbit (Z.land m1 m2) i = false) as Hi0 by (by rewrite Hm, Z.testbit_0_l).
    rewrite Z.land_spec in Hi0. rewrite !Z.land_spec, Z.testbit_0_l.
    destruct (Z.testbit m1 i), (Z.testbit m2 i); try done; rewrite ?andb_false_r; done. }
  rewrite <- Z.lxor_lor by done. symmetry. by apply Z.add_nocarry_lxor.
Qed.

(** ** Decoding a word from its fields *)

Section DecodeFormats.
Context (e : Z).

Lemma decode_OpImm (f3 rd rs1 imm : Z) (op : rop) :
  field e 0 7 = 0x13 -> field e 12 3 = f3 -> iop_of f3 (field e 25 7) = Some (op, false) ->
  field e 7 5 = rd -> field e 15 5 = rs1 -> imm_I e = imm ->
  decode e = Some (OpImm op rd rs1 imm).
Proof. intros H1 H2 H3 H4 H5 H6. unfold decode. by rewrite H1, H2, H3, H4, H5, H6. Qed.

Lemma decode_shift (f3 f7 rd rs1 sh : Z) (op : rop) :
  field e 0 7 = 0x13 -> field e 12 3 = f3 -> field e 25 7 = f7 ->
  iop_of f3 f7 = Some (op, true) ->
  field e 7 5 = rd -> field e 15 5 = rs1 -> field e 20 5 = sh ->
  decode e = Some (OpImm op rd rs1 sh).
Proof. intros H1 H2 H3 H4 H5 H6 H7. unfold decode. by rewrite H1, H2, H3, H4, H5, H6, H7. Qed.

Lemma decode_bad_shift (f3 f7 : Z) :
  field e 0 7 = 0x13 -> field e 12 3 = f3 -> field e 25 7 = f7 -> iop_of f3 f7 = None ->
  decode e = None.
Proof. intros H1 H2 H3 H4. unfold decode. by rewrite H1, H2, H3, H4. Qed.

Lemma decode_Op (f3 f7 rd rs1 rs2 : Z) (op : rop) :
  field e 0 7 = 0x33 -> field e 12 3 = f3 -> field e 25 7 = f7 -> rop_of f3 f7 = Some op ->
  field e 7 5 = rd -> field e 15 5 = rs1 -> field e 20 5 = rs2 ->
  decode e = Some (Op op rd rs1 rs2).
Proof. intros H1 H2 H3 H4 H5 H6 H7. unfold decode. by rewrite H1, H2, H3, H4, H5, H6, H7. Qed.

Lemma decode_LW (rd rs1 imm : Z) :
  field e 0 7 = 0x03 -> field e 12 3 = 2 -> field e 7 5 = rd -> field e 15 5 = rs1 ->
  imm_I e = imm -> decode e = Some (Load LW rd rs1 imm).
Proof. intros H1 H2 H3 H4 H5. unfold decode. by rewrite H1, H2, H3, H4, H5. Qed.

Lemma decode_SW (rs1 rs2 imm : Z) :
  field e 0 7 = 0x23 -> field e 12 3 = 2 -> field e 15 5 = rs1 -> field e 20 5 = rs2 ->
  imm_S e = imm -> decode e = Some (Store SW rs1 rs2 imm).
Proof. intros H1 H2 H3 H4 H5. unfold decode. by rewrite H1, H2, H3, H4, H5. Qed.

Lemma decode_Branch (f3 rs1 rs2 imm : Z) (op : bop) :
  field e 0 7 = 0x63 -> field e 12 3 = f3 -> bop_of f3 = Some op ->
  field e 15 5 = rs1 -> field e 20 5 = rs2 -> imm_B e = imm ->
  decode e = Some (Branch op rs1 rs2 imm).
Proof. intros H1 H2 H3 H4 H5 H6. unfold decode. by rewrite H1, H2, H3, H4, H5, H6. Qed.

Lemma decode_Lui (rd imm : Z) :
  field e 0 7 = 0x37 -> field e 7 5 = rd -> imm_U e = imm -> decode e = Some (Lui rd imm).
Proof. intros H1 H2 H3. unfold decode. by rewrite H1, H2, H3. Qed.

Lemma decode_Jal (rd imm : Z) :
  field e 0 7 = 0x6F -> field e 7 5 = rd -> imm_J e = imm -> decode e = Some (Jal rd imm).
Proof. intros H1 H2 H3. unfold decode. by rewrite H1, H2, H3. Qed.

Lemma decode_Jalr (rd rs1 imm : Z) :
  field e 0 7 = 0x67 -> field e 12 3 = 0 -> field e 7 5 = rd -> field e 15 5 = rs1 ->
  imm_I e = imm -> decode e = Some (Jalr rd rs1 imm).
Proof. intros H1 H2 H3 H4 H5. unfold decode. by rewrite H1, H2, H3, H4, H5. Qed.
End DecodeFormats.

(** ** Automation *)

Lemma within_self m : within m m.
Proof. apply Z.land_diag. Qed.

Ltac solve_within :=
  match goal with
  | |- within _ (Z.lor _ _) => eapply within_lor; solve_within
  | |- within _ (Z.land _ _) => apply within_land
  | |- within _ (Z.shiftl _ _) => eapply within_shiftl; [lia|solve_within]
  | |- within _ (Z.shiftr _ _) => eapply within_shiftr; [lia|solve_within]
  | H : 0 <= ?x < 2 ^ ?n |- within _ ?x => is_var x; apply (within_ones n); [lia|exact H]
  | |- within _ _ => apply within_self
  end.

(** Every [|] of the goal becomes an addition. *)
Ltac lor_to_add :=
  repeat match goal with
  | |- context [Z.lor ?a ?b] =>
      erewrite (lor_add _ _ a b); [|solve_within|solve_within|vm_compute; reflexivity]
  end.

(** Every [&] with a constant mask becomes a field of its argument. *)
Ltac land_to_field :=
  repeat match goal with
  | |- context [Z.land ?z ?m] =>
      let k := eval vm_compute in (Z.log2 (Z.land m (- m))) in
      let n := eval vm_compute in (Z.log2 m + 1 - Z.log2 (Z.land m (- m))) in
      rewrite (land_field z m k n) by (lia || reflexivity)
  end.

Ltac norm_fields :=
  rewrite ?field_shiftr, ?field_shiftl by lia;
  repeat match goal with
  | |- context [field ?z (?a + ?b) ?n] =>
      let v := eval vm_compute in (a + b) in change (field z (a + b) n) with (field z v n)
  | |- context [field ?z (?a - ?b) ?n] =>
      let v := eval vm_compute in (a - b) in change (field z (a - b) n) with (field z v n)
  end;
  rewrite ?Z.shiftl_mul_pow2, ?Z.shiftr_div_pow2 by lia.

(** A field of the compressed instruction, with its bound. *)
Ltac gen_field c lo n :=
  let H := fresh "Hf" in let x := fresh "f" in
  pose proof (field_range c lo n ltac:(lia)) as H;
  set (x := field c lo n) in *; clearbody x.

Ltac gen_fields c :=
  repeat match goal with
  | |- context [field c ?lo ?n] => gen_field c lo n
  | _ : context [field c ?lo ?n] |- _ => gen_field c lo n
  end.

Ltac field_lia :=
  unfold imm_I, imm_S, imm_B, imm_U, imm_J, sext, field, wrap in *;
  simpl (2 ^ _) in *; Z.div_mod_to_equations; lia.

(** ** The immediates of the source are those of the manual *)

Lemma ciw_imm_eq c :
  (c >> 7) .& 0x30 .| (c >> 1) .& 0x3C0 .| (c >> 4) .& 0x4 .| (c >> 2) .& 0x8 = imm_CIW c.
Proof. unfold imm_CIW, bit. lor_to_add. land_to_field. norm_fields. lia. Qed.

Lemma cl_imm_eq c :
  (c >> 7) .& 0x38 .| (c >> 4) .& 0x4 .| (c << 1) .& 0x40 = imm_CL c.
Proof. unfold imm_CL, bit. lor_to_add. land_to_field. norm_fields. lia. Qed.

Lemma ci_uimm_eq c : ci_uimm c = bit c 12 5 + field c 2 5.
Proof. unfold ci_uimm, bit. lor_to_add. land_to_field. norm_fields. lia. Qed.

Lemma ci_imm_eq c : ci_imm c = imm_CI c.
Proof.
  unfold ci_imm, imm_CI. rewrite ci_uimm_eq. unfold bit. land_to_field.
  gen_fields c. case_match; field_lia.
Qed.

Lemma cj_imm_eq c : cj_imm c = imm_CJ c.
Proof.
  unfold cj_imm, imm_CJ, bit. lor_to_add. land_to_field. norm_fields.
  gen_fields c. case_match; field_lia.
Qed.

Lemma cb_imm_eq c : cb_imm c = imm_CB c.
Proof.
  unfold cb_imm, imm_CB, bit. lor_to_add. land_to_field. norm_fields.
  gen_fields c. case_match; field_lia.
Qed.

Lemma ci16_imm_eq c :
  (let nzimm := (c >> 3) .& 0x200 .| (c >> 2) .& 0x10 .| (c << 1) .& 0x40
                .| (c << 4) .& 0x180 .| (c << 3) .& 0x20 in
   if negb (nzimm .& 0x200 =? 0) then nzimm - 0x400 else nzimm) = imm_CI16 c.
Proof.
  unfold imm_CI16, bit. lor_to_add. land_to_field. norm_fields.
  gen_fields c. case_match; field_lia.
Qed.

Lemma clwsp_imm_eq c :
  (((c >> 2) .& 0x3) << 6) .| (((c >> 12) .& 0x1) << 5) .| (((c >> 4) .& 0x7) << 2)
  = imm_CLWSP c.
Proof. unfold imm_CLWSP, bit. lor_to_add. land_to_field. norm_fields. lia. Qed.

Lemma cswsp_imm_eq c : (c >> 7) .& 0x3C .| (c >> 1) .& 0xC0 = imm_CSWSP c.
Proof. unfold imm_CSWSP, bit. lor_to_add. land_to_field. norm_fields. lia. Qed.

Lemma imm_CIW_range c : 0 <= imm_CIW c < 2 ^ 10.
Proof. unfold imm_CIW, bit. gen_fields c. field_lia. Qed.
Lemma imm_CL_range c : 0 <= imm_CL c < 2 ^ 7.
Proof. unfold imm_CL, bit. gen_fields c. field_lia. Qed.
Lemma imm_CLWSP_range c : 0 <= imm_CLWSP c < 2 ^ 8.
Proof. unfold imm_CLWSP, bit. gen_fields c. field_lia. Qed.
Lemma imm_CSWSP_range c : 0 <= imm_CSWSP c < 2 ^ 8.
Proof. unfold imm_CSWSP, bit. gen_fields c. field_lia. Qed.
Lemma imm_CI_range c : - 2 ^ 5 <= imm_CI c < 2 ^ 5.
Proof. unfold imm_CI, bit. gen_fields c. field_lia. Qed.
Lemma imm_CI16_range c : - 2 ^ 9 <= imm_CI16 c < 2 ^ 9.
Proof. unfold imm_CI16, bit. gen_fields c. field_lia. Qed.
Lemma imm_CJ_range c : - 2 ^ 11 <= imm_CJ c < 2 ^ 11 /\ imm_CJ c mod 2 = 0.
Proof. unfold imm_CJ, bit. gen_fields c. field_lia. Qed.
Lemma imm_CB_range c : - 2 ^ 8 <= imm_CB c < 2 ^ 8 /\ imm_CB c mod 2 = 0.
Proof. unfold imm_CB, bit. gen_fields c. field_lia. Qed.

(** Split a three-bit field into its eight values. *)
Ltac split8 f :=
  let H := fresh in
  assert (f = 0 \/ f = 1 \/ f = 2 \/ f = 3 \/ f = 4 \/ f = 5 \/ f = 6 \/ f = 7) as H by lia;
  destruct H as [H|[H|[H|[H|[H|[H|[H|H]]]]]]]; rewrite H in *; clear H.

(** Turn the expanded word into a sum of its fields. *)
Lemma creg_eq c s : 0 <= s -> ((c >> s) .& 0x7) + 8 = creg c s.
Proof. intros. unfold creg. land_to_field. rewrite field_shiftr, Z.add_0_l by lia. lia. Qed.

Lemma creg_range c s : 0 <= creg c s < 2 ^ 4.
Proof. unfold creg. pose proof (field_range c s 3 ltac:(lia)). lia. Qed.

Ltac word_to_sum :=
  lor_to_add; land_to_field; norm_fields.

(** The result of a branch: [decode] by one of the format lemmas. *)
Tactic Notation "by_format" uconstr(lem) := symmetry; word_to_sum; eapply lem; try reflexivity; field_lia.

Lemma rvc_C0_ok c : rvc_spec_C0 c =
  let '(e, ok) := expand_C0 c (field c 13 3) in if ok : bool then decode e else None.
Proof.
  unfold rvc_spec_C0, expand_C0.
  pose proof (field_range c 13 3 ltac:(lia)) as Hf3. simpl in Hf3.
  pose proof (imm_CIW_range c). pose proof (imm_CL_range c).
  pose proof (creg_range c 2). pose proof (creg_range c 7).
  cbv zeta. rewrite ciw_imm_eq, cl_imm_eq, !creg_eq by lia.
  set (i1 := imm_CIW c) in *; set (i2 := imm_CL c) in *; set (r2 := creg c 2) in *;
    set (r7 := creg c 7) in *; clearbody i1 i2 r2 r7.
  split8 (field c 13 3); cbn [Z.eqb Pos.eqb]; try done.
  - destruct (Z.eqb_spec i1 0); [done|]. by_format (decode_OpImm _ 0).
  - by_format decode_LW.
  - by_format decode_SW.
Qed.

(** The shifts: bit 12 would be bit 5 of the shift amount, which RV32 rejects. *)
Ltac by_shift c f3 f7 :=
  unfold rvc_shift, shamt_CI; rewrite ?ci_uimm_eq; unfold bit;
  pose proof (field_range c 2 5 ltac:(lia)); pose proof (field_range c 12 1 ltac:(lia));
  set (s := field c 2 5) in *; set (b := field c 12 1) in *; clearbody s b;
  assert (b = 0 \/ b = 1) as [-> | ->] by lia; cbn [Z.eqb Pos.eqb];
  rewrite ?Z.mul_0_l, ?Z.mul_1_l, ?Z.add_0_l;
  [ destruct (Z.eqb_spec s 0); [done|]; by_format (decode_shift _ f3 f7)
  | replace (2 ^ 5 + s =? 0) with false by lia;
    assert (0 <= 2 ^ 5 + s < 2 ^ 6) by lia; set (s' := 2 ^ 5 + s) in *;
    assert (s' / 32 = 1) by (unfold s'; Z.div_mod_to_equations; lia); clearbody s';
    by_format (decode_bad_shift _ f3 (f7 + 1)) ].

Lemma rvc_C1_arith_ok c : 
  (match field c 10 2 with
   | 0 => rvc_shift SRL c (creg c 7)
   | 1 => rvc_shift SRA c (creg c 7)
   | 2 => Some (OpImm AND (creg c 7) (creg c 7) (imm_CI c))
   | _ => if field c 12 1 =? 0
          then Some (Op (match field c 5 2 with 0 => SUB | 1 => XOR | 2 => OR | _ => AND end)
                        (creg c 7) (creg c 7) (creg c 2))
          else None
   end) =
  let '(e, ok) := expand_C1_arith c in if ok : bool then decode e else None.
Proof.
  unfold expand_C1_arith. cbv zeta. rewrite ci_imm_eq, !creg_eq by lia.
  replace ((c >> 10) .& 0x3) with (field c 10 2) by (land_to_field; norm_fields; lia).
  replace ((c >> 5) .& 0x3) with (field c 5 2) by (land_to_field; norm_fields; lia).
  replace ((c >> 12) .& 0x1) with (field c 12 1) by (land_to_field; norm_fields; lia).
  pose proof (field_range c 10 2 ltac:(lia)). pose proof (field_range c 5 2 ltac:(lia)).
  pose proof (imm_CI_range c). pose proof (creg_range c 2). pose proof (creg_range c 7).
  set (r2 := creg c 2) in *; set (r7 := creg c 7) in *; set (i := imm_CI c) in *.
  clearbody i r2 r7.
  assert (field c 10 2 = 0 \/ field c 10 2 = 1 \/ field c 10 2 = 2 \/ field c 10 2 = 3)
    as [-> | [-> | [-> | ->]]] by lia; cbn [Z.eqb Pos.eqb].
  - by_shift c 5 0x00.
  - by_shift c 5 0x20.
  - by_format (decode_OpImm _ 7).
  - destruct (field c 12 1 =? 0); [|done].
    assert (field c 5 2 = 0 \/ field c 5 2 = 1 \/ field c 5 2 = 2 \/ field c 5 2 = 3)
      as [-> | [-> | [-> | ->]]] by lia; cbn [Z.eqb Pos.eqb].
    + by_format (decode_Op _ 0 0x20).
    + by_format (decode_Op _ 4 0x00).
    + by_format (decode_Op _ 6 0x00).
    + by_format (decode_Op _ 7 0x00).
Qed.

Lemma jal_decode rd imm : 0 <= rd < 2 ^ 5 -> - 2 ^ 11 <= imm < 2 ^ 11 -> imm mod 2 = 0 ->
  decode (jal_imm_bits imm .| (rd << 7) .| 0x6F) = Some (Jal rd imm).
Proof.
  intros Hrd Hi He. unfold jal_imm_bits. word_to_sum. eapply decode_Jal; field_lia.
Qed.

Lemma branch_decode f3 op rs1 imm : 0 <= f3 < 2 ^ 3 -> bop_of f3 = Some op ->
  0 <= rs1 < 2 ^ 4 -> - 2 ^ 8 <= imm < 2 ^ 8 -> imm mod 2 = 0 ->
  decode (branch_imm_bits imm .| (0 << 20) .| (rs1 << 15) .| (f3 << 12) .| 0x63) =
    Some (Branch op rs1 0 imm).
Proof.
  intros Hf Hop Hrs Hi He. unfold branch_imm_bits. word_to_sum.
  eapply (decode_Branch _ f3); [field_lia|field_lia|done|field_lia..].
Qed.

Lemma rvc_C1_ok c : rvc_spec_C1 c =
  let '(e, ok) := expand_C1 c (field c 13 3) in if ok : bool then decode e else None.
Proof.
  unfold rvc_spec_C1, expand_C1. rewrite rvc_C1_arith_ok.
  cbv zeta. rewrite ci_imm_eq, cj_imm_eq, cb_imm_eq, ci16_imm_eq, !creg_eq by lia.
  replace ((c >> 7) .& 0x1F) with (field c 7 5) by (land_to_field; norm_fields; lia).
  pose proof (field_range c 13 3 ltac:(lia)) as Hf3. simpl in Hf3.
  pose proof (field_range c 7 5 ltac:(lia)). pose proof (imm_CI_range c).
  pose proof (imm_CI16_range c). destruct (imm_CJ_range c), (imm_CB_range c).
  pose proof (creg_range c 7).
  set (rd := field c 7 5) in *; set (i1 := imm_CI c) in *; set (i2 := imm_CI16 c) in *;
    set (i3 := imm_CJ c) in *; set (i4 := imm_CB c) in *; set (r7 := creg c 7) in *.
  clearbody rd i1 i2 i3 i4 r7.
  split8 (field c 13 3); cbn [Z.eqb Pos.eqb]; try done.
  - by_format (decode_OpImm _ 0).
  - by rewrite jal_decode by lia.
  - by_format (decode_OpImm _ 0).
  - destruct (Z.eqb_spec rd 2) as [->|Hrd].
    + destruct (Z.eqb_spec i2 0); [done|]. by_format (decode_OpImm _ 0).
    + destruct ((i1 =? 0) || (rd =? 0)); [done|]. by_format (decode_Lui _).
  - by rewrite jal_decode by lia.
  - by rewrite (branch_decode 0 BEQ) by (done || lia).
  - by rewrite (branch_decode 1 BNE) by (done || lia).
Qed.

Lemma rvc_C2_ok c : rvc_spec_C2 c =
  let '(e, ok) := expand_C2 c (field c 13 3) in if ok : bool then decode e else None.
Proof.
  unfold rvc_spec_C2, expand_C2. cbv zeta. rewrite clwsp_imm_eq, cswsp_imm_eq.
  replace ((c >> 7) .& 0x1F) with (field c 7 5) by (land_to_field; norm_fields; lia).
  replace ((c >> 2) .& 0x1F) with (field c 2 5) by (land_to_field; norm_fields; lia).
  replace ((c >> 12) .& 0x1) with (field c 12 1) by (land_to_field; norm_fields; lia).
  pose proof (field_range c 13 3 ltac:(lia)) as Hf3. simpl in Hf3.
  pose proof (field_range c 7 5 ltac:(lia)). pose proof (imm_CLWSP_range c).
  pose proof (imm_CSWSP_range c).
  set (rd := field c 7 5) in *; set (i1 := imm_CLWSP c) in *; set (i2 := imm_CSWSP c) in *.
  clearbody rd i1 i2.
  split8 (field c 13 3); cbn [Z.eqb Pos.eqb]; try done.
  - destruct (Z.eqb_spec rd 0); [by rewrite orb_true_r|]. rewrite orb_false_r.
    by_shift c 1 0x00.
  - destruct (rd =? 0); [done|]. by_format (decode_LW _).
  - pose proof (field_range c 2 5 ltac:(lia)). set (rs2 := field c 2 5) in *. clearbody rs2.
    destruct (field c 12 1 =? 0), (Z.eqb_spec rd 0) as [->|], (Z.eqb_spec rs2 0) as [->|];
      cbn [andb]; try done.
    + by_format (decode_Jalr _).
    + by_format (decode_Op _ 0 0).
    + by_format (decode_Op _ 0 0).
    + by_format (decode_Jalr _).
    + by_format (decode_Op _ 0 0).
  - pose proof (field_range c 2 5 ltac:(lia)). set (rs2 := field c 2 5) in *. clearbody rs2.
    by_format (decode_SW _).
Qed.

Lemma expand_meaning c : rvc_meaning c = rvc_spec c.
Proof.
  unfold rvc_meaning, expand_compressed, rvc_spec.
  replace (c .& 0x3) with (field c 0 2) by (rewrite land_3; unfold field; by rewrite Z.div_1_r).
  replace ((c >> 13) .& 0x7) with (field c 13 3) by (land_to_field; norm_fields; lia).
  pose proof (field_range c 0 2 ltac:(lia)).
  assert (field c 0 2 = 0 \/ field c 0 2 = 1 \/ field c 0 2 = 2 \/ field c 0 2 = 3)
    as [-> | [-> | [-> | ->]]] by lia; cbn [Z.eqb Pos.eqb].
  - by rewrite rvc_C0_ok.
  - by rewrite rvc_C1_ok.
  - by rewrite rvc_C2_ok.
  - done.
Qed.

(** ** The expansion is a 32-bit word *)

Lemma uN_creg n z : 4 <= n -> uN n ((z .& 0x7) + 8).
Proof.
  intros Hn. rewrite land_7. pose proof (Z.mod_pos_bound z 8 ltac:(lia)). unfold uN.
  assert (2 ^ 4 <= 2 ^ n) by (apply Z.pow_le_mono_r; lia). lia.
Qed.

Ltac bound_word :=
  lazymatch goal with
  | |- uN _ (Z.lor _ _) => apply uN_lor; [lia|bound_word|bound_word]
  | |- uN _ (Z.land _ 0x7 + 8) => apply uN_creg; lia
  | |- uN _ (Z.land _ _) => apply uN_land_r; [lia|by (split; vm_compute)]
  | |- uN _ (Z.shiftl _ _) => apply uN_shiftl; [lia|bound_word]
  | |- uN _ (Z.shiftr _ _) => apply uN_shiftr; [lia|bound_word]
  | |- uN _ _ => by (split; vm_compute)
  end.

Lemma expand_u32 c : u32 (fst (expand_compressed c)).
Proof.
  unfold expand_compressed, expand_C0, expand_C1, expand_C1_arith, expand_C2,
    jal_imm_bits, branch_imm_bits, ci_uimm. cbv zeta.
  repeat match goal with |- uN _ (fst (if ?b then _ else _)) => destruct b end; cbn [fst];
    bound_word.
Qed.

(** ** Theorem *)

(** ** No expansion is an atomic

    The opcode 0x2F has bit 3 and not bit 6; the only expansion with bit 3, JAL, has
    both. *)

Lemma shiftl_low z n i : 0 <= i < n -> Z.testbit (Z.shiftl z n) i = false.
Proof. intros. rewrite Z.shiftl_spec by lia. apply Z.testbit_neg_r. lia. Qed.

Ltac low_bits :=
  cbn [fst]; unfold jal_imm_bits, branch_imm_bits;
  rewrite !Z.lor_spec, ?Z.land_spec, ?Z.shiftr_spec, ?Z.land_spec, ?shiftl_low by lia;
  cbn; rewrite ?andb_false_r; done.

Lemma expand_bits c : Z.testbit (fst (expand_compressed c)) 3 = true ->
  Z.testbit (fst (expand_compressed c)) 6 = true.
Proof.
  unfold expand_compressed, expand_C0, expand_C1, expand_C1_arith, expand_C2.
  repeat case_match; try done; low_bits.
Qed.

Lemma expand_not_amo c : field (fst (expand_compressed c)) 0 7 <> 0x2F.
Proof.
  intros E. pose proof (expand_bits c) as H. set (e := fst (expand_compressed c)) in *.
  assert (forall i, 0 <= i < 7 -> Z.testbit e i = Z.testbit 0x2F i) as Hb.
  { intros i Hi. rewrite <- E, field_testbit by lia. rewrite Z.add_0_r.
    by rewrite (proj2 (Z.ltb_lt i 7)) by lia. }
  rewrite !Hb in H by lia. by specialize (H eq_refl).
Qed.

(** C7: for every 16-bit word the expansion is a 32-bit word that decodes to
    exactly the instruction the ISA manual gives to the compressed one, with its
    registers and immediate, and it is rejected (by the expansion, or by the
    decoder of the expanded word for the shifts by 32 and more) exactly when the
    manual reserves the encoding or calls it a hint with a zero shift amount or
    with destination x0 of C.LUI, C.SLLI and C.MV. *)
Theorem expand_compressed_correct (c : Z) :
  u32 (fst (expand_compressed c)) /\ rvc_meaning c = rvc_spec c.
Proof. split; [apply expand_u32|apply expand_meaning]. Qed.
