(* ===== verification/CpuSem.v ===== *)
(** * The integer handlers of cpu.py against the instruction set

    Each opcode handler of Cpu.v that does not access memory is shown to have the
    effect Isa.v gives to the instruction: [commit] applies an outcome of the ISA
    to the processor, and a handler followed by the reset of register 0 is
    [commit] of the outcome.  The trap entry is given as a closed-form state. *)

From Stdlib Require Import ZArith Lia Bool String.
From stdpp Require Import base numbers list option gmap strings.
From S2P Require Import Prelude PyFloat PyStr Isa Cpu Rvc.
Local Open Scope Z_scope.
Local Open Scope py_scope.
Local Open Scope bits_scope.

(** ** The integer handlers compute the operations of the ISA *)

Lemma signed32_sint a : u32 a -> signed32 a = sint a.
Proof. intros Ha. rewrite sint_u32 by done. done. Qed.

Lemma mul_wrap a b : wrap (a * b) = wrap (sint a * sint b).
Proof. unfold wrap. rewrite Z.mul_mod, <- (sint_mod a), <- (sint_mod b), <- Z.mul_mod by lia. done. Qed.

Lemma shiftr_mod32 z b : Z.shiftr z (Z.land b 0x1F) = z / 2 ^ (b mod 32).
Proof.
  rewrite land_1f. apply Z.shiftr_div_pow2. apply Z.mod_pos_bound. lia.
Qed.

Lemma shiftl_mod32 z b : Z.shiftl z (Z.land b 0x1F) = z * 2 ^ (b mod 32).
Proof.
  rewrite land_1f. apply Z.shiftl_mul_pow2. apply Z.mod_pos_bound. lia.
Qed.

Lemma sint_bound a : - 2 ^ 32 < sint a < 2 ^ 32.
Proof. pose proof (sint_range a). lia. Qed.

Lemma sint_zero b : u32 b -> (sint b =? 0) = (b =? 0).
Proof. intros Hb. rewrite sint_u32 by done. unfold uN in Hb. case_match; lia. Qed.

Lemma sint_nonzero b : u32 b -> b <> 0 -> sint b <> 0.
Proof. intros Hb Hn. pose proof (sint_zero b Hb). lia. Qed.

(** Signed division and remainder: the case the code takes apart, and the quotient by way
    of a float, which 32-bit operands do not overflow. *)
Lemma div_case a b i (v : Z) (k : Z -> Z) (c : cpu) : sint b <> 0 ->
  ((sint a =? -0x80000000) && (sint b =? -1) = true -> v = k (Z.quot (sint a) (sint b))) ->
  (if (sint a =? -0x80000000) && (sint b =? -1) then set_reg i v
   else q <- of_option OverflowError (py_div (sint a) (sint b)) ;; set_reg i (k q)) c =
  set_reg i (k (Z.quot (sint a) (sint b))) c.
Proof.
  intros Hb0 Hv. destruct (_ && _); [by rewrite Hv|].
  unfold bind. by rewrite py_div_quot by (done || apply sint_bound).
Qed.

Lemma rem_quot a b : sint b <> 0 ->
  (sint a - Z.quot (sint a) (sint b) * sint b) mod 2 ^ 32 = wrap (Z.rem (sint a) (sint b)).
Proof.
  intros Hb0. unfold wrap. f_equal. pose proof (Z.quot_rem (sint a) (sint b) Hb0). lia.
Qed.

Lemma overflow_case a b : (sint a =? -0x80000000) && (sint b =? -1) = true ->
  sint a = -0x80000000 /\ sint b = -1.
Proof. by intros [E1%Z.eqb_eq E2%Z.eqb_eq]%andb_true_iff. Qed.

Lemma rop_of_other f3 f7 : f7 <> 0 -> f7 <> 1 -> f7 <> 32 -> rop_of f3 f7 = None.
Proof. intros. unfold rop_of. repeat case_match; done || lia. Qed.

(** Immediates *)
Lemma imm_I_range i : - 2048 <= imm_I i < 2048.
Proof.
  unfold imm_I, sext. pose proof (Z.mod_pos_bound (field i 20 12 + 2 ^ (12 - 1)) (2 ^ 12)). lia.
Qed.

Lemma get_imm_i_eq inst : u32 inst -> get_imm_i inst = imm_I inst.
Proof.
  unfold uN. intros Hi. unfold get_imm_i, imm_I, sext, field.
  rewrite Z.shiftr_div_pow2 by lia. simpl (2 ^ _) in *.
  case_match; Z.div_mod_to_equations; lia.
Qed.

Lemma shamt_eq inst : u32 inst -> Z.land (imm_I inst) 0x1F = field inst 20 5.
Proof.
  unfold uN. intros Hi. rewrite land_1f. unfold imm_I, sext, field.
  simpl (2 ^ _) in *. Z.div_mod_to_equations; lia.
Qed.

Lemma shamt_wrap s : 0 <= s < 2 ^ 5 -> (s mod 2 ^ 32) mod 32 = s.
Proof. simpl (2 ^ _). intros. Z.div_mod_to_equations. lia. Qed.

Lemma sint_imm i : - 2048 <= i < 2048 -> sint (i mod 2 ^ 32) = i.
Proof. intros. unfold sint, sext. simpl (2 ^ _). Z.div_mod_to_equations. lia. Qed.

Lemma signed32_imm i : - 2048 <= i < 2048 -> signed32 i = i.
Proof. intros. unfold signed32. case_match; lia. Qed.

(** Masking the result of a bitwise operation masks the signed operand. *)
Lemma mask_r (f : Z -> Z -> Z) (g : bool -> bool -> bool) a b :
  u32 a -> g false false = false ->
  (forall x y i, Z.testbit (f x y) i = g (Z.testbit x i) (Z.testbit y i)) ->
  (f a b) mod 2 ^ 32 = f a (b mod 2 ^ 32).
Proof.
  intros Ha Hg Hf. apply Z.bits_inj'. intros i Hi. rewrite Hf.
  destruct (decide (i < 32)).
  - by rewrite !Z.mod_pow2_bits_low, Hf by lia.
  - rewrite !Z.mod_pow2_bits_high by lia.
    rewrite (proj1 (uN_testbit 32 a ltac:(lia) ltac:(apply Ha)) Ha) by lia. by rewrite Hg.
Qed.

Section Integer.
Variable c : cpu.
Hypothesis Hc : wf_cpu c.

Lemma reg_ok i : 0 <= i < 32 -> reg i c = (Ok (rv c i), c).
Proof. apply reg_eq, Hc. Qed.

Lemma set_reg_ok i v : 0 <= i < 32 -> set_reg i v c = (Ok tt, wr i v c).
Proof. apply set_reg_eq, Hc. Qed.

Lemma set_reg_if i (b : bool) v w :
  (if b then set_reg i v else set_reg i w) = set_reg i (if b then v else w).
Proof. by destruct b. Qed.

Lemma exec_Rtype_eq inst rd f3 rs1 rs2 f7 :
  0 <= rd < 32 -> 0 <= rs1 < 32 -> 0 <= rs2 < 32 -> 0 <= f3 < 8 ->
  exec_Rtype inst rd f3 rs1 rs2 f7 c =
    match rop_of f3 f7 with
    | Some o => (Ok tt, wr rd (rop_sem o (rv c rs1) (rv c rs2)) c)
    | None => illegal inst c
    end.
Proof.
  intros Hrd H1 H2 Hf3.
  pose proof (rv_u32 c rs1 Hc) as Ha. pose proof (rv_u32 c rs2 Hc) as Hb.
  assert (forall i v, 0 <= i < 32 -> set_reg i v c = (Ok tt, wr i v c)) as Hset by apply set_reg_ok.
  unfold exec_Rtype.
  destruct (Z.eqb_spec f7 0) as [->|]; [|destruct (Z.eqb_spec f7 1) as [->|];
    [|destruct (Z.eqb_spec f7 32) as [->|]; [|rewrite rop_of_other by done]]];
  assert (f3 = 0 \/ f3 = 1 \/ f3 = 2 \/ f3 = 3 \/ f3 = 4 \/ f3 = 5 \/ f3 = 6 \/ f3 = 7)
    as [->|[->|[->|[->|[->|[->|[-> | ->]]]]]]] by lia;
  cbn [Z.eqb Pos.eqb rop_of];
  unfold bind; rewrite ?reg_ok by done; rewrite ?Hset by done; cbn [rop_sem];
  rewrite ?shiftr_mod32, ?shiftl_mod32, ?(u32_mask_id (rv c rs1)), ?(u32_mask_id (rv c rs2)) by done.
  all: cbv zeta; rewrite ?signed32_sint, ?land_ffffffff by done; try reflexivity.
  - by rewrite mul_wrap.
  - by rewrite Z.shiftr_div_pow2.
  - by rewrite Z.shiftr_div_pow2.
  - rewrite Z.shiftr_div_pow2, Z.mod_small by (done || exact (rop_sem_u32 MULHU _ _ Ha Hb)). done.
  - rewrite sint_zero by done. destruct (Z.eqb_spec (rv c rs2) 0) as [|E]; [by rewrite Hset|].
    pose proof (sint_nonzero _ Hb E). etransitivity.
    { apply (div_case _ _ rd _ (fun q => Z.land q 0xFFFFFFFF)); [done|].
      by intros [-> ->]%overflow_case. }
    by rewrite Hset, land_ffffffff.
  - rewrite set_reg_if, Hset by done. pose proof (rop_sem_u32 DIVU _ _ Ha Hb) as Hu. simpl in Hu.
    destruct (rv c rs2 =? 0); [done|]. by rewrite Z.mod_small.
  - rewrite sint_zero by done. destruct (Z.eqb_spec (rv c rs2) 0) as [|E]; [by rewrite Hset|].
    pose proof (sint_nonzero _ Hb E). etransitivity.
    { apply (div_case _ _ rd _ (fun q => Z.land (sint (rv c rs1) - q * sint (rv c rs2)) 0xFFFFFFFF));
        [done|]. by intros [-> ->]%overflow_case. }
    by rewrite Hset, land_ffffffff, rem_quot.
  - rewrite set_reg_if, Hset by done. pose proof (rop_sem_u32 REMU _ _ Ha Hb) as Hu. simpl in Hu.
    destruct (rv c rs2 =? 0); [done|]. by rewrite Z.mod_small.
Qed.

Lemma exec_Itype_eq inst rd f3 rs1 f7 : u32 inst ->
  0 <= rd < 32 -> 0 <= rs1 < 32 -> 0 <= f3 < 8 ->
  exec_Itype inst rd f3 rs1 f7 c =
    match iop_of f3 f7 with
    | Some (o, sh) =>
        (Ok tt, wr rd (rop_sem o (rv c rs1)
                         (wrap (if sh : bool then field inst 20 5 else imm_I inst))) c)
    | None => illegal inst c
    end.
Proof.
  intros Hi Hrd H1 Hf3. pose proof (rv_u32 c rs1 Hc) as Ha.
  pose proof (imm_I_range inst) as Hr. unfold exec_Itype. rewrite get_imm_i_eq by done.
  cbv zeta. rewrite shamt_eq by done.
  assert (f3 = 0 \/ f3 = 1 \/ f3 = 2 \/ f3 = 3 \/ f3 = 4 \/ f3 = 5 \/ f3 = 6 \/ f3 = 7)
    as [->|[->|[->|[->|[->|[->|[->| ->]]]]]]] by lia; cbn [Z.eqb Pos.eqb iop_of];
  repeat match goal with |- context [f7 =? ?k] => destruct (f7 =? k) end; try done;
  unfold bind; rewrite ?reg_ok by done; rewrite ?set_reg_ok by done; do 2 f_equal; cbn [rop_sem]; unfold wrap;
  rewrite ?land_ffffffff, ?signed32_sint by done.
  - by rewrite Zplus_mod_idemp_r.
  - by rewrite Z.shiftl_mul_pow2, shamt_wrap by (apply field_range; lia).
  - by rewrite sint_imm, signed32_imm by lia.
  - by rewrite (Z.mod_small (rv c rs1)).
  - by apply (mask_r Z.lxor xorb), Z.lxor_spec.
  - by rewrite (Z.mod_small (rv c rs1)), Z.shiftr_div_pow2, shamt_wrap by (done || apply field_range; lia).
  - by rewrite Z.shiftr_div_pow2, shamt_wrap by (done || apply field_range; lia).
  - by apply (mask_r Z.lor orb), Z.lor_spec.
  - by apply (mask_r Z.land andb), Z.land_spec.
Qed.
End Integer.

(** ** Traps *)

(** mstatus on trap entry: MPIE <- MIE, MIE <- 0. *)
Definition mstatus_enter (m : Z) : Z :=
  Z.lor (Z.land m (Z.lnot (Z.lor (Z.shiftl 1 3) (Z.shiftl 1 7))))
        (Z.shiftl (Z.land (Z.shiftr m 3) 1) 7).

(** mstatus on MRET: MIE <- MPIE, MPIE <- 1. *)
Definition mstatus_return (m : Z) : Z :=
  Z.lor (Z.lor (Z.land m (Z.lnot (Z.shiftl 1 3))) (Z.shiftl (Z.land (Z.shiftr m 7) 1) 3))
        (Z.shiftl 1 7).

(** The processor in the trap handler. *)
Definition trapped (cause mtval : Z) (sync : bool) (c : cpu) : cpu :=
  set_next_pc (Z.land (cv c 0x305) (Z.lnot 0x3))
    (wc 0x300 (mstatus_enter (cv c 0x300))
      (wc 0x343 mtval (wc 0x342 cause
        (wc 0x341 (if sync then pc c else next_pc c) c)))).

Lemma trap_eq c cause mtval sync : wf_cpu c ->
  trap cause mtval sync c =
    if cv c 0x305 =? 0 then (Exn (ExecutionTerminated (TrapWithoutHandler (pc c) cause)), c)
    else (Ok tt, trapped cause mtval sync c).
Proof.
  intros Hc. pose proof (wf_csrs_len c Hc) as Hl. unfold trap, bind.
  rewrite csr_eq by (done || lia). destruct (cv c 0x305 =? 0); [done|]. cbn [gets].
  unfold gets. rewrite !set_csr_eq by (rewrite ?wc_len; done || lia).
  rewrite csr_eq by (rewrite ?wc_len; done || lia). cbv zeta.
  rewrite !set_csr_eq by (rewrite ?wc_len; done || lia).
  rewrite csr_eq by (rewrite ?wc_len; done || lia).
  rewrite !cv_wc by (rewrite ?wc_len; done || lia). cbn [Z.eqb Pos.eqb].
  unfold trapped, modify. by destruct sync.
Qed.

(** ** Completing an instruction *)

Definition ialign (c : cpu) : Z := alignment_mask c + 1.

Definition x0_zero (c : cpu) : Prop := rv c 0 = 0.

Definition write_back (wb : option (Z * Z)) (c : cpu) : cpu :=
  match wb with
  | Some (rd, v) => if rd =? 0 then c else wr rd v c
  | None => c
  end.

(** The effect of an outcome of the ISA on the processor. *)
Definition commit (c : cpu) (o : outcome) : res unit * cpu :=
  match o with
  | Retire wb npc => (Ok tt, set_next_pc npc (write_back wb c))
  | Except cause tval => trap cause tval true c
  end.

Lemma set_next_pc_id c : set_next_pc (next_pc c) c = c.
Proof. by destruct c. Qed.

Lemma set_registers_id c : set_registers (registers c) c = c.
Proof. by destruct c. Qed.

Lemma wr_wr_eq c i v w : wr i v (wr i w c) = wr i v c.
Proof. unfold wr, set_registers. simpl. by rewrite list_insert_insert_eq. Qed.

Lemma wr_wr_ne c i j v w : 0 <= i -> 0 <= j -> i <> j ->
  wr i v (wr j w c) = wr j w (wr i v c).
Proof.
  intros. unfold wr, set_registers. simpl. by rewrite list_insert_insert_ne by lia.
Qed.

Section Completion.
Variable c : cpu.
Hypothesis Hc : wf_cpu c.
Hypothesis H0 : x0_zero c.

Lemma wr_x0 : wr 0 0 c = c.
Proof.
  unfold wr. rewrite list_insert_id; [by apply set_registers_id|].
  pose proof (wf_regs_len c Hc). unfold x0_zero, rv in H0.
  rewrite py_get_in in H0 by lia. destruct (registers c) as [|v l] eqn:E; [done|].
  simpl in *. by rewrite H0.
Qed.

Lemma wr_x0_wr rd v : 0 <= rd < 32 -> wr 0 0 (wr rd v c) = write_back (Some (rd, v)) c.
Proof.
  intros Hrd. unfold write_back. destruct (Z.eqb_spec rd 0) as [->|Hne].
  - by rewrite wr_wr_eq, wr_x0.
  - by rewrite wr_wr_ne, wr_x0 by lia.
Qed.

Lemma finish_trap cause mtval sync :
  (trap cause mtval sync ;;; set_reg 0 0) c = trap cause mtval sync c.
Proof.
  unfold bind. rewrite trap_eq by done. destruct (cv c 0x305 =? 0); [done|].
  rewrite set_reg_eq; [|unfold trapped; simpl; by apply wf_regs_len|lia].
  f_equal. rewrite <- wr_x0 at 2. done.
Qed.

Lemma finish_wr rd v m : 0 <= rd < 32 -> m c = (Ok tt, wr rd v c) ->
  (m ;;; set_reg 0 0) c = commit c (Retire (Some (rd, v)) (next_pc c)).
Proof.
  intros Hrd Hm. unfold bind. rewrite Hm.
  rewrite set_reg_eq by (rewrite ?wr_len; apply Hc || lia).
  rewrite wr_x0_wr by done. unfold commit, write_back.
  destruct (rd =? 0); [by rewrite set_next_pc_id|]. by destruct c.
Qed.

Lemma finish_skip m : m c = (Ok tt, c) ->
  (m ;;; set_reg 0 0) c = commit c (Retire None (next_pc c)).
Proof.
  intros Hm. unfold bind. rewrite Hm, set_reg_eq by (apply Hc || lia).
  rewrite wr_x0. simpl. by rewrite set_next_pc_id.
Qed.

Lemma align_mod t : (Z.land t (alignment_mask c) =? 0) = (t mod ialign c =? 0).
Proof.
  unfold ialign. destruct (wf_align_mask c Hc) as [-> | ->].
  - by rewrite land_1.
  - by rewrite land_3.
Qed.

Lemma write_back_x0 wb t : match wb with Some (rd, _) => 0 <= rd < 32 | None => True end ->
  wr 0 0 (set_next_pc t (write_back wb c)) = set_next_pc t (write_back wb c).
Proof.
  intros Hwb. transitivity (set_next_pc t (wr 0 0 (write_back wb c))); [done|]. f_equal.
  destruct wb as [[rd v]|]; simpl; [|apply wr_x0].
  destruct (Z.eqb_spec rd 0); [apply wr_x0|]. by rewrite wr_wr_ne, wr_x0 by lia.
Qed.

(** Jumps, with an optional link. *)
Lemma finish_jump wb t k :
  k c = (Ok tt, set_next_pc t (write_back wb c)) ->
  match wb with Some (rd, _) => 0 <= rd < 32 | None => True end ->
  (check_target t k ;;; set_reg 0 0) c = commit c (jump (ialign c) wb t).
Proof.
  intros Hk Hwb. unfold jump. rewrite <- align_mod.
  destruct (Z.land t (alignment_mask c) =? 0) eqn:E.
  - unfold check_target, bind, gets. rewrite E. cbn [negb]. rewrite Hk, set_reg_eq; [|..|lia].
    + by rewrite write_back_x0.
    + destruct wb as [[rd v]|]; simpl; [destruct (rd =? 0)|]; rewrite ?wr_len; apply Hc.
  - cbn [commit]. rewrite <- finish_trap. unfold check_target, bind, gets. by rewrite E.
Qed.
End Completion.

(** ** Branches and jumps *)

(** The branch offset as the source assembles it. *)
Definition branch_imm (inst : Z) : Z :=
  let imm_b := Z.lor (Z.lor (Z.lor (Z.shiftl (Z.land (Z.shiftr inst 7) 0x1) 11)
                                   (Z.shiftl (Z.land (Z.shiftr inst 8) 0xF) 1))
                            (Z.shiftl (Z.land (Z.shiftr inst 25) 0x3F) 5))
                     (Z.shiftl (Z.shiftr inst 31) 12) in
  if 0x1000 <=? imm_b then imm_b - 0x2000 else imm_b.

Definition jal_imm (inst : Z) : Z :=
  let imm_j := Z.lor (Z.lor (Z.lor (Z.shiftl (Z.land (Z.shiftr inst 21) 0x3FF) 1)
                                   (Z.shiftl (Z.land (Z.shiftr inst 20) 0x1) 11))
                            (Z.shiftl (Z.land (Z.shiftr inst 12) 0xFF) 12))
                     (Z.shiftl (Z.shiftr inst 31) 20) in
  if 0x100000 <=? imm_j then imm_j - 0x200000 else imm_j.

Lemma top_bit inst : u32 inst -> Z.shiftr inst 31 = field inst 31 1.
Proof.
  unfold uN. intros. unfold field. rewrite Z.shiftr_div_pow2 by lia.
  simpl (2 ^ _) in *. Z.div_mod_to_equations. lia.
Qed.

(** The sign bit is not masked in the source. *)
Ltac top_bit inst :=
  rewrite top_bit by assumption; gen_field inst 31 1;
  lor_to_add; land_to_field; norm_fields; gen_fields inst; case_match; field_lia.

Lemma branch_imm_eq inst : u32 inst -> branch_imm inst = imm_B inst.
Proof. intros Hi. unfold branch_imm, imm_B. top_bit inst. Qed.

Lemma jal_imm_eq inst : u32 inst -> jal_imm inst = imm_J inst.
Proof. intros Hi. unfold jal_imm, imm_J. top_bit inst. Qed.

Lemma land_fffffffe z : Z.land z 0xFFFFFFFE = wrap z - wrap z mod 2.
Proof.
  replace 0xFFFFFFFE with (Z.ldiff (Z.ones 32) 1) by done.
  rewrite Z.ldiff_land, Z.land_assoc, Z.land_ones by lia. fold (wrap z).
  rewrite <- Z.ldiff_land. apply Z.add_cancel_r with (wrap z mod 2).
  rewrite <- land_1, Z.sub_add. apply Z.bits_inj'. intros i Hi.
  rewrite Z.add_nocarry_lxor, Z.lxor_spec, Z.ldiff_spec, Z.land_spec.
  - by destruct (Z.testbit (wrap z) i), (Z.testbit 1 i).
  - apply Z.bits_inj'. intros k Hk. rewrite !Z.land_spec, Z.ldiff_spec, Z.testbit_0_l.
    by destruct (Z.testbit (wrap z) k), (Z.testbit 1 k).
Qed.

Lemma upper_imm inst : u32 inst -> Z.shiftl (Z.shiftr inst 12) 12 = imm_U inst.
Proof.
  unfold uN. intros. rewrite Z.shiftl_mul_pow2, Z.shiftr_div_pow2 by lia.
  unfold imm_U, field. simpl (2 ^ _) in *. Z.div_mod_to_equations. lia.
Qed.

Section Control.
Variable c : cpu.
Hypothesis Hc : wf_cpu c.
Hypothesis H0 : x0_zero c.

(** [next_pc] already points behind the instruction. *)
Variables inst len : Z.
Hypothesis Hi : u32 inst.
Hypothesis Hnext : next_pc c = wrap (pc c + len).

Lemma exec_branches_eq f3 rs1 rs2 : 0 <= rs1 < 32 -> 0 <= rs2 < 32 -> 0 <= f3 < 8 ->
  (exec_branches inst f3 rs1 rs2 ;;; set_reg 0 0) c =
    commit c match bop_of f3 with
             | Some o => if bop_sem o (rv c rs1) (rv c rs2)
                         then jump (ialign c) None (wrap (pc c + imm_B inst))
                         else Retire None (next_pc c)
             | None => Except 2 inst
             end.
Proof.
  intros H1 H2 Hf3. pose proof (rv_u32 c rs1 Hc) as Ha. pose proof (rv_u32 c rs2 Hc) as Hb.
  set (t := wrap (pc c + imm_B inst)).
  assert (exec_branches inst f3 rs1 rs2 c =
    match bop_of f3 with
    | Some o => if bop_sem o (rv c rs1) (rv c rs2)
                then check_target t (modify (set_next_pc t)) c else (Ok tt, c)
    | None => illegal inst c
    end) as He.
  { unfold exec_branches, bind. rewrite !reg_eq by (apply Hc || done).
    fold (branch_imm inst). rewrite branch_imm_eq by done. cbv zeta. unfold gets at 1. cbv beta iota.
    rewrite !signed32_sint, !(u32_mask_id (rv _ _)) by done.
    assert (f3 = 0 \/ f3 = 1 \/ f3 = 2 \/ f3 = 3 \/ f3 = 4 \/ f3 = 5 \/ f3 = 6 \/ f3 = 7)
      as [->|[->|[->|[->|[->|[->|[->| ->]]]]]]] by lia;
    cbn [Z.eqb Pos.eqb bop_of bop_sem andb orb]; rewrite ?orb_false_r; try done;
    match goal with |- (if ?b then _ else _) c = _ => destruct b end; try done;
    cbv beta; by rewrite land_ffffffff. }
  unfold bind. rewrite He. destruct (bop_of f3) as [o|].
  - destruct (bop_sem o _ _).
    + rewrite <- (finish_jump c Hc H0 None t (modify (set_next_pc t))); done.
    + rewrite <- (finish_skip c Hc H0 (ret tt)); done.
  - exact (finish_trap c Hc H0 2 inst true).
Qed.

Lemma link_and_jump_eq rd t : 0 <= rd < 32 ->
  link_and_jump len rd t c =
    (Ok tt, set_next_pc t (write_back (Some (rd, wrap (pc c + len))) c)).
Proof.
  intros Hrd. unfold link_and_jump, write_back, bind, gets.
  destruct (rd =? 0); cbn [negb]; [done|].
  by rewrite set_reg_eq, land_ffffffff by (apply Hc || done).
Qed.

Lemma exec_JAL_eq rd : 0 <= rd < 32 ->
  (exec_JAL inst len rd ;;; set_reg 0 0) c =
    commit c (jump (ialign c) (Some (rd, next_pc c)) (wrap (pc c + imm_J inst))).
Proof.
  intros Hrd. rewrite Hnext.
  rewrite <- (finish_jump c Hc H0 _ _ (link_and_jump len rd (wrap (pc c + imm_J inst))))
    by (done || by apply link_and_jump_eq).
  unfold exec_JAL. fold (jal_imm inst). rewrite jal_imm_eq by done.
  unfold bind at 1 2, gets. by rewrite land_ffffffff.
Qed.

Lemma exec_LUI_eq rd : 0 <= rd < 32 ->
  (exec_LUI inst rd ;;; set_reg 0 0) c =
    commit c (Retire (Some (rd, wrap (imm_U inst))) (next_pc c)).
Proof.
  intros Hrd. apply finish_wr; try done. unfold exec_LUI.
  rewrite set_reg_eq by (apply Hc || done). rewrite land_ffffffff, upper_imm by done. done.
Qed.

Lemma exec_AUIPC_eq rd : 0 <= rd < 32 ->
  (exec_AUIPC inst rd ;;; set_reg 0 0) c =
    commit c (Retire (Some (rd, wrap (pc c + imm_U inst))) (next_pc c)).
Proof.
  intros Hrd. apply finish_wr; try done. unfold exec_AUIPC, bind, gets.
  rewrite set_reg_eq by (apply Hc || done). rewrite land_ffffffff, upper_imm by done. done.
Qed.

Lemma exec_JALR_eq rd f3 rs1 : 0 <= rd < 32 -> 0 <= rs1 < 32 ->
  (exec_JALR inst len rd f3 rs1 ;;; set_reg 0 0) c =
    commit c (if f3 =? 0
              then let t := wrap (rv c rs1 + imm_I inst) in
                   jump (ialign c) (Some (rd, next_pc c)) (t - t mod 2)
              else Except 2 inst).
Proof.
  intros Hrd H1. unfold exec_JALR. destruct (f3 =? 0); cbn [negb];
    [|exact (finish_trap c Hc H0 2 inst true)].
  cbv zeta. set (t := wrap _). rewrite Hnext.
  rewrite <- (finish_jump c Hc H0 _ _ (link_and_jump len rd (t - t mod 2)))
    by (done || by apply link_and_jump_eq).
  unfold bind at 1 2. rewrite reg_eq by (apply Hc || done).
  by rewrite get_imm_i_eq, land_fffffffe by done.
Qed.

Lemma exec_MISCMEM_eq f3 :
  (exec_MISCMEM inst f3 ;;; set_reg 0 0) c =
    commit c (if (f3 =? 0) || (f3 =? 1) then Retire None (next_pc c) else Except 2 inst).
Proof.
  unfold exec_MISCMEM. destruct (_ || _); [by apply finish_skip|].
  exact (finish_trap c Hc H0 2 inst true).
Qed.
End Control.
