(* ===== verification/Exec.v ===== *)
(** * Execution of instructions: the handlers that reach memory, and dispatch

    The load, store, SYSTEM and AMO handlers of cpu.py, the dispatch table and
    execute_32, execute_16 and execute.  They run in a world [W] that contains a
    CPU ([Has cpu W]) and offers the memory interface of Ram.v ([RamOps W]); the
    system-call handler installed by set_ecall_handler is an argument.  Logging
    has no effect on the machine and is left out, except that EBREAK logging
    reads a string from memory, which can fail. *)

From Stdlib Require Import ZArith Lia Bool String.
From stdpp Require Import base numbers list option gmap strings.
From S2P Require Import Prelude PyStr Isa Ram Cpu Rvc CpuSem.

Local Open Scope Z_scope.
Local Open Scope py_scope.

Section Exec.
Context {W : Type} `{HC : Has cpu W} `{R : RamOps W}.

(** [cpu.handle_ecall] *)
Context (handle_ecall : option (ST W unit)).

Definition exec_loads (inst rd funct3 rs1 : Z) : ST W unit :=
  let imm_i := get_imm_i inst in
  a <- zoom (reg rs1) ;;
  let addr := Z.land (a + imm_i) 0xFFFFFFFF in
  if funct3 =? 0x0 then v <- load_byte addr true ;; zoom (set_reg rd (Z.land v 0xFFFFFFFF))
  else if funct3 =? 0x1 then v <- load_half addr true ;; zoom (set_reg rd (Z.land v 0xFFFFFFFF))
  else if funct3 =? 0x2 then v <- load_word addr ;; zoom (set_reg rd (Z.land v 0xFFFFFFFF))
  else if funct3 =? 0x4 then v <- load_byte addr false ;; zoom (set_reg rd (Z.land v 0xFF))
  else if funct3 =? 0x5 then v <- load_half addr false ;; zoom (set_reg rd (Z.land v 0xFFFF))
  else zoom (illegal inst).

(** [cpu.reservation_valid = False] *)
Definition clear_reservation : ST cpu unit := modify (set_reservation_valid false).

(** The store offset. *)
Definition get_imm_s (inst : Z) : Z :=
  let imm_s := Z.lor (Z.land (Z.shiftr inst 7) 0x1F) (Z.shiftl (Z.shiftr inst 25) 5) in
  if 0x800 <=? imm_s then imm_s - 0x1000 else imm_s.

Definition exec_stores (inst funct3 rs1 rs2 : Z) : ST W unit :=
  let imm_s := get_imm_s inst in
  a <- zoom (reg rs1) ;;
  let addr := Z.land (a + imm_s) 0xFFFFFFFF in
  if funct3 =? 0x0 then
    b <- zoom (reg rs2) ;; store_byte addr (Z.land b 0xFF) ;;; zoom clear_reservation
  else if funct3 =? 0x1 then
    b <- zoom (reg rs2) ;; store_half addr (Z.land b 0xFFFF) ;;; zoom clear_reservation
  else if funct3 =? 0x2 then
    b <- zoom (reg rs2) ;; store_word addr b ;;; zoom clear_reservation
  else zoom (illegal inst).

(** EBREAK codes of register a7 from 0xFFFF0000 up only log; the ones that log a
    string read it from memory. *)
Definition exec_EBREAK : ST W unit :=
  a7 <- zoom (reg 17) ;;
  if 0xFFFF0000 <=? a7 then
    logger <- gets (fun w => has_logger (view w)) ;;
    if negb logger then ret tt
    else
      a0 <- zoom (reg 10) ;;
      if (a7 =? 0xFFFF0002) || (a7 =? 0xFFFF0003) || (a7 =? 0xFFFF0004)
      then load_cstring a0 1024 ;;; ret tt
      else ret tt
  else
    mtvec <- zoom (csr 0x305) ;;
    if mtvec =? 0 then
      zoom (bypassed_trap_return 3 0) ;;;
      p <- gets (fun w => pc (view w)) ;;
      raise (ExecutionTerminated (BreakpointAt p))
    else zoom (trap 3 0 true).

Definition exec_ECALL : ST W unit :=
  mtvec <- zoom (csr 0x305) ;;
  match handle_ecall with
  | Some handler =>
      if mtvec =? 0 then handler ;;; zoom (bypassed_trap_return 11 0)
      else zoom (trap 11 0 true)
  | None =>
      if negb (mtvec =? 0) then zoom (trap 11 0 true)
      else raise (MachineError "No trap handler and no Python ecall handler installed")
  end.

Definition exec_SYSTEM (inst rd funct3 rs1 : Z) : ST W unit :=
  if inst =? 0x00000073 then exec_ECALL
  else if inst =? 0x30200073 then zoom exec_MRET
  else if inst =? 0x00100073 then exec_EBREAK
  else if (funct3 =? 1) || (funct3 =? 2) || (funct3 =? 3) ||
          (funct3 =? 5) || (funct3 =? 6) || (funct3 =? 7)
  then zoom (exec_CSR inst rd funct3 rs1)
  else if inst =? 0x10500073 then ret tt
  else zoom (illegal inst).

(** A read-modify-write: [op old rs2] is the value stored. *)
Definition amo_rmw (addr rd rs2 : Z) (op : Z -> Z -> Z) : ST W unit :=
  old_val <- load_word addr ;;
  b <- zoom (reg rs2) ;;
  store_word addr (op old_val b) ;;;
  zoom (set_reg rd old_val) ;;;
  zoom clear_reservation.

Definition exec_LR (addr rd : Z) : ST W unit :=
  val <- load_word addr ;;
  zoom (set_reg rd val) ;;;
  zoom (modify (set_reservation_valid true)) ;;;
  zoom (modify (set_reservation_addr addr)).

Definition exec_SC (addr rd rs2 : Z) : ST W unit :=
  ok <- gets (fun w => reservation_valid (view w) && (reservation_addr (view w) =? addr)) ;;
  if ok : bool then
    b <- zoom (reg rs2) ;;
    store_word addr (Z.land b 0xFFFFFFFF) ;;;
    zoom (set_reg rd 0) ;;;
    zoom clear_reservation
  else zoom (set_reg rd 1).

(** The unsigned minimum and maximum mask the loaded value, which is also the
    value written to [rd]. *)
Definition amo_rmw_unsigned (addr rd rs2 : Z) (op : Z -> Z -> Z) : ST W unit :=
  v <- load_word addr ;;
  let old_val := Z.land v 0xFFFFFFFF in
  b <- zoom (reg rs2) ;;
  store_word addr (op old_val (Z.land b 0xFFFFFFFF)) ;;;
  zoom (set_reg rd old_val) ;;;
  zoom clear_reservation.

Definition exec_AMO (inst rd funct3 rs1 rs2 : Z) : ST W unit :=
  if negb (funct3 =? 0x2) then zoom (illegal inst)
  else
    let funct5 := Z.land (Z.shiftr inst 27) 0x1F in
    a <- zoom (reg rs1) ;;
    let addr := Z.land a 0xFFFFFFFF in
    if negb (Z.land addr 0x3 =? 0) then zoom (trap 6 addr true)
    else if funct5 =? 2 then exec_LR addr rd
    else if funct5 =? 3 then exec_SC addr rd rs2
    else if funct5 =? 1 then amo_rmw addr rd rs2 (fun _ b => Z.land b 0xFFFFFFFF)
    else if funct5 =? 0 then
      amo_rmw addr rd rs2 (fun old b => Z.land (old + b) 0xFFFFFFFF)
    else if funct5 =? 4 then
      amo_rmw addr rd rs2 (fun old b => Z.land (Z.lxor old b) 0xFFFFFFFF)
    else if funct5 =? 12 then
      amo_rmw addr rd rs2 (fun old b => Z.land (Z.land old b) 0xFFFFFFFF)
    else if funct5 =? 8 then
      amo_rmw addr rd rs2 (fun old b => Z.land (Z.lor old b) 0xFFFFFFFF)
    else if funct5 =? 16 then
      amo_rmw addr rd rs2
        (fun old b => Z.land (Z.min (signed32 old) (signed32 b)) 0xFFFFFFFF)
    else if funct5 =? 20 then
      amo_rmw addr rd rs2
        (fun old b => Z.land (Z.max (signed32 old) (signed32 b)) 0xFFFFFFFF)
    else if funct5 =? 24 then amo_rmw_unsigned addr rd rs2 Z.min
    else if funct5 =? 28 then amo_rmw_unsigned addr rd rs2 Z.max
    else zoom (illegal inst).

(** ** Dispatch *)

(** [opcode_handler], and the trap of execute_32 and execute_16 for an opcode
    that is not in the table. *)
Definition dispatch (inst inst_size : Z) (d : decoded) : ST W unit :=
  let '(mkDecoded opcode rd funct3 rs1 rs2 funct7) := d in
  if opcode =? 0x33 then zoom (exec_Rtype inst rd funct3 rs1 rs2 funct7)
  else if opcode =? 0x13 then zoom (exec_Itype inst rd funct3 rs1 funct7)
  else if opcode =? 0x03 then exec_loads inst rd funct3 rs1
  else if opcode =? 0x23 then exec_stores inst funct3 rs1 rs2
  else if opcode =? 0x63 then zoom (exec_branches inst funct3 rs1 rs2)
  else if opcode =? 0x37 then zoom (exec_LUI inst rd)
  else if opcode =? 0x17 then zoom (exec_AUIPC inst rd)
  else if opcode =? 0x6F then zoom (exec_JAL inst inst_size rd)
  else if opcode =? 0x67 then zoom (exec_JALR inst inst_size rd funct3 rs1)
  else if opcode =? 0x73 then exec_SYSTEM inst rd funct3 rs1
  else if opcode =? 0x0F then zoom (exec_MISCMEM inst funct3)
  else if opcode =? 0x2F then exec_AMO inst rd funct3 rs1 rs2
  else zoom (illegal inst).

(** [self.next_pc = (self.pc + n) & 0xFFFFFFFF], the handler, and the reset of
    register 0. *)
Definition execute_decoded (inst inst_size : Z) (d : decoded) : ST W unit :=
  zoom (modify (fun c => set_next_pc (Z.land (pc c + inst_size) 0xFFFFFFFF) c)) ;;;
  dispatch inst inst_size d ;;;
  zoom (set_reg 0 0).

(** The decode cache of 32-bit instructions is keyed by [inst >> 2]. *)
Definition execute_32 (inst : Z) : ST W unit :=
  hit <- gets (fun w => decode_cache (view w) !! Z.shiftr inst 2) ;;
  match hit with
  | Some d => execute_decoded inst 4 d
  | None =>
      let d := decode_fields inst in
      zoom (modify (fun c =>
        set_decode_cache (<[Z.shiftr inst 2 := d]> (decode_cache c)) c)) ;;;
      execute_decoded inst 4 d
  end.

(** The cache of compressed instructions holds the expansion too. *)
Definition execute_16 (inst16 : Z) : ST W unit :=
  hit <- gets (fun w => decode_cache_compressed (view w) !! inst16) ;;
  match hit with
  | Some (d, expanded_inst) => execute_decoded expanded_inst 2 d
  | None =>
      let '(expanded_inst, success) := expand_compressed inst16 in
      if negb success then zoom (illegal inst16)
      else
        let d := decode_fields expanded_inst in
        zoom (modify (fun c =>
          set_decode_cache_compressed
            (<[inst16 := (d, expanded_inst)]> (decode_cache_compressed c)) c)) ;;;
        execute_decoded expanded_inst 2 d
  end.

Definition execute (inst : Z) : ST W unit :=
  rvc <- gets (fun w => rvc_enabled (view w)) ;;
  if negb rvc then execute_32 inst
  else if Z.land inst 0x3 =? 0x3 then execute_32 inst
  else execute_16 (Z.land inst 0xFFFF).
End Exec.
