(* ===== verification/ExecSem.v ===== *)
(** * Execution against the instruction set

    execute_32 and execute_16 have the effect Isa.v gives to the instruction, for
    every world and memory: the decode caches are transparent as long as they are
    coherent, and coherence is kept. *)

From Stdlib Require Import ZArith Lia Bool String.
From stdpp Require Import base numbers list option gmap strings.
From S2P Require Import Prelude PyStr Isa Ram Cpu Rvc CpuSem Exec.

Local Open Scope Z_scope.
Local Open Scope py_scope.

(** ** Decoding *)

Lemma decode_fields_eq inst : decode_fields inst =
  mkDecoded (field inst 0 7) (field inst 7 5) (field inst 12 3) (field inst 15 5)
    (field inst 20 5) (field inst 25 7).
Proof.
  unfold decode_fields, field.
  rewrite land_7f, !land_1f, land_7, land_7f, !Z.shiftr_div_pow2 by lia.
  by rewrite Z.div_1_r.
Qed.

(** What the ISA says about an instruction word: an undefined one is illegal. *)
Definition isa_outcome (regs : Z -> Z) (pc len ialign inst : Z) : option outcome :=
  match decode inst with
  | Some i => sem regs pc len ialign i
  | None => Some (Except 2 inst)
  end.

(** A cached decoding is the one of the instructions its key stands for. *)
Record cache_coherent (c : cpu) : Prop := {
  coherent_32 : forall k d, decode_cache c !! k = Some d -> d = decode_fields (4 * k + 3);
  coherent_16 : forall k d e, decode_cache_compressed c !! k = Some (d, e) ->
    expand_compressed k = (e, true) /\ d = decode_fields e
}.

(** The caches after the instruction. *)
Definition cache_32 (inst : Z) (c : cpu) : cpu :=
  set_decode_cache (<[Z.shiftr inst 2 := decode_fields inst]> (decode_cache c)) c.

Definition cache_16 (inst16 : Z) (c : cpu) : cpu :=
  let '(e, ok) := expand_compressed inst16 in
  if ok : bool then
    set_decode_cache_compressed
      (<[inst16 := (decode_fields e, e)]> (decode_cache_compressed c)) c
  else c.

Lemma key_inst inst : inst mod 4 = 3 -> 4 * Z.shiftr inst 2 + 3 = inst.
Proof. intros H. rewrite Z.shiftr_div_pow2 by lia. simpl (2 ^ 2). Z.div_mod_to_equations. lia. Qed.

Lemma cache_32_hit c inst d : cache_coherent c -> inst mod 4 = 3 ->
  decode_cache c !! Z.shiftr inst 2 = Some d -> d = decode_fields inst /\ cache_32 inst c = c.
Proof.
  intros Hc Hi Hd. pose proof (coherent_32 c Hc _ _ Hd) as ->. rewrite key_inst in * by done.
  split; [done|]. unfold cache_32. rewrite insert_id by done. by destruct c.
Qed.

Lemma cache_32_coherent c inst : cache_coherent c -> inst mod 4 = 3 ->
  cache_coherent (cache_32 inst c).
Proof.
  intros [H1 H2] Hi. split; [|done]. intros k d. simpl.
  rewrite lookup_insert. case_decide as Hk; [intros; simplify_eq|by apply H1].
  by rewrite key_inst.
Qed.

Lemma cache_16_hit c k d e : cache_coherent c ->
  decode_cache_compressed c !! k = Some (d, e) ->
  expand_compressed k = (e, true) /\ d = decode_fields e /\ cache_16 k c = c.
Proof.
  intros Hc Hd. destruct (coherent_16 c Hc _ _ _ Hd) as [He ->].
  split_and!; [done..|]. unfold cache_16. rewrite He, insert_id by done. by destruct c.
Qed.

Lemma cache_16_coherent c k : cache_coherent c -> cache_coherent (cache_16 k c).
Proof.
  intros [H1 H2]. unfold cache_16. destruct (expand_compressed k) as [e []] eqn:He; [|done].
  split; [done|]. intros k' d' e'. simpl.
  rewrite lookup_insert. case_decide as Hk; [intros; simplify_eq; done|by apply H2].
Qed.

(** ** Computations on the processor alone *)

Section World.
Context {W : Type} `{HC : Has cpu W} `{R : RamOps W}.
Context (handle_ecall : option (ST W unit)).

Lemma zoom_eq {A} (m m' : ST cpu A) (w : W) : m (view w) = m' (view w) -> zoom m w = zoom m' w.
Proof. intros Hm. unfold zoom. by rewrite Hm. Qed.

Lemma zoom_seq {A B} (m : ST cpu A) (k : ST cpu B) (w : W) :
  (zoom m ;;; zoom k) w = zoom (m ;;; k) w.
Proof.
  unfold bind, zoom. destruct (m (view w)) as [[a|e] c]; [|done].
  rewrite view_put. destruct (k c) as [r c']. by rewrite put_put.
Qed.

Lemma zoom_modify_seq {B} (f : cpu -> cpu) (k : ST W B) (w : W) :
  (zoom (modify f) ;;; k) w = k (put (f (view w)) w).
Proof. done. Qed.

Lemma zoom_put {A} (m : ST cpu A) (c : cpu) (w : W) :
  zoom m (put c w) = zoom (fun _ => m c) w.
Proof. unfold zoom. rewrite view_put. destruct (m c). by rewrite put_put. Qed.

(** ** Dispatch *)

Lemma zoom_reg (w : W) i : wf_cpu (view w) -> 0 <= i < 32 ->
  zoom (reg i) w = (Ok (rv (view w) i), w).
Proof. intros Hc Hi. unfold zoom. by rewrite reg_eq, put_view by (apply Hc || done). Qed.

Lemma exec_loads_illegal (w : W) inst rd f3 rs1 : wf_cpu (view w) -> 0 <= rs1 < 32 ->
  0 <= f3 < 8 -> lop_of f3 = None -> exec_loads inst rd f3 rs1 w = zoom (illegal inst) w.
Proof.
  intros Hc Hr Hf3 Hl. unfold exec_loads, bind. rewrite zoom_reg by done.
  assert (f3 = 3 \/ f3 = 6 \/ f3 = 7) as [-> | [-> | ->]]
    by (unfold lop_of in Hl; repeat case_match; simplify_eq; lia); done.
Qed.

Lemma exec_stores_illegal (w : W) inst f3 rs1 rs2 : wf_cpu (view w) -> 0 <= rs1 < 32 ->
  0 <= f3 < 8 -> sop_of f3 = None -> exec_stores inst f3 rs1 rs2 w = zoom (illegal inst) w.
Proof.
  intros Hc Hr Hf3 Hs. unfold exec_stores, bind. rewrite zoom_reg by done.
  destruct (Z.eqb_spec f3 0) as [->|]; [done|]. destruct (Z.eqb_spec f3 1) as [->|]; [done|].
  by destruct (Z.eqb_spec f3 2) as [->|].
Qed.

(** The SYSTEM instructions without an outcome in [sem] are not the concern here:
    what remains is WFI and the undefined ones. *)
Lemma exec_SYSTEM_other (w : W) inst rd f3 rs1 :
  inst <> 0x00000073 -> inst <> 0x30200073 -> inst <> 0x00100073 -> 0 <= f3 < 8 ->
  csr_of inst rd f3 rs1 = None ->
  exec_SYSTEM handle_ecall inst rd f3 rs1 w =
    if inst =? 0x10500073 then (Ok tt, w) else zoom (illegal inst) w.
Proof.
  intros H1 H2 H3 Hf3 Hcsr. unfold exec_SYSTEM.
  rewrite (proj2 (Z.eqb_neq _ _) H1), (proj2 (Z.eqb_neq _ _) H2), (proj2 (Z.eqb_neq _ _) H3).
  assert (f3 = 0 \/ f3 = 4) as [-> | ->]
    by (unfold csr_of in Hcsr; repeat case_match; simplify_eq; lia);
    cbn [Z.eqb Pos.eqb orb]; by destruct (inst =? 0x10500073).
Qed.

Lemma opcode_other {A} (op : Z) (a1 a2 a3 a4 a5 a6 a7 a8 a9 a10 a11 a12 d : A) :
  op <> 0x33 -> op <> 0x13 -> op <> 0x03 -> op <> 0x23 -> op <> 0x63 -> op <> 0x37 ->
  op <> 0x17 -> op <> 0x6F -> op <> 0x67 -> op <> 0x0F -> op <> 0x2F -> op <> 0x73 ->
  match op with
  | 0x33 => a1 | 0x13 => a2 | 0x03 => a3 | 0x23 => a4 | 0x63 => a5 | 0x37 => a6
  | 0x17 => a7 | 0x6F => a8 | 0x67 => a9 | 0x0F => a10 | 0x2F => a11 | 0x73 => a12
  | _ => d
  end = d.
Proof.
  intros. destruct op as [|p|p]; try done.
  do 7 (try destruct p as [p|p|]; try done).
Qed.

Section Dispatch.
Variables (w : W) (inst len : Z).
Hypothesis Hc : wf_cpu (view w).
Hypothesis H0 : x0_zero (view w).
Hypothesis Hi : u32 inst.
Hypothesis Hn : next_pc (view w) = wrap (pc (view w) + len).

Lemma finish_zoom (m : ST cpu unit) o o' : o' = o ->
  (m ;;; set_reg 0 0) (view w) = commit (view w) o' ->
  (zoom m ;;; zoom (set_reg 0 0)) w = zoom (fun c => commit c o) w.
Proof. intros -> Hm. rewrite zoom_seq. by apply zoom_eq. Qed.

Lemma finish_illegal (m : ST W unit) o : Except 2 inst = o -> m w = zoom (illegal inst) w ->
  (m ;;; zoom (set_reg 0 0)) w = zoom (fun c => commit c o) w.
Proof.
  intros Ho Hm. transitivity ((zoom (illegal inst) ;;; zoom (set_reg 0 0)) w).
  - unfold bind at 1. rewrite Hm. done.
  - apply (finish_zoom _ _ _ Ho). by apply finish_trap.
Qed.

(** A handler that writes [rd] or traps. *)
Lemma finish_result (m : ST cpu unit) (x : option Z) rd o : 0 <= rd < 32 ->
  m (view w) = match x with
               | Some v => (Ok tt, wr rd v (view w)) | None => illegal inst (view w) end ->
  match x with
  | Some v => Retire (Some (rd, v)) (wrap (pc (view w) + len)) | None => Except 2 inst end = o ->
  (zoom m ;;; zoom (set_reg 0 0)) w = zoom (fun c => commit c o) w.
Proof.
  intros Hrd Hm Ho. destruct x as [v|]; [|apply finish_illegal; [done|by apply zoom_eq]].
  eapply finish_zoom; [|apply finish_wr; [done|done|exact Hrd|exact Hm]]. by rewrite Hn.
Qed.

(** What is left of SYSTEM. *)
Lemma system_isa rd rs1 o : let f3 := field inst 12 3 in
  match (if inst =? 0x00000073 then Some Ecall else if inst =? 0x30200073 then Some Mret
         else if inst =? 0x00100073 then Some Ebreak else if inst =? 0x10500073 then Some Wfi
         else csr_of inst rd f3 rs1) with
  | Some i => sem (rv (view w)) (pc (view w)) len (ialign (view w)) i
  | None => Some (Except 2 inst)
  end = Some o ->
  (exec_SYSTEM handle_ecall inst rd f3 rs1 ;;; zoom (set_reg 0 0)) w =
  zoom (fun c => commit c o) w.
Proof.
  intros f3 Ho. pose proof (field_range inst 12 3 ltac:(lia)) as Hf3. fold f3 in Hf3.
  destruct (Z.eqb_spec inst 0x00000073); [done|].
  destruct (Z.eqb_spec inst 0x30200073); [done|]. destruct (Z.eqb_spec inst 0x00100073); [done|].
  destruct (Z.eqb_spec inst 0x10500073) as [Hw|Hw].
  - assert (csr_of inst rd f3 rs1 = None) as Hcsr by (unfold f3; by rewrite Hw).
    transitivity ((zoom (ret tt) ;;; zoom (set_reg 0 0)) w).
    + unfold bind at 1. rewrite exec_SYSTEM_other by done. rewrite (proj2 (Z.eqb_eq _ _) Hw).
      unfold bind, zoom at 2, ret. by rewrite put_view.
    + eapply finish_zoom; [|by apply finish_skip]. rewrite Hn. simpl in Ho. by simplify_eq.
  - destruct (csr_of inst rd f3 rs1) eqn:Hcsr; simpl in Ho.
    + unfold csr_of in Hcsr. repeat case_match; by simplify_eq.
    + simplify_eq. apply finish_illegal; [done|]. rewrite exec_SYSTEM_other by done.
      by rewrite (proj2 (Z.eqb_neq _ _) Hw).
Qed.

(** Dispatch and the reset of register 0 commit the outcome of the ISA. *)
Lemma dispatch_isa o : field inst 0 7 <> 0x2F ->
  isa_outcome (rv (view w)) (pc (view w)) len (ialign (view w)) inst = Some o ->
  (dispatch handle_ecall inst len (decode_fields inst) ;;; zoom (set_reg 0 0)) w =
  zoom (fun c => commit c o) w.
Proof.
  intros Hamo Ho. rewrite decode_fields_eq. unfold isa_outcome, decode in Ho. cbv zeta in Ho.
  pose proof (field_range inst 7 5 ltac:(lia)) as Hrd.
  pose proof (field_range inst 15 5 ltac:(lia)) as Hrs1.
  pose proof (field_range inst 20 5 ltac:(lia)) as Hrs2.
  pose proof (field_range inst 12 3 ltac:(lia)) as Hf3.
  set (op := field inst 0 7) in *; set (rd := field inst 7 5) in *;
    set (f3 := field inst 12 3) in *; set (rs1 := field inst 15 5) in *;
    set (rs2 := field inst 20 5) in *; set (f7 := field inst 25 7) in *.
  unfold dispatch.
  destruct (Z.eqb_spec op 0x33) as [E|?].
  { rewrite E in Ho.
    apply (finish_result _ ((fun r => rop_sem r (rv (view w) rs1) (rv (view w) rs2)) <$> rop_of f3 f7)
      rd); [done|rewrite exec_Rtype_eq by done|]; destruct (rop_of f3 f7); simpl in *; by simplify_eq. }
  destruct (Z.eqb_spec op 0x13) as [E|?].
  { rewrite E in Ho.
    apply (finish_result _ ((fun '(r, sh) => rop_sem r (rv (view w) rs1)
      (wrap (if sh : bool then field inst 20 5 else imm_I inst))) <$> iop_of f3 f7) rd);
      [done|rewrite exec_Itype_eq by done|]; destruct (iop_of f3 f7) as [[]|]; simpl in *; by simplify_eq. }
  destruct (Z.eqb_spec op 0x03) as [E|?].
  { rewrite E in Ho. destruct (lop_of f3) eqn:Hr; simpl in Ho; simplify_eq.
    apply finish_illegal; [done|]. by apply exec_loads_illegal. }
  destruct (Z.eqb_spec op 0x23) as [E|?].
  { rewrite E in Ho. destruct (sop_of f3) eqn:Hr; simpl in Ho; simplify_eq.
    apply finish_illegal; [done|]. by apply exec_stores_illegal. }
  destruct (Z.eqb_spec op 0x63) as [E|?].
  { rewrite E in Ho. eapply finish_zoom; [|by apply exec_branches_eq].
    rewrite Hn. destruct (bop_of f3); simpl in Ho; by simplify_eq. }
  destruct (Z.eqb_spec op 0x37) as [E|?].
  { rewrite E in Ho. eapply finish_zoom; [|by apply exec_LUI_eq].
    rewrite Hn. simpl in Ho. by simplify_eq. }
  destruct (Z.eqb_spec op 0x17) as [E|?].
  { rewrite E in Ho. eapply finish_zoom; [|by apply exec_AUIPC_eq].
    rewrite Hn. simpl in Ho. by simplify_eq. }
  destruct (Z.eqb_spec op 0x6F) as [E|?].
  { rewrite E in Ho. eapply finish_zoom; [|by apply exec_JAL_eq].
    rewrite Hn. simpl in Ho. by simplify_eq. }
  destruct (Z.eqb_spec op 0x67) as [E|?].
  { rewrite E in Ho. eapply finish_zoom; [|by apply exec_JALR_eq].
    rewrite Hn. destruct (f3 =? 0); simpl in Ho; by simplify_eq. }
  destruct (Z.eqb_spec op 0x73) as [E|?].
  { rewrite E in Ho. by apply system_isa. }
  destruct (Z.eqb_spec op 0x0F) as [E|?].
  { rewrite E in Ho. eapply finish_zoom; [|by apply exec_MISCMEM_eq].
    rewrite Hn. destruct (_ || _); simpl in Ho; by simplify_eq. }
  destruct (Z.eqb_spec op 0x2F) as [E|?]; [done|].
  apply finish_illegal; [|done].
  rewrite opcode_other in Ho by done. by simplify_eq.
Qed.
End Dispatch.

(** ** Fetch of the decoding *)

Lemma execute_decoded_eq inst len d (w : W) :
  execute_decoded handle_ecall inst len d w =
  (dispatch handle_ecall inst len d ;;; zoom (set_reg 0 0))
    (put (set_next_pc (wrap (pc (view w) + len)) (view w)) w).
Proof. unfold execute_decoded. rewrite zoom_modify_seq. by rewrite land_ffffffff. Qed.

Lemma execute_32_cached inst (w : W) : cache_coherent (view w) -> inst mod 4 = 3 ->
  execute_32 handle_ecall inst w =
  execute_decoded handle_ecall inst 4 (decode_fields inst) (put (cache_32 inst (view w)) w).
Proof.
  intros Hcoh Hi. unfold execute_32, bind at 1, gets.
  destruct (decode_cache (view w) !! Z.shiftr inst 2) as [d|] eqn:Hd; [|done].
  destruct (cache_32_hit _ _ _ Hcoh Hi Hd) as [-> ->]. by rewrite put_view.
Qed.

Lemma execute_16_cached k (w : W) : cache_coherent (view w) ->
  execute_16 handle_ecall k w =
  let '(e, ok) := expand_compressed k in
  if ok : bool
  then execute_decoded handle_ecall e 2 (decode_fields e) (put (cache_16 k (view w)) w)
  else zoom (illegal k) w.
Proof.
  intros Hcoh. unfold execute_16, bind at 1, gets.
  destruct (decode_cache_compressed (view w) !! k) as [[d e]|] eqn:Hd.
  - destruct (cache_16_hit _ _ _ _ Hcoh Hd) as (-> & -> & ->). by rewrite put_view.
  - unfold cache_16. by destruct (expand_compressed k) as [e []].
Qed.

(** The parts of the processor that decide an outcome. *)
Lemma execute_decoded_isa inst len o (w : W) :
  wf_cpu (view w) -> x0_zero (view w) -> u32 inst -> field inst 0 7 <> 0x2F ->
  isa_outcome (rv (view w)) (pc (view w)) len (ialign (view w)) inst = Some o ->
  execute_decoded handle_ecall inst len (decode_fields inst) w =
  zoom (fun c => commit (set_next_pc (wrap (pc c + len)) c) o) w.
Proof.
  intros Hc H0 Hi Hamo Ho. rewrite execute_decoded_eq.
  rewrite (dispatch_isa _ inst len) with (o := o); rewrite ?view_put; try done.
  - rewrite zoom_put. done.
  - destruct Hc; split; simpl; try done. apply u32_wrap.
Qed.
End World.

Lemma cache_32_wf c inst : wf_cpu c -> wf_cpu (cache_32 inst c).
Proof.
  intros []. split; try done. intros k d. simpl. rewrite lookup_insert.
  case_decide; [|eauto]. intros [= <-]. apply decode_fields_ok.
Qed.

Lemma cache_16_wf c k : wf_cpu c -> wf_cpu (cache_16 k c).
Proof.
  intros Hc. unfold cache_16. pose proof (expand_u32 k) as He.
  destruct (expand_compressed k) as [e []]; [|done].
  destruct Hc. split; try done. intros k' d' e'. simpl. rewrite lookup_insert.
  case_decide; [|eauto]. intros [= <- <-]. split; [apply decode_fields_ok|done].
Qed.

Lemma cache_16_view c k : registers (cache_16 k c) = registers c /\ pc (cache_16 k c) = pc c /\
  alignment_mask (cache_16 k c) = alignment_mask c.
Proof. unfold cache_16. by destruct (expand_compressed k) as [e []]. Qed.

(** An instruction with an integer meaning is not an AMO. *)
Lemma not_amo inst i regs p len al o : decode inst = Some i -> sem regs p len al i = Some o ->
  field inst 0 7 <> 0x2F.
Proof.
  intros Hd Ho E. unfold decode in Hd. rewrite E in Hd. cbv zeta in Hd.
  destruct (_ =? 2); [|done]. destruct (aop_of _); simpl in Hd; by simplify_eq.
Qed.

Section Theorems.
Context {W : Type} `{HC : Has cpu W} `{R : RamOps W}.
Context (handle_ecall : option (ST W unit)).

(** A 32-bit instruction without memory access commits the outcome of the ISA. *)
Lemma execute_32_commit (w : W) (inst : Z) (o : outcome) :
  wf_cpu (view w) -> x0_zero (view w) -> cache_coherent (view w) ->
  u32 inst -> inst mod 4 = 3 -> field inst 0 7 <> 0x2F ->
  isa_outcome (rv (view w)) (pc (view w)) 4 (ialign (view w)) inst = Some o ->
  execute_32 handle_ecall inst w =
  zoom (fun c => commit (set_next_pc (wrap (pc c + 4)) (cache_32 inst c)) o) w.
Proof.
  intros Hwf H0 Hcoh Hi H3 Hamo Ho. rewrite execute_32_cached by done.
  rewrite (execute_decoded_isa _ _ _ o); rewrite ?view_put; try done.
  - by rewrite zoom_put.
  - by apply cache_32_wf.
Qed.

(** C6: executing a 32-bit instruction word without memory access has exactly the
    effect the ISA gives it, for every operand: the register write-back (dropped
    for x0), the next pc, the traps of misaligned jump targets with cause 0 and of
    undefined encodings with cause 2.  Nothing else of the world changes but the
    decode cache.  The AMO opcode is the subject of other theorems. *)
Theorem execute_32_isa (w : W) (inst : Z) (o : outcome)
  (Hwf : wf_cpu (view w)) (H0 : x0_zero (view w)) (Hcoh : cache_coherent (view w))
  (Hi : u32 inst) (H3 : inst mod 4 = 3) (Hamo : field inst 0 7 <> 0x2F)
  (Ho : isa_outcome (rv (view w)) (pc (view w)) 4 (ialign (view w)) inst = Some o) :
  execute_32 handle_ecall inst w =
  zoom (fun c => commit (set_next_pc (wrap (pc c + 4)) (cache_32 inst c)) o) w.
Proof. by apply execute_32_commit. Qed.

(** C10: executing any compressed instruction has exactly the effect the ISA gives to the
    instruction the manual expands it to, with length 2.  Without memory access this is the
    effect of the specification: write-back, next pc or the trap of a misaligned target.  A
    load, a store or C.EBREAK is executed by the handler of the 32-bit instruction with that
    meaning, with length 2.  A word that the manual reserves, or one of the rejected hints,
    traps as an illegal instruction and changes nothing before the trap but the next pc and
    the cache; its mtval is the word itself, or its expansion for the reserved shifts. *)
Theorem execute_16_isa (w : W) (k : Z)
  (Hwf : wf_cpu (view w)) (H0 : x0_zero (view w)) (Hcoh : cache_coherent (view w)) :
  match rvc_spec k with
  | Some i =>
      match sem (rv (view w)) (pc (view w)) 2 (ialign (view w)) i with
      | Some o => execute_16 handle_ecall k w =
          zoom (fun c => commit (set_next_pc (wrap (pc c + 2)) (cache_16 k c)) o) w
      | None => exists e, decode e = Some i /\ u32 e /\
          execute_16 handle_ecall k w =
            execute_decoded handle_ecall e 2 (decode_fields e) (put (cache_16 k (view w)) w)
      end
  | None => exists next tval, (tval = k \/ tval = fst (expand_compressed k)) /\
      execute_16 handle_ecall k w =
        zoom (fun c => trap 2 tval true (set_next_pc next (cache_16 k c))) w
  end.
Proof.
  rewrite <- expand_meaning. unfold rvc_meaning.
  rewrite execute_16_cached by done. pose proof (expand_u32 k) as He.
  pose proof (cache_16_wf _ k Hwf) as Hwf'. pose proof (expand_not_amo k) as Hamo.
  destruct (cache_16_view (view w) k) as (Hr & Hp & Ha).
  destruct (expand_compressed k) as [e ok] eqn:E. simpl fst in *. destruct ok.
  - assert (forall o, isa_outcome (rv (view w)) (pc (view w)) 2 (ialign (view w)) e = Some o ->
      execute_decoded handle_ecall e 2 (decode_fields e) (put (cache_16 k (view w)) w) =
      zoom (fun c => commit (set_next_pc (wrap (pc c + 2)) (cache_16 k c)) o) w) as Hx.
    { intros o Ho. rewrite (execute_decoded_isa _ _ _ o); rewrite ?view_put; try done.
      - rewrite zoom_put. unfold zoom. by rewrite Hp.
      - unfold x0_zero, rv. by rewrite Hr.
      - rewrite <- Ho. unfold isa_outcome, ialign, rv. by rewrite Hr, Ha, Hp. }
    unfold isa_outcome in Hx. destruct (decode e) as [i|] eqn:Hd.
    + destruct (sem _ _ _ _ i) as [o|]; [by apply Hx|eauto].
    + exists (wrap (pc (view w) + 2)), e. split; [by right|]. by apply (Hx _ eq_refl).
  - exists (next_pc (view w)), k. split; [by left|].
    unfold zoom, illegal, cache_16. by rewrite E, set_next_pc_id.
Qed.
End Theorems.
