(* ===== verification/ExecSafe.v ===== *)
(** * The machine stays well formed, and only its own errors escape

    Every instruction keeps the processor well formed (32-bit registers and CSRs,
    a 32-bit pc, sane caches) and raises nothing but the exceptions of the
    emulator: no IndexError, BufferError or TypeError of Python.  The memory is
    used through [RamSafe], what a memory class promises to the processor. *)

From Stdlib Require Import ZArith Lia Bool String.
From stdpp Require Import base numbers list option gmap strings.
From S2P Require Import Prelude PyStr Isa Ram Cpu Rvc CpuSem Exec ExecSem.

Local Open Scope Z_scope.
Local Open Scope py_scope.

(** ** Handlers on the processor alone *)

Section Handlers.
Context (I : cpu -> Prop) `{HI : CpuInv I}.

Lemma exec_Rtype_safe inst rd f3 rs1 rs2 f7 : u32 inst ->
  0 <= rd < 32 -> 0 <= rs1 < 32 -> 0 <= rs2 < 32 -> 0 <= f3 < 8 ->
  cpu_safe I (exec_Rtype inst rd f3 rs1 rs2 f7) (fun _ => True).
Proof.
  intros. intros c Hc. pose proof (inv_wf c Hc). rewrite exec_Rtype_eq by done.
  destruct (rop_of f3 f7) as [o|]; [|by apply illegal_safe].
  split; [|done]. eapply inv_frame; [exact Hc|apply wr_wf; [done|]|done..].
  auto using rop_sem_u32, rv_u32.
Qed.

Lemma exec_Itype_safe inst rd f3 rs1 f7 : u32 inst ->
  0 <= rd < 32 -> 0 <= rs1 < 32 -> 0 <= f3 < 8 ->
  cpu_safe I (exec_Itype inst rd f3 rs1 f7) (fun _ => True).
Proof.
  intros. intros c Hc. pose proof (inv_wf c Hc). rewrite exec_Itype_eq by done.
  destruct (iop_of f3 f7) as [[o sh]|]; [|by apply illegal_safe].
  split; [|done]. eapply inv_frame; [exact Hc|apply wr_wf; [done|]|done..].
  apply rop_sem_u32; [by apply rv_u32|apply u32_wrap].
Qed.

Lemma exec_branches_safe inst f3 rs1 rs2 : u32 inst -> 0 <= rs1 < 32 -> 0 <= rs2 < 32 ->
  cpu_safe I (exec_branches inst f3 rs1 rs2) (fun _ => True).
Proof. intros. unfold exec_branches, check_target. keep. Qed.

Lemma exec_LUI_safe inst rd : 0 <= rd < 32 -> cpu_safe I (exec_LUI inst rd) (fun _ => True).
Proof. intros. unfold exec_LUI. keep. Qed.

Lemma exec_AUIPC_safe inst rd : 0 <= rd < 32 -> cpu_safe I (exec_AUIPC inst rd) (fun _ => True).
Proof. intros. unfold exec_AUIPC. keep. Qed.

Lemma exec_JAL_safe inst len rd : 0 <= rd < 32 ->
  cpu_safe I (exec_JAL inst len rd) (fun _ => True).
Proof. intros. unfold exec_JAL, check_target, link_and_jump. keep. Qed.

Lemma exec_JALR_safe inst len rd f3 rs1 : u32 inst -> 0 <= rd < 32 -> 0 <= rs1 < 32 ->
  cpu_safe I (exec_JALR inst len rd f3 rs1) (fun _ => True).
Proof. intros. unfold exec_JALR, check_target, link_and_jump. keep. Qed.

Lemma exec_MISCMEM_safe inst f3 : u32 inst -> cpu_safe I (exec_MISCMEM inst f3) (fun _ => True).
Proof. intros. unfold exec_MISCMEM. keep. Qed.

Lemma bypassed_trap_return_safe cause mtval : u32 cause -> u32 mtval ->
  cpu_safe I (bypassed_trap_return cause mtval) (fun _ => True).
Proof. intros. unfold bypassed_trap_return. keep. Qed.

(** The halves of the 64-bit timer registers. *)
Lemma join64 hi lo : u32 hi -> u32 lo -> u64 (Z.lor (Z.shiftl hi 32) lo).
Proof.
  intros Hh Hl. apply uN_lor; [lia| |unfold uN in *; lia].
  apply uN_shiftl; [lia|done].
Qed.

Lemma update_mtime_safe n : cpu_safe I (update_mtime n) (fun _ => True).
Proof.
  unfold update_mtime. keep.
  apply set_mtime_safe; [done|]. by apply join64.
Qed.

Lemma update_mtimecmp_safe n : cpu_safe I (update_mtimecmp n) (fun _ => True).
Proof.
  unfold update_mtimecmp. keep.
  apply set_mtimecmp_safe; [done|]. by apply join64.
Qed.

Lemma exec_MRET_safe : cpu_safe I exec_MRET (fun _ => True).
Proof. unfold exec_MRET, check_target. keep. Qed.

#[local] Hint Resolve update_mtime_safe update_mtimecmp_safe : keeps.

Lemma csr_result_safe n old : u32 old -> cpu_safe I (csr_result n old) u32.
Proof. intros. apply keeps_gets. intros c Hc. repeat case_match; auto with words. Qed.

#[local] Hint Extern 1 (keeps _ _ (csr_result _ _) _) =>
  apply csr_result_safe; auto with words : keeps.
#[local] Hint Extern 2 (keeps _ _ (ret _) (uN _)) => apply keeps_ret; auto with words : keeps.

Lemma exec_CSR_safe inst rd f3 rs1 : u32 inst -> 0 <= rd < 32 -> 0 <= rs1 < 32 ->
  cpu_safe I (exec_CSR inst rd f3 rs1) (fun _ => True).
Proof.
  intros Hi Hrd Hrs. unfold exec_CSR. set (n := Z.land (Z.shiftr inst 20) 0xFFF).
  assert (0 <= n < 4096) by (unfold n; rewrite land_fff; apply Z.mod_pos_bound; lia).
  clearbody n. keep.
Qed.

Lemma timer_update_safe : cpu_safe I timer_update (fun _ => True).
Proof. unfold timer_update. keep. apply set_mtime_safe; [done|lia]. Qed.
End Handlers.

(** ** What a memory promises *)

(** The operations of a memory keep an invariant of the world that includes the
    invariant [Ic] of the processor, a loaded value has the range of its width and
    signedness, and only exceptions of [E] are raised (for a memory without devices
    those of the emulator). *)
Definition loaded (bits : Z) (signed : bool) (v : Z) : Prop :=
  if signed then - 2 ^ (bits - 1) <= v < 2 ^ (bits - 1) else uN bits v.

Class RamSafe {W : Type} `{HC : Has cpu W} `{R : RamOps W} (E : exn -> Prop) (Ic : cpu -> Prop)
    (I : W -> Prop) : Prop := {
  safe_view : forall w, I w -> Ic (view w);
  safe_put : forall w c, I w -> Ic c -> I (put c w);
  safe_load_byte : forall a s, keeps E I (load_byte a s) (loaded 8 s);
  safe_load_half : forall a s, keeps E I (load_half a s) (loaded 16 s);
  safe_load_word : forall a, keeps E I (load_word a) u32;
  safe_store_byte : forall a v, keeps E I (store_byte a v) (fun _ => True);
  safe_store_half : forall a v, keeps E I (store_half a v) (fun _ => True);
  safe_store_word : forall a v, keeps E I (store_word a v) (fun _ => True);
  safe_load_cstring : forall a n, keeps E I (load_cstring a n) (fun _ => True)
}.

Section Safe.
Context {W : Type} `{HC : Has cpu W} `{R : RamOps W}.
Context (Ic : cpu -> Prop) `{HI : !CpuInv Ic}.
Context (I : W -> Prop) `{HS : !RamSafe machine_error Ic I}.
Context (handle_ecall : option (ST W unit)).
Hypothesis Hecall : forall h, handle_ecall = Some h -> keeps machine_error I h (fun _ => True).

Abbreviation safe m Q := (keeps machine_error I m Q).

Lemma zoom_safe {A} (m : ST cpu A) Q : cpu_safe Ic m Q -> safe (zoom m) Q.
Proof.
  intros Hm. eapply keeps_zoom; [exact Hm|apply safe_view|intros; by apply safe_put].
Qed.

#[local] Hint Resolve safe_load_byte safe_load_half safe_load_word safe_store_byte
  safe_store_half safe_store_word safe_load_cstring : keeps.
#[local] Hint Extern 1 (safe (zoom _) _) => apply zoom_safe; solve [eauto 4 with keeps words] : keeps.

Lemma exec_loads_safe inst rd f3 rs1 : u32 inst -> 0 <= rd < 32 -> 0 <= rs1 < 32 ->
  safe (exec_loads inst rd f3 rs1) (fun _ => True).
Proof. intros. unfold exec_loads. keep. Qed.

Lemma exec_stores_safe inst f3 rs1 rs2 : u32 inst -> 0 <= rs1 < 32 -> 0 <= rs2 < 32 ->
  safe (exec_stores inst f3 rs1 rs2) (fun _ => True).
Proof. intros. unfold exec_stores, clear_reservation. keep. Qed.

Lemma exec_EBREAK_safe : safe exec_EBREAK (fun _ => True).
Proof.
  unfold exec_EBREAK. keep.
  all: try (apply zoom_safe, bypassed_trap_return_safe; auto with words).
Qed.
#[local] Hint Resolve exec_EBREAK_safe exec_MRET_safe : keeps.
#[local] Hint Extern 2 (safe (zoom (bypassed_trap_return _ _)) _) =>
  apply zoom_safe, bypassed_trap_return_safe; auto with words : keeps.

Lemma exec_ECALL_safe : safe (exec_ECALL handle_ecall) (fun _ => True).
Proof.
  unfold exec_ECALL. eapply keeps_bind; [keep|]. intros mtvec _.
  destruct handle_ecall as [h|]; keep.
Qed.

Lemma exec_SYSTEM_safe inst rd f3 rs1 : u32 inst -> 0 <= rd < 32 -> 0 <= rs1 < 32 ->
  safe (exec_SYSTEM handle_ecall inst rd f3 rs1) (fun _ => True).
Proof.
  intros. unfold exec_SYSTEM. keep.
  - apply exec_ECALL_safe.
  - by apply zoom_safe, exec_CSR_safe.
Qed.

Lemma amo_rmw_safe addr rd rs2 op : 0 <= rd < 32 -> 0 <= rs2 < 32 ->
  safe (amo_rmw addr rd rs2 op) (fun _ => True).
Proof. intros. unfold amo_rmw, clear_reservation. keep. Qed.

Lemma amo_rmw_unsigned_safe addr rd rs2 op : 0 <= rd < 32 -> 0 <= rs2 < 32 ->
  safe (amo_rmw_unsigned addr rd rs2 op) (fun _ => True).
Proof. intros. unfold amo_rmw_unsigned, clear_reservation. keep. Qed.

#[local] Hint Resolve amo_rmw_safe amo_rmw_unsigned_safe : keeps.

Lemma exec_AMO_safe inst rd f3 rs1 rs2 : u32 inst ->
  0 <= rd < 32 -> 0 <= rs1 < 32 -> 0 <= rs2 < 32 ->
  safe (exec_AMO inst rd f3 rs1 rs2) (fun _ => True).
Proof. intros. unfold exec_AMO, exec_LR, exec_SC, clear_reservation. keep. Qed.

Lemma dispatch_safe inst len d : u32 inst -> fields_ok d ->
  safe (dispatch handle_ecall inst len d) (fun _ => True).
Proof.
  intros Hi. destruct d as [op rd f3 rs1 rs2 f7]. intros (Hrd & Hrs1 & Hrs2 & Hf3).
  simpl in *. unfold dispatch.
  repeat match goal with |- keeps _ _ (if _ then _ else _) _ => apply keeps_if; intros _ end;
    try match goal with |- keeps _ _ (zoom _) _ => apply zoom_safe end;
    eauto using exec_Rtype_safe, exec_Itype_safe, exec_branches_safe, exec_LUI_safe,
      exec_AUIPC_safe, exec_JAL_safe, exec_JALR_safe, exec_MISCMEM_safe, illegal_safe,
      exec_loads_safe, exec_stores_safe, exec_SYSTEM_safe, exec_AMO_safe.
Qed.

Lemma execute_decoded_safe inst len d : u32 inst -> fields_ok d ->
  safe (execute_decoded handle_ecall inst len d) (fun _ => True).
Proof.
  intros Hi Hd. unfold execute_decoded.
  eapply keeps_bind; [apply zoom_safe, modify_safe; try done|].
  - intros c []. split; try done. apply u32_mask.
  - intros _ _. eapply keeps_bind; [by apply dispatch_safe|]. intros _ _. keep.
Qed.

Lemma cached_safe {A} (f : cpu -> cpu) (m : ST W A) Q :
  (forall c, Ic c -> Ic (f c)) -> safe m Q -> safe (zoom (modify f) ;;; m) Q.
Proof.
  intros Hf Hm. eapply keeps_bind; [apply zoom_safe; by apply (keeps_modify _ _ _ (fun _ => True))|]. by intros _ _.
Qed.

(** The invariant has to allow the decoding of the instruction in the cache. *)
Lemma execute_32_safe inst : u32 inst -> (forall c, Ic c -> Ic (cache_32 inst c)) ->
  safe (execute_32 handle_ecall inst) (fun _ => True).
Proof.
  intros Hi Hcache. unfold execute_32.
  apply keeps_bind with (R := fun hit => forall d, hit = Some d -> fields_ok d).
  - apply keeps_gets. intros w Hw d. eapply wf_cache, inv_wf, safe_view, Hw.
  - intros [d|] Hd; [apply execute_decoded_safe; auto|].
    apply cached_safe; [done|apply execute_decoded_safe; [done|apply decode_fields_ok]].
Qed.

Lemma execute_16_safe inst16 : uN 16 inst16 -> (forall c, Ic c -> Ic (cache_16 inst16 c)) ->
  safe (execute_16 handle_ecall inst16) (fun _ => True).
Proof.
  intros Hi Hcache. unfold execute_16.
  apply keeps_bind with (R := fun hit => forall d e, hit = Some (d, e) -> fields_ok d /\ u32 e).
  - apply keeps_gets. intros w Hw d e. eapply wf_cache_c, inv_wf, safe_view, Hw.
  - intros [[d e]|] Hd; [destruct (Hd d e) as [? ?]; [done|]; by apply execute_decoded_safe|].
    pose proof (expand_u32 inst16) as He. unfold cache_16 in Hcache.
    destruct (expand_compressed inst16) as [e []]; cbn [negb].
    + apply cached_safe; [done|]. apply execute_decoded_safe; [done|apply decode_fields_ok].
    + apply zoom_safe, illegal_safe; [done|]. unfold uN in *. lia.
Qed.

(** A completed instruction leaves zero in register 0. *)
Lemma reset_x0 (m : ST W unit) (w w' : W) : safe m (fun _ => True) -> I w ->
  (m ;;; zoom (set_reg 0 0)) w = (Ok tt, w') -> x0_zero (view w').
Proof.
  intros Hm Hw. specialize (Hm w Hw). unfold bind. destruct (m w) as [[u|e] w1]; [|done].
  destruct Hm as [Hw1 _]. unfold zoom.
  pose proof (inv_wf _ (safe_view w1 Hw1)) as Hwf.
  rewrite set_reg_eq by (lia || by apply wf_regs_len). intros [= <-].
  rewrite view_put. unfold x0_zero. by rewrite rv_wr by (lia || by apply wf_regs_len).
Qed.

Lemma execute_decoded_x0 inst len d (w w' : W) : u32 inst -> fields_ok d -> I w ->
  execute_decoded handle_ecall inst len d w = (Ok tt, w') -> x0_zero (view w').
Proof.
  intros Hi Hd Hw. rewrite execute_decoded_eq. apply reset_x0; [by apply dispatch_safe|].
  apply safe_put; [done|]. pose proof (safe_view w Hw) as Hc.
  eapply inv_frame; [exact Hc| |done..]. apply inv_wf in Hc.
  destruct Hc. split; try done. apply u32_wrap.
Qed.
End Safe.
