(* ===== verification/RamSafe.v ===== *)
(** * The memory classes keep their promise to the processor

    The operations of RAM, SafeRAM and SafeRAMOffset keep the memory well formed,
    return values of their width and raise nothing but MemoryAccessError; so each
    of the classes is a [RamSafe] memory for the processor. *)

From Stdlib Require Import ZArith Lia Bool String.
From stdpp Require Import base numbers list option strings.
From S2P Require Import Prelude PyStr Isa Ram Cpu ExecSafe.

Local Open Scope Z_scope.
Local Open Scope py_scope.

Abbreviation ram_safe m Q := (keeps machine_error wf_ram m Q).

(** ** Elementary accesses at any address *)

Definition index_error (e : exn) : Prop := e = IndexError.

Lemma mem_get_keeps a : keeps index_error wf_ram (mem_get a) u8.
Proof.
  intros r Hr. unfold mem_get. destruct (py_get (memory r) a) as [v|] eqn:E; simpl; [|done].
  split; [done|]. eapply py_get_Forall; [apply Hr|done].
Qed.

Lemma mem_set_keeps a v : u8 v -> keeps index_error wf_ram (mem_set a v) (fun _ => True).
Proof.
  intros Hv r [Hb Hs Hl Ha]. unfold mem_set.
  destruct (py_set (memory r) a v) as [m|] eqn:E; [|done]. split; [|done].
  split; simpl; [by eapply py_set_Forall|done| |done].
  by rewrite (py_set_len _ _ _ _ E).
Qed.

Lemma u8_mask z : u8 (Z.land z 0xFF).
Proof. rewrite land_ff. by apply Z.mod_pos_bound. Qed.

#[local] Hint Resolve mem_get_keeps u8_mask : keeps.
#[local] Hint Extern 1 (keeps _ _ (mem_set _ _) _) =>
  apply mem_set_keeps; auto with words keeps : keeps.
#[local] Hint Extern 4 (keeps _ _ (ret _) (fun _ => True)) => by apply keeps_ret : keeps.

Lemma mem32_get_keeps i : keeps index_error wf_ram (mem32_get i) u32.
Proof.
  intros r Hr. unfold mem32_get. destruct (py_index _ _) as [k|]; [|done].
  revert r Hr. change (keeps index_error wf_ram (b0 <- mem_get (4 * k) ;;
    b1 <- mem_get (4 * k + 1) ;; b2 <- mem_get (4 * k + 2) ;;
    b3 <- mem_get (4 * k + 3) ;; ret (le32 b0 b1 b2 b3)) u32).
  keep. apply keeps_ret. by apply u32_le32.
Qed.

Lemma mem32_set_keeps i v : keeps index_error wf_ram (mem32_set i v) (fun _ => True).
Proof.
  intros r Hr. unfold mem32_set. destruct (py_index _ _) as [k|]; [|done].
  revert r Hr. change (keeps index_error wf_ram (mem_set (4 * k) (byte_of v 0) ;;;
    mem_set (4 * k + 1) (byte_of v 1) ;;; mem_set (4 * k + 2) (byte_of v 2) ;;;
    mem_set (4 * k + 3) (byte_of v 3)) (fun _ => True)).
  keep.
Qed.

#[local] Hint Resolve mem32_get_keeps mem32_set_keeps : keeps.

Lemma on_index_error_keeps {A} a (m : ST ram A) Q :
  keeps index_error wf_ram m Q -> ram_safe (on_index_error a m) Q.
Proof.
  intros Hm. eapply keeps_catch; [exact Hm|]. intros e ->. by apply keeps_raise.
Qed.

Lemma u16_half b0 b1 : u8 b0 -> u8 b1 -> uN 16 (Z.lor b0 (Z.shiftl b1 8)).
Proof. intros H0 H1. rewrite lor_shiftl_add by (done || lia). unfold uN in *. lia. Qed.

Lemma body_load_byte_keeps a s : keeps index_error wf_ram (body_load_byte a s) (loaded 8 s).
Proof.
  unfold body_load_byte. keep. apply keeps_ret. unfold sign8, loaded, uN in *.
  destruct s; simpl; [case_match; lia|done].
Qed.

Lemma body_load_half_keeps a s : keeps index_error wf_ram (body_load_half a s) (loaded 16 s).
Proof.
  unfold body_load_half. eapply keeps_bind; [apply mem_get_keeps|]. intros b0 H0.
  eapply keeps_bind; [apply mem_get_keeps|]. intros b1 H1. apply keeps_ret.
  pose proof (u16_half b0 b1 H0 H1) as Hh. unfold sign16, loaded, uN in *. destruct s; simpl; [case_match; lia|auto].
Qed.

Lemma body_load_word_keeps a : keeps index_error wf_ram (body_load_word a) u32.
Proof. unfold body_load_word. keep. apply keeps_ret. by apply u32_le32. Qed.

Lemma body_store_byte_keeps a v : keeps index_error wf_ram (body_store_byte a v) (fun _ => True).
Proof. unfold body_store_byte. keep. Qed.

Lemma body_store_half_keeps a v : keeps index_error wf_ram (body_store_half a v) (fun _ => True).
Proof. unfold body_store_half. keep. Qed.

Lemma body_store_word_keeps a v : keeps index_error wf_ram (body_store_word a v) (fun _ => True).
Proof. unfold body_store_word. keep. Qed.

Lemma body_load_cstring_keeps a n : ram_safe (body_load_cstring a n) (fun _ => True).
Proof. intros r Hr. unfold body_load_cstring. by destruct (py_find _ _). Qed.

(** ** Checked accesses do not fail in their body *)

(** Inside the bounds the body returns. *)
Definition returns {A} (a n : Z) (m : ST ram A) : Prop :=
  forall r, wf_ram r -> in_bounds r a n = true -> exists v r', m r = (Ok v, r').

Lemma in_bounds_len r a n : wf_ram r -> in_bounds r a n = true -> 0 <= a /\ a + n <= py_len (memory r).
Proof. intros Hr H%in_bounds_spec. pose proof (wf_len r Hr). lia. Qed.

Lemma body_load_byte_returns a s : returns a 1 (body_load_byte a s).
Proof.
  intros r Hr Hb. pose proof (in_bounds_len r a 1 Hr Hb).
  rewrite body_load_byte_eq by lia. eauto.
Qed.

Lemma body_load_half_returns a s : returns a 2 (body_load_half a s).
Proof.
  intros r Hr Hb. pose proof (in_bounds_len r a 2 Hr Hb).
  rewrite body_load_half_eq by lia. eauto.
Qed.

Lemma body_load_word_returns a : returns a 4 (body_load_word a).
Proof.
  intros r Hr Hb. pose proof (in_bounds_len r a 4 Hr Hb).
  rewrite body_load_word_eq by (done || lia). eauto.
Qed.

Lemma body_store_byte_returns a v : returns a 1 (body_store_byte a v).
Proof.
  intros r Hr Hb. pose proof (in_bounds_len r a 1 Hr Hb).
  rewrite body_store_byte_eq by lia. eauto.
Qed.

Lemma body_store_half_returns a v : returns a 2 (body_store_half a v).
Proof.
  intros r Hr Hb. pose proof (in_bounds_len r a 2 Hr Hb).
  rewrite body_store_half_eq by lia. eauto.
Qed.

Lemma body_store_word_returns a v : returns a 4 (body_store_word a v).
Proof.
  intros r Hr Hb. pose proof (in_bounds_len r a 4 Hr Hb).
  rewrite body_store_word_eq by (done || lia). eauto.
Qed.

Lemma check_keeps {A} (check : ST ram unit) (f : ram -> Z) a n (m : ST ram A) Q :
  (forall r, check r = if in_bounds r a n then (Ok tt, r) else (Exn (out_of_bounds (f r)), r)) ->
  returns a n m -> keeps index_error wf_ram m Q -> ram_safe (check ;;; m) Q.
Proof.
  intros Hcheck Hret Hm r Hr. unfold bind. rewrite Hcheck.
  destruct (in_bounds r a n) eqn:Hb; [|done].
  destruct (Hret r Hr Hb) as (v & r' & E). specialize (Hm r Hr). by rewrite E in *.
Qed.

Lemma SafeRAM_check_keeps {A} a n (m : ST ram A) Q :
  returns a n m -> keeps index_error wf_ram m Q -> ram_safe (SafeRAM_check a n ;;; m) Q.
Proof. apply (check_keeps _ (fun _ => a)). intros r. apply SafeRAM_check_eq. Qed.

Lemma SafeRAMOffset_check_keeps {A} a n (m : ST ram A) Q :
  returns a n m -> keeps index_error wf_ram m Q -> ram_safe (SafeRAMOffset_check a n ;;; m) Q.
Proof.
  apply (check_keeps _ (fun r => base_addr r + a)). intros r.
  unfold SafeRAMOffset_check, in_bounds. repeat case_match; try done; lia.
Qed.

Lemma rebase_keeps {A} a (k : Z -> ST ram A) Q :
  (forall b, ram_safe (k b) Q) -> ram_safe (rebase a k) Q.
Proof. intros Hk r Hr. unfold rebase. by apply Hk. Qed.

Lemma SafeRAM_load_cstring_keeps a n : ram_safe (SafeRAM_load_cstring a n) (fun _ => True).
Proof.
  intros r Hr. unfold SafeRAM_load_cstring. destruct (_ || _); [done|]. by apply body_load_cstring_keeps.
Qed.

(** ** Instances *)

Create HintDb ram_bodies.
#[local] Hint Resolve body_load_byte_keeps body_load_half_keeps body_load_word_keeps
  body_store_byte_keeps body_store_half_keeps body_store_word_keeps body_load_byte_returns
  body_load_half_returns body_load_word_returns body_store_byte_returns
  body_store_half_returns body_store_word_returns body_load_cstring_keeps
  SafeRAM_load_cstring_keeps on_index_error_keeps SafeRAM_check_keeps
  SafeRAMOffset_check_keeps rebase_keeps : ram_bodies.

(** A processor and a memory, side by side. *)
Abbreviation node := (cpu * ram)%type.

Definition node_inv (Ic : cpu -> Prop) (w : node) : Prop := Ic (fst w) /\ wf_ram (snd w).

Section Node.
Context (Ic : cpu -> Prop).

Lemma node_zoom {A} (m : ST ram A) Q : ram_safe m Q ->
  keeps machine_error (node_inv Ic) (zoom m) Q.
Proof.
  intros Hm. eapply keeps_zoom; [exact Hm|by intros ? []|]. by intros [c r] r' [].
Qed.

#[export] Instance RAM_RamSafe : @RamSafe node _ RAM_ops machine_error Ic (node_inv Ic).
Proof.
  split; [by intros ? []|by intros ? ? []|..]; intros; apply node_zoom;
    unfold RAM_load_byte, RAM_load_half, RAM_load_word, RAM_store_byte, RAM_store_half,
      RAM_store_word, RAM_load_cstring; eauto with ram_bodies.
Qed.

#[export] Instance SafeRAM_RamSafe : @RamSafe node _ SafeRAM_ops machine_error Ic (node_inv Ic).
Proof.
  split; [by intros ? []|by intros ? ? []|..]; intros; apply node_zoom;
    unfold SafeRAM_load_byte, SafeRAM_load_half, SafeRAM_load_word, SafeRAM_store_byte,
      SafeRAM_store_half, SafeRAM_store_word; eauto with ram_bodies.
Qed.

#[export] Instance SafeRAMOffset_RamSafe : @RamSafe node _ SafeRAMOffset_ops machine_error Ic (node_inv Ic).
Proof.
  split; [by intros ? []|by intros ? ? []|..]; intros; apply node_zoom;
    unfold SafeRAMOffset_load_byte, SafeRAMOffset_load_half, SafeRAMOffset_load_word,
      SafeRAMOffset_store_byte, SafeRAMOffset_store_half, SafeRAMOffset_store_word,
      SafeRAMOffset_load_cstring; eauto with ram_bodies.
Qed.
End Node.
