(* ===== verification/Core.v ===== *)
(** * The processor with its memory: construction, invariants, memory instructions

    The theorems about whole instructions on a processor with one of the memory
    classes: a new CPU is well formed, every instruction keeps it so, the loads,
    stores and atomics act on the abstract memory of Ram.v as the ISA says, and
    LR/SC pairs succeed exactly when the reservation holds. *)

From Stdlib Require Import ZArith Lia Bool String.
From stdpp Require Import base numbers list option gmap strings.
From S2P Require Import Prelude PyStr Isa Ram Cpu Rvc CpuSem Exec ExecSem ExecSafe RamSafe.

Local Open Scope Z_scope.
Local Open Scope py_scope.

(** ** A new processor *)

Lemma init_registers_ok (rnd : nat -> Z) mode regs regs' :
  (forall i, u32 (rnd i)) -> init_registers rnd mode regs = Ok regs' ->
  Forall u32 regs' /\ length regs' = length regs /\ (regs <> [] -> regs' !! O = Some 0).
Proof.
  intros Hrnd. unfold init_registers.
  assert (forall f : nat -> Z, (forall i, u32 (f i)) ->
    let l := imap (fun i _ => match i with O => 0 | _ => f i end) regs in
    Forall u32 l /\ length l = length regs /\ (regs <> [] -> l !! O = Some 0)) as Hfill.
  { intros f Hf l. split_and!.
    - apply Forall_lookup. intros i v. unfold l. rewrite list_lookup_imap.
      destruct (regs !! i); simpl; [|done]. intros [= <-].
      destruct i; [by unfold uN|apply Hf].
    - apply length_imap.
    - intros Hr. unfold l. rewrite list_lookup_imap. by destruct regs. }
  destruct (String.eqb mode "random"); [intros [= <-]; by apply Hfill|].
  destruct (py_int 0 mode) as [v|]; [|done]. intros [= <-]. apply Hfill. intros. apply u32_mask.
Qed.

Lemma initial_csrs_ok rvc : Forall u32 (initial_csrs rvc) /\ py_len (initial_csrs rvc) = 4096.
Proof.
  unfold initial_csrs, py_len. split.
  - repeat (apply Forall_insert; [|destruct rvc; by (split; vm_compute)]).
    apply Forall_replicate. by unfold uN.
  - rewrite !length_insert, length_replicate. lia.
Qed.

#[local] Opaque initial_csrs.

(** A processor fresh from its constructor satisfies every invariant. *)
Definition ready (c : cpu) : Prop := wf_cpu c /\ x0_zero c /\ cache_coherent c.

Lemma CPU_init_regs (rnd : nat -> Z) rvc init_regs log c :
  (forall i, u32 (rnd i)) -> CPU_init rnd rvc init_regs log = Ok c ->
  Forall u32 (registers c) /\ py_len (registers c) = 32 /\ rv c 0 = 0.
Proof.
  intros Hrnd. unfold CPU_init.
  assert (forall l, Forall u32 l /\ length l = 32%nat /\ l !! O = Some 0 ->
    Forall u32 l /\ py_len l = 32 /\ default 0 (py_get l 0) = 0) as Hl.
  { intros l (H1 & H2 & H3). unfold py_len. rewrite H2. split_and!; [done..|].
    rewrite py_get_in by (unfold py_len; lia). change (Z.to_nat 0) with O. by rewrite H3. }
  assert (Forall u32 (replicate 32 0) /\ length (replicate 32 0) = 32%nat /\
          replicate 32 0 !! O = Some 0) as Hz
    by (split_and!; [apply Forall_replicate; by unfold uN|done..]).
  destruct init_regs as [mode|]; [destruct (String.eqb mode "zero")|].
  - intros [= <-]. by apply Hl.
  - destruct (init_registers _ _ _) as [regs|] eqn:E; [|done]. intros [= <-]. apply Hl.
    destruct (init_registers_ok _ _ _ _ Hrnd E) as (H1 & H2 & H3).
    split_and!; [done..|]. by apply H3.
  - intros [= <-]. by apply Hl.
Qed.

Lemma CPU_init_ready (rnd : nat -> Z) rvc init_regs log c :
  (forall i, u32 (rnd i)) -> CPU_init rnd rvc init_regs log = Ok c -> ready c.
Proof.
  intros Hrnd Hc. destruct (CPU_init_regs _ _ _ _ _ Hrnd Hc) as (H1 & H2 & H3).
  destruct (initial_csrs_ok rvc) as [H4 H5].
  assert (csrs c = initial_csrs rvc /\ pc c = 0 /\ next_pc c = 0 /\ mtime c = 0 /\
    mtimecmp c = 0xFFFFFFFFFFFFFFFF /\ (alignment_mask c = 0x1 \/ alignment_mask c = 0x3) /\
    decode_cache c = ∅ /\ decode_cache_compressed c = ∅) as (E1 & E2 & E3 & E4 & E5 & E6 & E7 & E8).
  { clear - Hc. unfold CPU_init in Hc.
    destruct (match init_regs with Some _ => _ | None => _ end); [|discriminate].
    injection Hc as <-. simpl. split_and!; try reflexivity. destruct rvc; auto. }
  split_and!; [|exact H3|].
  - constructor; rewrite ?E1, ?E2, ?E3, ?E4, ?E5, ?E7, ?E8;
      [exact H2|exact H1|exact H5|exact H4|by split..|lia|by split|exact E6| |];
      intros; by rewrite lookup_empty in *.
  - split; rewrite ?E7, ?E8; intros; by rewrite lookup_empty in *.
Qed.

(** The outcome of a constructor that succeeds. *)
Definition from_ok {A} (d : A) (x : res A) : A := match x with Ok a => a | Exn _ => d end.

(** A concrete machine: a new CPU with zeroed registers and 16 bytes of zeroed memory. *)
Definition no_cpu : cpu :=
  mkCpu [] 0 0 [] 0 0 false false false false None false false 0 false 0 false ∅ ∅.
Definition new_cpu (rvc : bool) : cpu := from_ok no_cpu (CPU_init (fun _ => 0) rvc None false).
Definition new_ram : ram := from_ok (mkRam [] 0 0 []) (RAM_init (fun _ => 0) 16 0 None).

Lemma new_cpu_ready rvc : ready (new_cpu rvc).
Proof. apply (CPU_init_ready (fun _ => 0) rvc None false); [by intros _; split|done]. Qed.

Lemma new_ram_wf : wf_ram new_ram.
Proof. split; [|done..]. repeat (apply Forall_cons; split; [by split|]). by apply Forall_nil. Qed.

(** ** Every instruction keeps the machine well formed *)

Definition coherent_inv (c : cpu) : Prop := wf_cpu c /\ cache_coherent c.

#[export] Instance coherent_CpuInv : CpuInv coherent_inv.
Proof.
  split; [by intros c []|]. intros c c' [Hc [H1 H2]] Hc' E1 E2. split; [done|].
  split; [by rewrite E1|by rewrite E2].
Qed.

Lemma coherent_inv_32 inst c : inst mod 4 = 3 -> coherent_inv c -> coherent_inv (cache_32 inst c).
Proof. intros H3 []. split; [by apply cache_32_wf|by apply cache_32_coherent]. Qed.

Lemma coherent_inv_16 k c : coherent_inv c -> coherent_inv (cache_16 k c).
Proof. intros []. split; [by apply cache_16_wf|by apply cache_16_coherent]. Qed.

(** What holds after an instruction, whether it completes or raises. *)
Definition after {W} `{Has cpu W} (I : W -> Prop) (x0 : Prop) (out : res unit * W) : Prop :=
  match out with
  | (Ok _, w') => I w' /\ (x0 -> x0_zero (view w'))
  | (Exn e, w') => I w' /\ machine_error e
  end.

Section Invariant.
Context {W : Type} `{HC : Has cpu W} `{R : RamOps W}.
Context (Ic : cpu -> Prop) `{HI : !CpuInv Ic}.
Context (I : W -> Prop) `{HS : !RamSafe machine_error Ic I}.
Context (handle_ecall : option (ST W unit)).
Hypothesis Hecall : forall h, handle_ecall = Some h -> keeps machine_error I h (fun _ => True).

Lemma after_intro (x0 : Prop) (m : ST W unit) w :
  keeps machine_error I m (fun _ => True) -> I w ->
  (forall w', m w = (Ok tt, w') -> x0 -> x0_zero (view w')) -> after I x0 (m w).
Proof.
  intros Hm Hw Hx. specialize (Hm w Hw). unfold after.
  destruct (m w) as [[[]|e] w'] eqn:E; [destruct Hm; auto|done].
Qed.

Lemma execute_32_after inst w : u32 inst -> (forall c, Ic c -> Ic (cache_32 inst c)) -> I w ->
  after I (x0_zero (view w)) (execute_32 handle_ecall inst w).
Proof.
  intros Hi Hcache Hw. apply after_intro; [by eapply execute_32_safe|done|].
  intros w' E _. revert E. unfold execute_32, bind at 1, gets.
  destruct (decode_cache (view w) !! Z.shiftr inst 2) as [d|] eqn:Hd.
  - eapply execute_decoded_x0; try done.
    eapply wf_cache; [by apply inv_wf, safe_view|done].
  - rewrite zoom_modify_seq.
    eapply execute_decoded_x0; try done; [apply decode_fields_ok|].
    apply safe_put; [done|]. by apply Hcache, safe_view.
Qed.

Lemma execute_16_after k w : uN 16 k -> (forall c, Ic c -> Ic (cache_16 k c)) -> I w ->
  after I (x0_zero (view w)) (execute_16 handle_ecall k w).
Proof.
  intros Hi Hcache Hw. apply after_intro; [by eapply execute_16_safe|done|].
  intros w' E Hx. revert E. unfold execute_16, bind at 1, gets.
  pose proof (inv_wf _ (safe_view w Hw)) as Hwf.
  destruct (decode_cache_compressed (view w) !! k) as [[d e]|] eqn:Hd.
  - destruct (wf_cache_c _ Hwf _ _ _ Hd). by eapply execute_decoded_x0.
  - pose proof (expand_u32 k) as He. unfold cache_16 in Hcache.
    destruct (expand_compressed k) as [e []]; cbn [negb].
    + rewrite zoom_modify_seq.
      eapply execute_decoded_x0; try done; [apply decode_fields_ok|].
      apply safe_put; [done|]. by apply Hcache, safe_view.
    + unfold zoom, illegal. rewrite trap_eq by done.
      destruct (_ =? 0); intros [= <-]. by rewrite view_put.
Qed.

Lemma execute_after (inst : Z) (w : W) : u32 inst ->
  (rvc_enabled (view w) = false \/ inst mod 4 = 3 -> forall c, Ic c -> Ic (cache_32 inst c)) ->
  (forall c, Ic c -> Ic (cache_16 (Z.land inst 0xFFFF) c)) -> I w ->
  after I (x0_zero (view w)) (execute handle_ecall inst w).
Proof.
  intros Hi H32 H16 Hw. unfold execute, bind, gets.
  destruct (rvc_enabled (view w)); cbn [negb]; [|apply execute_32_after; auto].
  destruct (Z.eqb_spec (Z.land inst 3) 3) as [E|_].
  - rewrite land_3 in E. apply execute_32_after; auto.
  - apply execute_16_after; [|done..]. rewrite land_ffff. by apply Z.mod_pos_bound.
Qed.
End Invariant.

(** C8: every instruction word, legal or not, keeps the machine well formed: the
    register and CSR files keep their size and hold 32-bit values, the program
    counters stay 32-bit values, and x0 stays zero; and the only exceptions that
    escape are those of the emulator, never an IndexError, KeyError, BufferError
    or TypeError of Python.  This holds for every memory that keeps its promise
    to the processor and every system-call handler that keeps the invariant. *)
Theorem execute_invariant {W : Type} `{HC : Has cpu W} `{R : RamOps W} (I : W -> Prop)
  `{HS : !RamSafe machine_error wf_cpu I} (handle_ecall : option (ST W unit))
  (Hecall : forall h, handle_ecall = Some h -> keeps machine_error I h (fun _ => True))
  (inst : Z) (w : W) (Hi : u32 inst) (Hw : I w) :
  after I (x0_zero (view w)) (execute handle_ecall inst w).
Proof.
  apply (execute_after wf_cpu); auto using cache_16_wf, cache_32_wf.
Qed.

(** C11: with compressed instructions enabled the decode caches are transparent: a
    cached decoding is always the one of the instruction being executed, so a hit
    and a miss run the same handler on the same operands, and every instruction
    keeps the caches coherent. *)
Theorem decode_cache_correct {W : Type} `{HC : Has cpu W} `{R : RamOps W} (I : W -> Prop)
  `{HS : !RamSafe machine_error coherent_inv I} (handle_ecall : option (ST W unit))
  (Hecall : forall h, handle_ecall = Some h -> keeps machine_error I h (fun _ => True))
  (inst : Z) (w : W) (Hi : u32 inst) (Hrvc : rvc_enabled (view w) = true) (Hw : I w) :
  execute handle_ecall inst w =
    (if inst mod 4 =? 3
     then execute_decoded handle_ecall inst 4 (decode_fields inst)
            (put (cache_32 inst (view w)) w)
     else let k := inst mod 65536 in
          let '(e, ok) := expand_compressed k in
          if ok : bool
          then execute_decoded handle_ecall e 2 (decode_fields e)
                 (put (cache_16 k (view w)) w)
          else zoom (illegal k) w) /\
  after I (x0_zero (view w)) (execute handle_ecall inst w).
Proof.
  destruct (safe_view w Hw) as [Hwf Hcoh]. split.
  - unfold execute, bind at 1, gets. rewrite Hrvc, land_3, land_ffff. cbn [negb].
    destruct (Z.eqb_spec (inst mod 4) 3); [by apply execute_32_cached|].
    by apply execute_16_cached.
  - apply (execute_after coherent_inv); auto using coherent_inv_16.
    intros [?|?]; [congruence|]. auto using coherent_inv_32.
Qed.

(** With compressed instructions disabled the cache of decoded instructions,
    keyed by the word without its two low bits, confuses words that differ only
    there: 0x00100090 is illegal on a new CPU, but executes as addi x1, x0, 1
    once 0x00100093 has been executed. *)
Theorem decode_cache_confuses_low_bits :
  fst (execute (R := SafeRAM_ops) None 0x00100090 (new_cpu false, new_ram)) =
    Exn (ExecutionTerminated (TrapWithoutHandler 0 2)) /\
  match (execute (R := SafeRAM_ops) None 0x00100093 ;;;
         execute (R := SafeRAM_ops) None 0x00100090) (new_cpu false, new_ram) with
  | (Ok _, (c, _)) => rv c 1 = 1
  | (Exn _, _) => False
  end.
Proof. vm_compute. done. Qed.
