(* ===== verification/MemInstr.v ===== *)
(** * Loads, stores and atomics on the checked memory

    The instructions that access memory, executed by a processor with SafeRAM,
    against the abstract memory of Ram.v: which bytes are read or written, what
    the destination register gets, and what happens outside the memory or at a
    misaligned atomic. *)

From Stdlib Require Import ZArith Lia Bool String.
From stdpp Require Import base numbers list option gmap strings.
From S2P Require Import Prelude PyStr Isa Ram Cpu Rvc CpuSem Exec ExecSem ExecSafe RamSafe Core.

Local Open Scope Z_scope.
Local Open Scope py_scope.

#[local] Existing Instance SafeRAM_ops.

(** ** What the ISA says about memory *)

Definition lop_size (o : lop) : Z := match o with LB | LBU => 1 | LH | LHU => 2 | LW => 4 end.

(** The value a load puts into its register. *)
Definition lop_value (o : lop) (r : ram) (a : Z) : Z :=
  match o with
  | LB => wrap (sext 8 (mem_byte r a))
  | LH => wrap (sext 16 (mem_half r a))
  | LW => mem_word r a
  | LBU => mem_byte r a
  | LHU => mem_half r a
  end.

Definition sop_size (o : sop) : Z := match o with SB => 1 | SH => 2 | SW => 4 end.

(** The value an atomic read-modify-write stores. *)
Definition aop_sem (o : aop) (old b : Z) : Z :=
  match o with
  | AMOADD => wrap (old + b)
  | AMOXOR => Z.lxor old b
  | AMOAND => Z.land old b
  | AMOOR => Z.lor old b
  | AMOMIN => if sint old <=? sint b then old else b
  | AMOMAX => if sint b <=? sint old then old else b
  | AMOMINU => Z.min old b
  | AMOMAXU => Z.max old b
  | _ => b
  end.

(** ** Accesses *)

Lemma mem_half_u16 r a : wf_ram r -> uN 16 (mem_half r a).
Proof. intros. apply u16_half; by apply mem_byte_u8. Qed.

Lemma mem_word_u32 r a : wf_ram r -> u32 (mem_word r a).
Proof. intros. apply u32_le32; by apply mem_byte_u8. Qed.

Lemma sign8_sext v : u8 v -> Z.land (sign8 true v) 0xFFFFFFFF = wrap (sext 8 v).
Proof.
  unfold uN. intros Hv. rewrite land_ffffffff. unfold wrap. f_equal.
  unfold sign8, sext. simpl (2 ^ _) in *. cbn [negb orb].
  case_match; Z.div_mod_to_equations; lia.
Qed.

Lemma sign16_sext v : uN 16 v -> Z.land (sign16 true v) 0xFFFFFFFF = wrap (sext 16 v).
Proof.
  unfold uN. intros Hv. rewrite land_ffffffff. unfold wrap. f_equal.
  unfold sign16, sext. simpl (2 ^ _) in *. cbn [negb orb].
  case_match; Z.div_mod_to_equations; lia.
Qed.

(** Storing a masked value stores the value. *)
Lemma stored_ext r a n v v' r' : (forall k, 0 <= k < n -> byte_of v k = byte_of v' k) ->
  stored r a n v r' -> stored r a n v' r'.
Proof.
  intros Hv []. split; try done. intros b Hb. rewrite stored_bytes by done.
  destruct ((a <=? b) && (b <? a + n)) eqn:E; [|done]. apply Hv. lia.
Qed.

Lemma stored_mask r a n v m r' : 0 <= n -> 8 * n <= m ->
  stored r a n (Z.land v (Z.ones m)) r' -> stored r a n v r'.
Proof. intros ? ?. apply stored_ext. intros k Hk. apply byte_of_mask; lia. Qed.

Section Node.
Variables (c : cpu) (r : ram).
Hypothesis Hc : wf_cpu c.
Hypothesis Hr : wf_ram r.

Lemma node_reg i : 0 <= i < 32 -> zoom (reg i) (c, r) = (Ok (rv c i), (c, r)).
Proof. intros Hi. unfold zoom. simpl. by rewrite reg_eq by (apply Hc || done). Qed.

Lemma node_load_word a : load_word a (c, r) =
  if in_bounds r a 4 then (Ok (mem_word r a), (c, r)) else (Exn (out_of_bounds a), (c, r)).
Proof. unfold load_word, SafeRAM_ops, zoom. simpl. rewrite SafeRAM_load_word_eq by done. by destruct (in_bounds r a 4). Qed.

Lemma node_set_reg rd v : 0 <= rd < 32 -> zoom (set_reg rd v) (c, r) = (Ok tt, (wr rd v c, r)).
Proof. intros Hrd. unfold zoom. simpl. by rewrite set_reg_eq by (apply Hc || done). Qed.

(** A checked load into a register. *)
Lemma load_to_reg (m : ST ram Z) (f : Z -> Z) a n v rd : 0 <= rd < 32 ->
  m r = (if in_bounds r a n then (Ok v, r) else (Exn (out_of_bounds a), r)) ->
  (x <- zoom m ;; zoom (set_reg rd (f x))) (c, r) =
    if in_bounds r a n then (Ok tt, (wr rd (f v) c, r)) else (Exn (out_of_bounds a), (c, r)).
Proof.
  intros Hrd Hm. unfold bind, zoom at 1. simpl. rewrite Hm.
  destruct (in_bounds r a n); [by apply node_set_reg|done].
Qed.

Lemma exec_loads_eq inst rd f3 rs1 o : u32 inst -> 0 <= rd < 32 -> 0 <= rs1 < 32 ->
  lop_of f3 = Some o ->
  let a := wrap (rv c rs1 + imm_I inst) in
  exec_loads inst rd f3 rs1 (c, r) =
    if in_bounds r a (lop_size o) then (Ok tt, (wr rd (lop_value o r a) c, r))
    else (Exn (out_of_bounds a), (c, r)).
Proof.
  intros Hi Hrd H1 Ho a. unfold exec_loads, bind at 1. rewrite node_reg, get_imm_i_eq by done.
  rewrite land_ffffffff. fold (wrap (rv c rs1 + imm_I inst)) a.
  pose proof (mem_byte_u8 r a Hr) as Hb. pose proof (mem_half_u16 r a Hr) as Hh.
  pose proof (mem_word_u32 r a Hr) as Hw.
  assert ((f3 = 0 /\ o = LB) \/ (f3 = 1 /\ o = LH) \/ (f3 = 2 /\ o = LW) \/
          (f3 = 4 /\ o = LBU) \/ (f3 = 5 /\ o = LHU)) as Hcase
    by (unfold lop_of in Ho; repeat case_match; simplify_eq; tauto). clear Ho.
  destruct Hcase as [[-> ->]|[[-> ->]|[[-> ->]|[[-> ->]|[-> ->]]]]];
    cbn [Z.eqb Pos.eqb lop_size lop_value load_byte load_half load_word SafeRAM_ops].
  - rewrite <- sign8_sext by done. apply (load_to_reg _ (fun v => Z.land v 0xFFFFFFFF)); [done|].
    by apply SafeRAM_load_byte_eq.
  - rewrite <- sign16_sext by done. apply (load_to_reg _ (fun v => Z.land v 0xFFFFFFFF)); [done|].
    by apply SafeRAM_load_half_eq.
  - rewrite <- (u32_mask_id (mem_word r a)) by done.
    apply (load_to_reg _ (fun v => Z.land v 0xFFFFFFFF)); [done|]. by apply SafeRAM_load_word_eq.
  - replace (mem_byte r a) with (Z.land (mem_byte r a) 0xFF)
      by (rewrite land_ff; by apply Z.mod_small).
    apply (load_to_reg _ (fun v => Z.land v 0xFF)); [done|]. by apply SafeRAM_load_byte_eq.
  - replace (mem_half r a) with (Z.land (mem_half r a) 0xFFFF)
      by (rewrite land_ffff; by apply Z.mod_small).
    apply (load_to_reg _ (fun v => Z.land v 0xFFFF)); [done|]. by apply SafeRAM_load_half_eq.
Qed.

(** A checked store, after which the reservation is gone. *)
Definition store_done (a n v : Z) (out : res unit * node) : Prop :=
  if in_bounds r a n
  then exists r', out = (Ok tt, (set_reservation_valid false c, r')) /\ stored r a n v r'
  else out = (Exn (out_of_bounds a), (c, r)).

Lemma store_then_clear (m : ST ram unit) a n v : store_ok r a n v (m r) ->
  store_done a n v ((zoom m ;;; zoom clear_reservation) (c, r)).
Proof.
  unfold store_ok, store_done. destruct (in_bounds r a n).
  - intros (r' & E & Hst). exists r'. split; [|done].
    unfold bind, zoom at 1. simpl. by rewrite E.
  - intros E. unfold bind, zoom at 1. simpl. by rewrite E.
Qed.

Lemma store_done_ext a n v v' out : (forall k, 0 <= k < n -> byte_of v k = byte_of v' k) ->
  store_done a n v out -> store_done a n v' out.
Proof.
  intros Hv. unfold store_done. destruct (in_bounds r a n); [|done].
  intros (r' & E & Hst). exists r'. split; [done|]. by eapply stored_ext.
Qed.

Lemma get_imm_s_eq inst : u32 inst -> get_imm_s inst = imm_S inst.
Proof.
  unfold uN. intros Hi. unfold get_imm_s, imm_S, sext, field.
  rewrite land_1f, (lor_shiftl_add _ _ 5) by (try apply Z.mod_pos_bound; lia).
  rewrite !Z.shiftr_div_pow2 by lia. simpl (2 ^ _) in *.
  case_match; Z.div_mod_to_equations; lia.
Qed.

Lemma exec_stores_eq inst f3 rs1 rs2 o : u32 inst -> 0 <= rs1 < 32 -> 0 <= rs2 < 32 ->
  sop_of f3 = Some o ->
  store_done (wrap (rv c rs1 + imm_S inst)) (sop_size o) (rv c rs2)
    (exec_stores inst f3 rs1 rs2 (c, r)).
Proof.
  intros Hi H1 H2 Ho. unfold exec_stores, bind at 1. rewrite node_reg, get_imm_s_eq by done.
  rewrite land_ffffffff. fold (wrap (rv c rs1 + imm_S inst)). set (a := wrap _).
  assert ((f3 = 0 /\ o = SB) \/ (f3 = 1 /\ o = SH) \/ (f3 = 2 /\ o = SW)) as Hcase
    by (unfold sop_of in Ho; repeat case_match; simplify_eq; tauto). clear Ho.
  destruct Hcase as [[-> ->]|[[-> ->]|[-> ->]]];
    cbn [Z.eqb Pos.eqb sop_size store_byte store_half store_word SafeRAM_ops];
    unfold bind at 1; rewrite node_reg by done.
  - apply (store_done_ext _ _ (Z.land (rv c rs2) (Z.ones 8))); [intros; apply byte_of_mask; lia|].
    by apply store_then_clear, SafeRAM_store_byte_ok.
  - apply (store_done_ext _ _ (Z.land (rv c rs2) (Z.ones 16))); [intros; apply byte_of_mask; lia|].
    by apply store_then_clear, SafeRAM_store_half_ok.
  - by apply store_then_clear, SafeRAM_store_word_ok.
Qed.
End Node.

(** ** From the instruction word to the handler *)

(** [decode], opcode by opcode: every case ends with the fields of the instruction. *)
Ltac decode_cases inst :=
  unfold decode; cbv zeta;
  let op := fresh "op" in set (op := field inst 0 7);
  destruct (decide (op = 0x33)) as [-> |]; [destruct (rop_of _ _); by intros; simplify_eq/=|];
  destruct (decide (op = 0x13)) as [-> |]; [destruct (iop_of _ _); by intros; simplify_eq/=|];
  destruct (decide (op = 0x03)) as [-> |]; [destruct (lop_of _); by intros; simplify_eq/=|];
  destruct (decide (op = 0x23)) as [-> |]; [destruct (sop_of _); by intros; simplify_eq/=|];
  destruct (decide (op = 0x63)) as [-> |]; [destruct (bop_of _); by intros; simplify_eq/=|];
  destruct (decide (op = 0x37)) as [-> |]; [by intros; simplify_eq/=|];
  destruct (decide (op = 0x17)) as [-> |]; [by intros; simplify_eq/=|];
  destruct (decide (op = 0x6F)) as [-> |]; [by intros; simplify_eq/=|];
  destruct (decide (op = 0x67)) as [-> |]; [destruct (_ =? 0); by intros; simplify_eq/=|];
  destruct (decide (op = 0x0F)) as [-> |]; [destruct (_ || _); by intros; simplify_eq/=|];
  destruct (decide (op = 0x2F)) as [-> |];
    [destruct (_ =? 2); [destruct (aop_of _)|]; by intros; simplify_eq/=|];
  destruct (decide (op = 0x73)) as [-> |];
    [unfold csr_of; repeat case_match; by intros; simplify_eq/=
    |by rewrite opcode_other by done].

(** The opcode of a memory or SYSTEM instruction. *)
Lemma decode_opcode inst i : decode inst = Some i ->
  match i with
  | Load _ _ _ _ => field inst 0 7 = 0x03
  | Store _ _ _ _ => field inst 0 7 = 0x23
  | Amo _ _ _ _ => field inst 0 7 = 0x2F
  | Csr _ _ _ _ | Ecall | Ebreak | Mret => field inst 0 7 = 0x73
  | _ => True
  end.
Proof. decode_cases inst. Qed.

(** The processor when the handler starts. *)
Definition fetched (len : Z) (c : cpu) : cpu :=
  set_next_pc (wrap (pc c + len)) c.

Lemma fetched_wf len c : wf_cpu c -> wf_cpu (fetched len c).
Proof. intros []. split; try done. apply u32_wrap. Qed.

Section Finish.
Variables (c : cpu) (r : ram).
Hypothesis Hc : wf_cpu c.
Hypothesis H0 : x0_zero c.

Lemma finish_node_wr (m : ST node unit) rd v : 0 <= rd < 32 ->
  m (c, r) = (Ok tt, (wr rd v c, r)) ->
  (m ;;; zoom (set_reg 0 0)) (c, r) = (Ok tt, (write_back (Some (rd, v)) c, r)).
Proof.
  intros Hrd Hm. unfold bind. rewrite Hm. unfold zoom. simpl view.
  rewrite set_reg_eq by (rewrite ?wr_len; apply Hc || lia). by rewrite wr_x0_wr.
Qed.

Lemma finish_node_exn {A} (m : ST node unit) (k : ST node A) e :
  m (c, r) = (Exn e, (c, r)) -> (m ;;; k) (c, r) = (Exn e, (c, r)).
Proof. intros Hm. unfold bind. by rewrite Hm. Qed.

Lemma finish_node_store a n v (m : ST node unit) : store_done c r a n v (m (c, r)) ->
  store_done c r a n v ((m ;;; zoom (set_reg 0 0)) (c, r)).
Proof.
  unfold store_done. destruct (in_bounds r a n); [|apply finish_node_exn].
  intros (r' & E & Hst). exists r'. split; [|done]. unfold bind. rewrite E. unfold zoom.
  simpl view. rewrite set_reg_eq by (apply Hc || lia).
  transitivity (Ok tt, (set_reservation_valid false (wr 0 0 c), r')); [done|].
  by rewrite wr_x0.
Qed.
End Finish.

(** The processor after fetch and decoding of a 32-bit instruction. *)
Definition started (inst : Z) (c : cpu) : cpu := fetched 4 (cache_32 inst c).

Lemma started_wf inst c : wf_cpu c -> wf_cpu (started inst c).
Proof. intros. by apply fetched_wf, cache_32_wf. Qed.

Lemma execute_32_started (h : option (ST node unit)) inst c r :
  cache_coherent c -> inst mod 4 = 3 ->
  execute_32 h inst (c, r) =
  (dispatch h inst 4 (decode_fields inst) ;;; zoom (set_reg 0 0)) (started inst c, r).
Proof.
  intros Hcoh H3. rewrite (execute_32_cached h inst (c, r)) by done.
  by rewrite execute_decoded_eq.
Qed.

Section Instructions.
Context (h : option (ST node unit)) (c : cpu) (r : ram).
Hypothesis Hready : ready c.
Hypothesis Hr : wf_ram r.
Context (inst : Z).
Hypothesis Hi : u32 inst.
Hypothesis H3 : inst mod 4 = 3.

Lemma load_lemma o rd rs1 off : decode inst = Some (Load o rd rs1 off) ->
  let a := wrap (rv c rs1 + off) in
  execute_32 h inst (c, r) =
    if in_bounds r a (lop_size o)
    then (Ok tt, (write_back (Some (rd, lop_value o r a)) (started inst c), r))
    else (Exn (out_of_bounds a), (started inst c, r)).
Proof.
  destruct Hready as (Hwf & H0 & Hcoh). intros Hd. pose proof (decode_opcode _ _ Hd) as Eop.
  simpl in Eop. unfold decode in Hd. rewrite Eop in Hd. cbv zeta in Hd.
  destruct (lop_of (field inst 12 3)) as [o'|] eqn:Hop; simplify_eq/=.
  pose proof (field_range inst 7 5 ltac:(lia)). pose proof (field_range inst 15 5 ltac:(lia)).
  rewrite execute_32_started, decode_fields_eq, Eop by done. cbn [dispatch Z.eqb Pos.eqb].
  pose proof (exec_loads_eq (started inst c) r (started_wf _ _ Hwf) Hr inst
    (field inst 7 5) (field inst 12 3) (field inst 15 5) o Hi ltac:(done) ltac:(done) Hop) as He.
  cbv zeta in He. change (rv (started inst c)) with (rv c) in He.
  destruct (in_bounds _ _ _).
  - apply finish_node_wr; [by apply started_wf|done|done|exact He].
  - by apply finish_node_exn.
Qed.

Lemma store_lemma o rs1 rs2 off : decode inst = Some (Store o rs1 rs2 off) ->
  store_done (started inst c) r (wrap (rv c rs1 + off)) (sop_size o) (rv c rs2)
    (execute_32 h inst (c, r)).
Proof.
  destruct Hready as (Hwf & H0 & Hcoh). intros Hd. pose proof (decode_opcode _ _ Hd) as Eop.
  simpl in Eop. unfold decode in Hd. rewrite Eop in Hd. cbv zeta in Hd.
  destruct (sop_of (field inst 12 3)) as [o'|] eqn:Hop; simplify_eq/=.
  pose proof (field_range inst 20 5 ltac:(lia)). pose proof (field_range inst 15 5 ltac:(lia)).
  rewrite execute_32_started, decode_fields_eq, Eop by done. cbn [dispatch Z.eqb Pos.eqb].
  apply finish_node_store; [by apply started_wf|done|].
  by apply (exec_stores_eq (started inst c) r); [apply started_wf|..].
Qed.
End Instructions.

(** ** Atomics *)

(** A read-modify-write that stores [v], with [put_rd] for the register. *)
Definition amo_done (put_rd : cpu -> cpu) (c : cpu) (r : ram) (a v : Z)
    (out : res unit * node) : Prop :=
  if in_bounds r a 4
  then exists r', out = (Ok tt, (set_reservation_valid false (put_rd c), r')) /\
                  stored r a 4 v r'
  else out = (Exn (out_of_bounds a), (c, r)).

Lemma wrap_sint a : u32 a -> wrap (sint a) = a.
Proof. intros Ha. unfold wrap. rewrite sint_mod. by apply Z.mod_small. Qed.

Lemma amo_min a b : u32 a -> u32 b ->
  Z.land (Z.min (signed32 a) (signed32 b)) 0xFFFFFFFF = if sint a <=? sint b then a else b.
Proof.
  intros Ha Hb. rewrite land_ffffffff, !signed32_sint by done. fold (wrap (Z.min (sint a) (sint b))).
  destruct (Z.leb_spec (sint a) (sint b)).
  - rewrite Z.min_l by lia. by apply wrap_sint.
  - rewrite Z.min_r by lia. by apply wrap_sint.
Qed.

Lemma amo_max a b : u32 a -> u32 b ->
  Z.land (Z.max (signed32 a) (signed32 b)) 0xFFFFFFFF = if sint b <=? sint a then a else b.
Proof.
  intros Ha Hb. rewrite land_ffffffff, !signed32_sint by done. fold (wrap (Z.max (sint a) (sint b))).
  destruct (Z.leb_spec (sint b) (sint a)).
  - rewrite Z.max_l by lia. by apply wrap_sint.
  - rewrite Z.max_r by lia. by apply wrap_sint.
Qed.

Definition aop_code (o : aop) : Z :=
  match o with
  | LR => 2 | SC => 3 | AMOSWAP => 1 | AMOADD => 0 | AMOXOR => 4 | AMOAND => 12
  | AMOOR => 8 | AMOMIN => 16 | AMOMAX => 20 | AMOMINU => 24 | AMOMAXU => 28
  end.

Lemma aop_of_code f o : aop_of f = Some o -> f = aop_code o.
Proof. unfold aop_of. intros H. repeat case_match; by simplify_eq/=. Qed.

Section Amo.
Variables (c : cpu) (r : ram).
Hypothesis Hc : wf_cpu c.
Hypothesis Hr : wf_ram r.

(** Both forms of the read-modify-write, [f] being the mask on the loaded word. *)
Lemma amo_rmw_gen (f : Z -> Z) (g : Z -> Z) op a rd rs2 : 0 <= rd < 32 -> 0 <= rs2 < 32 ->
  f (mem_word r a) = mem_word r a -> g (rv c rs2) = rv c rs2 ->
  amo_done (wr rd (mem_word r a)) c r a (op (mem_word r a) (rv c rs2))
    ((v <- load_word a ;; b <- zoom (reg rs2) ;; store_word a (op (f v) (g b)) ;;;
      zoom (set_reg rd (f v)) ;;; zoom clear_reservation) (c, r)).
Proof.
  intros Hrd H2 Hf Hg. unfold bind at 1. rewrite node_load_word by done. unfold amo_done.
  destruct (in_bounds r a 4) eqn:Hb; [|done].
  unfold bind at 1. rewrite node_reg by done. rewrite Hf, Hg.
  pose proof (SafeRAM_store_word_ok r a (op (mem_word r a) (rv c rs2)) Hr) as Hst.
  unfold store_ok in Hst. rewrite Hb in Hst. destruct Hst as (r' & E & Hst).
  exists r'. split; [|done]. unfold bind at 1. unfold store_word, SafeRAM_ops, zoom at 1.
  simpl view. rewrite E. unfold bind. change (put r' (c, r)) with (c, r').
  by rewrite node_set_reg by done.
Qed.

Lemma exec_AMO_eq inst rd rs1 rs2 o : u32 inst -> 0 <= rd < 32 -> 0 <= rs1 < 32 -> 0 <= rs2 < 32 ->
  aop_of (field inst 27 5) = Some o -> o <> LR -> o <> SC -> rv c rs1 mod 4 = 0 ->
  amo_done (wr rd (mem_word r (rv c rs1))) c r (rv c rs1)
    (aop_sem o (mem_word r (rv c rs1)) (rv c rs2)) (exec_AMO inst rd 2 rs1 rs2 (c, r)).
Proof.
  intros Hi Hrd H1 H2 Ho HLR HSC Ha. unfold exec_AMO. cbn [Z.eqb Pos.eqb negb]. cbv zeta.
  replace (Z.land (Z.shiftr inst 27) 0x1F) with (field inst 27 5)
    by (rewrite land_1f, Z.shiftr_div_pow2 by lia; done).
  unfold bind at 1. rewrite node_reg by done. pose proof (rv_u32 c rs1 Hc) as Hau.
  rewrite (u32_mask_id (rv c rs1)), land_3, Ha by done. cbn [Z.eqb negb].
  set (a := rv c rs1) in *. pose proof (mem_word_u32 r a Hr) as Hw.
  pose proof (rv_u32 c rs2 Hc) as Hb.
  assert (forall op v, op (mem_word r a) (rv c rs2) = v ->
    amo_done (wr rd (mem_word r a)) c r a v (amo_rmw a rd rs2 op (c, r))) as Hrmw
    by (intros op v <-; by apply (amo_rmw_gen id id)).
  assert (forall op v, op (mem_word r a) (rv c rs2) = v ->
    amo_done (wr rd (mem_word r a)) c r a v (amo_rmw_unsigned a rd rs2 op (c, r))) as Hrmwu
    by (intros op v <-; by apply (amo_rmw_gen (fun v => Z.land v 0xFFFFFFFF)
          (fun v => Z.land v 0xFFFFFFFF)); try apply u32_mask_id).
  rewrite (aop_of_code _ _ Ho). clear Ho. destruct o; [by destruct HLR|by destruct HSC|..];
  cbn [Z.eqb Pos.eqb aop_code aop_sem].
  - apply Hrmw. by apply u32_mask_id.
  - apply Hrmw. by rewrite land_ffffffff.
  - apply Hrmw. by apply u32_mask_id, u32_lxor.
  - apply Hrmw. by apply u32_mask_id, u32_land_l.
  - apply Hrmw. by apply u32_mask_id, u32_lor.
  - apply Hrmw. by apply amo_min.
  - apply Hrmw. by apply amo_max.
  - by apply Hrmwu.
  - by apply Hrmwu.
Qed.

Lemma exec_AMO_misaligned inst rd rs1 rs2 : 0 <= rs1 < 32 -> rv c rs1 mod 4 <> 0 ->
  exec_AMO inst rd 2 rs1 rs2 (c, r) = zoom (trap 6 (rv c rs1) true) (c, r).
Proof.
  intros H1 Ha. unfold exec_AMO. cbn [Z.eqb Pos.eqb negb]. cbv zeta.
  unfold bind at 1. rewrite node_reg by done.
  rewrite (u32_mask_id (rv c rs1)), land_3 by by apply rv_u32.
  by rewrite (proj2 (Z.eqb_neq _ _) Ha).
Qed.

(** LR and SC of an aligned address. *)
Lemma exec_AMO_aligned inst rd rs1 rs2 : 0 <= rs1 < 32 -> rv c rs1 mod 4 = 0 ->
  exec_AMO inst rd 2 rs1 rs2 (c, r) =
    if field inst 27 5 =? 2 then exec_LR (rv c rs1) rd (c, r)
    else if field inst 27 5 =? 3 then exec_SC (rv c rs1) rd rs2 (c, r)
    else exec_AMO inst rd 2 rs1 rs2 (c, r).
Proof.
  intros H1 Ha.
  destruct (Z.eqb_spec (field inst 27 5) 2) as [E2|E2];
    [|destruct (Z.eqb_spec (field inst 27 5) 3) as [E3|E3]; [|done]];
    unfold exec_AMO; cbn [Z.eqb Pos.eqb negb]; cbv zeta; unfold bind at 1;
    rewrite node_reg, (u32_mask_id (rv c rs1)), land_3, Ha by (done || by apply rv_u32);
    replace (Z.land (Z.shiftr inst 27) 0x1F) with (field inst 27 5)
      by (rewrite land_1f, Z.shiftr_div_pow2 by lia; done);
    [by rewrite E2|by rewrite E3].
Qed.

Lemma exec_LR_eq a rd : 0 <= rd < 32 -> exec_LR a rd (c, r) =
  if in_bounds r a 4
  then (Ok tt, (set_reservation_addr a (set_reservation_valid true (wr rd (mem_word r a) c)), r))
  else (Exn (out_of_bounds a), (c, r)).
Proof.
  intros Hrd. unfold exec_LR, bind at 1. rewrite node_load_word by done.
  destruct (in_bounds r a 4); [|done]. unfold bind. by rewrite node_set_reg by done.
Qed.

(** A store-conditional: it stores and reports 0 when the reservation is for its
    address, and reports 1 without touching the memory otherwise. *)
Lemma exec_SC_eq a rd rs2 : 0 <= rd < 32 -> 0 <= rs2 < 32 ->
  if reservation_valid c && (reservation_addr c =? a)
  then amo_done (wr rd 0) c r a (rv c rs2) (exec_SC a rd rs2 (c, r))
  else exec_SC a rd rs2 (c, r) = (Ok tt, (wr rd 1 c, r)).
Proof.
  intros Hrd H2.
  assert (exec_SC a rd rs2 (c, r) =
    (if reservation_valid c && (reservation_addr c =? a)
     then b <- zoom (reg rs2) ;; store_word a (Z.land b 0xFFFFFFFF) ;;;
          zoom (set_reg rd 0) ;;; zoom clear_reservation
     else zoom (set_reg rd 1)) (c, r)) as -> by done.
  destruct (reservation_valid c && (reservation_addr c =? a)); [|by apply node_set_reg].
  unfold bind at 1. rewrite node_reg by done.
  rewrite u32_mask_id by by apply rv_u32. unfold amo_done.
  pose proof (SafeRAM_store_word_ok r a (rv c rs2) Hr) as Hst. unfold store_ok in Hst.
  destruct (in_bounds r a 4).
  - destruct Hst as (r' & E & Hst). exists r'. split; [|done].
    unfold bind at 1. unfold store_word, SafeRAM_ops, zoom at 1. simpl view. rewrite E.
    unfold bind. change (put r' (c, r)) with (c, r'). by rewrite node_set_reg by done.
  - unfold bind at 1. unfold store_word, SafeRAM_ops, zoom at 1. simpl view. by rewrite Hst.
Qed.
End Amo.

Section AmoInstructions.
Context (h : option (ST node unit)) (c : cpu) (r : ram).
Hypothesis Hready : ready c.
Hypothesis Hr : wf_ram r.
Context (inst : Z).
Hypothesis Hi : u32 inst.
Hypothesis H3 : inst mod 4 = 3.

Lemma decode_amo o rd rs1 rs2 : decode inst = Some (Amo o rd rs1 rs2) ->
  field inst 0 7 = 0x2F /\ field inst 12 3 = 2 /\ aop_of (field inst 27 5) = Some o /\
  rd = field inst 7 5 /\ rs1 = field inst 15 5 /\ rs2 = field inst 20 5 /\
  0 <= rd < 32 /\ 0 <= rs1 < 32 /\ 0 <= rs2 < 32.
Proof.
  intros Hd. pose proof (decode_opcode _ _ Hd) as Eop. simpl in Eop.
  unfold decode in Hd. rewrite Eop in Hd. cbv zeta in Hd.
  destruct (Z.eqb_spec (field inst 12 3) 2); [|done].
  destruct (aop_of (field inst 27 5)) as [o'|] eqn:Hop; simplify_eq/=.
  split_and!; try done; by apply field_range.
Qed.

(** Dispatch to the AMO handler. *)
Lemma execute_amo o rd rs1 rs2 : decode inst = Some (Amo o rd rs1 rs2) ->
  execute_32 h inst (c, r) =
  (exec_AMO inst rd 2 rs1 rs2 ;;; zoom (set_reg 0 0)) (started inst c, r).
Proof.
  intros Hd. destruct Hready as (Hwf & H0 & Hcoh).
  destruct (decode_amo _ _ _ _ Hd) as (Eop & Ef3 & _ & -> & -> & -> & _).
  by rewrite execute_32_started, decode_fields_eq, Eop, Ef3 by done.
Qed.

(** A misaligned address traps with cause 6 before anything else. *)
Lemma amo_misaligned o rd rs1 rs2 : decode inst = Some (Amo o rd rs1 rs2) ->
  rv c rs1 mod 4 <> 0 ->
  execute_32 h inst (c, r) =
    zoom (fun _ => trap 6 (rv c rs1) true (started inst c)) (c, r).
Proof.
  intros Hd Ha. rewrite (execute_amo _ _ _ _ Hd). destruct Hready as (Hwf & H0 & Hcoh).
  destruct (decode_amo _ _ _ _ Hd) as (_ & _ & _ & _ & _ & _ & _ & H1 & _).
  pose proof (started_wf inst c Hwf) as Hwf'.
  pose proof (exec_AMO_misaligned (started inst c) r Hwf' inst rd rs1 rs2 H1 Ha) as He.
  transitivity ((zoom (trap 6 (rv c rs1) true) ;;; zoom (set_reg 0 0)) (started inst c, r)).
  - unfold bind. by rewrite He.
  - rewrite (zoom_seq (W := node)). unfold zoom. simpl view. by rewrite finish_trap.
Qed.

(** The register reset after an atomic. *)
Lemma finish_amo (c' : cpu) rd v a x (m : ST node unit) : wf_cpu c' -> x0_zero c' ->
  0 <= rd < 32 -> amo_done (wr rd v) c' r a x (m (c', r)) ->
  amo_done (write_back (Some (rd, v))) c' r a x ((m ;;; zoom (set_reg 0 0)) (c', r)).
Proof.
  intros Hc' H0' Hrd. unfold amo_done. destruct (in_bounds r a 4); [|apply finish_node_exn].
  intros (r' & E & Hst). exists r'. split; [|done]. unfold bind. rewrite E. unfold zoom.
  simpl view.
  rewrite set_reg_eq; [|exact (eq_trans (wr_len c' rd v) (wf_regs_len c' Hc'))|lia].
  transitivity (Ok tt, (set_reservation_valid false (wr 0 0 (wr rd v c')), r')); [done|].
  by rewrite wr_x0_wr.
Qed.

Lemma lr_lemma rd rs1 rs2 : decode inst = Some (Amo LR rd rs1 rs2) -> rv c rs1 mod 4 = 0 ->
  let a := rv c rs1 in
  execute_32 h inst (c, r) =
    if in_bounds r a 4
    then (Ok tt, (set_reservation_addr a (set_reservation_valid true
                   (write_back (Some (rd, mem_word r a)) (started inst c))), r))
    else (Exn (out_of_bounds a), (started inst c, r)).
Proof.
  intros Hd Ha a. rewrite (execute_amo _ _ _ _ Hd). destruct Hready as (Hwf & H0 & Hcoh).
  destruct (decode_amo _ _ _ _ Hd) as (_ & _ & Hop & _ & _ & _ & Hrd & H1 & _).
  pose proof (started_wf inst c Hwf) as Hwf'. apply aop_of_code in Hop.
  assert (exec_AMO inst rd 2 rs1 rs2 (started inst c, r) =
          exec_LR a rd (started inst c, r)) as He by (by rewrite exec_AMO_aligned, Hop by done).
  pose proof (exec_LR_eq (started inst c) r Hwf' Hr a rd Hrd) as HLR. rewrite HLR in He.
  destruct (in_bounds r a 4); [|by apply finish_node_exn].
  unfold bind. rewrite He. unfold zoom. simpl view.
  rewrite set_reg_eq; [|exact (eq_trans (wr_len (started inst c) rd _) (wf_regs_len _ Hwf'))|lia].
  rewrite <- wr_x0_wr by done. done.
Qed.

Lemma sc_lemma rd rs1 rs2 : decode inst = Some (Amo SC rd rs1 rs2) -> rv c rs1 mod 4 = 0 ->
  let a := rv c rs1 in
  if reservation_valid c && (reservation_addr c =? a)
  then amo_done (write_back (Some (rd, 0))) (started inst c) r a (rv c rs2)
         (execute_32 h inst (c, r))
  else execute_32 h inst (c, r) = (Ok tt, (write_back (Some (rd, 1)) (started inst c), r)).
Proof.
  intros Hd Ha a. rewrite (execute_amo _ _ _ _ Hd). destruct Hready as (Hwf & H0 & Hcoh).
  destruct (decode_amo _ _ _ _ Hd) as (_ & _ & Hop & _ & _ & _ & Hrd & H1 & H2).
  pose proof (started_wf inst c Hwf) as Hwf'. apply aop_of_code in Hop.
  assert (exec_AMO inst rd 2 rs1 rs2 (started inst c, r) =
          exec_SC a rd rs2 (started inst c, r)) as He by (by rewrite exec_AMO_aligned, Hop by done).
  pose proof (exec_SC_eq (started inst c) r Hwf' Hr a rd rs2 Hrd H2) as HSC.
  rewrite <- He in HSC. change (reservation_valid (started inst c)) with (reservation_valid c) in HSC.
  change (reservation_addr (started inst c)) with (reservation_addr c) in HSC.
  destruct (reservation_valid c && (reservation_addr c =? a)).
  - by apply finish_amo.
  - by apply finish_node_wr.
Qed.

Lemma amo_lemma o rd rs1 rs2 : decode inst = Some (Amo o rd rs1 rs2) -> o <> LR -> o <> SC ->
  rv c rs1 mod 4 = 0 ->
  amo_done (write_back (Some (rd, mem_word r (rv c rs1)))) (started inst c) r (rv c rs1)
    (aop_sem o (mem_word r (rv c rs1)) (rv c rs2)) (execute_32 h inst (c, r)).
Proof.
  intros Hd HLR HSC Ha. rewrite (execute_amo _ _ _ _ Hd). destruct Hready as (Hwf & H0 & Hcoh).
  destruct (decode_amo _ _ _ _ Hd) as (_ & _ & Hop & _ & _ & _ & Hrd & H1 & H2).
  apply finish_amo; try done; [by apply started_wf|].
  by apply (exec_AMO_eq (started inst c) r); [apply started_wf|..].
Qed.
End AmoInstructions.

(** ** Theorems *)

Lemma ready_started inst c : ready c -> inst mod 4 = 3 -> ready (started inst c).
Proof.
  intros (Hwf & H0 & Hcoh) H3. split_and!; [by apply started_wf|done|].
  destruct (cache_32_coherent c inst Hcoh H3) as [H1 H2]. by split.
Qed.

Lemma ready_write_back rd v c : ready c -> 0 <= rd < 32 -> u32 v ->
  ready (write_back (Some (rd, v)) c).
Proof.
  intros (Hwf & H0 & Hcoh) Hrd Hv. simpl. destruct (Z.eqb_spec rd 0); [done|].
  split_and!; [by apply wr_wf| |by destruct Hcoh; split].
  unfold x0_zero. rewrite rv_wr by (apply Hwf || lia). by rewrite (proj2 (Z.eqb_neq rd 0)).
Qed.

Lemma ready_reserve b a c : ready c -> ready (set_reservation_addr a (set_reservation_valid b c)).
Proof. intros ([] & H0 & []). by split_and!; [split|done|split]. Qed.

Lemma ready_clear c : ready c -> ready (set_reservation_valid false c).
Proof. intros ([] & H0 & []). by split_and!; [split|done|split]. Qed.

(** C12: every load executed on the checked memory writes to its register the
    addressed bytes, little end first, zero- or sign-extended as the opcode says,
    at any alignment; outside the memory it raises MemoryAccessError and changes
    no register.  The address wraps at 2^32 and the offset is the signed one. *)
Theorem load_isa (h : option (ST node unit)) (c : cpu) (r : ram) (inst : Z)
  (o : lop) (rd rs1 off : Z) (Hready : ready c) (Hr : wf_ram r) (Hi : u32 inst)
  (H3 : inst mod 4 = 3) (Hd : decode inst = Some (Load o rd rs1 off)) :
  let a := wrap (rv c rs1 + off) in
  execute_32 h inst (c, r) =
    if in_bounds r a (lop_size o)
    then (Ok tt, (write_back (Some (rd, lop_value o r a)) (started inst c), r))
    else (Exn (out_of_bounds a), (started inst c, r)).
Proof. by apply load_lemma. Qed.

(** C13: every store executed on the checked memory changes exactly the addressed
    bytes to the low bytes of its register and cancels the LR/SC reservation;
    outside the memory it raises MemoryAccessError and changes nothing, the
    reservation included. *)
Theorem store_isa (h : option (ST node unit)) (c : cpu) (r : ram) (inst : Z)
  (o : sop) (rs1 rs2 off : Z) (Hready : ready c) (Hr : wf_ram r) (Hi : u32 inst)
  (H3 : inst mod 4 = 3) (Hd : decode inst = Some (Store o rs1 rs2 off)) :
  store_done (started inst c) r (wrap (rv c rs1 + off)) (sop_size o) (rv c rs2)
    (execute_32 h inst (c, r)).
Proof. by apply store_lemma. Qed.

(** C14: every atomic read-modify-write returns the old word, stores the word the
    ISA defines for the operation (signed and unsigned minimum and maximum
    included) and cancels the reservation; a misaligned address traps with cause 6
    and the address, an address outside the memory raises MemoryAccessError. *)
Theorem amo_isa (h : option (ST node unit)) (c : cpu) (r : ram) (inst : Z)
  (o : aop) (rd rs1 rs2 : Z) (Hready : ready c) (Hr : wf_ram r) (Hi : u32 inst)
  (H3 : inst mod 4 = 3) (Hd : decode inst = Some (Amo o rd rs1 rs2))
  (HLR : o <> LR) (HSC : o <> SC) :
  let a := rv c rs1 in
  (a mod 4 = 0 ->
   amo_done (write_back (Some (rd, mem_word r a))) (started inst c) r a
     (aop_sem o (mem_word r a) (rv c rs2)) (execute_32 h inst (c, r))) /\
  (a mod 4 <> 0 ->
   execute_32 h inst (c, r) = zoom (fun _ => trap 6 a true (started inst c)) (c, r)).
Proof. split; intros; [by eapply amo_lemma|by eapply amo_misaligned]. Qed.

(** A load-reserved followed by a store-conditional to the same address
    succeeds: the word is stored, the result register is 0 and the reservation is
    used up.  With a completed store to any address in between it fails: the
    result register is 1 and the memory is the one the store left. *)
Theorem lr_sc (h : option (ST node unit)) (c : cpu) (r : ram) (i1 i2 : Z)
  (rd1 rs1 rs1' rd2 rs2 rs3 : Z) (Hready : ready c) (Hr : wf_ram r)
  (Hi1 : u32 i1 /\ i1 mod 4 = 3 /\ decode i1 = Some (Amo LR rd1 rs1 rs1'))
  (Hi2 : u32 i2 /\ i2 mod 4 = 3 /\ decode i2 = Some (Amo SC rd2 rs2 rs3))
  (Ha : rv c rs1 mod 4 = 0) (Hb : in_bounds r (rv c rs1) 4 = true) :
  exists c1, execute_32 h i1 (c, r) = (Ok tt, (c1, r)) /\
    (rv c1 rs2 = rv c rs1 ->
     amo_done (write_back (Some (rd2, 0))) (started i2 c1) r (rv c rs1) (rv c1 rs3)
       (execute_32 h i2 (c1, r))) /\
    (forall i o rs4 rs5 off r', u32 i -> i mod 4 = 3 -> decode i = Some (Store o rs4 rs5 off) ->
       execute_32 h i (c1, r) = (Ok tt, r') -> rv c1 rs2 mod 4 = 0 ->
       execute_32 h i2 r' =
         (Ok tt, (write_back (Some (rd2, 1)) (started i2 (fst r')), snd r'))).
Proof.
  destruct Hi1 as (Hu1 & H31 & Hd1), Hi2 as (Hu2 & H32 & Hd2).
  pose proof (lr_lemma h c r Hready Hr i1 H31 rd1 rs1 rs1' Hd1 Ha) as HLR. cbv zeta in HLR.
  rewrite Hb in HLR. set (c1 := set_reservation_addr _ _) in HLR.
  assert (ready c1) as Hc1.
  { destruct (decode_amo _ _ _ _ _ Hd1) as (_ & _ & _ & _ & _ & _ & Hrd & _).
    apply ready_reserve, ready_write_back; [by apply ready_started|done|by apply mem_word_u32]. }
  exists c1. split_and!; [done| |].
  - intros Heq. assert (rv c1 rs2 mod 4 = 0) as Ha2 by by rewrite Heq.
    pose proof (sc_lemma h c1 r Hc1 Hr i2 H32 rd2 rs2 rs3 Hd2 Ha2) as HSC. cbv zeta in HSC.
    rewrite Heq in HSC. change (reservation_valid c1) with true in HSC.
    change (reservation_addr c1) with (rv c rs1) in HSC.
    by rewrite Z.eqb_refl in HSC.
  - intros i o rs4 rs5 off [c2 r2] Hu H3 Hd He Ha2.
    pose proof (store_lemma h c1 r Hc1 Hr i Hu H3 o rs4 rs5 off Hd) as Hst.
    rewrite He in Hst. unfold store_done in Hst.
    destruct (in_bounds r (wrap (rv c1 rs4 + off)) (sop_size o)); [|done]. destruct Hst as (r3 & [= -> ->] & Hst).
    assert (ready (set_reservation_valid false (started i c1))) as Hc2
      by by apply ready_clear, ready_started.
    exact (sc_lemma h _ r3 Hc2 (stored_wf _ _ _ _ _ Hst) i2 H32 rd2 rs2 rs3 Hd2 Ha2).
Qed.
