(* ===== verification/Trap.v ===== *)
(** * Traps, MRET, CSRs and the timer

    Trap entry and MRET as operations on the interrupt-enable stack of mstatus,
    the machine timer interrupt, and the CSR instructions, branch by branch. *)

From Stdlib Require Import ZArith Lia Bool String.
From stdpp Require Import base numbers list option gmap strings.
From S2P Require Import Prelude PyStr Isa Ram Cpu Rvc CpuSem Exec ExecSem ExecSafe RamSafe Core.

Local Open Scope Z_scope.
Local Open Scope py_scope.

(** ** mstatus, bit by bit *)

Lemma testbit_1 i : 0 <= i -> Z.testbit 1 i = (i =? 0).
Proof. intros Hi. change 1 with (2 ^ 0). rewrite Z.pow2_bits_eqb by lia. apply Z.eqb_sym. Qed.

Lemma testbit_shl1 k i : 0 <= k -> 0 <= i -> Z.testbit (Z.shiftl 1 k) i = (i =? k).
Proof.
  intros Hk Hi. rewrite Z.shiftl_mul_pow2, Z.mul_1_l, Z.pow2_bits_eqb by lia. apply Z.eqb_sym.
Qed.

(** Bit [j] of [m] moved to position [k]. *)
Lemma testbit_move m j k i : 0 <= j -> 0 <= k -> 0 <= i ->
  Z.testbit (Z.shiftl (Z.land (Z.shiftr m j) 1) k) i = if i =? k then Z.testbit m j else false.
Proof.
  intros Hj Hk Hi. rewrite Z.shiftl_spec by done.
  destruct (Z.eqb_spec i k) as [->|Hne].
  - rewrite Z.sub_diag, Z.land_spec, Z.shiftr_spec by lia. simpl. by rewrite andb_true_r.
  - destruct (decide (i < k)); [by rewrite Z.testbit_neg_r by lia|].
    rewrite Z.land_spec, testbit_1 by lia.
    rewrite (proj2 (Z.eqb_neq (i - k) 0)) by lia. apply andb_false_r.
Qed.

Lemma mstatus_enter_bit m i : 0 <= i -> Z.testbit (mstatus_enter m) i =
  if i =? 3 then false else if i =? 7 then Z.testbit m 3 else Z.testbit m i.
Proof.
  intros Hi. unfold mstatus_enter.
  rewrite Z.lor_spec, Z.land_spec, Z.lnot_spec, Z.lor_spec, !testbit_shl1, testbit_move by lia.
  destruct (Z.eqb_spec i 3) as [->|]; [by rewrite andb_false_r|].
  destruct (Z.eqb_spec i 7) as [->|]; simpl; [by rewrite andb_false_r|].
  by rewrite andb_true_r, orb_false_r.
Qed.

Lemma mstatus_return_bit m i : 0 <= i -> Z.testbit (mstatus_return m) i =
  if i =? 3 then Z.testbit m 7 else if i =? 7 then true else Z.testbit m i.
Proof.
  intros Hi. unfold mstatus_return.
  rewrite !Z.lor_spec, Z.land_spec, Z.lnot_spec, !testbit_shl1, testbit_move by lia.
  destruct (Z.eqb_spec i 3) as [->|]; simpl; [by rewrite andb_false_r, orb_false_r|].
  destruct (Z.eqb_spec i 7) as [->|]; simpl; [by rewrite orb_true_r|].
  by rewrite andb_true_r, !orb_false_r.
Qed.

(** ** MRET *)

Definition returned (c : cpu) : cpu :=
  wc 0x300 (mstatus_return (cv c 0x300)) (set_next_pc (cv c 0x341) c).

Lemma exec_MRET_eq c : wf_cpu c -> exec_MRET c =
  if cv c 0x341 mod ialign c =? 0 then (Ok tt, returned c) else trap 0 (cv c 0x341) true c.
Proof.
  intros Hc. pose proof (wf_csrs_len c Hc) as Hl. unfold exec_MRET, bind at 1.
  rewrite csr_eq by (done || lia). rewrite <- align_mod by done.
  unfold check_target, bind at 1, gets. destruct (_ =? 0); cbn [negb]; [|done].
  unfold bind, modify. rewrite csr_eq by (done || lia). cbv zeta.
  by rewrite set_csr_eq by (done || lia).
Qed.

Lemma trapped_wf cause mtval sync c : wf_cpu c -> u32 cause -> u32 mtval -> cv c 0x305 <> 0 ->
  wf_cpu (trapped cause mtval sync c).
Proof.
  intros Hc Hcause Hm Hv. pose proof (trap_safe wf_cpu cause mtval sync Hcause Hm c Hc) as H.
  rewrite trap_eq in H by done. rewrite (proj2 (Z.eqb_neq _ _) Hv) in H. apply H.
Qed.

Lemma trapped_cv cause mtval sync c i : wf_cpu c -> 0 <= i -> cv (trapped cause mtval sync c) i =
  if i =? 0x300 then mstatus_enter (cv c 0x300) else if i =? 0x343 then mtval
  else if i =? 0x342 then cause else if i =? 0x341 then (if sync then pc c else next_pc c)
  else cv c i.
Proof.
  intros Hc Hi. pose proof (wf_csrs_len c Hc) as Hl. unfold trapped.
  match goal with |- cv (set_next_pc _ ?x) i = _ => change (cv (set_next_pc _ x) i) with (cv x i) end.
  rewrite !cv_wc by (rewrite ?wc_len; done || lia).
  rewrite !(Z.eqb_sym i). done.
Qed.

(** C26: a trap with a handler installed saves the interrupted pc (the next pc for
    an interrupt), the cause and the value, moves MIE to MPIE and clears it, and
    jumps to the handler; an MRET from that state goes back to the saved pc with
    MIE restored, MPIE set and every other bit of mstatus and every other CSR and
    register as before the trap. *)
Theorem trap_mret_roundtrip (c : cpu) (cause mtval : Z) (sync : bool)
  (Hc : wf_cpu c) (Hcause : u32 cause) (Hm : u32 mtval) (Hv : cv c 0x305 <> 0)
  (Hal : (if sync then pc c else next_pc c) mod ialign c = 0) :
  exists c1 c2, trap cause mtval sync c = (Ok tt, c1) /\ exec_MRET c1 = (Ok tt, c2) /\
    next_pc c1 = Z.land (cv c 0x305) (Z.lnot 3) /\
    cv c1 0x341 = (if sync then pc c else next_pc c) /\
    cv c1 0x342 = cause /\ cv c1 0x343 = mtval /\
    Z.testbit (cv c1 0x300) 3 = false /\
    Z.testbit (cv c1 0x300) 7 = Z.testbit (cv c 0x300) 3 /\
    next_pc c2 = (if sync then pc c else next_pc c) /\
    (forall i, 0 <= i -> Z.testbit (cv c2 0x300) i =
       if i =? 7 then true else Z.testbit (cv c 0x300) i) /\
    (forall i, 0 <= i -> i <> 0x300 -> i <> 0x341 -> i <> 0x342 -> i <> 0x343 ->
       cv c2 i = cv c i) /\
    registers c2 = registers c.
Proof.
  exists (trapped cause mtval sync c), (returned (trapped cause mtval sync c)).
  pose proof (trapped_wf cause mtval sync c Hc Hcause Hm Hv) as Hwf.
  pose proof (fun i => trapped_cv cause mtval sync c i Hc) as Hcv.
  pose proof (wf_csrs_len _ Hwf) as Hlen.
  assert (forall i, 0 <= i -> cv (returned (trapped cause mtval sync c)) i =
    if 0x300 =? i then mstatus_return (cv (trapped cause mtval sync c) 0x300)
    else cv (trapped cause mtval sync c) i) as Hcv2
    by (intros i Hi; unfold returned; by rewrite cv_wc by (done || lia)).
  split_and!; try done.
  - rewrite trap_eq by done. by rewrite (proj2 (Z.eqb_neq _ _) Hv).
  - rewrite exec_MRET_eq, Hcv by (done || lia). cbn [Z.eqb Pos.eqb].
    change (ialign (trapped cause mtval sync c)) with (ialign c). by rewrite Hal.
  - by rewrite Hcv.
  - by rewrite Hcv.
  - by rewrite Hcv.
  - rewrite Hcv by lia. cbn [Z.eqb Pos.eqb]. by rewrite mstatus_enter_bit.
  - rewrite Hcv by lia. cbn [Z.eqb Pos.eqb]. by rewrite mstatus_enter_bit.
  - unfold returned. transitivity (cv (trapped cause mtval sync c) 0x341); [done|]. by rewrite Hcv.
  - intros i Hi. rewrite Hcv2 by lia. cbn [Z.eqb Pos.eqb].
    rewrite mstatus_return_bit, !Hcv by lia. cbn [Z.eqb Pos.eqb].
    rewrite !mstatus_enter_bit by lia. cbn [Z.eqb Pos.eqb].
    destruct (Z.eqb_spec i 3) as [->|]; [done|]. by destruct (i =? 7).
  - intros i Hi H1 H2 H3 H4. rewrite Hcv2, (proj2 (Z.eqb_neq 0x300 i)) by lia.
    by rewrite Hcv, !(proj2 (Z.eqb_neq i _)) by lia.
Qed.

(** ** The timer *)

Lemma land_bit m k : 0 <= k -> (Z.land m (Z.shiftl 1 k) =? 0) = negb (Z.testbit m k).
Proof.
  intros Hk. destruct (Z.testbit m k) eqn:E; simpl.
  - apply Z.eqb_neq. intros H. apply (f_equal (fun z => Z.testbit z k)) in H.
    rewrite Z.land_spec, testbit_shl1, Z.eqb_refl, E, Z.testbit_0_l in H by done. done.
  - apply Z.eqb_eq, Z.bits_inj'. intros i Hi.
    rewrite Z.land_spec, testbit_shl1, Z.testbit_0_l by done.
    destruct (Z.eqb_spec i k) as [->|]; [by rewrite E|apply andb_false_r].
Qed.

(** The pending bit of mip, set or cleared. *)
Definition mip_with (b : bool) (mip : Z) : Z :=
  if b then Z.lor mip (Z.shiftl 1 7) else Z.land mip (Z.lnot (Z.shiftl 1 7)).

Lemma mip_with_bit b mip i : 0 <= i ->
  Z.testbit (mip_with b mip) i = if i =? 7 then b else Z.testbit mip i.
Proof.
  intros Hi. destruct b; simpl.
  - rewrite Z.lor_spec, testbit_shl1 by lia. by destruct (i =? 7); rewrite ?orb_true_r, ?orb_false_r.
  - rewrite Z.land_spec, Z.lnot_spec, testbit_shl1 by lia.
    by destruct (i =? 7); rewrite ?andb_false_r, ?andb_true_r.
Qed.

(** The processor after a tick, before the interrupt. *)
Definition ticked (c : cpu) : cpu :=
  let pending := mtimecmp c <=? mtime c in
  let c1 := set_mtime (mtime c + 1) c in
  if eqb pending (mtip c) then c1
  else set_mtip pending (wc 0x344 (mip_with pending (cv c 0x344)) c1).

(** The timer interrupt is taken. *)
Definition timer_fires (c : cpu) : bool :=
  (mtimecmp c <=? mtime c) && Z.testbit (cv c 0x300) 3 && Z.testbit (cv c 0x304) 7.

Lemma ticked_cv c i : wf_cpu c -> 0 <= i -> i <> 0x344 -> cv (ticked c) i = cv c i.
Proof.
  intros Hc Hi Hne. unfold ticked. cbv zeta. destruct (eqb _ _); [done|].
  match goal with |- cv (set_mtip _ ?x) i = _ => change (cv (set_mtip _ x) i) with (cv x i) end.
  rewrite cv_wc by (lia || apply Hc). by rewrite (proj2 (Z.eqb_neq 0x344 i)) by lia.
Qed.

Lemma ticked_wf c : wf_cpu c -> wf_cpu (ticked c).
Proof.
  intros Hc. unfold ticked. cbv zeta.
  assert (wf_cpu (set_mtime (mtime c + 1) c)) as H1
    by (destruct Hc; split; try done; simpl; lia).
  destruct (eqb _ _); [done|].
  assert (u32 (mip_with (mtimecmp c <=? mtime c) (cv c 0x344))) as Hu.
  { pose proof (cv_u32 c 0x344 Hc). unfold mip_with. case_match; auto with words. }
  pose proof (wc_wf _ 0x344 _ H1 Hu) as []. by split.
Qed.

Lemma timer_update_eq c : wf_cpu c -> timer_update c =
  if timer_fires c then trap 0x80000007 0 false (ticked c) else (Ok tt, ticked c).
Proof.
  intros Hc. pose proof (wf_csrs_len c Hc) as Hl. pose proof (ticked_wf c Hc) as Hwf.
  set (pending := mtimecmp c <=? mtime c). set (c1 := set_mtime (mtime c + 1) c).
  assert (timer_update c =
    ((if negb (eqb pending (mtip c)) then
        mip <- csr 0x344 ;;
        (if pending then set_csr 0x344 (Z.lor mip (Z.shiftl 1 7))
         else set_csr 0x344 (Z.land mip (Z.lnot (Z.shiftl 1 7)))) ;;;
        modify (set_mtip pending)
      else ret tt) ;;;
     if negb pending then ret tt
     else
       mstatus <- csr 0x300 ;;
       if Z.land mstatus (Z.shiftl 1 3) =? 0 then ret tt
       else
         mie <- csr 0x304 ;;
         if Z.land mie (Z.shiftl 1 7) =? 0 then ret tt
         else trap 0x80000007 0 false) c1) as -> by done.
  assert ((if negb (eqb pending (mtip c)) then
        mip <- csr 0x344 ;;
        (if pending then set_csr 0x344 (Z.lor mip (Z.shiftl 1 7))
         else set_csr 0x344 (Z.land mip (Z.lnot (Z.shiftl 1 7)))) ;;;
        modify (set_mtip pending)
      else ret tt) c1 = (Ok tt, ticked c)) as Htick.
  { unfold ticked. fold pending c1. cbv zeta. destruct (eqb pending (mtip c)); cbn [negb]; [done|].
    unfold bind. rewrite csr_eq by (done || lia). change (cv c1 0x344) with (cv c 0x344).
    destruct pending; by rewrite set_csr_eq by (done || lia). }
  unfold bind at 1. rewrite Htick. unfold timer_fires. fold pending.
  destruct pending; cbn [negb andb]; [|done]. unfold bind.
  rewrite !csr_eq by (lia || by apply wf_csrs_len). rewrite !ticked_cv by (done || lia).
  rewrite !land_bit by lia. destruct (Z.testbit (cv c 0x300) 3); cbn [negb andb]; [|done].
  rewrite csr_eq by (lia || by apply wf_csrs_len). rewrite !ticked_cv by (done || lia).
  rewrite land_bit by lia. by destruct (Z.testbit (cv c 0x304) 7).
Qed.

Lemma ticked_mip c : wf_cpu c -> mtip c = Z.testbit (cv c 0x344) 7 ->
  mtip (ticked c) = (mtimecmp c <=? mtime c) /\
  Z.testbit (cv (ticked c) 0x344) 7 = (mtimecmp c <=? mtime c).
Proof.
  intros Hc Hs. unfold ticked. cbv zeta. set (pending := mtimecmp c <=? mtime c).
  destruct (eqb pending (mtip c)) eqn:E.
  - apply eqb_prop in E. change (cv (set_mtime (mtime c + 1) c)) with (cv c).
    rewrite <- Hs. done.
  - split; [done|].
    match goal with |- Z.testbit (cv (set_mtip _ ?x) _) _ = _ =>
      change (cv (set_mtip _ x) 0x344) with (cv x 0x344) end.
    rewrite cv_wc by (lia || apply Hc). cbn [Z.eqb Pos.eqb]. by rewrite mip_with_bit.
Qed.

(** A tick increments mtime by one and takes the machine timer interrupt
    exactly when the counter has reached mtimecmp, interrupts are enabled in
    mstatus and the timer interrupt is enabled in mie; the trap is asynchronous
    (mepc is the next pc).  When the CPU's flag and the MTIP bit of mip agree
    before the tick, both are the comparison afterwards. *)
Theorem timer_interrupt (c : cpu) (Hc : wf_cpu c) :
  timer_update c =
    (if timer_fires c then trap 0x80000007 0 false (ticked c) else (Ok tt, ticked c)) /\
  mtime (ticked c) = mtime c + 1 /\
  (mtip c = Z.testbit (cv c 0x344) 7 ->
   mtip (ticked c) = (mtimecmp c <=? mtime c) /\
   Z.testbit (cv (ticked c) 0x344) 7 = (mtimecmp c <=? mtime c)).
Proof.
  split_and!; [by apply timer_update_eq| |by apply ticked_mip].
  unfold ticked. cbv zeta. by destruct (eqb _ _).
Qed.

(** ** CSR instructions *)

(** The operand of a CSR instruction. *)
Definition csr_operand (c : cpu) (src : csrc) : Z :=
  match src with CReg r => rv c r | CImm u => u end.

(** What the ISA writes: set and clear with a zero operand do not write. *)
Definition csr_write (o : cop) (n v : Z) (c : cpu) : cpu :=
  match o with
  | CSRRW => wc n v c
  | CSRRS => if v =? 0 then c else wc n (Z.lor (cv c n) v) c
  | CSRRC => if v =? 0 then c else wc n (Z.ldiff (cv c n) v) c
  end.

(** A CSR without behaviour of its own. *)
Definition plain_csr (n : Z) : bool :=
  negb (CSR_RO n || CSR_NOWRITE n || (n =? 0x300) || (n =? 0x305) || (n =? 0x7C0) ||
        (n =? 0x7C1) || (n =? 0x7C2) || (n =? 0x7C3)).

(** Which form of the instruction the three bits select. *)
Definition csr_form (f3 : Z) : option (cop * bool) :=
  match f3 with
  | 1 => Some (CSRRW, false) | 2 => Some (CSRRS, false) | 3 => Some (CSRRC, false)
  | 5 => Some (CSRRW, true) | 6 => Some (CSRRS, true) | 7 => Some (CSRRC, true) | _ => None
  end.

Lemma csr_of_form i rd f3 rs1 o rd' src n : csr_of i rd f3 rs1 = Some (Csr o rd' src n) ->
  rd' = rd /\ n = field i 20 12 /\
  exists imm, csr_form f3 = Some (o, imm) /\ src = if imm : bool then CImm rs1 else CReg rs1.
Proof.
  unfold csr_of, csr_form. intros H. repeat case_match; simplify_eq/=; eauto 10.
Qed.

Lemma csr_number inst : Z.land (Z.shiftr inst 20) 0xFFF = field inst 20 12.
Proof. by rewrite land_fff, Z.shiftr_div_pow2 by lia. Qed.

(** Write-back of a CSR instruction: the register is skipped for x0. *)
Lemma csr_write_rd c rd v : py_len (registers c) = 32 -> 0 <= rd < 32 ->
  (if negb (rd =? 0) then set_reg rd v else ret tt) c = (Ok tt, write_back (Some (rd, v)) c).
Proof.
  intros Hl Hrd. unfold write_back. destruct (rd =? 0); [done|]. simpl. by rewrite set_reg_eq.
Qed.

Lemma csr_write_regs o n v c : registers (csr_write o n v c) = registers c.
Proof. unfold csr_write. repeat case_match; done. Qed.

Section Csr.
Variables (c : cpu) (inst rd rs1 : Z).
Hypothesis Hc : wf_cpu c.
Hypothesis Hrd : 0 <= rd < 32.
Hypothesis Hrs : 0 <= rs1 < 32.

(** The CSR file after the instruction: the write-ignoring CSRs keep their value, mtvec
    is aligned by CSRRW, and MPP of mstatus is set back after any instruction on it. *)
Definition csr_put (o : cop) (n v : Z) : cpu :=
  match o with
  | CSRRW => if n =? 0x305 then wc n (Z.land v (Z.lnot 3)) c
             else if CSR_NOWRITE n then c else wc n v c
  | CSRRS => if (v =? 0) || CSR_NOWRITE n then c else wc n (Z.lor (cv c n) v) c
  | CSRRC => if (v =? 0) || CSR_NOWRITE n then c else wc n (Z.ldiff (cv c n) v) c
  end.

Definition csr_stored (o : cop) (n v : Z) : cpu :=
  let c1 := csr_put o n v in
  if n =? 0x300 then wc 0x300 (Z.lor (cv c1 0x300) 0x1800) c1 else c1.

Lemma exec_CSR_stored f3 o src n : csr_of inst rd f3 rs1 = Some (Csr o rd src n) ->
  let v := csr_operand c src in
  (n =? 0x7C0) || (n =? 0x7C1) || (n =? 0x7C2) || (n =? 0x7C3) = false ->
  CSR_RO n && (bool_decide (o = CSRRW) || negb (v =? 0)) = false ->
  exec_CSR inst rd f3 rs1 c = (Ok tt, write_back (Some (rd, cv c n)) (csr_stored o n v)).
Proof.
  intros Hf v Ht Hro. apply csr_of_form in Hf as (_ & -> & imm & Hf & ->).
  rewrite !orb_false_iff in Ht. destruct Ht as (((H0 & H1) & H2) & H3).
  pose proof (field_range inst 20 12 ltac:(lia)) as Hn. simpl in Hn.
  unfold exec_CSR. rewrite csr_number. set (n := field inst 20 12) in *. clearbody n.
  pose proof (wf_csrs_len c Hc) as Hl. pose proof (wf_regs_len c Hc) as Hlr.
  assert ((if f3 <? 5 then reg rs1 else ret rs1) c = (Ok v, c)) as Hop.
  { unfold v, csr_form in *. repeat case_match; simplify_eq/=; try done; by rewrite reg_eq. }
  unfold bind at 1. rewrite csr_eq by (done || lia). unfold bind at 1. rewrite Hop.
  clearbody v. clear Hop.
  assert ((f3 =? 1) || (f3 =? 5) = bool_decide (o = CSRRW)) as Erw
    by (unfold csr_form in Hf; repeat case_match; by simplify_eq/=).
  rewrite Erw, Hro, H0, H1, H2, H3. cbn [orb]. unfold csr_result. rewrite H0, H1, H2, H3.
  unfold bind at 1. change (@ret cpu unit tt c) with (@Ok unit tt, c). cbv beta iota.
  match goal with |- bind ?m ?k c = _ =>
    assert (m c = (Ok tt, csr_put o n v)) as Hw end.
  { unfold csr_put. rewrite Z.ldiff_land, <- !negb_orb. clear Hro Erw. destruct ((v =? 0) || CSR_NOWRITE n).
    all: unfold csr_form in Hf; repeat case_match; simplify_eq/=; try done;
      unfold bind, ret; rewrite ?set_csr_eq by (done || lia); done. }
  unfold bind at 1. rewrite Hw. unfold csr_stored. set (c1 := csr_put o n v).
  assert (registers c1 = registers c /\ py_len (csrs c1) = 4096) as [Er El].
  { unfold c1, csr_put. repeat case_match; rewrite ?wc_len; done. }
  clearbody c1. cbv zeta.
  assert ((if n =? 0x300 then mstatus <- csr 0x300 ;; set_csr 0x300 (Z.lor mstatus 0x00001800)
           else ret tt) c1 =
    (Ok tt, if n =? 0x300 then wc 0x300 (Z.lor (cv c1 0x300) 0x1800) c1 else c1)) as Hm.
  { destruct (n =? 0x300); [|done]. unfold bind.
    by rewrite csr_eq, set_csr_eq by (done || lia). }
  unfold bind at 1. rewrite Hm. rewrite <- csr_write_rd; [|by destruct (n =? 0x300); rewrite <- Hlr, <- Er|done].
  by destruct (negb (rd =? 0)).
Qed.

Lemma exec_CSR_plain f3 o src n : csr_of inst rd f3 rs1 = Some (Csr o rd src n) ->
  plain_csr n = true ->
  exec_CSR inst rd f3 rs1 c =
    (Ok tt, write_back (Some (rd, cv c n)) (csr_write o n (csr_operand c src) c)).
Proof.
  intros Hf Hp. unfold plain_csr in Hp. apply negb_true_iff in Hp. rewrite !orb_false_iff in Hp.
  destruct Hp as (((((((Hro & Hnw) & H300) & H305) & H0) & H1) & H2) & H3).
  rewrite (exec_CSR_stored _ _ _ _ Hf) by by rewrite ?H0, ?H1, ?H2, ?H3, ?Hro.
  unfold csr_stored, csr_put, csr_write. rewrite H300, H305, Hnw.
  by destruct o; rewrite ?orb_false_r.
Qed.

(** A write to a read-only CSR with a trap handler installed. *)
Lemma exec_CSR_ro n v : field inst 20 12 = n -> CSR_RO n = true -> v = rv c rs1 ->
  cv c 0x305 <> 0 -> u32 inst ->
  exec_CSR inst rd 1 rs1 c =
    (Ok tt, write_back (Some (rd, cv c n)) (wc n v (trapped 2 inst true c))).
Proof.
  intros Hn Hro -> Hv Hi. pose proof (field_range inst 20 12 ltac:(lia)) as Hr. simpl in Hr.
  pose proof (wf_csrs_len c Hc) as Hl. pose proof (wf_regs_len c Hc) as Hlr.
  unfold exec_CSR. rewrite csr_number, Hn. unfold bind at 1. rewrite csr_eq by (done || lia).
  unfold bind at 1. cbn [Z.ltb Z.compare Pos.compare Pos.compare_cont].
  rewrite reg_eq by done. cbn [Z.eqb Pos.eqb orb]. rewrite Hro. cbn [andb orb].
  unfold bind at 1, illegal. rewrite trap_eq, (proj2 (Z.eqb_neq _ _) Hv) by done.
  assert (n = 0xF11 \/ n = 0xF12 \/ n = 0xF13 \/ n = 0xF14) as Hcase.
  { unfold CSR_RO in Hro. rewrite !orb_true_iff, !Z.eqb_eq in Hro. tauto. }
  assert (wf_cpu (trapped 2 inst true c)) as Hwf by (apply trapped_wf; auto with words).
  assert (set_csr n (rv c rs1) (trapped 2 inst true c) =
          (Ok tt, wc n (rv c rs1) (trapped 2 inst true c))) as Hset
    by (apply set_csr_eq; [by apply wf_csrs_len|lia]).
  rewrite <- csr_write_rd by done. unfold bind, ret.
  destruct Hcase as [->|[->|[->| ->]]]; cbn [Z.eqb Pos.eqb orb andb CSR_NOWRITE negb];
    rewrite Hset; by destruct (negb (rd =? 0)).
Qed.
End Csr.

(** CSRRW, CSRRS and CSRRC, with a register or an immediate operand, return
    the old value of the CSR (dropped for x0) and write, set or clear its bits;
    set and clear with a zero operand do not write.  This is the behaviour of
    every CSR that has none of its own: all but the read-only and the
    write-ignoring ones, mstatus, mtvec and the timer. *)
Theorem csr_instructions (c : cpu) (inst rd f3 rs1 : Z) (o : cop) (src : csrc) (n : Z)
  (Hc : wf_cpu c) (Hrd : 0 <= rd < 32) (Hrs : 0 <= rs1 < 32)
  (Hf : csr_of inst rd f3 rs1 = Some (Csr o rd src n)) (Hp : plain_csr n = true) :
  exec_CSR inst rd f3 rs1 c =
    (Ok tt, write_back (Some (rd, cv c n)) (csr_write o n (csr_operand c src) c)).
Proof. by eapply exec_CSR_plain. Qed.

(** A write to a read-only CSR traps as an illegal instruction, but the
    handler goes on: the CSR takes the new value although the instruction has
    trapped. *)
Theorem readonly_csr_is_written (c : cpu) (inst rd rs1 : Z)
  (Hc : wf_cpu c) (Hrd : 0 <= rd < 32) (Hrs : 0 <= rs1 < 32) (Hi : u32 inst)
  (Hro : CSR_RO (field inst 20 12) = true) (Hv : cv c 0x305 <> 0) :
  exists c', exec_CSR inst rd 1 rs1 c = (Ok tt, c') /\
    next_pc c' = Z.land (cv c 0x305) (Z.lnot 3) /\ cv c' 0x342 = 2 /\
    cv c' (field inst 20 12) = rv c rs1.
Proof.
  rewrite (exec_CSR_ro c inst rd rs1 Hc Hrd Hrs _ _ eq_refl Hro eq_refl Hv Hi).
  eexists. split; [done|].
  assert (wf_cpu (trapped 2 inst true c)) as Hwf by (apply trapped_wf; auto with words).
  pose proof (wf_csrs_len _ Hwf) as Hl. pose proof (field_range inst 20 12 ltac:(lia)) as Hr.
  set (c1 := wc _ _ _).
  assert (forall m, cv (write_back (Some (rd, cv c (field inst 20 12))) c1) m = cv c1 m) as Hwb
    by (intros m; simpl; by destruct (rd =? 0)).
  assert (field inst 20 12 <> 0x342) as Hne.
  { unfold CSR_RO in Hro. rewrite !orb_true_iff, !Z.eqb_eq in Hro. lia. }
  split_and!.
  - simpl. by destruct (rd =? 0).
  - rewrite Hwb. unfold c1. rewrite cv_wc by (done || lia).
    rewrite (proj2 (Z.eqb_neq _ _) Hne). by rewrite trapped_cv.
  - rewrite Hwb. unfold c1. rewrite cv_wc by (done || lia). by rewrite Z.eqb_refl.
Qed.

(** Writing both halves of mtimecmp through the CSRs sets the CPU's flag but
    not the MTIP bit of mip, so that the next tick sees nothing to change: with
    mtimecmp lowered to 0 the timer is due and mip still says that no timer
    interrupt is pending.  The two instructions are csrrwi mtimecmp_lo, 0 and
    csrrwi mtimecmp_hi, 0 on a new CPU. *)
Theorem csr_mtimecmp_leaves_mip_stale :
  match (exec_CSR 0x7C205073 0 5 0 ;;; exec_CSR 0x7C305073 0 5 0 ;;; timer_update)
          (new_cpu false) with
  | (Ok _, c) => mtimecmp c = 0 /\ mtip c = true /\ Z.testbit (cv c 0x344) 7 = false
  | (Exn _, _) => False
  end.
Proof. vm_compute. done. Qed.
