(* ===== verification/IsaMachine.v ===== *)
(** * A reference machine for RV32IMAC

    An abstract machine written from the unprivileged and the machine-mode part of the
    privileged ISA manual: a hart with registers, CSRs, a byte memory, a reservation
    and a timer, a fetch of one 16- or 32-bit instruction and its effect.  It has no
    cache, no list and no mask of the emulator, and models no code: it is what the
    execution loops of machine.py are refined against in IsaRefine.v.

    What the ISA leaves to the platform is a parameter ([platform]) or fixed here in a way
    the ISA allows: only machine mode, a direct trap vector, misaligned loads and stores in
    hardware, a reservation that any store ends, a failed SC that returns 1, mtval with the
    bits of an illegal instruction, reserved encodings as illegal instructions.  Two things
    are conventions of the execution environment: the program ends when a trap finds no
    handler (mtvec zero), and when it leaves the memory, where hardware would raise an
    access fault.

    What the ISA does not define, or the emulator does differently, has the result
    [Unspecified]: system calls taken by the host, semihosting codes, the timer CSRs,
    encodings of the C extension where it is disabled, hints and custom encodings of the C
    extension that the emulator rejects, reserved encodings of atomics, a misaligned LR, a
    SC to another address than the one reserved, CSRs that the platform does not have or
    that would have to count, writes to read-only CSRs, values that a CSR of this platform
    cannot hold, a return to such a value of mepc, and a wrapping mtime. *)

From Stdlib Require Import ZArith Lia Bool.
From stdpp Require Import base numbers option.
From S2P Require Import Prelude Isa Rvc.

Local Open Scope Z_scope.

(** ** State *)

Record platform := mkPlatform {
  p_size : Z;            (** bytes of memory, from address 0 *)
  p_rvc : bool;          (** compressed instructions *)
  p_wide : bool;         (** a fetch always reads a whole word *)
  p_timer : bool         (** mtime counts instructions *)
}.

(** The alignment of instructions. *)
Definition isa_align (p : platform) : Z := if p_rvc p then 2 else 4.

Record hart := mkHart {
  x : Z -> Z;
  hpc : Z;
  hcsr : Z -> Z;
  hmem : Z -> Z;
  reserved : option Z;
  htime : Z;
  htimecmp : Z
}.

Definition fupd (f : Z -> Z) (i v : Z) : Z -> Z := fun j => if i =? j then v else f j.

Definition set_x (i v : Z) (h : hart) : hart :=
  mkHart (fupd (x h) i v) (hpc h) (hcsr h) (hmem h) (reserved h) (htime h) (htimecmp h).
Definition set_hpc (p : Z) (h : hart) : hart :=
  mkHart (x h) p (hcsr h) (hmem h) (reserved h) (htime h) (htimecmp h).
Definition set_hcsr (n v : Z) (h : hart) : hart :=
  mkHart (x h) (hpc h) (fupd (hcsr h) n v) (hmem h) (reserved h) (htime h) (htimecmp h).
Definition set_hmem (m : Z -> Z) (h : hart) : hart :=
  mkHart (x h) (hpc h) (hcsr h) m (reserved h) (htime h) (htimecmp h).
Definition set_reserved (o : option Z) (h : hart) : hart :=
  mkHart (x h) (hpc h) (hcsr h) (hmem h) o (htime h) (htimecmp h).
Definition set_htime (t : Z) (h : hart) : hart :=
  mkHart (x h) (hpc h) (hcsr h) (hmem h) (reserved h) t (htimecmp h).

(** A register write; x0 is not writable. *)
Definition retire (wb : option (Z * Z)) (h : hart) : hart :=
  match wb with
  | Some (rd, v) => if rd =? 0 then h else set_x rd v h
  | None => h
  end.

(** Why the machine stops: an access outside the memory, a trap while mtvec is zero
    ([at_pc] is the instruction), a breakpoint while mtvec is zero. *)
Inductive stop_cause :=
| AccessFault (addr : Z)
| NoHandler (at_pc cause : Z)
| Breakpoint (at_pc : Z).

Inductive result :=
| Running (h : hart)
| Stopped (s : stop_cause) (h : hart)
| Unspecified.

(** ** Memory *)

(** [n] bytes from [a], little end first. *)
Fixpoint read_le (m : Z -> Z) (a : Z) (n : nat) : Z :=
  match n with O => 0 | S n' => m a + 256 * read_le m (a + 1) n' end.

Definition write_le (m : Z -> Z) (a n v : Z) : Z -> Z :=
  fun b => if (a <=? b) && (b <? a + n) then (v / 2 ^ (8 * (b - a))) mod 256 else m b.

Definition load_size (o : lop) : Z := match o with LB | LBU => 1 | LH | LHU => 2 | LW => 4 end.
Definition store_size (o : sop) : Z := match o with SB => 1 | SH => 2 | SW => 4 end.

Definition load_value (o : lop) (m : Z -> Z) (a : Z) : Z :=
  match o with
  | LB => wrap (sext 8 (read_le m a 1))
  | LH => wrap (sext 16 (read_le m a 2))
  | LW => read_le m a 4
  | LBU => read_le m a 1
  | LHU => read_le m a 2
  end.

(** The word an atomic stores, from the old word and the operand. *)
Definition amo_value (o : aop) (old b : Z) : Z :=
  match o with
  | AMOADD => wrap (old + b)
  | AMOXOR => Z.lxor old b
  | AMOAND => Z.land old b
  | AMOOR => Z.lor old b
  | AMOMIN => if sint old <=? sint b then old else b
  | AMOMAX => if sint b <=? sint old then old else b
  | AMOMINU => Z.min old b
  | AMOMAXU => Z.max old b
  | LR | SC | AMOSWAP => b
  end.

(** ** Traps *)

Definition with_bit (m k : Z) (b : bool) : Z := if b then Z.setbit m k else Z.clearbit m k.

Definition MSTATUS : Z := 0x300.
Definition MTVEC : Z := 0x305.
Definition MIE : Z := 0x304.
Definition MEPC : Z := 0x341.
Definition MCAUSE : Z := 0x342.
Definition MTVAL : Z := 0x343.
Definition MIP : Z := 0x344.

(** Trap entry: MPIE takes MIE, MIE is cleared. *)
Definition status_enter (m : Z) : Z := with_bit (with_bit m 7 (Z.testbit m 3)) 3 false.

(** MRET: MIE takes MPIE, MPIE is set. *)
Definition status_return (m : Z) : Z := with_bit (with_bit m 3 (Z.testbit m 7)) 7 true.

Definition record_trap (cause tval epc : Z) (h : hart) : hart :=
  set_hcsr MTVAL tval (set_hcsr MCAUSE cause (set_hcsr MEPC epc h)).

(** A trap that the environment takes and returns from at once. *)
Definition noted (cause : Z) (h : hart) : hart :=
  set_hcsr MSTATUS (Z.setbit (hcsr h MSTATUS) 7) (record_trap cause 0 (hpc h) h).

Definition enter (cause tval epc : Z) (h : hart) : hart :=
  set_hpc (hcsr h MTVEC - hcsr h MTVEC mod 4)
    (set_hcsr MSTATUS (status_enter (hcsr h MSTATUS)) (record_trap cause tval epc h)).

(** [at_pc] is the instruction that is blamed when there is no handler. *)
Definition take_trap (cause tval epc at_pc : Z) (h : hart) : result :=
  if hcsr h MTVEC =? 0 then Stopped (NoHandler at_pc cause) h
  else Running (enter cause tval epc h).

Definition exception (cause tval : Z) (h : hart) : result :=
  take_trap cause tval (hpc h) (hpc h) h.

(** ** CSR instructions *)

Definition MISA : Z := 0x301.
Definition MSCRATCH : Z := 0x340.

(** RV32 with the extensions I, M and A, and C where it is enabled. *)
Definition misa_value (p : platform) : Z := 0x40001101 + (if p_rvc p then 4 else 0).

(** mvendorid, marchid, mimpid and mhartid. *)
Definition read_only_csr (n : Z) : bool :=
  (n =? 0xF11) || (n =? 0xF12) || (n =? 0xF13) || (n =? 0xF14).

(** tselect, tdata1 and tdata2, which are zero when there are no triggers. *)
Definition trigger_csr (n : Z) : bool := (n =? 0x7A0) || (n =? 0x7A1) || (n =? 0x7A2).

(** The CSRs of the platform and the values they can hold.  Machine mode is the only mode:
    mstatus has MIE, MPIE and the constant MPP, and there are no bits of another mode in mie
    and mip; mtvec is in direct mode; mepc is the address of an instruction; the timer is
    the only source of interrupts. *)
Definition csr_holds (p : platform) (n v : Z) : bool :=
  if n =? MSTATUS then Z.ldiff v 0x88 =? 0x1800
  else if n =? MISA then v =? misa_value p
  else if n =? MIE then Z.land v 0xF777 =? 0
  else if n =? MTVEC then v mod 4 =? 0
  else if n =? MEPC then v mod isa_align p =? 0
  else if n =? MIP then Z.ldiff v 0x80 =? 0
  else if trigger_csr n then v =? 0
  else (n =? MSCRATCH) || (n =? MCAUSE) || (n =? MTVAL) || read_only_csr n.

Definition operand (h : hart) (src : csrc) : Z :=
  match src with CReg r => x h r | CImm u => u end.

(** The instruction does not write: set or clear with x0 or a zero immediate. *)
Definition only_reads (o : cop) (src : csrc) : bool :=
  match o, src with CSRRW, _ => false | _, CReg r => r =? 0 | _, CImm u => u =? 0 end.

Definition csr_update (o : cop) (old v : Z) : Z :=
  match o with CSRRW => v | CSRRS => Z.lor old v | CSRRC => Z.ldiff old v end.

(** What the CSR takes of a value: misa and the trigger registers ignore writes, MPP stays
    machine mode, a new mtvec is in direct mode.  The bits of mip cannot be changed by
    software. *)
Definition csr_takes (o : cop) (src : csrc) (n old v : Z) : option Z :=
  let new := csr_update o old v in
  if read_only_csr n then if only_reads o src then Some old else None
  else if (n =? MISA) || trigger_csr n then Some old
  else if n =? MSTATUS then Some (Z.lor new 0x1800)
  else if n =? MTVEC then match o with CSRRW => Some (v - v mod 4) | _ => Some new end
  else if n =? MIP then if new =? old then Some old else None
  else Some new.

(** The value of the CSR afterwards, between values that it can hold. *)
Definition csr_value (p : platform) (o : cop) (src : csrc) (n old v : Z) : option Z :=
  match csr_takes o src n old v with
  | Some new => if csr_holds p n old && csr_holds p n new then Some new else None
  | None => None
  end.

(** ** One instruction *)

Section Step.
Variable p : platform.

Definition in_mem (a n : Z) : bool := (0 <=? a) && (a + n <=? p_size p).

Definition finish (wb : option (Z * Z)) (len : Z) (h : hart) : result :=
  Running (set_hpc (wrap (hpc h + len)) (retire wb h)).

Definition exec_amo (o : aop) (rd rs1 rs2 len : Z) (h : hart) : result :=
  let a := x h rs1 in
  if negb (a mod 4 =? 0) then match o with LR => Unspecified | _ => exception 6 a h end
  else match o with
  | LR =>
      if in_mem a 4
      then finish (Some (rd, read_le (hmem h) a 4)) len (set_reserved (Some a) h)
      else Stopped (AccessFault a) h
  | SC =>
      (* a SC ends the reservation, whether it succeeds or fails *)
      match reserved h with
      | Some b =>
          if negb (b =? a) then Unspecified
          else if in_mem a 4
          then finish (Some (rd, 0)) len
                 (set_reserved None (set_hmem (write_le (hmem h) a 4 (x h rs2)) h))
          else Stopped (AccessFault a) h
      | None => finish (Some (rd, 1)) len h
      end
  | _ =>
      if in_mem a 4
      then let old := read_le (hmem h) a 4 in
           finish (Some (rd, old)) len
             (set_reserved None (set_hmem (write_le (hmem h) a 4 (amo_value o old (x h rs2))) h))
      else Stopped (AccessFault a) h
  end.

Definition exec_instr (i : instr) (len : Z) (h : hart) : result :=
  match sem (x h) (hpc h) len (isa_align p) i with
  | Some (Retire wb npc) => Running (set_hpc npc (retire wb h))
  | Some (Except cause tval) => exception cause tval h
  | None =>
      match i with
      | Load o rd rs1 off =>
          let a := wrap (x h rs1 + off) in
          if in_mem a (load_size o)
          then finish (Some (rd, load_value o (hmem h) a)) len h
          else Stopped (AccessFault a) h
      | Store o rs1 rs2 off =>
          let a := wrap (x h rs1 + off) in
          if in_mem a (store_size o)
          then finish None len
                 (set_reserved None (set_hmem (write_le (hmem h) a (store_size o) (x h rs2)) h))
          else Stopped (AccessFault a) h
      | Amo o rd rs1 rs2 => exec_amo o rd rs1 rs2 len h
      | Csr o rd src n =>
          match csr_value p o src n (hcsr h n) (operand h src) with
          | Some v => finish (Some (rd, hcsr h n)) len (set_hcsr n v h)
          | None => Unspecified
          end
      | Ecall => if hcsr h MTVEC =? 0 then Unspecified else exception 11 0 h
      | Ebreak =>
          if 0xFFFF0000 <=? x h 17 then Unspecified
          else if hcsr h MTVEC =? 0
          then Stopped (Breakpoint (hpc h)) (noted 3 h)
          else exception 3 0 h
      | Mret =>
          if hcsr h MEPC mod isa_align p =? 0
          then Running (set_hpc (hcsr h MEPC)
                 (set_hcsr MSTATUS (status_return (hcsr h MSTATUS)) h))
          else Unspecified
      | _ => Unspecified
      end
  end.

(** The bits of the instruction at the pc, or the address that cannot be fetched. *)
Definition fetch (h : hart) : Z + Z :=
  let a := hpc h in
  if p_wide p then if in_mem a 4 then inr (read_le (hmem h) a 4) else inl a
  else if in_mem a 2 then
    if read_le (hmem h) a 2 mod 4 =? 3
    then if in_mem a 4 then inr (read_le (hmem h) a 4) else inl (a + 2)
    else inr (read_le (hmem h) a 2)
  else inl a.

(** The encodings of 32-bit atomics that are reserved. *)
Definition reserved_amo (bits : Z) : bool := (field bits 0 7 =? 0x2F) && (field bits 12 3 =? 2).

(** Compressed encodings that the manual gives to hints (C.LUI, C.SLLI and C.MV with
    destination x0, shifts by zero) or to custom extensions (shifts by 32 and more). *)
Definition rvc_open (k : Z) : bool :=
  let rd := field k 7 5 in
  let odd_shift := (field k 12 1 =? 1) || (shamt_CI k =? 0) in
  match field k 0 2, field k 13 3 with
  | 1, 3 => (rd =? 0) && negb (imm_CI k =? 0)
  | 1, 4 => (field k 10 2 <=? 1) && odd_shift
  | 2, 0 => (rd =? 0) || odd_shift
  | 2, 4 => (field k 12 1 =? 0) && (rd =? 0) && negb (field k 2 5 =? 0)
  | _, _ => false
  end.

Definition exec_bits (bits : Z) (h : hart) : result :=
  if bits mod 4 =? 3 then
    match decode bits with
    | Some i => exec_instr i 4 h
    | None => if reserved_amo bits then Unspecified else exception 2 bits h
    end
  else if p_rvc p then
    let k := bits mod 2 ^ 16 in
    match rvc_spec k with
    | Some i => exec_instr i 2 h
    | None => if rvc_open k then Unspecified else exception 2 k h
    end
  else Unspecified.

(** The timer counts, shows in MTIP whether it is due, and interrupts when that is
    enabled.  [at_pc] is the instruction that has just been executed. *)
Definition count (h : hart) : hart :=
  let due := htimecmp h <=? htime h in
  set_hcsr MIP (with_bit (hcsr h MIP) 7 due) (set_htime (htime h + 1) h).

Definition timer_tick (at_pc : Z) (h : hart) : result :=
  if 2 ^ 64 <=? htime h + 1 then Unspecified
  else if (htimecmp h <=? htime h) && Z.testbit (hcsr h MSTATUS) 3 && Z.testbit (hcsr h MIE) 7
  then take_trap 0x80000007 0 (hpc h) at_pc (count h)
  else Running (count h).

Definition isa_step (h : hart) : result :=
  match fetch h with
  | inl a => Stopped (AccessFault a) h
  | inr bits =>
      match exec_bits bits h with
      | Running h' => if p_timer p then timer_tick (hpc h) h' else Running h'
      | r => r
      end
  end.

Fixpoint isa_run (n : nat) (h : hart) : result :=
  match n with
  | O => Running h
  | S n' => match isa_step h with Running h' => isa_run n' h' | r => r end
  end.
End Step.
