(* ===== verification/Board.v ===== *)
(** * A reference board: the hart and its devices

    The reference machine of IsaMachine.v on a board with a serial line, a block drive and
    the timer registers of the platform, each behind 32-bit registers at its addresses.  A
    word load or store of the hart at an address of a device is an access to the device;
    everything else is the hart on its memory.  The devices are written as what they are for
    the program: a queue of received bytes and a list of sent ones, an array of blocks that
    is moved to and from the memory, a 64-bit counter and its limit in halves.  As
    IsaMachine.v, the file models no code: the loop with peripherals is refined against it in
    BoardRefine.v. *)

From Stdlib Require Import ZArith Lia Bool.
From stdpp Require Import base numbers list option.
From S2P Require Import Prelude Isa Ram Rvc IsaMachine.

Local Open Scope Z_scope.

(** ** Devices *)

(** The line: the bytes that have arrived, what arrives at the next times the line is looked
    at ([None]: the line fails), what becomes of the next bytes sent, and the bytes that have
    been sent. *)
Inductive sending := Sent | Lost | Failed.

Record serial := mkSerial {
  sr_queue : list Z;
  sr_host : list (option (list Z));
  sr_room : list sending;
  sr_sent : list Z
}.

(** The drive: its three registers, its blocks, and how the next transfers end: [None] well,
    [Some n] with a failure after [n] bytes have been written. *)
Record drive := mkDrive {
  dk_cmd : Z;
  dk_blk : Z;
  dk_ptr : Z;
  dk_blocks : Z -> list Z;
  dk_host : list (option nat)
}.

(** The halves of mtime that have been written while the other one has not. *)
Record halves := mkHalves { half_lo : option Z; half_hi : option Z }.

(** The board; [rounds] counts the instructions since the line was looked at. *)
Record soc := mkSoc {
  core : hart;
  line : serial;
  disk : drive;
  pending : halves;
  rounds : Z
}.

Definition with_core (h : hart) (s : soc) : soc := mkSoc h (line s) (disk s) (pending s) (rounds s).
Definition with_line (l : serial) (s : soc) : soc := mkSoc (core s) l (disk s) (pending s) (rounds s).
Definition with_disk (d : drive) (s : soc) : soc := mkSoc (core s) (line s) d (pending s) (rounds s).
Definition with_pending (t : halves) (s : soc) : soc := mkSoc (core s) (line s) (disk s) t (rounds s).
Definition with_rounds (k : Z) (s : soc) : soc := mkSoc (core s) (line s) (disk s) (pending s) k.

(** Where the devices are, the geometry of the drive, and which devices are looked at every
    256 instructions. *)
Record board := mkBoard {
  bd_map : Z -> option periph;
  bd_line : Z;
  bd_drive : Z;
  bd_bsize : Z;
  bd_blocks : Z;
  bd_polled : list periph
}.

(** Why the board stops: the hart does, an address of a device is not one of its registers,
    the line or the drive fails. *)
Inductive board_stop :=
| CoreStop (s : stop_cause)
| BadRegister (addr : Z)
| LineFailure
| DriveFailure.

Inductive board_result :=
| Going (s : soc)
| Halted (c : board_stop) (s : soc)
| Open.

(** The result of a device register: a value for a load, nothing for a store. *)
Abbreviation access A := ((A + board_stop) * soc)%type.

Section Board.
Variables (p : platform) (b : board).

(** *** The line *)

Definition line_poll (l : serial) : bool * serial :=
  match sr_host l with
  | [] => (true, l)
  | Some data :: rest => (true, mkSerial (sr_queue l ++ data) rest (sr_room l) (sr_sent l))
  | None :: rest => (false, mkSerial (sr_queue l) rest (sr_room l) (sr_sent l))
  end.

(** The receive register holds the oldest byte, or bit 31 when there is none. *)
Definition line_load (a : Z) (s : soc) : access Z :=
  if a =? bd_line b + 4 then
    let '(ok, l) := line_poll (line s) in
    if ok : bool then
      match sr_queue l with
      | c :: q => (inl c, with_line (mkSerial q (sr_host l) (sr_room l) (sr_sent l)) s)
      | [] => (inl (2 ^ 31), with_line l s)
      end
    else (inr LineFailure, with_line l s)
  else if a =? bd_line b then (inl 0, s)
  else (inr (BadRegister a), s).

Definition transmit (c : Z) (l : serial) : bool * serial :=
  match sr_room l with
  | [] => (true, mkSerial (sr_queue l) (sr_host l) [] (sr_sent l ++ [c]))
  | Sent :: rest => (true, mkSerial (sr_queue l) (sr_host l) rest (sr_sent l ++ [c]))
  | Lost :: rest => (true, mkSerial (sr_queue l) (sr_host l) rest (sr_sent l))
  | Failed :: rest => (false, mkSerial (sr_queue l) (sr_host l) rest (sr_sent l))
  end.

Definition line_store (a v : Z) (s : soc) : access unit :=
  if a =? bd_line b then
    let '(ok, l) := transmit (v mod 256) (line s) in
    ((if ok : bool then inl tt else inr LineFailure), with_line l s)
  else (inr (BadRegister a), s).

(** *** The drive *)

(** The memory with a block at [a], and [n] bytes of a memory. *)
Definition overlay (m : Z -> Z) (a : Z) (data : list Z) : Z -> Z :=
  fun x => if (a <=? x) && (x <? a + py_len data)
           then default 0 (data !! Z.to_nat (x - a)) else m x.

Definition bytes_of (m : Z -> Z) (a n : Z) : list Z := (fun i => m (a + i)) <$> seqZ 0 n.

(** How the next transfer ends, and the drive after that. *)
Definition drive_end (d : drive) : option nat * drive :=
  match dk_host d with
  | [] => (None, d)
  | e :: rest => (e, mkDrive (dk_cmd d) (dk_blk d) (dk_ptr d) (dk_blocks d) rest)
  end.

(** The drive with new content of the addressed block. *)
Definition put_block (data : list Z) (d : drive) : drive :=
  mkDrive (dk_cmd d) (dk_blk d) (dk_ptr d)
    (fun k => if dk_blk d =? k then data else dk_blocks d k) (dk_host d).

(** The addressed block is moved to the memory. *)
Definition fill (s : soc) : access unit :=
  let '(fails, d) := drive_end (disk s) in
  match fails with
  | Some _ => (inr DriveFailure, with_disk d s)
  | None =>
      if in_mem p (dk_ptr d) (bd_bsize b)
      then (inl tt, with_core (set_hmem (overlay (hmem (core s)) (dk_ptr d) (dk_blocks d (dk_blk d)))
                                 (core s)) (with_disk d s))
      else (inr (CoreStop (AccessFault (dk_ptr d))), with_disk d s)
  end.

(** The memory is moved to the addressed block, of which only the beginning has changed when
    the drive fails. *)
Definition drain (s : soc) : access unit :=
  if in_mem p (dk_ptr (disk s)) (bd_bsize b) then
    let '(fails, d) := drive_end (disk s) in
    let data := bytes_of (hmem (core s)) (dk_ptr d) (bd_bsize b) in
    match fails with
    | None => (inl tt, with_disk (put_block data d) s)
    | Some n => (inr DriveFailure,
                 with_disk (put_block (take n data ++ drop n (dk_blocks d (dk_blk d))) d) s)
    end
  else (inr (CoreStop (AccessFault (dk_ptr (disk s)))), s).

(** Command 0 moves the addressed block to the memory, command 1 the other way; a block that
    does not exist and another command do nothing. *)
Definition transfer (s : soc) : access unit :=
  let d := disk s in
  if bd_blocks b <=? dk_blk d then (inl tt, s)
  else if dk_cmd d =? 0 then fill s
  else if dk_cmd d =? 1 then drain s
  else (inl tt, s).

(** Registers: command, block, address, start, status (always ready). *)
Definition drive_load (a : Z) (s : soc) : access Z :=
  let d := disk s in
  let off := a - bd_drive b in
  if off =? 0 then (inl (dk_cmd d), s)
  else if off =? 4 then (inl (dk_blk d), s)
  else if off =? 8 then (inl (dk_ptr d), s)
  else if off =? 12 then (inl 0, s)
  else if off =? 16 then (inl 1, s)
  else (inr (BadRegister a), s).

Definition drive_store (a v : Z) (s : soc) : access unit :=
  let d := disk s in
  let off := a - bd_drive b in
  if off =? 0 then (inl tt, with_disk (mkDrive v (dk_blk d) (dk_ptr d) (dk_blocks d) (dk_host d)) s)
  else if off =? 4 then (inl tt, with_disk (mkDrive (dk_cmd d) v (dk_ptr d) (dk_blocks d) (dk_host d)) s)
  else if off =? 8 then (inl tt, with_disk (mkDrive (dk_cmd d) (dk_blk d) v (dk_blocks d) (dk_host d)) s)
  else if off =? 12 then if v =? 1 then transfer s else (inl tt, s)
  else (inr (BadRegister a), s).

(** *** The timer *)

Definition set_htimecmp (t : Z) (h : hart) : hart :=
  mkHart (x h) (hpc h) (hcsr h) (hmem h) (reserved h) (htime h) t.

Definition clint_load (a : Z) (s : soc) : access Z :=
  let h := core s in
  if a =? 0x0200BFF8 then (inl (htime h mod 2 ^ 32), s)
  else if a =? 0x0200BFFC then (inl (htime h / 2 ^ 32), s)
  else if a =? 0x02004000 then (inl (htimecmp h mod 2 ^ 32), s)
  else if a =? 0x02004004 then (inl (htimecmp h / 2 ^ 32), s)
  else (inr (BadRegister a), s).

(** mtime changes when both halves have been written. *)
Definition commit_time (s : soc) : soc :=
  match half_lo (pending s), half_hi (pending s) with
  | Some lo, Some hi =>
      with_pending (mkHalves None None) (with_core (set_htime (hi * 2 ^ 32 + lo) (core s)) s)
  | _, _ => s
  end.

Definition clint_store (a v : Z) (s : soc) : access unit :=
  let cmp := htimecmp (core s) in
  let set_cmp t := (inl tt, commit_time (with_core (set_htimecmp t (core s)) s)) in
  if a =? 0x02004000 then set_cmp (cmp / 2 ^ 32 * 2 ^ 32 + v)
  else if a =? 0x02004004 then set_cmp (v * 2 ^ 32 + cmp mod 2 ^ 32)
  else if a =? 0x0200BFF8
  then (inl tt, commit_time (with_pending (mkHalves (Some v) (half_hi (pending s))) s))
  else if a =? 0x0200BFFC
  then (inl tt, commit_time (with_pending (mkHalves (half_lo (pending s)) (Some v)) s))
  else (inr (BadRegister a), s).

Definition dev_load (d : periph) : Z -> soc -> access Z :=
  match d with PtyUART => line_load | MMIOBlockDevice => drive_load | MMIOTimer => clint_load end.

Definition dev_store (d : periph) : Z -> Z -> soc -> access unit :=
  match d with PtyUART => line_store | MMIOBlockDevice => drive_store | MMIOTimer => clint_store end.

(** ** The bus *)

(** The instruction and its length. *)
Definition instr_of (bits : Z) : option (instr * Z) :=
  if bits mod 4 =? 3 then i ← decode bits; Some (i, 4)
  else if p_rvc p then i ← rvc_spec (bits mod 2 ^ 16); Some (i, 2)
  else None.

Inductive bus_op :=
| BusLoad (d : periph) (a rd len : Z)
| BusStore (d : periph) (a v len : Z).

(** The access to a device that the instruction at the pc is, if it is one. *)
Definition bus_access (h : hart) : option bus_op :=
  match fetch p h with
  | inl _ => None
  | inr bits =>
      match instr_of bits with
      | Some (Load LW rd rs1 off, len) =>
          let a := wrap (x h rs1 + off) in
          d ← bd_map b a; Some (BusLoad d a rd len)
      | Some (Store SW rs1 rs2 off, len) =>
          let a := wrap (x h rs1 + off) in
          d ← bd_map b a; Some (BusStore d a (x h rs2) len)
      | _ => None
      end
  end.

(** The instruction completes. *)
Definition next (wb : option (Z * Z)) (len : Z) (h : hart) : hart :=
  set_hpc (wrap (hpc h + len)) (retire wb h).

Definition bus_step (op : bus_op) (s : soc) : board_result :=
  match op with
  | BusLoad d a rd len =>
      match dev_load d a s with
      | (inl v, s') => Going (with_core (next (Some (rd, wrap v)) len (core s')) s')
      | (inr c, s') => Halted c s'
      end
  | BusStore d a v len =>
      match dev_store d a v s with
      | (inl _, s') => Going (with_core (next None len (set_reserved None (core s'))) s')
      | (inr c, s') => Halted c s'
      end
  end.

(** ** Rounds *)

(** The line is looked at every 256 instructions. *)
Fixpoint poll_all (l : list periph) (s : soc) : board_result :=
  match l with
  | [] => Going (with_rounds 0 s)
  | PtyUART :: l' =>
      let '(ok, u) := line_poll (line s) in
      if ok : bool then poll_all l' (with_line u s) else Halted LineFailure (with_line u s)
  | _ :: l' => poll_all l' s
  end.

Definition end_round (s : soc) : board_result :=
  if rounds s =? 255 then poll_all (bd_polled b) s else Going (with_rounds (rounds s + 1) s).

(** What the hart does by itself.  An address of a device that is reached in another way than
    by a word load or store (a fetch, an atomic, a byte) is left open. *)
Definition of_core (s : soc) (res : result) : board_result :=
  match res with
  | Running h => end_round (with_core h s)
  | Stopped (AccessFault a) h =>
      match bd_map b a with
      | Some _ => Open
      | None => Halted (CoreStop (AccessFault a)) (with_core h s)
      end
  | Stopped c h => Halted (CoreStop c) (with_core h s)
  | Unspecified => Open
  end.

Definition board_step (s : soc) : board_result :=
  match bus_access (core s) with
  | Some op =>
      match bus_step op s with
      | Going s' =>
          of_core s' (if p_timer p then timer_tick (hpc (core s)) (core s') else Running (core s'))
      | r => r
      end
  | None => of_core s (isa_step p (core s))
  end.
End Board.
