(* ===== verification/IsaRefine.v ===== *)
(** * The emulator refines the reference machine

    [agrees]: a processor with its memory represents a hart of IsaMachine.v.  Every
    instruction the emulator executes, on the node of a processor and the checked
    memory, takes a state that agrees with a hart to one that agrees with the hart after
    the instruction, or raises the exception that stands for the stop of the machine. *)

From Stdlib Require Import ZArith Lia Bool String.
From stdpp Require Import base numbers list option gmap strings.
From S2P Require Import Prelude PyStr Isa Ram Cpu Rvc CpuSem Exec ExecSem ExecSafe RamSafe Core.
From S2P Require Import MemInstr Trap IsaMachine.

Local Open Scope Z_scope.
Local Open Scope py_scope.

(** ** Agreement *)

Record agrees (p : platform) (h : hart) (c : cpu) (r : ram) : Prop := {
  ag_ready : ready c;
  ag_ram : wf_ram r;
  ag_size : size r = p_size p;
  ag_rvc : rvc_enabled c = p_rvc p;
  ag_mask : alignment_mask c = if p_rvc p then 1 else 3;
  ag_x : forall i, 0 <= i < 32 -> x h i = rv c i;
  ag_csr : forall n, 0 <= n < 4096 -> hcsr h n = cv c n;
  ag_mem : forall a, 0 <= a < p_size p -> hmem h a = mem_byte r a;
  ag_res : reserved h = if reservation_valid c then Some (reservation_addr c) else None;
  ag_time : htime h = mtime c;
  ag_cmp : htimecmp h = mtimecmp c;
  ag_mtip : mtip c = Z.testbit (cv c MIP) 7
}.

Arguments ag_ready {p h c r} _.
Arguments ag_ram {p h c r} _.
Arguments ag_size {p h c r} _.
Arguments ag_rvc {p h c r} _.
Arguments ag_mask {p h c r} _.
Arguments ag_x {p h c r} _.
Arguments ag_csr {p h c r} _.
Arguments ag_mem {p h c r} _.
Arguments ag_res {p h c r} _.
Arguments ag_time {p h c r} _.
Arguments ag_cmp {p h c r} _.
Arguments ag_mtip {p h c r} _.

(** The exception that ends the run when the machine stops. *)
Definition stop_exn (s : stop_cause) : exn :=
  match s with
  | AccessFault a => out_of_bounds a
  | NoHandler at_pc cause => ExecutionTerminated (TrapWithoutHandler at_pc cause)
  | Breakpoint at_pc => ExecutionTerminated (BreakpointAt at_pc)
  end.

(** The outcome [out] of an instruction of the emulator, started at [pc0], for a result of
    the reference machine; the pc is still to be advanced. *)
Definition matches (p : platform) (pc0 : Z) (res : result) (out : Prelude.res unit * node) : Prop :=
  match res with
  | Running h => exists c r, out = (Ok tt, (c, r)) /\ agrees p h c r /\ pc c = pc0 /\ next_pc c = hpc h
  | Stopped s h => exists c r, out = (Exn (stop_exn s), (c, r)) /\ agrees p h c r
  | Unspecified => True
  end.

(** ** What keeps the agreement *)

Section Frame.
Variable p : platform.
Implicit Types (h : hart) (c : cpu) (r : ram).

(** Two processors that show the same to the reference machine. *)
Lemma agrees_cpu h c c' r : agrees p h c r -> ready c' ->
  registers c' = registers c -> csrs c' = csrs c -> rvc_enabled c' = rvc_enabled c ->
  alignment_mask c' = alignment_mask c -> reservation_valid c' = reservation_valid c ->
  reservation_addr c' = reservation_addr c -> mtime c' = mtime c -> mtimecmp c' = mtimecmp c ->
  mtip c' = mtip c -> agrees p h c' r.
Proof.
  intros [] Hc' E1 E2 E3 E4 E5 E6 E7 E8 E9. unfold rv, cv in *.
  split; unfold rv, cv; rewrite ?E1, ?E2, ?E3, ?E4, ?E5, ?E6, ?E7, ?E8, ?E9; done.
Qed.

Lemma ready_next_pc c v : ready c -> u32 v -> ready (set_next_pc v c).
Proof. intros ([] & H0 & []) Hv. by split_and!; [split|done|split]. Qed.

Lemma agrees_next_pc h c r v : agrees p h c r -> u32 v -> agrees p h (set_next_pc v c) r.
Proof. intros Ha Hv. eapply agrees_cpu; [exact Ha|by apply ready_next_pc; [apply (ag_ready Ha)|]|done..]. Qed.

Lemma agrees_hpc h c r v : agrees p h c r -> agrees p (set_hpc v h) c r.
Proof. intros []. by split. Qed.

Lemma agrees_cache_32 h c r inst : agrees p h c r -> inst mod 4 = 3 ->
  agrees p h (cache_32 inst c) r.
Proof.
  intros Ha H3. destruct (ag_ready Ha) as (Hwf & H0 & Hcoh).
  eapply agrees_cpu; [exact Ha| |done..].
  split_and!; [by apply cache_32_wf|done|by apply cache_32_coherent].
Qed.

Lemma agrees_cache_16 h c r k : agrees p h c r -> agrees p h (cache_16 k c) r.
Proof.
  intros Ha. destruct (ag_ready Ha) as (Hwf & H0 & Hcoh).
  assert (ready (cache_16 k c)) as Hrd.
  { split_and!; [by apply cache_16_wf| |by apply cache_16_coherent].
    unfold x0_zero, rv. by rewrite (proj1 (cache_16_view c k)). }
  unfold cache_16 in *. destruct (expand_compressed k) as [e []]; [|done].
  by eapply agrees_cpu.
Qed.

Lemma agrees_retire h c r rd v : agrees p h c r -> 0 <= rd < 32 -> u32 v ->
  agrees p (retire (Some (rd, v)) h) (write_back (Some (rd, v)) c) r.
Proof.
  intros Ha Hrd Hv. pose proof (ready_write_back rd v c (ag_ready Ha) Hrd Hv) as Hr.
  pose proof (wf_regs_len _ (proj1 (ag_ready Ha))) as Hl.
  simpl in *. destruct (Z.eqb_spec rd 0); [done|]. destruct Ha. split; try done.
  intros i Hi. rewrite rv_wr by lia. simpl. unfold fupd. by destruct (rd =? i); [|apply ag_x0].
Qed.

(** A CSR file that differs in one place. *)
Lemma agrees_csrs h c r n v l : agrees p h c r -> wf_cpu (set_csrs l c) -> 0 <= n < 4096 ->
  (forall j, 0 <= j < 4096 -> cv (set_csrs l c) j = if n =? j then v else cv c j) ->
  (n = MIP -> Z.testbit v 7 = Z.testbit (cv c MIP) 7) ->
  agrees p (set_hcsr n v h) (set_csrs l c) r.
Proof.
  intros Ha Hwf Hn Hl Hm. destruct (ag_ready Ha) as (_ & H0 & Hcoh).
  destruct Ha. split; try done.
  - split_and!; [done..|by destruct Hcoh].
  - intros j Hj. rewrite Hl by done. simpl. unfold fupd. by destruct (n =? j); [|apply ag_csr0].
  - rewrite Hl by (unfold MIP; lia). change (mtip (set_csrs l c)) with (mtip c).
    rewrite ag_mtip0. destruct (Z.eqb_spec n MIP) as [->|]; [by rewrite Hm|done].
Qed.

Lemma agrees_wc h c r n v : agrees p h c r -> 0 <= n < 4096 -> u32 v ->
  (n = MIP -> Z.testbit v 7 = Z.testbit (cv c MIP) 7) ->
  agrees p (set_hcsr n v h) (wc n v c) r.
Proof.
  intros Ha Hn Hv Hm. pose proof (proj1 (ag_ready Ha)) as Hwf.
  apply agrees_csrs; try done; [by apply wc_wf|].
  intros j Hj. apply cv_wc; [by apply wf_csrs_len|lia..].
Qed.

(** Hart states that are the same to every observer. *)
Lemma agrees_ext h h' c r : agrees p h c r ->
  (forall i, 0 <= i < 32 -> x h' i = x h i) ->
  (forall n, 0 <= n < 4096 -> hcsr h' n = hcsr h n) ->
  (forall a, 0 <= a < p_size p -> hmem h' a = hmem h a) ->
  reserved h' = reserved h -> htime h' = htime h -> htimecmp h' = htimecmp h ->
  agrees p h' c r.
Proof.
  intros [] E1 E2 E3 E4 E5 E6. split; try done; rewrite ?E4, ?E5, ?E6; try done; intros.
  - rewrite E1; auto.
  - rewrite E2; auto.
  - rewrite E3; auto.
Qed.
End Frame.

(** ** Memory *)

Section Memory.
Variable p : platform.
Implicit Types (h : hart) (c : cpu) (r : ram).

Lemma in_mem_bounds h c r a n : agrees p h c r -> in_mem p a n = in_bounds r a n.
Proof. intros Ha. unfold in_mem, in_bounds. by rewrite (ag_size Ha). Qed.

Lemma read_1 h c r a : agrees p h c r -> in_mem p a 1 = true -> read_le (hmem h) a 1 = mem_byte r a.
Proof. intros Ha Hb. unfold in_mem in Hb. simpl. rewrite (ag_mem Ha) by lia. lia. Qed.

Lemma read_2 h c r a : agrees p h c r -> in_mem p a 2 = true -> read_le (hmem h) a 2 = mem_half r a.
Proof.
  intros Ha Hb. unfold in_mem in Hb. cbn [read_le]. rewrite !(ag_mem Ha) by lia. unfold mem_half.
  pose proof (mem_byte_u8 r a (ag_ram Ha)) as H0. unfold uN in H0.
  rewrite lor_shiftl_add by lia. lia.
Qed.

Lemma read_4 h c r a : agrees p h c r -> in_mem p a 4 = true -> read_le (hmem h) a 4 = mem_word r a.
Proof.
  intros Ha Hb. unfold in_mem in Hb. cbn [read_le]. rewrite !(ag_mem Ha) by lia. unfold mem_word.
  rewrite le32_add by apply mem_byte_u8, (ag_ram Ha).
  replace (a + 1 + 1) with (a + 2) by lia. replace (a + 2 + 1) with (a + 3) by lia. lia.
Qed.

Lemma load_value_eq h c r o a : agrees p h c r -> in_mem p a (load_size o) = true ->
  load_value o (hmem h) a = lop_value o r a.
Proof.
  intros Ha Hb. destruct o; unfold load_value, load_size in *;
    rewrite ?(read_1 _ _ _ _ Ha), ?(read_2 _ _ _ _ Ha), ?(read_4 _ _ _ _ Ha) by done; done.
Qed.

Lemma lop_value_u32 o r a : wf_ram r -> u32 (lop_value o r a).
Proof.
  intros Hr. pose proof (mem_byte_u8 r a Hr). pose proof (mem_half_u16 r a Hr).
  pose proof (mem_word_u32 r a Hr). destruct o; simpl; try apply u32_wrap; unfold uN in *; lia.
Qed.

Lemma agrees_stored h c r a n v r' : agrees p h c r -> stored r a n v r' ->
  agrees p (set_hmem (write_le (hmem h) a n v) h) c r'.
Proof.
  intros Ha [Hwf Hs _ _ Hb]. destruct Ha. split; try done; [congruence|].
  intros b Hb'. simpl. unfold write_le. rewrite Hb by lia.
  destruct ((a <=? b) && (b <? a + n)) eqn:E; [|by apply ag_mem0].
  rewrite byte_of_div by lia. done.
Qed.

Lemma agrees_unreserve h c r : agrees p h c r ->
  agrees p (set_reserved None h) (set_reservation_valid false c) r.
Proof. intros Ha. pose proof (ready_clear _ (ag_ready Ha)). destruct Ha. by split. Qed.

Lemma agrees_reserve h c r a : agrees p h c r -> agrees p (set_reserved (Some a) h)
  (set_reservation_addr a (set_reservation_valid true c)) r.
Proof. intros Ha. pose proof (ready_reserve true a _ (ag_ready Ha)). destruct Ha. by split. Qed.

Lemma reserved_eq h c r a : agrees p h c r ->
  bool_decide (reserved h = Some a) = reservation_valid c && (reservation_addr c =? a).
Proof.
  intros Ha. rewrite (ag_res Ha). destruct (reservation_valid c); simpl; [|done].
  destruct (Z.eqb_spec (reservation_addr c) a) as [->|Hne].
  - by apply bool_decide_eq_true_2.
  - apply bool_decide_eq_false_2. congruence.
Qed.
End Memory.

(** ** Traps *)

Lemma with_bit_testbit m k b i : 0 <= k -> 0 <= i ->
  Z.testbit (with_bit m k b) i = if i =? k then b else Z.testbit m i.
Proof.
  intros Hk Hi. unfold with_bit. destruct b.
  - rewrite Z.setbit_eqb by done. rewrite Z.eqb_sym. by destruct (i =? k).
  - rewrite Z.clearbit_eqb. rewrite (Z.eqb_sym k i). destruct (i =? k); simpl;
      by rewrite ?andb_false_r, ?andb_true_r.
Qed.

Lemma status_enter_eq m : status_enter m = mstatus_enter m.
Proof.
  apply Z.bits_inj'. intros i Hi. unfold status_enter.
  by rewrite mstatus_enter_bit, !with_bit_testbit by lia.
Qed.

Lemma status_return_eq m : status_return m = mstatus_return m.
Proof.
  apply Z.bits_inj'. intros i Hi. unfold status_return.
  rewrite mstatus_return_bit, !with_bit_testbit by lia.
  destruct (Z.eqb_spec i 3) as [->|]; [done|]. by destruct (i =? 7).
Qed.

Lemma mip_with_eq b m : mip_with b m = with_bit m 7 b.
Proof.
  apply Z.bits_inj'. intros i Hi. by rewrite mip_with_bit, with_bit_testbit by lia.
Qed.

Lemma land_not_3 z : Z.land z (Z.lnot 3) = z - z mod 4.
Proof.
  rewrite <- Z.ldiff_land. change 3 with (Z.ones 2).
  rewrite Z.ldiff_ones_r, Z.shiftl_mul_pow2, Z.shiftr_div_pow2 by lia.
  change (2 ^ 2) with 4. Z.div_mod_to_equations. lia.
Qed.

Section Traps.
Variable p : platform.
Implicit Types (h : hart) (c : cpu) (r : ram).

Lemma setbit_7 m : Z.setbit m 7 = Z.lor m (Z.shiftl 1 7).
Proof. by rewrite Z.setbit_spec', <- Z.shiftl_1_l by lia. Qed.

(** A trap without a handler of the program. *)
Definition bypassed (cause : Z) (c : cpu) : cpu :=
  wc 0x300 (Z.lor (cv c 0x300) (Z.shiftl 1 7)) (wc 0x343 0 (wc 0x342 cause (wc 0x341 (pc c) c))).

Lemma bypassed_eq cause c : wf_cpu c -> bypassed_trap_return cause 0 c = (Ok tt, bypassed cause c).
Proof.
  intros Hwf. pose proof (wf_csrs_len c Hwf) as Hl. unfold bypassed_trap_return, bind, gets, bypassed.
  rewrite !set_csr_eq by (rewrite ?wc_len; done || lia).
  rewrite csr_eq by (rewrite ?wc_len; done || lia).
  rewrite !cv_wc by (rewrite ?wc_len; done || lia). cbn [Z.eqb Pos.eqb].
  by rewrite set_csr_eq by (rewrite ?wc_len; done || lia).
Qed.

Lemma agrees_bypassed h c r cause : agrees p h c r -> pc c = hpc h -> u32 cause ->
  agrees p (noted cause h) (bypassed cause c) r.
Proof.
  intros Ha Hpc Hu. destruct (ag_ready Ha) as (Hwf & _). pose proof (cv_u32 c 0x300 Hwf).
  unfold noted, record_trap, bypassed.
  rewrite (ag_csr Ha MSTATUS), setbit_7, <- Hpc by (unfold MSTATUS; lia). change MSTATUS with 0x300.
  repeat (apply agrees_wc; [|lia|auto with words; try apply Hwf|by unfold MIP]). done.
Qed.

Lemma agrees_trapped h c r cause tval (sync : bool) : agrees p h c r -> u32 cause -> u32 tval ->
  cv c 0x305 <> 0 ->
  agrees p (enter cause tval (if sync then pc c else next_pc c) h) (trapped cause tval sync c) r /\
  next_pc (trapped cause tval sync c) =
    hpc (enter cause tval (if sync then pc c else next_pc c) h) /\
  pc (trapped cause tval sync c) = pc c.
Proof.
  intros Ha Hcause Htval Hv. destruct (ag_ready Ha) as (Hwf & _).
  set (epc := if sync then pc c else next_pc c).
  assert (u32 epc) as Hepc by (unfold epc; destruct sync; [apply Hwf|apply Hwf]).
  split_and!; [|simpl; rewrite (ag_csr Ha) by (unfold MTVEC; lia); apply land_not_3|done].
  unfold enter, trapped, record_trap. fold epc.
  assert (u32 (Z.land (cv c 0x305) (Z.lnot 3))) as Hn.
  { pose proof (cv_u32 c 0x305 Hwf). auto with words. }
  assert (u32 (mstatus_enter (cv c 0x300))) as Hms.
  { pose proof (wf_csrs _ (trapped_wf cause tval sync c Hwf Hcause Htval Hv)) as _.
    pose proof (cv_u32 _ 0x300 (trapped_wf cause tval sync c Hwf Hcause Htval Hv)) as H.
    by rewrite trapped_cv in H. }
  apply agrees_hpc, agrees_next_pc; [|done].
  rewrite status_enter_eq, (ag_csr Ha) by (unfold MSTATUS; lia).
  repeat (apply agrees_wc; [|lia|done|by unfold MIP]). done.
Qed.

(** A synchronous trap, before the pc is advanced. *)
Lemma exception_matches h c r cause tval : agrees p h c r -> pc c = hpc h ->
  u32 cause -> u32 tval ->
  matches p (hpc h) (exception cause tval h) (zoom (trap cause tval true) (c, r)).
Proof.
  intros Ha Hpc Hcause Htval. destruct (ag_ready Ha) as (Hwf & _).
  unfold exception, take_trap, zoom. simpl view. rewrite trap_eq by done.
  rewrite (ag_csr Ha) by (unfold MTVEC; lia). change MTVEC with 0x305.
  destruct (Z.eqb_spec (cv c 0x305) 0) as [|Hv].
  - exists c, r. rewrite <- Hpc. done.
  - destruct (agrees_trapped h c r cause tval true Ha Hcause Htval Hv) as (H1 & H2 & H3).
    rewrite Hpc in H1, H2. exists (trapped cause tval true c), r. by rewrite H3.
Qed.
End Traps.

(** ** Operands *)

Definition reg_ok (i : Z) : Prop := 0 <= i < 32.

Definition instr_ok (i : instr) : Prop :=
  match i with
  | Op _ rd rs1 rs2 | Amo _ rd rs1 rs2 => reg_ok rd /\ reg_ok rs1 /\ reg_ok rs2
  | OpImm _ rd rs1 _ | Jalr rd rs1 _ | Load _ rd rs1 _ => reg_ok rd /\ reg_ok rs1
  | Lui rd _ | Auipc rd _ | Jal rd _ => reg_ok rd
  | Branch _ rs1 rs2 _ | Store _ rs1 rs2 _ => reg_ok rs1 /\ reg_ok rs2
  | Csr _ rd (CReg rs1) n => reg_ok rd /\ reg_ok rs1 /\ 0 <= n < 4096
  | Csr _ rd (CImm u) n => reg_ok rd /\ 0 <= u < 32 /\ 0 <= n < 4096
  | Fence | Ecall | Ebreak | Mret | Wfi => True
  end.

Lemma decode_ok inst i : decode inst = Some i -> instr_ok i.
Proof.
  pose proof (field_range inst 7 5 ltac:(lia)) as H1.
  pose proof (field_range inst 15 5 ltac:(lia)) as H2.
  pose proof (field_range inst 20 5 ltac:(lia)) as H3.
  pose proof (field_range inst 20 12 ltac:(lia)) as H4. simpl (2 ^ _) in *.
  decode_cases inst.
Qed.

(** The SYSTEM instructions without operands are single words. *)
Lemma decode_word inst i : decode inst = Some i ->
  match i with
  | Ecall => inst = 0x00000073 | Mret => inst = 0x30200073 | Ebreak => inst = 0x00100073
  | _ => True
  end.
Proof.
  intros Hd. pose proof (decode_opcode _ _ Hd) as Eop. destruct i; try done;
    unfold decode in Hd; rewrite Eop in Hd; cbv zeta in Hd; unfold csr_of in Hd;
    destruct (Z.eqb_spec inst 0x00000073); try done;
    destruct (Z.eqb_spec inst 0x30200073); try done;
    destruct (Z.eqb_spec inst 0x00100073); try done; repeat case_match; by simplify_eq/=.
Qed.

(** The meaning of an instruction depends on the registers only. *)
Lemma sem_ext f g pc0 len al i : (forall k, reg_ok k -> f k = g k) -> instr_ok i ->
  sem f pc0 len al i = sem g pc0 len al i.
Proof.
  intros Hfg Hi. destruct i; simpl in *; try done; rewrite ?Hfg by tauto; done.
Qed.

(** The values an instruction writes are words. *)
Definition outcome_ok (o : outcome) : Prop :=
  match o with
  | Retire wb npc => u32 npc /\ match wb with Some (rd, v) => reg_ok rd /\ u32 v | None => True end
  | Except cause tval => u32 cause /\ u32 tval
  end.

Lemma sem_ok regs pc0 len al i o : (forall k, u32 (regs k)) -> instr_ok i ->
  sem regs pc0 len al i = Some o -> outcome_ok o.
Proof.
  intros Hr Hi Ho.
  assert (forall wb t, u32 t -> match wb with Some (rd, v) => reg_ok rd /\ u32 v | None => True end ->
    outcome_ok (jump al wb t)) as Hj.
  { intros wb t Ht Hwb. unfold jump. destruct (_ =? 0); split; auto with words. }
  destruct i; simplify_eq/=; try (split; [apply u32_wrap|]); try done;
    try (split; [tauto|]); try apply u32_wrap;
    try (apply rop_sem_u32; [done|]; first [apply u32_wrap|done]).
  - apply Hj; [apply u32_wrap|]. split; [done|apply u32_wrap].
  - apply Hj; [|split; [tauto|apply u32_wrap]].
    pose proof (u32_wrap (regs rs1 + off)) as Hw. fold (wrap (regs rs1 + off)) in Hw.
    unfold uN in *. Z.div_mod_to_equations. lia.
  - destruct (bop_sem _ _ _); [by apply Hj; [apply u32_wrap|]|]. split; [apply u32_wrap|done].
Qed.

(** ** Instructions *)

#[local] Existing Instance SafeRAM_ops.

Lemma write_back_pc wb c : pc (write_back wb c) = pc c /\ next_pc (write_back wb c) = next_pc c.
Proof. destruct wb as [[rd v]|]; simpl; [destruct (rd =? 0)|]; done. Qed.

Lemma finish_node_exn_any {A B} (m : ST node A) (k : ST node B) w e w' :
  m w = (Exn e, w') -> (m ;;; k) w = (Exn e, w').
Proof. intros Hm. unfold bind. by rewrite Hm. Qed.

Lemma node_x0 (c : cpu) (r : ram) : ready c -> zoom (W := node) (set_reg 0 0) (c, r) = (Ok tt, (c, r)).
Proof.
  intros (Hwf & H0 & _). unfold zoom. simpl view.
  rewrite (set_reg_eq c 0 0 (wf_regs_len c Hwf)) by lia. by rewrite wr_x0.
Qed.

(** ** CSRs *)

Lemma csr_update_u32 o old v : u32 old -> u32 v -> u32 (csr_update o old v).
Proof.
  intros. destruct o; simpl; auto with words. rewrite Z.ldiff_land. auto with words.
Qed.

Lemma csr_update_0 o old : o <> CSRRW -> csr_update o old 0 = old.
Proof. destruct o; simpl; intros; [done|apply Z.lor_0_r|apply Z.ldiff_0_r]. Qed.

(** The write, without the correction of mstatus. *)
Lemma csr_put_spec c o n v : wf_cpu c -> 0 <= n < 4096 -> u32 v ->
  let w := if n =? 0x305 then match o with CSRRW => Z.land v (Z.lnot 3)
                              | _ => csr_update o (cv c n) v end
           else if CSR_NOWRITE n then cv c n else csr_update o (cv c n) v in
  csr_put c o n v = set_csrs (csrs (csr_put c o n v)) c /\ wf_cpu (csr_put c o n v) /\
  forall j, 0 <= j -> cv (csr_put c o n v) j = if n =? j then w else cv c j.
Proof.
  intros Hwf Hn Hv. pose proof (wf_csrs_len c Hwf) as Hl. pose proof (cv_u32 c n Hwf) as Hu.
  assert (forall u, u32 u -> wc n u c = set_csrs (csrs (wc n u c)) c /\ wf_cpu (wc n u c) /\
    forall j, 0 <= j -> cv (wc n u c) j = if n =? j then u else cv c j) as Hwc.
  { intros u Hu'. split_and!; [done|by apply wc_wf|]. intros j Hj. by apply cv_wc. }
  assert (forall w, w = cv c n -> c = set_csrs (csrs c) c /\ wf_cpu c /\
    forall j, 0 <= j -> cv c j = if n =? j then w else cv c j) as Hsame.
  { intros w E. split_and!; [by destruct c|done|]. intros j Hj. rewrite E.
    by destruct (Z.eqb_spec n j) as [->|]. }
  assert (n = 0x305 -> CSR_NOWRITE n = false) as Hnw by by intros ->.
  unfold csr_put. destruct o; cbn [csr_update]; cbv zeta.
  - destruct (Z.eqb_spec n 0x305) as [Hn5|].
    + apply Hwc. auto with words.
    + destruct (CSR_NOWRITE n); auto.
  - destruct (Z.eqb_spec n 0x305) as [Hn5|]; [rewrite Hnw by done|destruct (CSR_NOWRITE n)];
      destruct (Z.eqb_spec v 0) as [->|]; simpl; try rewrite Z.lor_0_r in *; auto with words.
  - destruct (Z.eqb_spec n 0x305) as [Hn5|]; [rewrite Hnw by done|destruct (CSR_NOWRITE n)];
      destruct (Z.eqb_spec v 0) as [->|]; simpl; try rewrite Z.ldiff_0_r in *; auto;
      apply Hwc, (csr_update_u32 CSRRC); done.
Qed.

Lemma testbit_7_1800 z : Z.testbit (Z.lor z 0x1800) 7 = Z.testbit z 7.
Proof. rewrite Z.lor_spec. apply orb_false_r. Qed.

(** The CSRs of the reference machine are not those of the timer, and those that ignore
    writes are the same. *)
Lemma csr_holds_known p n v : csr_holds p n v = true ->
  (n =? 0x7C0) || (n =? 0x7C1) || (n =? 0x7C2) || (n =? 0x7C3) = false /\
  CSR_NOWRITE n = (n =? MISA) || trigger_csr n.
Proof.
  intros Hh. split.
  - repeat match goal with |- context [n =? ?k] => destruct (Z.eqb_spec n k) as [->|_]; [done|] end. done.
  - unfold CSR_NOWRITE, trigger_csr, MISA.
    destruct (Z.eqb_spec n 0xB02) as [->|_]; [done|]. destruct (Z.eqb_spec n 0xB82) as [->|_]; [done|].
    by rewrite !orb_false_r, !orb_assoc.
Qed.

Lemma csr_value_takes p o src n old v v' : csr_value p o src n old v = Some v' ->
  csr_takes o src n old v = Some v' /\ csr_holds p n v' = true.
Proof.
  unfold csr_value. destruct (csr_takes o src n old v); [|done].
  destruct (csr_holds p n old && csr_holds p n z) eqn:E; [|done]. intros [= <-].
  by apply andb_true_iff in E as [_ E].
Qed.

Lemma csr_stored_spec p c o src n v v' : wf_cpu c -> 0 <= n < 4096 -> u32 v ->
  csr_value p o src n (cv c n) v = Some v' -> (only_reads o src = true -> v = 0) ->
  csr_stored c o n v = set_csrs (csrs (csr_stored c o n v)) c /\ wf_cpu (csr_stored c o n v) /\
  (forall j, 0 <= j < 4096 -> cv (csr_stored c o n v) j = if n =? j then v' else cv c j) /\
  (n = MIP -> Z.testbit v' 7 = Z.testbit (cv c MIP) 7).
Proof.
  intros Hwf Hn Hv Hval Hreads. destruct (csr_put_spec c o n v Hwf Hn Hv) as (E & Hp & Hcv).
  cbv zeta in Hcv. apply csr_value_takes in Hval as [Hval Hholds].
  destruct (csr_holds_known _ _ _ Hholds) as [_ Hnw].
  unfold csr_stored. set (c1 := csr_put c o n v) in *.
  assert (n = MIP -> Z.testbit v' 7 = Z.testbit (cv c MIP) 7) as Hmip.
  { intros ->. change (csr_takes o src MIP (cv c MIP) v) with
      (if csr_update o (cv c MIP) v =? cv c MIP then Some (cv c MIP) else None) in Hval.
    destruct (_ =? _); by simplify_eq. }
  unfold csr_takes in Hval. rewrite <- Hnw in Hval. destruct (Z.eqb_spec n 0x300) as [->|H300].
  - cbn [read_only_csr CSR_NOWRITE MSTATUS Z.eqb Pos.eqb orb] in Hval. injection Hval as <-.
    assert (cv c1 0x300 = csr_update o (cv c 0x300) v) as E1 by by rewrite Hcv.
    rewrite E1. pose proof (csr_update_u32 o _ _ (cv_u32 c 0x300 Hwf) Hv) as Hu.
    split_and!; [by rewrite E|apply wc_wf; auto with words| |done].
    intros j Hj. rewrite cv_wc by (lia || by apply wf_csrs_len). rewrite Hcv by lia.
    by destruct (0x300 =? j).
  - split_and!; [exact E|exact Hp| |exact Hmip]. intros j Hj. rewrite Hcv by lia.
    destruct (Z.eqb_spec n j) as [<-|]; [|done].
    change MSTATUS with 0x300 in Hval. rewrite (proj2 (Z.eqb_neq n 0x300)) in Hval by done.
    destruct (read_only_csr n) eqn:Hro.
    + assert (n <> 0x305 /\ CSR_NOWRITE n = false) as [H5 Hnw'].
      { unfold read_only_csr in Hro. rewrite !orb_true_iff, !Z.eqb_eq in Hro.
        destruct Hro as [[[->| ->]| ->]| ->]; done. }
      rewrite Hnw', (proj2 (Z.eqb_neq n 0x305)) by done.
      destruct (only_reads o src) eqn:Ho; [|done]. injection Hval as <-. rewrite Hreads by done.
      apply csr_update_0. by destruct o.
    + change MTVEC with 0x305 in Hval. destruct (Z.eqb_spec n 0x305) as [->|H305].
      * cbn [CSR_NOWRITE Z.eqb Pos.eqb orb] in Hval. destruct o; simplify_eq; [by rewrite land_not_3|done..].
      * destruct (CSR_NOWRITE n); [by simplify_eq|].
        destruct (n =? MIP); [|by simplify_eq]. destruct (Z.eqb_spec (csr_update o (cv c n) v) (cv c n)); by simplify_eq.
Qed.

Section Instruction.
Variables (hd : option (ST node unit)) (p : platform) (h : hart) (c : cpu) (r : ram).
Variables inst len : Z.
Hypothesis Ha : agrees p h c r.
Hypothesis Hpc : pc c = hpc h.
Hypothesis Hn : next_pc c = wrap (pc c + len).
Hypothesis Hi : u32 inst.

(** The handler and the reset of register 0. *)
Abbreviation handler :=
  ((dispatch hd inst len (decode_fields inst) ;;; zoom (set_reg 0 0)) (c, r)).

Let Hwf : wf_cpu c := proj1 (ag_ready Ha).
Let H0 : x0_zero c := proj1 (proj2 (ag_ready Ha)).

Lemma ialign_eq : ialign c = isa_align p.
Proof. unfold ialign, isa_align. rewrite (ag_mask Ha). by destruct (p_rvc p). Qed.

(** Completion: the registers, the memory and the next pc. *)
Lemma finish_matches h' wb out c' r' : out = (Ok tt, (write_back wb c', r')) ->
  agrees p h' c' r' -> hpc h' = hpc h -> pc c' = pc c -> next_pc c' = next_pc c ->
  match wb with Some (rd, v) => reg_ok rd /\ u32 v | None => True end ->
  matches p (hpc h) (finish wb len h') out.
Proof.
  intros -> Ha' Eh Ep En Hwb. destruct (write_back_pc wb c') as [E1 E2].
  exists (write_back wb c'), r'. rewrite E1, E2. split_and!; [done| |congruence|].
  - apply agrees_hpc. destruct wb as [[rd v]|]; [|done]. destruct Hwb. by apply agrees_retire.
  - simpl. congruence.
Qed.

Lemma stop_matches s h' out c' r' : out = (Exn (stop_exn s), (c', r')) -> agrees p h' c' r' ->
  matches p (hpc h) (Stopped s h') out.
Proof. intros ->. simpl. eauto. Qed.

(** The integer instructions and the undefined ones. *)
Lemma integer_matches o : field inst 0 7 <> 0x2F ->
  isa_outcome (rv c) (pc c) len (isa_align p) inst = Some o -> outcome_ok o ->
  matches p (hpc h)
    match o with
    | Retire wb npc => Running (set_hpc npc (retire wb h))
    | Except cause tval => exception cause tval h
    end handler.
Proof.
  intros Hamo Ho Hok. rewrite <- ialign_eq in Ho.
  rewrite (dispatch_isa (W := node) hd (c, r) inst len) with (o := o) by done.
  destruct o as [wb npc|cause tval]; simpl in Hok.
  - destruct Hok as [Hnpc Hwb]. destruct (write_back_pc wb c) as [E1 _].
    exists (set_next_pc npc (write_back wb c)), r. split_and!; [done| |simpl; congruence|done].
    apply agrees_next_pc; [|done]. apply agrees_hpc.
    destruct wb as [[rd v]|]; [|done]. destruct Hwb. by apply agrees_retire.
  - destruct Hok. by apply exception_matches.
Qed.

Lemma load_matches o rd rs1 off : decode inst = Some (Load o rd rs1 off) ->
  matches p (hpc h) (exec_instr p (Load o rd rs1 off) len h) handler.
Proof.
  intros Hd. pose proof (decode_opcode _ _ Hd) as Eop. destruct (decode_ok _ _ Hd) as [Hrd Hrs].
  simpl in Eop. unfold decode in Hd. rewrite Eop in Hd. cbv zeta in Hd.
  destruct (lop_of (field inst 12 3)) as [o'|] eqn:Hop; simpl in Hd; simplify_eq.
  cbn [exec_instr sem]; cbv zeta.
  rewrite decode_fields_eq, Eop. cbn [dispatch Z.eqb Pos.eqb].
  pose proof (exec_loads_eq c r Hwf (ag_ram Ha) inst _ _ _ o Hi Hrd Hrs Hop) as He.
  cbv zeta in He. rewrite (ag_x Ha) by done.
  rewrite (in_mem_bounds _ _ _ _ _ _ Ha). change (load_size o) with (lop_size o).
  destruct (in_bounds r _ (lop_size o)) eqn:Hb.
  - erewrite load_value_eq; [|exact Ha|by erewrite in_mem_bounds].
    apply (finish_matches h (Some _) _ c r); try done.
    + by apply finish_node_wr.
    + split; [done|]. apply lop_value_u32, (ag_ram Ha).
  - apply (stop_matches (AccessFault _) h _ c r); [|done]. by apply finish_node_exn.
Qed.

Lemma store_matches o rs1 rs2 off : decode inst = Some (Store o rs1 rs2 off) ->
  matches p (hpc h) (exec_instr p (Store o rs1 rs2 off) len h) handler.
Proof.
  intros Hd. pose proof (decode_opcode _ _ Hd) as Eop. destruct (decode_ok _ _ Hd) as [Hrs1 Hrs2].
  simpl in Eop. unfold decode in Hd. rewrite Eop in Hd. cbv zeta in Hd.
  destruct (sop_of (field inst 12 3)) as [o'|] eqn:Hop; simpl in Hd; simplify_eq.
  cbn [exec_instr sem]; cbv zeta.
  rewrite decode_fields_eq, Eop. cbn [dispatch Z.eqb Pos.eqb].
  pose proof (exec_stores_eq c r Hwf (ag_ram Ha) inst _ _ _ o Hi Hrs1 Hrs2 Hop) as He.
  apply finish_node_store in He; [|done..]. unfold store_done in He.
  rewrite !(ag_x Ha) by done. rewrite (in_mem_bounds _ _ _ _ _ _ Ha).
  change (store_size o) with (sop_size o). destruct (in_bounds r _ (sop_size o)).
  - destruct He as (r' & E & Hst).
    apply (finish_matches _ None _ (set_reservation_valid false c) r'); try done.
    by apply agrees_unreserve, (agrees_stored _ _ _ _ _ _ _ _ Ha).
  - by apply (stop_matches (AccessFault _) h _ c r).
Qed.

Lemma amo_update_matches rd v v0 a : reg_ok rd -> u32 v0 ->
  amo_done (write_back (Some (rd, v0))) c r a v handler ->
  matches p (hpc h)
    (if in_mem p a 4
     then finish (Some (rd, v0)) len
            (set_reserved None (set_hmem (write_le (hmem h) a 4 v) h))
     else Stopped (AccessFault a) h) handler.
Proof.
  intros Hrd Hv0. unfold amo_done. rewrite (in_mem_bounds _ _ _ _ _ _ Ha).
  destruct (in_bounds r a 4); [|intros ->; by apply (stop_matches (AccessFault a) h _ c r)].
  intros (r' & -> & Hst).
  apply (finish_matches _ (Some (rd, v0)) _ (set_reservation_valid false c) r'); try done.
  - simpl. by destruct (rd =? 0).
  - by apply agrees_unreserve, (agrees_stored _ _ _ _ _ _ _ _ Ha).
Qed.

Lemma lr_matches a rd : reg_ok rd ->
  handler = (exec_LR a rd ;;; zoom (set_reg 0 0)) (c, r) ->
  matches p (hpc h)
    (if in_mem p a 4
     then finish (Some (rd, read_le (hmem h) a 4)) len (set_reserved (Some a) h)
     else Stopped (AccessFault a) h) handler.
Proof.
  intros Hrd E. rewrite E. pose proof (exec_LR_eq c r Hwf (ag_ram Ha) a rd Hrd) as HLR.
  rewrite (in_mem_bounds _ _ _ _ _ _ Ha). destruct (in_bounds r a 4) eqn:Hb.
  - erewrite read_4; [|exact Ha|by erewrite in_mem_bounds].
    apply (finish_matches _ (Some (rd, mem_word r a)) _
             (set_reservation_addr a (set_reservation_valid true c)) r); try done.
    + unfold bind. rewrite HLR. unfold zoom. simpl view. 
      rewrite set_reg_eq; [|exact (eq_trans (wr_len c rd _) (wf_regs_len c Hwf))|lia].
      destruct (ag_ready (agrees_reserve p h c r a Ha)) as (Hw & Hx & _).
      by rewrite <- (wr_x0_wr _ Hw Hx) by done.
    + by apply agrees_reserve.
    + split; [done|]. apply mem_word_u32, (ag_ram Ha).
  - apply (stop_matches (AccessFault a) h _ c r); [|done]. by apply finish_node_exn.
Qed.

Lemma sc_matches a rd rs2 : reg_ok rd -> reg_ok rs2 ->
  handler = (exec_SC a rd rs2 ;;; zoom (set_reg 0 0)) (c, r) ->
  matches p (hpc h)
    match reserved h with
    | Some b =>
        if negb (b =? a) then Unspecified
        else if in_mem p a 4
        then finish (Some (rd, 0)) len
               (set_reserved None (set_hmem (write_le (hmem h) a 4 (x h rs2)) h))
        else Stopped (AccessFault a) h
    | None => finish (Some (rd, 1)) len h
    end handler.
Proof.
  intros Hrd Hrs E. pose proof (exec_SC_eq c r Hwf (ag_ram Ha) a rd rs2 Hrd Hrs) as HSC.
  rewrite (ag_res Ha), (ag_x Ha) by done.
  destruct (reservation_valid c); [destruct (reservation_addr c =? a); [|done]|]; cbn [negb andb] in *.
  - apply amo_update_matches; [done|by unfold uN|]. rewrite E.
    by apply (finish_amo r c rd 0).
  - apply (finish_matches _ (Some (rd, 1)) _ c r); try done.
    rewrite E. by apply finish_node_wr.
Qed.

Lemma rmw_matches o rd rs2 a : reg_ok rd ->
  amo_done (write_back (Some (rd, mem_word r a))) c r a (aop_sem o (mem_word r a) (rv c rs2)) handler ->
  matches p (hpc h)
    (if in_mem p a 4
     then let old := read_le (hmem h) a 4 in
          finish (Some (rd, old)) len
            (set_reserved None (set_hmem (write_le (hmem h) a 4 (amo_value o old (rv c rs2))) h))
     else Stopped (AccessFault a) h) handler.
Proof.
  intros Hrd Hd. apply amo_update_matches in Hd; [|done|apply mem_word_u32, (ag_ram Ha)].
  assert (forall old b, amo_value o old b = aop_sem o old b) as Eo by by destruct o.
  destruct (in_mem p a 4) eqn:Hb; [|done].
  rewrite (read_4 _ _ _ _ _ Ha Hb). cbv zeta. by rewrite Eo.
Qed.

Lemma amo_matches o rd rs1 rs2 : decode inst = Some (Amo o rd rs1 rs2) ->
  matches p (hpc h) (exec_instr p (Amo o rd rs1 rs2) len h) handler.
Proof.
  intros Hd. destruct (decode_amo _ _ _ _ _ Hd) as (Eop & Ef3 & Hop & Erd & E1 & E2 & Hrd & H1 & H2).
  assert (handler = (exec_AMO inst rd 2 rs1 rs2 ;;; zoom (set_reg 0 0)) (c, r)) as E
    by by rewrite decode_fields_eq, Eop, Ef3, Erd, E1, E2.
  change (exec_instr p (Amo o rd rs1 rs2) len h) with (exec_amo p o rd rs1 rs2 len h).
  unfold exec_amo. rewrite (ag_x Ha rs1) by done.
  destruct (Z.eqb_spec (rv c rs1 mod 4) 0) as [Hal|Hal]; cbn [negb].
  - pose proof (exec_AMO_aligned c r Hwf inst rd rs1 rs2 H1 Hal) as Hex.
    rewrite (aop_of_code _ _ Hop) in Hex.
    destruct (decide (o = LR)) as [->|HLR];
      [apply lr_matches; [done|rewrite E; unfold bind; by rewrite Hex]|].
    destruct (decide (o = SC)) as [->|HSC];
      [apply sc_matches; [done..|rewrite E; unfold bind; by rewrite Hex]|].
    pose proof (exec_AMO_eq c r Hwf (ag_ram Ha) inst rd rs1 rs2 o Hi Hrd H1 H2 Hop HLR HSC Hal) as He.
    apply (finish_amo r c) in He; [|done..]. rewrite <- E in He.
    apply (rmw_matches o rd rs2) in He; [|done]. rewrite <- (ag_x Ha rs2) in He by done.
    by destruct o.
  - assert (handler = zoom (trap 6 (rv c rs1) true) (c, r)) as ->.
    { rewrite E. unfold bind. rewrite exec_AMO_misaligned by done.
      transitivity ((zoom (trap 6 (rv c rs1) true) ;;; zoom (set_reg 0 0)) (c, r)); [done|].
      rewrite (zoom_seq (W := node)). unfold zoom. simpl view. by rewrite finish_trap. }
    destruct o; try done; apply exception_matches; auto with words; by apply rv_u32.
Qed.

(** SYSTEM instructions. *)
Lemma system_handler i : decode inst = Some i ->
  match i with Csr _ _ _ _ | Ecall | Ebreak | Mret => True | _ => False end ->
  handler = (exec_SYSTEM hd inst (field inst 7 5) (field inst 12 3) (field inst 15 5) ;;;
             zoom (set_reg 0 0)) (c, r).
Proof.
  intros Hd Hcase. pose proof (decode_opcode _ _ Hd) as Eop. destruct i; try done;
  by rewrite decode_fields_eq, Eop.
Qed.

(** A trap is not touched by the reset of register 0. *)
Lemma trap_matches (m : ST node unit) cause tval : m (c, r) = zoom (trap cause tval true) (c, r) ->
  u32 cause -> u32 tval ->
  matches p (hpc h) (exception cause tval h) ((m ;;; zoom (set_reg 0 0)) (c, r)).
Proof.
  intros Hm Hcause Htval.
  assert ((m ;;; zoom (set_reg 0 0)) (c, r) = zoom (trap cause tval true) (c, r)) as ->.
  { unfold bind at 1. rewrite Hm.
    transitivity ((zoom (trap cause tval true) ;;; zoom (set_reg 0 0)) (c, r)); [done|].
    rewrite (zoom_seq (W := node)). unfold zoom. simpl view. by rewrite finish_trap. }
  by apply exception_matches.
Qed.

Lemma mret_matches : decode inst = Some Mret -> matches p (hpc h) (exec_instr p Mret len h) handler.
Proof.
  intros Hd. rewrite (system_handler _ Hd I).
  pose proof (decode_word _ _ Hd) as Ei. simpl in Ei. rewrite Ei.
  pose proof (exec_MRET_eq c Hwf) as Hm. rewrite ialign_eq in Hm. cbn [exec_instr sem].
  rewrite (ag_csr Ha MEPC), (ag_csr Ha MSTATUS) by (unfold MEPC, MSTATUS; lia).
  change MEPC with 0x341. change MSTATUS with 0x300.
  destruct (cv c 0x341 mod isa_align p =? 0); [|done].
  - pose proof (cv_u32 c 0x341 Hwf) as Hu.
    assert (u32 (status_return (cv c 0x300))) as Hst.
    { pose proof (cv_u32 c 0x300 Hwf). rewrite status_return_eq. unfold mstatus_return.
      auto 10 with words. }
    assert (agrees p (set_hcsr 0x300 (status_return (cv c 0x300)) h) (returned c) r) as Ha'.
    { unfold returned. rewrite <- status_return_eq. apply agrees_wc; try done. by apply agrees_next_pc. }
    exists (returned c), r. split_and!; [|by apply agrees_hpc|done|done].
    unfold bind, exec_SYSTEM. cbn [Z.eqb Pos.eqb]. unfold zoom at 1. simpl view. rewrite Hm.
    apply node_x0, (ag_ready Ha').
Qed.

Lemma ecall_matches : decode inst = Some Ecall ->
  matches p (hpc h) (exec_instr p Ecall len h) handler.
Proof.
  intros Hd. rewrite (system_handler _ Hd I). cbn [exec_instr sem].
  rewrite (ag_csr Ha MTVEC) by (unfold MTVEC; lia). change MTVEC with 0x305.
  destruct (Z.eqb_spec (cv c 0x305) 0) as [|Hv]; [done|].
  apply trap_matches; [|auto with words..].
  pose proof (decode_word _ _ Hd) as Ei. simpl in Ei. rewrite Ei.
  unfold exec_SYSTEM. cbn [Z.eqb Pos.eqb]. unfold exec_ECALL, bind at 1, zoom at 1. simpl view.
  rewrite (csr_eq c 0x305 (wf_csrs_len c Hwf)) by lia. rewrite (proj2 (Z.eqb_neq _ _) Hv).
  by destruct hd.
Qed.

Lemma exec_EBREAK_eq : (0xFFFF0000 <=? rv c 17) = false ->
  exec_EBREAK (c, r) =
    if cv c 0x305 =? 0
    then (Exn (ExecutionTerminated (BreakpointAt (pc c))), (bypassed 3 c, r))
    else zoom (trap 3 0 true) (c, r).
Proof.
  intros Ha7. unfold exec_EBREAK, bind at 1. rewrite node_reg, Ha7 by (done || lia).
  unfold bind at 1, zoom at 1. simpl view. rewrite (csr_eq c 0x305 (wf_csrs_len c Hwf)) by lia.
  destruct (cv c 0x305 =? 0); [|done]. unfold bind, zoom at 1. simpl view. by rewrite bypassed_eq by done.
Qed.

Lemma ebreak_matches : decode inst = Some Ebreak ->
  matches p (hpc h) (exec_instr p Ebreak len h) handler.
Proof.
  intros Hd. rewrite (system_handler _ Hd I). cbn [exec_instr sem].
  pose proof (decode_word _ _ Hd) as Ei. simpl in Ei. rewrite Ei.
  rewrite (ag_x Ha 17), (ag_csr Ha MTVEC) by (unfold MTVEC; lia). change MTVEC with 0x305.
  destruct (0xFFFF0000 <=? rv c 17) eqn:Ha7; [done|].
  pose proof (exec_EBREAK_eq Ha7) as He.
  destruct (cv c 0x305 =? 0).
  - eapply stop_matches.
    + apply finish_node_exn_any. unfold exec_SYSTEM. cbn [Z.eqb Pos.eqb]. rewrite He.
      simpl. by rewrite Hpc.
    + by apply agrees_bypassed.
  - apply trap_matches; [|auto with words..]. unfold exec_SYSTEM. cbn [Z.eqb Pos.eqb]. by rewrite He.
Qed.

Lemma csr_matches o rd src n : decode inst = Some (Csr o rd src n) ->
  matches p (hpc h) (exec_instr p (Csr o rd src n) len h) handler.
Proof.
  intros Hd. rewrite (system_handler _ Hd I). pose proof (decode_opcode _ _ Hd) as Eop.
  pose proof (decode_ok _ _ Hd) as Hok. simpl in Eop.
  assert (0 <= n < 4096 /\ reg_ok rd /\ operand h src = csr_operand c src /\
          u32 (csr_operand c src)) as (Hn' & Hrd & Eop' & Hu).
  { destruct src as [i|u]; simpl in *; destruct Hok as (Hrd & Hs & Hn'); split; [done| |done|];
      split; try done; split; try done; [by apply (ag_x Ha)|by apply rv_u32|unfold uN; lia]. }
  unfold decode in Hd. rewrite Eop in Hd. cbv zeta in Hd. unfold exec_SYSTEM.
  destruct (inst =? 0x00000073); [done|]. destruct (inst =? 0x30200073); [done|].
  destruct (inst =? 0x00100073); [done|]. destruct (inst =? 0x10500073); [done|].
  set (f3 := field inst 12 3) in *. set (rs1 := field inst 15 5) in *.
  assert ((f3 =? 1) || (f3 =? 2) || (f3 =? 3) || (f3 =? 5) || (f3 =? 6) || (f3 =? 7) = true) as ->.
  { unfold csr_of in Hd. repeat case_match; by simplify_eq/=. }
  assert (field inst 7 5 = rd) as Erd by (by apply csr_of_form in Hd as (? & _)). rewrite Erd in *.
  cbn [exec_instr sem]. rewrite Eop', (ag_csr Ha) by done.
  destruct (csr_value _ _ _ _ _) as [v'|] eqn:Hval; [|done].
  assert (only_reads o src = true -> csr_operand c src = 0) as Hreads.
  { destruct src as [i|u]; simpl; destruct o; try done; intros ->%Z.eqb_eq; done. }
  destruct (csr_stored_spec p c o src n _ v' Hwf Hn' Hu Hval Hreads) as (E & Hw1 & Hcv & Hm).
  pose proof (field_range inst 15 5 ltac:(lia)) as Hrs1. fold rs1 in Hrs1.
  rewrite E in Hw1, Hcv.
  pose proof (agrees_csrs p h c r n v' _ Ha Hw1 Hn' Hcv Hm) as Ha'. rewrite <- E in Ha'.
  assert (zoom (W := node) (exec_CSR inst rd f3 rs1) (c, r) =
    (Ok tt, (write_back (Some (rd, cv c n)) (csr_stored c o n (csr_operand c src)), r))) as Hx.
  { unfold zoom. simpl view. rewrite (exec_CSR_stored c inst rd rs1 Hwf Hrd Hrs1 f3 o src n Hd).
    - done.
    - apply csr_value_takes in Hval as [_ Hh]. by destruct (csr_holds_known _ _ _ Hh).
    - apply csr_value_takes in Hval as [Hval _]. unfold csr_takes in Hval.
      change (CSR_RO n) with (read_only_csr n). destruct (read_only_csr n); [|done].
      destruct (only_reads o src) eqn:Ho; [|done]. rewrite Hreads by done.
      by destruct o. }
  apply (finish_matches _ (Some (rd, cv c n)) _ (csr_stored c o n (csr_operand c src)) r); try done.
  - unfold bind. rewrite Hx. apply node_x0, ready_write_back; [apply (ag_ready Ha')|done|by apply cv_u32].
  - by rewrite E.
  - by rewrite E.
  - split; [done|by apply cv_u32].
Qed.

(** Every instruction with a meaning. *)
Lemma instr_matches i : decode inst = Some i ->
  matches p (hpc h) (exec_instr p i len h) handler.
Proof.
  intros Hd. pose proof (decode_ok _ _ Hd) as Hok.
  assert (sem (x h) (hpc h) len (isa_align p) i = sem (rv c) (pc c) len (isa_align p) i) as Es.
  { rewrite Hpc. apply sem_ext; [|done]. intros k Hk. by apply (ag_x Ha). }
  destruct (sem (rv c) (pc c) len (isa_align p) i) as [o|] eqn:Ho.
  - pose proof (integer_matches o) as Hm. unfold isa_outcome in Hm. rewrite Hd in Hm.
    unfold exec_instr. rewrite Es. apply Hm; [by eapply not_amo|done|].
    eapply sem_ok; [intros k; by apply rv_u32|exact Hok|exact Ho].
  - destruct i; try done.
    + by apply load_matches.
    + by apply store_matches.
    + by apply amo_matches.
    + by apply csr_matches.
    + by apply ecall_matches.
    + by apply ebreak_matches.
    + by apply mret_matches.
Qed.

Lemma undefined_matches tval : decode inst = None -> field inst 0 7 <> 0x2F -> tval = inst ->
  matches p (hpc h) (exception 2 tval h) handler.
Proof.
  intros Hd Hamo ->. apply (integer_matches (Except 2 inst)); [done| |by split; auto with words].
  unfold isa_outcome. by rewrite Hd.
Qed.

(** Other encodings with the AMO opcode. *)
Lemma undefined_amo_matches : field inst 0 7 = 0x2F -> field inst 12 3 <> 2 ->
  matches p (hpc h) (exception 2 inst h) handler.
Proof.
  intros Eop Hf3. rewrite decode_fields_eq, Eop. cbn [dispatch Z.eqb Pos.eqb].
  apply trap_matches; [|auto with words|done]. unfold exec_AMO.
  by rewrite (proj2 (Z.eqb_neq _ _) Hf3).
Qed.
End Instruction.

(** ** Execution *)

(** The compressed encodings whose expansion has no meaning are custom ones: all others are
    rejected with their own bits. *)

Lemma field_1f k lo : 0 <= lo -> Z.land (Z.shiftr k lo) 0x1F = field k lo 5.
Proof. intros. rewrite land_1f. unfold field. by rewrite Z.shiftr_div_pow2 by done. Qed.

Lemma rvc_C0_rejected k : snd (expand_C0 k (field k 13 3)) = true -> rvc_spec_C0 k <> None.
Proof.
  unfold rvc_spec_C0, expand_C0. cbv zeta. rewrite ciw_imm_eq.
  pose proof (field_range k 13 3 ltac:(lia)) as Hf3. simpl in Hf3.
  split8 (field k 13 3); cbn [Z.eqb Pos.eqb]; try done. by destruct (imm_CIW k =? 0).
Qed.

Lemma rvc_C1_rejected k : snd (expand_C1 k (field k 13 3)) = true -> rvc_spec_C1 k = None ->
  (field k 13 3 =? 4) && (field k 10 2 <=? 1) && (field k 12 1 =? 1) = true.
Proof.
  unfold rvc_spec_C1, expand_C1, expand_C1_arith. cbv zeta.
  rewrite ci_imm_eq, ci16_imm_eq, ci_uimm_eq, field_1f by lia.
  replace ((k >> 10) .& 0x3)%bits with (field k 10 2) by (land_to_field; norm_fields; lia).
  replace ((k >> 12) .& 0x1)%bits with (field k 12 1) by (land_to_field; norm_fields; lia).
  pose proof (field_range k 13 3 ltac:(lia)) as Hf3. simpl in Hf3.
  pose proof (field_range k 10 2 ltac:(lia)) as Hf2. simpl in Hf2.
  split8 (field k 13 3); cbn [Z.eqb Pos.eqb andb]; try done.
  - destruct (field k 7 5 =? 2); [by destruct (imm_CI16 k =? 0)|].
    by destruct ((imm_CI k =? 0) || (field k 7 5 =? 0)).
  - unfold rvc_shift, shamt_CI, bit. pose proof (field_range k 12 1 ltac:(lia)).
    assert (field k 12 1 = 0 \/ field k 12 1 = 1) as [E|E] by lia; rewrite ?E; cbn [Z.eqb Pos.eqb];
    assert (field k 10 2 = 0 \/ field k 10 2 = 1 \/ field k 10 2 = 2 \/ field k 10 2 = 3)
      as [-> | [-> | [-> | ->]]] by lia; cbn [Z.eqb Pos.eqb]; try done;
    rewrite ?Z.mul_0_l, ?Z.add_0_l; by destruct (field k 2 5 =? 0).
Qed.

Lemma rvc_C2_rejected k : snd (expand_C2 k (field k 13 3)) = true -> rvc_spec_C2 k = None ->
  (field k 13 3 =? 0) && (field k 12 1 =? 1) = true.
Proof.
  unfold rvc_spec_C2, expand_C2. cbv zeta. rewrite ci_uimm_eq, !field_1f by lia.
  replace ((k >> 12) .& 0x1)%bits with (field k 12 1) by (land_to_field; norm_fields; lia).
  pose proof (field_range k 13 3 ltac:(lia)) as Hf3. simpl in Hf3.
  split8 (field k 13 3); cbn [Z.eqb Pos.eqb andb]; try done.
  - unfold rvc_shift, shamt_CI, bit. pose proof (field_range k 12 1 ltac:(lia)).
    assert (field k 12 1 = 0 \/ field k 12 1 = 1) as [E|E] by lia; rewrite ?E; cbn [Z.eqb Pos.eqb];
    rewrite ?Z.mul_0_l, ?Z.add_0_l; destruct (field k 7 5 =? 0), (field k 2 5 =? 0); try done.
  - by destruct (field k 7 5 =? 0).
  - by destruct (field k 12 1 =? 0), (field k 7 5 =? 0), (field k 2 5 =? 0).
Qed.

Lemma rvc_rejected k : snd (expand_compressed k) = true -> rvc_spec k = None -> rvc_open k = true.
Proof.
  unfold expand_compressed, rvc_spec, rvc_open. cbv zeta.
  replace (k .& 0x3)%bits with (field k 0 2) by (rewrite land_3; unfold field; by rewrite Z.div_1_r).
  replace ((k >> 13) .& 0x7)%bits with (field k 13 3) by (land_to_field; norm_fields; lia).
  pose proof (field_range k 0 2 ltac:(lia)) as Hq. simpl in Hq.
  assert (field k 0 2 = 0 \/ field k 0 2 = 1 \/ field k 0 2 = 2 \/ field k 0 2 = 3)
    as [-> | [-> | [-> | ->]]] by lia; cbn [Z.eqb Pos.eqb]; intros Hok Hs; [|..|done].
  - by destruct (rvc_C0_rejected k Hok).
  - pose proof (rvc_C1_rejected k Hok Hs) as E. apply andb_true_iff in E as [E E1].
    apply andb_true_iff in E as [->%Z.eqb_eq E]. by rewrite E, E1.
  - pose proof (rvc_C2_rejected k Hok Hs) as E. apply andb_true_iff in E as [->%Z.eqb_eq E].
    by rewrite E, orb_true_r.
Qed.

Section Execution.
Variables (hd : option (ST node unit)) (p : platform).

(** Fetch and decoding do not show. *)
Lemma agrees_fetched h c r len : agrees p h c r -> agrees p h (fetched len c) r.
Proof. intros Ha. apply agrees_next_pc; [done|apply u32_wrap]. Qed.

Lemma execute_32_matches h c r inst : agrees p h c r -> pc c = hpc h -> u32 inst ->
  inst mod 4 = 3 -> matches p (hpc h) (exec_bits p inst h) (execute_32 hd inst (c, r)).
Proof.
  intros Ha Hpc Hi H3. destruct (ag_ready Ha) as (_ & _ & Hcoh).
  rewrite execute_32_started by done. unfold exec_bits. rewrite H3. cbn [Z.eqb Pos.eqb].
  assert (agrees p h (started inst c) r) as Ha' by by apply agrees_fetched, agrees_cache_32.
  destruct (decode inst) as [i|] eqn:Hd; [by apply instr_matches|].
  destruct (reserved_amo inst) eqn:Hamo; [done|].
  destruct (Z.eq_dec (field inst 0 7) 0x2F) as [Eop|Eop]; [|by apply undefined_matches].
  apply undefined_amo_matches; try done. intros E.
  unfold reserved_amo in Hamo. by rewrite Eop, E in Hamo.
Qed.

Lemma execute_16_matches h c r bits : agrees p h c r -> pc c = hpc h ->
  bits mod 4 <> 3 -> p_rvc p = true ->
  matches p (hpc h) (exec_bits p bits h) (execute_16 hd (bits mod 2 ^ 16) (c, r)).
Proof.
  intros Ha Hpc H3 Hrvc. destruct (ag_ready Ha) as (_ & _ & Hcoh). unfold exec_bits.
  rewrite (proj2 (Z.eqb_neq _ _) H3), Hrvc. set (k := bits mod 2 ^ 16).
  rewrite (execute_16_cached (W := node)) by done. rewrite <- expand_meaning. unfold rvc_meaning.
  pose proof (expand_u32 k) as He. pose proof (expand_not_amo k) as Hna.
  pose proof (rvc_rejected k) as Hrej. rewrite <- expand_meaning in Hrej. unfold rvc_meaning in Hrej.
  assert (agrees p h (fetched 2 (cache_16 k c)) r) as Ha' by by apply agrees_fetched, agrees_cache_16.
  assert (pc (cache_16 k c) = pc c) as Ep by apply cache_16_view.
  destruct (expand_compressed k) as [e []].
  - rewrite execute_decoded_eq. simpl fst in He.
    change (put (fetched 2 (cache_16 k c)) (c, r)) with (fetched 2 (cache_16 k c), r).
    assert (pc (fetched 2 (cache_16 k c)) = hpc h) as Hp' by (simpl; congruence).
    change (set_next_pc (wrap (pc (view (put (cache_16 k c) (c, r))) + 2))
             (view (put (cache_16 k c) (c, r)))) with (fetched 2 (cache_16 k c)).
    destruct (decode e) as [i|] eqn:Hd; [by apply instr_matches|].
    by rewrite Hrej by done.
  - destruct (rvc_open k); [done|]. unfold illegal. apply exception_matches; try done.
    unfold uN. pose proof (Z.mod_pos_bound bits (2 ^ 16)). unfold k. lia.
Qed.
End Execution.

(** ** The timer *)

Lemma with_bit_id m k b : 0 <= k -> Z.testbit m k = b -> with_bit m k b = m.
Proof.
  intros Hk <-. apply Z.bits_inj'. intros i Hi. rewrite with_bit_testbit by done.
  by destruct (Z.eqb_spec i k) as [->|].
Qed.

Section Timer.
Variable p : platform.
Implicit Types (h : hart) (c : cpu) (r : ram).

Lemma ready_ticked c : ready c -> ready (ticked c).
Proof.
  intros (Hwf & H0 & Hcoh). split_and!; [by apply ticked_wf|..].
  - unfold ticked. cbv zeta. by destruct (eqb _ _).
  - destruct Hcoh. unfold ticked. cbv zeta. by destruct (eqb _ _); split.
Qed.

Lemma agrees_count h c r : agrees p h c r -> agrees p (count h) (ticked c) r.
Proof.
  intros Ha. pose proof (ready_ticked c (ag_ready Ha)) as Hrd.
  destruct (ag_ready Ha) as (Hwf & _). pose proof (ag_mtip Ha) as Hm.
  destruct (ticked_mip c Hwf Hm) as [Hm1 Hm2].
  assert (forall n, 0 <= n < 4096 -> hcsr (count h) n = cv (ticked c) n) as Hcsr.
  { intros n Hn. unfold count. cbv zeta. cbn [hcsr set_hcsr set_htime]. unfold fupd.
    rewrite (ag_csr Ha MIP), (ag_time Ha), (ag_cmp Ha) by (unfold MIP; lia).
    destruct (Z.eqb_spec MIP n) as [<-|Hne].
    - unfold ticked. cbv zeta. destruct (eqb _ _) eqn:E.
      + apply eqb_prop in E. rewrite E, Hm. by apply with_bit_id.
      + rewrite <- mip_with_eq. change (cv (set_mtip ?b ?c0) MIP) with (cv c0 MIP).
        rewrite cv_wc; [done|by apply (wf_csrs_len c)|unfold MIP; lia..].
    - rewrite (ag_csr Ha) by done. rewrite ticked_cv; [done|done|lia|unfold MIP in *; lia]. }
  assert (registers (ticked c) = registers c /\ rvc_enabled (ticked c) = rvc_enabled c /\
    alignment_mask (ticked c) = alignment_mask c /\ mtime (ticked c) = mtime c + 1 /\
    reservation_valid (ticked c) = reservation_valid c /\
    reservation_addr (ticked c) = reservation_addr c /\ mtimecmp (ticked c) = mtimecmp c)
    as (E1 & E2 & E3 & E4 & E5 & E6 & E7) by (unfold ticked; cbv zeta; by destruct (eqb _ _)).
  destruct Ha. unfold rv in *. split; unfold rv; rewrite ?E1, ?E2, ?E3, ?E4, ?E5, ?E6, ?E7; try done.
  - simpl. by rewrite ag_time0.
  - change MIP with 0x344. by rewrite Hm1, Hm2.
Qed.

Lemma timer_matches h c r pc0 : agrees p h c r -> next_pc c = hpc h -> pc c = pc0 ->
  matches p pc0 (timer_tick pc0 h) (zoom timer_update (c, r)).
Proof.
  intros Ha Hn <-. destruct (ag_ready Ha) as (Hwf & _). pose proof (agrees_count h c r Ha) as Hc.
  unfold zoom. simpl view. rewrite timer_update_eq by done. unfold timer_tick, timer_fires.
  destruct (2 ^ 64 <=? htime h + 1); [done|].
  rewrite (ag_time Ha), (ag_cmp Ha), (ag_csr Ha MSTATUS), (ag_csr Ha MIE)
    by (unfold MSTATUS, MIE; lia).
  change MSTATUS with 0x300. change MIE with 0x304.
  assert (pc (ticked c) = pc c /\ next_pc (ticked c) = next_pc c) as [Ep En]
    by (unfold ticked; cbv zeta; by destruct (eqb _ _)).
  destruct (_ && _).
  - destruct (ag_ready Hc) as (Hwf' & _). rewrite trap_eq by done. unfold take_trap.
    rewrite (ag_csr Hc MTVEC) by (unfold MTVEC; lia). change MTVEC with 0x305.
    destruct (Z.eqb_spec (cv (ticked c) 0x305) 0) as [|Hv].
    + exists (ticked c), r. by rewrite Ep.
    + destruct (agrees_trapped p (count h) (ticked c) r 0x80000007 0 false Hc) as (H1 & H2 & H3);
        [done..|]. rewrite En, Hn in H1, H2.
      exists (trapped 0x80000007 0 false (ticked c)), r. split_and!; [done|done|congruence|done].
  - exists (ticked c), r. split_and!; [done|done|done|]. rewrite En. done.
Qed.
End Timer.
