(* ===== verification/Machine.v ===== *)
(** * The machine of machine.py: loading, checks and execution loops

    [machine] is the Machine object.  Its methods run in a world [W] that contains
    the machine, the CPU and the RAM object (for the attributes ram.size and
    ram.memory) and offers the memory interface; the periodic run() methods of the
    peripherals and the system-call handler are arguments.  A [while True] loop is
    a number of rounds ([loop] of Prelude.v): an exception is the only way out.
    Parsing of ELF files is done by a library, so load_elf takes the parsed file. *)

From Stdlib Require Import ZArith Lia Bool String.
From stdpp Require Import base numbers list option gmap strings.
From S2P Require Import Prelude PyStr Isa Ram Cpu Rvc CpuSem Exec ExecSem ExecSafe RamSafe Core.

Local Open Scope Z_scope.
Local Open Scope py_scope.

(** ** State *)

Record machine := mkMachine {
  timer : bool;
  mmio : bool;
  m_rvc : bool;
  m_logger : bool;
  trace : bool;
  regs_opt : option string;
  check_inv : bool;
  start_checks : option string;
  check_enable : bool;
  peripheral_runners : list periph;
  stack_top : option Z;
  stack_bottom : option Z;
  heap_end : option Z;
  text_start : option Z;
  text_end : option Z;
  text_snapshot : option (list Z);
  symbol_dict : gmap Z string;
  main_addr : option Z
}.

Definition set_check_enable (v : bool) (m : machine) : machine :=
  mkMachine (timer m) (mmio m) (m_rvc m) (m_logger m) (trace m) (regs_opt m) (check_inv m)
    (start_checks m) v (peripheral_runners m) (stack_top m) (stack_bottom m) (heap_end m)
    (text_start m) (text_end m) (text_snapshot m) (symbol_dict m) (main_addr m).

Definition set_start_checks (v : option string) (m : machine) : machine :=
  mkMachine (timer m) (mmio m) (m_rvc m) (m_logger m) (trace m) (regs_opt m) (check_inv m)
    v (check_enable m) (peripheral_runners m) (stack_top m) (stack_bottom m) (heap_end m)
    (text_start m) (text_end m) (text_snapshot m) (symbol_dict m) (main_addr m).

Definition set_peripheral_runners (v : list periph) (m : machine) : machine :=
  mkMachine (timer m) (mmio m) (m_rvc m) (m_logger m) (trace m) (regs_opt m) (check_inv m)
    (start_checks m) (check_enable m) v (stack_top m) (stack_bottom m) (heap_end m)
    (text_start m) (text_end m) (text_snapshot m) (symbol_dict m) (main_addr m).

Definition set_stack_top (v : option Z) (m : machine) : machine :=
  mkMachine (timer m) (mmio m) (m_rvc m) (m_logger m) (trace m) (regs_opt m) (check_inv m)
    (start_checks m) (check_enable m) (peripheral_runners m) v (stack_bottom m) (heap_end m)
    (text_start m) (text_end m) (text_snapshot m) (symbol_dict m) (main_addr m).

Definition set_stack_bottom (v : option Z) (m : machine) : machine :=
  mkMachine (timer m) (mmio m) (m_rvc m) (m_logger m) (trace m) (regs_opt m) (check_inv m)
    (start_checks m) (check_enable m) (peripheral_runners m) (stack_top m) v (heap_end m)
    (text_start m) (text_end m) (text_snapshot m) (symbol_dict m) (main_addr m).

Definition set_heap_end (v : option Z) (m : machine) : machine :=
  mkMachine (timer m) (mmio m) (m_rvc m) (m_logger m) (trace m) (regs_opt m) (check_inv m)
    (start_checks m) (check_enable m) (peripheral_runners m) (stack_top m) (stack_bottom m) v
    (text_start m) (text_end m) (text_snapshot m) (symbol_dict m) (main_addr m).

Definition set_text (start end_ : option Z) (snapshot : option (list Z)) (m : machine) : machine :=
  mkMachine (timer m) (mmio m) (m_rvc m) (m_logger m) (trace m) (regs_opt m) (check_inv m)
    (start_checks m) (check_enable m) (peripheral_runners m) (stack_top m) (stack_bottom m)
    (heap_end m) start end_ snapshot (symbol_dict m) (main_addr m).

Definition set_symbol_dict (v : gmap Z string) (m : machine) : machine :=
  mkMachine (timer m) (mmio m) (m_rvc m) (m_logger m) (trace m) (regs_opt m) (check_inv m)
    (start_checks m) (check_enable m) (peripheral_runners m) (stack_top m) (stack_bottom m)
    (heap_end m) (text_start m) (text_end m) (text_snapshot m) v (main_addr m).

Definition set_main_addr (v : option Z) (m : machine) : machine :=
  mkMachine (timer m) (mmio m) (m_rvc m) (m_logger m) (trace m) (regs_opt m) (check_inv m)
    (start_checks m) (check_enable m) (peripheral_runners m) (stack_top m) (stack_bottom m)
    (heap_end m) (text_start m) (text_end m) (text_snapshot m) (symbol_dict m) v.

(** A string option that is present and not empty is true. *)
Definition truthy (s : option string) : bool :=
  match s with Some s => negb (String.eqb s "") | None => false end.

(** [Machine(cpu, ram, ...)] *)
Definition Machine_init (timer mmio rvc logger trace : bool) (regs : option string)
    (check_inv : bool) (start_checks : option string) : res machine :=
  if (trace || truthy regs) && negb logger
  then Exn (SetupError "Tracing or register logging require a valid logger")
  else Ok (mkMachine timer mmio rvc logger trace regs check_inv start_checks false []
             None None None None None None ∅ None).

(** ** Register logging *)

(** What a name of the --regs option reads. *)
Inductive getter :=
| GReg (idx : Z) | GTimeLo | GTimeHi | GTimecmpLo | GTimecmpHi | GCsr (addr : Z) | GPc.

Definition REG_NAMES : list string :=
  ["zero"; "ra"; "sp"; "gp"; "tp"; "t0"; "t1"; "t2"; "s0/fp"; "s1"; "a0"; "a1"; "a2"; "a3";
   "a4"; "a5"; "a6"; "a7"; "s2"; "s3"; "s4"; "s5"; "s6"; "s7"; "s8"; "s9"; "s10"; "s11";
   "t3"; "t4"; "t5"; "t6"]%string.

Definition X_NAMES : list string :=
  ["x0"; "x1"; "x2"; "x3"; "x4"; "x5"; "x6"; "x7"; "x8"; "x9"; "x10"; "x11"; "x12"; "x13";
   "x14"; "x15"; "x16"; "x17"; "x18"; "x19"; "x20"; "x21"; "x22"; "x23"; "x24"; "x25"; "x26";
   "x27"; "x28"; "x29"; "x30"; "x31"]%string.

(** The position of a name in a list. *)
Fixpoint name_index (s : string) (l : list string) : option Z :=
  match l with
  | [] => None
  | x :: l' => if String.eqb s x then Some 0 else Z.succ <$> name_index s l'
  end.

Definition REG_NAME_NUM (s : string) : option Z :=
  if String.eqb s "s0" || String.eqb s "fp" then Some 8
  else match name_index s REG_NAMES with Some n => Some n | None => name_index s X_NAMES end.

Definition CSR_NAME_ADDR (s : string) : option Z :=
  match name_index s ["mstatus"; "misa"; "mie"; "mtvec"]%string with
  | Some n => [0x300; 0x301; 0x304; 0x305] !! Z.to_nat n
  | None => match name_index s ["mscratch"; "mepc"; "mcause"; "mtval"; "mip"]%string with
            | Some n => Some (0x340 + n)
            | None => None
            end
  end.

Definition getter_of (name : string) : res getter :=
  match REG_NAME_NUM name with
  | Some idx => Ok (GReg idx)
  | None =>
      if String.eqb name "mtime_lo" then Ok GTimeLo
      else if String.eqb name "mtimecmp_lo" then Ok GTimecmpLo
      else if String.eqb name "mtime_hi" then Ok GTimeHi
      else if String.eqb name "mtimecmp_hi" then Ok GTimecmpHi
      else match CSR_NAME_ADDR name with
           | Some a => Ok (GCsr a)
           | None =>
               if String.eqb name "pc" then Ok GPc
               else Exn (SetupError "Unknown register/CSR while setting up register logging")
           end
  end.

(** [make_regformatter_lambda(regstring)]: the getters, or SetupError. *)
Fixpoint getters_of (names : list string) : res (list getter) :=
  match names with
  | [] => Ok []
  | x :: l =>
      match getter_of x, getters_of l with
      | Ok g, Ok gs => Ok (g :: gs)
      | Exn e, _ => Exn e
      | _, Exn e => Exn e
      end
  end.

Definition make_regformatter_lambda (regstring : string) : res (list getter) :=
  getters_of (map (fun s => py_lower (py_strip s)) (py_split 44 regstring)).

(** The value a getter shows. *)
Definition getter_value (g : getter) : ST cpu Z :=
  match g with
  | GReg idx => reg idx
  | GTimeLo => gets (fun c => Z.land (mtime c) 0xFFFFFFFF)
  | GTimeHi => gets (fun c => Z.shiftr (mtime c) 32)
  | GTimecmpLo => gets (fun c => Z.land (mtimecmp c) 0xFFFFFFFF)
  | GTimecmpHi => gets (fun c => Z.shiftr (mtimecmp c) 32)
  | GCsr a => csr a
  | GPc => gets pc
  end.

(** ** UTF-8 *)

(** [str.encode()] of one character. *)
Definition utf8_char (c : Z) : option (list Z) :=
  if c <? 0x80 then Some [c]
  else if c <? 0x800 then
    Some [Z.lor 0xC0 (Z.shiftr c 6); Z.lor 0x80 (Z.land c 0x3F)]
  else if (0xD800 <=? c) && (c <=? 0xDFFF) then None
  else if c <? 0x10000 then
    Some [Z.lor 0xE0 (Z.shiftr c 12); Z.lor 0x80 (Z.land (Z.shiftr c 6) 0x3F);
          Z.lor 0x80 (Z.land c 0x3F)]
  else
    Some [Z.lor 0xF0 (Z.shiftr c 18); Z.lor 0x80 (Z.land (Z.shiftr c 12) 0x3F);
          Z.lor 0x80 (Z.land (Z.shiftr c 6) 0x3F); Z.lor 0x80 (Z.land c 0x3F)].

(** [str.encode()]; a surrogate cannot be encoded. *)
Fixpoint utf8_encode (s : list Z) : option (list Z) :=
  match s with
  | [] => Some []
  | c :: s' =>
      match utf8_char c, utf8_encode s' with
      | Some b, Some bs => Some (b ++ bs)
      | _, _ => None
      end
  end.

(** ** The parsed ELF file *)

Record elf_symbol := mkSym { sym_name : string; st_value : Z; st_func : bool }.

Record elf_file := mkElf {
  pt_load : list (Z * list Z);
  e_entry : Z;
  symtab : option (list elf_symbol);
  text_section : option (Z * Z)
}.

Section Machine.
Context {W : Type} `{HC : Has cpu W} `{HR : Has ram W} `{HM : Has machine W} `{R : RamOps W}.
Context (handle_ecall : option (ST W unit)) (runner : periph -> ST W unit).

(** A method of the machine's own attributes. *)
Definition mget {A} (f : machine -> A) : ST W A := gets (fun w => f (view w)).
Definition mset (f : machine -> machine) : ST W unit := zoom (modify f).

(** [register_peripheral(p)]: only the UART has a run() method. *)
Definition register_peripheral (p : periph) : ST W unit :=
  match p with
  | PtyUART => mset (fun m => set_peripheral_runners (peripheral_runners m ++ [p]) m)
  | _ => ret tt
  end.

Definition peripherals_run : ST W unit :=
  l <- mget peripheral_runners ;; for_each runner l.

(** ** Program arguments *)

(** [(x + n - 1) & ~(n - 1)] *)
Definition align_up (x n : Z) : Z := Z.land (x + (n - 1)) (Z.lnot (n - 1)).

(** [self.heap_end], used as a number. *)
Definition heap : ST W Z :=
  h <- mget heap_end ;; of_option TypeError h.

(** One round of the first loop of setup_argv: the pointer of the argument. *)
Definition store_arg (arg : list Z) : ST W Z :=
  addr <- mget heap_end ;;
  bytes <- of_option ValueError (utf8_encode arg) ;;
  addr <- of_option TypeError addr ;;
  store_binary addr (bytes ++ [0]) ;;;
  mset (set_heap_end (Some (align_up (addr + (py_len arg + 1)) 4))) ;;;
  ret addr.

Fixpoint store_args (argv : list (list Z)) : ST W (list Z) :=
  match argv with
  | [] => ret []
  | arg :: rest => p <- store_arg arg ;; ps <- store_args rest ;; ret (p :: ps)
  end.

(** One round of the second loop. *)
Definition store_pointer (ptr : Z) : ST W unit :=
  h <- heap ;;
  store_word h ptr ;;;
  mset (set_heap_end (Some (h + 4))).

Definition setup_argv (argv_list : list (list Z)) : ST W unit :=
  argv_pointers <- store_args argv_list ;;
  argv_table_addr <- mget heap_end ;;
  for_each store_pointer (argv_pointers ++ [0]) ;;;
  h <- heap ;;
  mset (set_heap_end (Some (align_up h 8))) ;;;
  zoom (set_reg 10 (py_len argv_list)) ;;;
  a <- of_option TypeError argv_table_addr ;;
  zoom (set_reg 11 a).

(** ** Loading *)

(** [self.start_checks is None or self.start_checks == 'auto'] *)
Definition checks_auto (s : option string) : bool :=
  match s with Some s => String.eqb s "auto" | None => true end.

(** [load_flatbinary(fname)]; [binary] is the content of the file. *)
Definition load_flatbinary (binary : list Z) : ST W unit :=
  store_binary 0 binary ;;;
  zoom (modify (set_pc 0)) ;;;
  s <- mget start_checks ;;
  if bool_decide (s = Some "main"%string)
  then raise (SetupError "start_checks=main is unsupported for flat binary executables")
  else if checks_auto s then mset (set_start_checks (Some "first-call"%string))
  else ret tt.

(** The boundaries the symbol table gives; a later symbol overrides. *)
Definition note_symbol (m : machine) (s : elf_symbol) : machine :=
  if String.eqb (sym_name s) "__heap_start" then set_heap_end (Some (st_value s)) m
  else if String.eqb (sym_name s) "__stack_top" then set_stack_top (Some (st_value s)) m
  else if String.eqb (sym_name s) "__stack_bottom" then set_stack_bottom (Some (st_value s)) m
  else if String.eqb (sym_name s) "main" then set_main_addr (Some (st_value s)) m
  else m.

Definition note_function (d : gmap Z string) (s : elf_symbol) : gmap Z string :=
  if String.eqb (sym_name s) "" then d
  else if st_func s then <[st_value s := sym_name s]> d else d.

(** [load_elf(fname, load_symbols, check_text)], on the parsed file. *)
Definition load_elf (elf : elf_file) (load_symbols check_text : bool) : ST W unit :=
  for_each (fun s => store_binary (fst s) (snd s)) (pt_load elf) ;;;
  zoom (modify (set_pc (e_entry elf))) ;;;
  match symtab elf with
  | Some syms =>
      mset (fun m => fold_left note_symbol syms m) ;;;
      if load_symbols
      then mset (fun m => set_symbol_dict (fold_left note_function syms (symbol_dict m)) m)
      else ret tt
  | None => ret tt
  end ;;;
  match text_section elf with
  | Some (sh_addr, sh_size) =>
      mem <- gets (fun w => memory (view w)) ;;
      mset (fun m => set_text (Some sh_addr) (Some (sh_addr + sh_size))
                      (if check_text then Some (py_slice mem sh_addr (sh_addr + sh_size))
                       else text_snapshot m) m)
  | None => ret tt
  end ;;;
  s <- mget start_checks ;;
  if checks_auto s then mset (set_start_checks (Some "main"%string)) else ret tt.

(** ** Invariant checks *)

Definition trigger_check : ST W bool :=
  s <- mget start_checks ;;
  p <- gets (fun w => pc (view w)) ;;
  match s with
  | Some s =>
      if String.eqb s "early" then ret true
      else if String.eqb s "main" then
        a <- mget main_addr ;; ret (bool_decide (Some p = a))
      else if String.eqb s "first-call" then
        inst <- load_word p ;;
        let opcode := Z.land inst 0x7F in
        ret ((opcode =? 0x6F) || (opcode =? 0x67))
      else
        match py_int 0 s with
        | Some v => ret (p =? Z.land v 0xFFFFFFFF)
        | None => raise (SetupError "Invalid --start-checks value")
        end
  | None => raise TypeError
  end.

Definition violation (msg : string) : ST W unit := raise (InvariantViolationError msg).

(** [if not(cond): raise InvariantViolationError(...)] *)
Definition require (cond : bool) (msg : string) : ST W unit :=
  if cond then ret tt else violation msg.

Definition MIN_GAP : Z := 256.

(** The checks proper, in the order of the source. *)
Definition invariants : ST W unit :=
  x0 <- zoom (reg 0) ;;
  require (x0 =? 0) "x0 register should always be 0" ;;;
  p <- gets (fun w => pc (view w)) ;;
  n <- gets (fun w => size (view w)) ;;
  require ((0 <=? p) && (p <? n)) "PC out of bounds" ;;;
  top <- mget stack_top ;;
  gp <- zoom (reg 3) ;;
  sp <- zoom (reg 2) ;;
  match top with
  | Some top => if gp =? 0 then ret tt else require (sp <=? top) "SP above stack top"
  | None => ret tt
  end ;;;
  bottom <- mget stack_bottom ;;
  match bottom with
  | Some bottom => if gp =? 0 then ret tt else require (bottom <=? sp) "SP below stack bottom"
  | None => ret tt
  end ;;;
  he <- mget heap_end ;;
  match he, bottom with
  | Some he, Some bottom => require (he + MIN_GAP <=? bottom) "Heap too close to stack"
  | _, _ => ret tt
  end ;;;
  match he with
  | Some he => require (he mod 4 =? 0) "Heap end not aligned"
  | None => ret tt
  end ;;;
  snapshot <- mget text_snapshot ;;
  match snapshot with
  | Some snapshot =>
      mem <- gets (fun w => memory (view w)) ;;
      m <- mget id ;;
      match text_start m, text_end m with
      | Some a, Some b =>
          require (bool_decide (py_slice mem a b = snapshot)) "Text segment has been modified!"
      | a, b =>
          require (bool_decide (py_slice mem (default 0 a) (default (py_len mem) b) = snapshot))
            "Text segment has been modified!"
      end
  | None => ret tt
  end.

Definition check_invariants : ST W unit :=
  on <- mget check_enable ;;
  if on : bool then invariants
  else
    go <- trigger_check ;;
    mset (set_check_enable go) ;;;
    if go : bool then invariants else ret tt.

(** ** Execution loops *)

(** The word the slow loops fetch: 16 bits first, the upper half only for a
    32-bit instruction. *)
Definition fetch_halves : ST W Z :=
  p <- gets (fun w => pc (view w)) ;;
  inst_low <- load_half p false ;;
  if Z.land inst_low 0x3 =? 0x3 then
    inst_high <- load_half (p + 2) false ;;
    ret (Z.lor inst_low (Z.shiftl inst_high 16))
  else ret inst_low.

(** The word the fast loops fetch. *)
Definition fetch_word : ST W Z :=
  p <- gets (fun w => pc (view w)) ;; load_word p.

(** [cpu.pc = cpu.next_pc] *)
Definition advance : ST W unit := zoom (modify (fun c => set_pc (next_pc c) c)).

(** [if (inst & 0x3) == 0x3: execute_32(inst) else: execute_16(inst & 0xFFFF)] *)
Definition execute_by_length (inst : Z) : ST W unit :=
  if Z.land inst 0x3 =? 0x3 then execute_32 handle_ecall inst
  else execute_16 handle_ecall (Z.land inst 0xFFFF).

Definition tick (on : bool) : ST W unit :=
  if on then zoom timer_update else ret tt.

(** [div += 1; if div & DIV_MASK == 0: self.peripherals_run(); div = 0] *)
Definition poll (div : Z) : ST W Z :=
  let div := div + 1 in
  if Z.land div 0xFF =? 0 then peripherals_run ;;; ret 0 else ret div.

(** The registers that are logged are read, the text goes to the logger. *)
Definition log_regs (getters : list getter) : ST W unit :=
  for_each (fun g => zoom (getter_value g) ;;; ret tt) getters.

Definition step_with_checks (getters : list getter) (div : Z) : ST W Z :=
  m <- mget id ;;
  log_regs getters ;;;
  (if check_inv m then check_invariants else ret tt) ;;;
  inst <- fetch_halves ;;
  execute handle_ecall inst ;;;
  tick (timer m) ;;;
  advance ;;;
  if mmio m then poll div else ret div.

Definition step_fast_no_rvc (u : unit) : ST W unit :=
  inst <- fetch_word ;; execute_32 handle_ecall inst ;;; advance.

Definition step_fast (u : unit) : ST W unit :=
  inst <- fetch_word ;; execute_by_length inst ;;; advance.

Definition step_timer (u : unit) : ST W unit :=
  inst <- fetch_word ;; execute_by_length inst ;;; zoom timer_update ;;; advance.

Definition step_mmio (div : Z) : ST W Z :=
  on <- mget timer ;;
  inst <- fetch_word ;;
  execute_by_length inst ;;;
  tick on ;;;
  advance ;;;
  poll div.

(** [n] rounds of each loop. *)
Definition run_with_checks (n : nat) : ST W unit :=
  m <- mget id ;;
  getters <- match regs_opt m with
             | Some r => if truthy (regs_opt m)
                         then fun w => (make_regformatter_lambda r, w) else ret []
             | None => ret []
             end ;;
  loop n (step_with_checks getters) 0 ;;; ret tt.
Definition run_fast_no_rvc (n : nat) : ST W unit := loop n step_fast_no_rvc tt.
Definition run_fast (n : nat) : ST W unit := loop n step_fast tt.
Definition run_timer (n : nat) : ST W unit := loop n step_timer tt.
Definition run_mmio (n : nat) : ST W unit := loop n step_mmio 0 ;;; ret tt.

(** [run()]: the loop is chosen by the features. *)
Definition run (n : nat) : ST W unit :=
  m <- mget id ;;
  p <- gets (fun w => pc (view w)) ;;
  let alignment_mask := if m_rvc m then 0x1 else 0x3 in
  if negb (Z.land p alignment_mask =? 0)
  then raise (MachineError "Initial PC violates the alignment requirement")
  else if truthy (regs_opt m) || check_inv m || trace m then run_with_checks n
  else if mmio m then run_mmio n
  else if timer m then run_timer n
  else if m_rvc m then run_fast n
  else run_fast_no_rvc n.
End Machine.
