(* ===== verification/Peripherals.v ===== *)
(** * The peripherals of peripherals.py

    MMIOTimer, PtyUART and MMIOBlockDevice, with their register maps.  The host
    side of the UART (the pseudo-terminal) and of the block device (the image
    file) is state: the events the next polls will see, how the next writes and
    the next transfers end, the bytes written so far, and the content of the
    file.  A host call that fails with another error than the one the code
    catches is an OSError. *)

From Stdlib Require Import ZArith Lia Bool String.
From stdpp Require Import base numbers list option strings.
From S2P Require Import Prelude PyStr Ram Cpu.

Local Open Scope Z_scope.
Local Open Scope py_scope.

Definition invalid_mmio (addr : Z) : exn := MemoryAccessError "Invalid MMIO register" addr.

(** ** MMIOTimer *)

Record mmio_timer := mkTimer {
  t_mtime_lo : Z;
  t_mtime_hi : Z;
  t_lo_updated : bool;
  t_hi_updated : bool
}.

Definition MMIOTimer_init : mmio_timer := mkTimer 0 0 false false.

Definition REG_MTIMECMP_LO : Z := 0x02004000.
Definition REG_MTIMECMP_HI : Z := REG_MTIMECMP_LO + 4.
Definition REG_MTIME_LO : Z := 0x0200BFF8.
Definition REG_MTIME_HI : Z := REG_MTIME_LO + 4.
Definition TIMER_REG_END : Z := REG_MTIME_HI + 4.

Section Timer.
Context {W : Type} `{HC : Has cpu W} `{HT : Has mmio_timer W}.

Definition MMIOTimer_read32 (addr : Z) : ST W Z :=
  c <- gets (fun w => view w) ;;
  if addr =? REG_MTIME_LO then ret (Z.land (mtime c) 0xFFFFFFFF)
  else if addr =? REG_MTIME_HI then ret (Z.shiftr (mtime c) 32)
  else if addr =? REG_MTIMECMP_LO then ret (Z.land (mtimecmp c) 0xFFFFFFFF)
  else if addr =? REG_MTIMECMP_HI then ret (Z.shiftr (mtimecmp c) 32)
  else raise (invalid_mmio addr).

(** The counter changes when both halves have been written. *)
Definition timer_commit : ST W unit :=
  t <- gets (fun w => view w) ;;
  if t_lo_updated t && t_hi_updated t then
    zoom (modify (set_mtime (Z.lor (Z.shiftl (t_mtime_hi t) 32) (t_mtime_lo t)))) ;;;
    zoom (modify (fun t => mkTimer (t_mtime_lo t) (t_mtime_hi t) false false))
  else ret tt.

Definition MMIOTimer_write32 (addr value : Z) : ST W unit :=
  (if addr =? REG_MTIMECMP_LO then
     zoom (modify (fun c =>
       set_mtimecmp (Z.lor (Z.land (mtimecmp c) 0xFFFFFFFF00000000) (Z.land value 0xFFFFFFFF)) c))
   else if addr =? REG_MTIMECMP_HI then
     zoom (modify (fun c =>
       set_mtimecmp (Z.lor (Z.land (mtimecmp c) 0x00000000FFFFFFFF)
                           (Z.shiftl (Z.land value 0xFFFFFFFF) 32)) c))
   else if addr =? REG_MTIME_LO then
     zoom (modify (fun t => mkTimer value (t_mtime_hi t) true (t_hi_updated t)))
   else if addr =? REG_MTIME_HI then
     zoom (modify (fun t => mkTimer (t_mtime_lo t) value (t_lo_updated t) true))
   else raise (invalid_mmio addr)) ;;;
  timer_commit.
End Timer.

(** ** PtyUART *)

(** What a poll of the master side of the pseudo-terminal sees. *)
Inductive rx_event :=
| RxData (data : list Z)
| RxBlocking
| RxOSError.

(** How [os.write] of one byte ends: the byte is taken, the call would block, or it
    fails. *)
Inductive tx_event :=
| TxAccepted
| TxBlocking
| TxOSError.

Record uart := mkUart {
  u_reg_base : Z;
  rx_buf : list Z;
  pty_events : list (option rx_event);
  pty_accepts : list tx_event;
  pty_written : list Z
}.

Definition PtyUART_init (reg_base : Z) (events : list (option rx_event)) (accepts : list tx_event)
    : uart := mkUart reg_base [] events accepts [].

(** [run()]: nothing is selected, or one descriptor is ready and at most 64 bytes
    are read from it. *)
Definition PtyUART_run : ST uart unit :=
  fun u => match pty_events u with
           | [] => (Ok tt, u)
           | None :: ev =>
               (Ok tt, mkUart (u_reg_base u) (rx_buf u) ev (pty_accepts u) (pty_written u))
           | Some (RxData data) :: ev =>
               (Ok tt, mkUart (u_reg_base u) (rx_buf u ++ data) ev (pty_accepts u) (pty_written u))
           | Some RxBlocking :: ev =>
               (Ok tt, mkUart (u_reg_base u) (rx_buf u) ev (pty_accepts u) (pty_written u))
           | Some RxOSError :: ev =>
               (Exn OSError, mkUart (u_reg_base u) (rx_buf u) ev (pty_accepts u) (pty_written u))
           end.

Definition PtyUART_read32 (addr : Z) : ST uart Z :=
  base <- gets u_reg_base ;;
  if addr =? base + 4 then
    PtyUART_run ;;;
    fun u => match rx_buf u with
             | c :: buf =>
                 (Ok c, mkUart (u_reg_base u) buf (pty_events u) (pty_accepts u) (pty_written u))
             | [] => (Ok (Z.shiftl 1 31), u)
             end
  else if addr =? base then ret 0
  else raise (invalid_mmio addr).

Definition PtyUART_write32 (addr value : Z) : ST uart unit :=
  base <- gets u_reg_base ;;
  if addr =? base then
    fun u =>
      let '(ev, rest) := match pty_accepts u with e :: l => (e, l) | [] => (TxAccepted, []) end in
      let u' written := mkUart (u_reg_base u) (rx_buf u) (pty_events u) rest written in
      match ev with
      | TxAccepted => (Ok tt, u' (pty_written u ++ [Z.land value 0xFF]))
      | TxBlocking => (Ok tt, u' (pty_written u))
      | TxOSError => (Exn OSError, u' (pty_written u))
      end
  else raise (invalid_mmio addr).

(** ** MMIOBlockDevice *)

(** How the seek, read, write and flush of one command end: they succeed, or one of
    them fails after so many bytes have reached the file. *)
Inductive disk_event :=
| DiskDone
| DiskFailed (written : nat).

Record blkdev := mkBlk {
  b_reg_base : Z;
  block_size : Z;
  num_blocks : Z;
  cmd : Z;
  blk : Z;
  ptr : Z;
  status : Z;
  image : list Z;
  disk_events : list disk_event
}.

Definition set_cmd (v : Z) (b : blkdev) : blkdev :=
  mkBlk (b_reg_base b) (block_size b) (num_blocks b) v (blk b) (ptr b) (status b) (image b)
    (disk_events b).
Definition set_blk (v : Z) (b : blkdev) : blkdev :=
  mkBlk (b_reg_base b) (block_size b) (num_blocks b) (cmd b) v (ptr b) (status b) (image b)
    (disk_events b).
Definition set_ptr (v : Z) (b : blkdev) : blkdev :=
  mkBlk (b_reg_base b) (block_size b) (num_blocks b) (cmd b) (blk b) v (status b) (image b)
    (disk_events b).
Definition set_status (v : Z) (b : blkdev) : blkdev :=
  mkBlk (b_reg_base b) (block_size b) (num_blocks b) (cmd b) (blk b) (ptr b) v (image b)
    (disk_events b).
Definition set_image (v : list Z) (b : blkdev) : blkdev :=
  mkBlk (b_reg_base b) (block_size b) (num_blocks b) (cmd b) (blk b) (ptr b) (status b) v
    (disk_events b).
Definition set_disk_events (v : list disk_event) (b : blkdev) : blkdev :=
  mkBlk (b_reg_base b) (block_size b) (num_blocks b) (cmd b) (blk b) (ptr b) (status b) (image b)
    v.

(** [_open_or_create_image()]: [existing] is the content of the file, if there is
    one; a new file is filled with 0xFF. *)
Definition open_or_create_image (existing : option (list Z)) (block_size size : Z) : list Z :=
  match existing with
  | Some content => content
  | None => replicate (Z.to_nat (size * block_size)) 0xFF
  end.

Definition MMIOBlockDevice_init (reg_base block_size size : Z) (existing : option (list Z))
    (events : list disk_event) : blkdev :=
  mkBlk reg_base block_size size 0 0 0 1 (open_or_create_image existing block_size size) events.

(** [fd.seek(offset); fd.read(n)] *)
Definition file_read (img : list Z) (offset n : Z) : list Z :=
  take (Z.to_nat n) (drop (Z.to_nat offset) img).

(** [fd.seek(offset); fd.write(data)]: a gap after the end is filled with zeros. *)
Definition file_write (img : list Z) (offset : Z) (data : list Z) : list Z :=
  let gap := replicate (Z.to_nat offset - length img) 0 in
  take (Z.to_nat offset) (img ++ gap) ++ data ++ drop (Z.to_nat offset + length data) img.

(** The file operations of a read and of a write command, as the host lets them end. *)
Definition disk_next (d : blkdev) : disk_event * blkdev :=
  match disk_events d with
  | [] => (DiskDone, d)
  | ev :: rest => (ev, set_disk_events rest d)
  end.

Definition disk_read (offset n : Z) : ST blkdev (list Z) :=
  fun d => match disk_next d with
           | (DiskDone, d') => (Ok (file_read (image d) offset n), d')
           | (DiskFailed _, d') => (Exn OSError, d')
           end.

Definition disk_write (offset : Z) (data : list Z) : ST blkdev unit :=
  fun d => match disk_next d with
           | (DiskDone, d') => (Ok tt, set_image (file_write (image d) offset data) d')
           | (DiskFailed n, d') =>
               (Exn OSError, set_image (file_write (image d) offset (take n data)) d')
           end.

Section BlockDevice.
Context {W : Type} `{HB : Has blkdev W} `{R : RamOps W}.

Definition bget {A} (f : blkdev -> A) : ST W A := gets (fun w => f (view w)).
Definition bset (f : blkdev -> blkdev) : ST W unit := zoom (modify f).

(** [_execute_cmd()] *)
Definition execute_cmd : ST W unit :=
  d <- bget id ;;
  let offset := blk d * block_size d in
  if num_blocks d * block_size d <=? offset then bset (set_status 1)
  else
    (if cmd d =? 0 then
       data <- zoom (disk_read offset (block_size d)) ;;
       store_binary (ptr d) data
     else if cmd d =? 1 then
       data <- load_binary (ptr d) (block_size d) ;;
       zoom (disk_write offset data)
     else ret tt) ;;;
    bset (set_status 1).

Definition MMIOBlockDevice_read32 (addr : Z) : ST W Z :=
  d <- bget id ;;
  let base := b_reg_base d in
  if addr =? base then ret (cmd d)
  else if addr =? base + 4 then ret (blk d)
  else if addr =? base + 8 then ret (ptr d)
  else if addr =? base + 0xC then ret 0
  else if addr =? base + 0x10 then ret (status d)
  else raise (invalid_mmio addr).

Definition MMIOBlockDevice_write32 (addr value : Z) : ST W unit :=
  base <- bget b_reg_base ;;
  if addr =? base then bset (set_cmd value)
  else if addr =? base + 4 then bset (set_blk value)
  else if addr =? base + 8 then bset (set_ptr value)
  else if addr =? base + 0xC then if value =? 1 then execute_cmd else ret tt
  else raise (invalid_mmio addr).
End BlockDevice.
