(* ===== verification/World.v ===== *)
(** * The whole emulator state

    [world] holds the objects riscv-emu.py wires together: the CPU, the RAM object,
    the machine and the peripherals.  The bound methods that a memory-mapped range
    holds are dispatched on the peripheral, and the five memory classes are the
    five memory interfaces of the world. *)

From Stdlib Require Import ZArith Lia Bool String.
From stdpp Require Import base numbers list option gmap strings.
From S2P Require Import Prelude PyStr Isa Ram Cpu Rvc CpuSem Exec ExecSem ExecSafe RamSafe Core.
From S2P Require Import Machine Peripherals.

Local Open Scope Z_scope.
Local Open Scope py_scope.

Record world := mkWorld {
  w_cpu : cpu;
  w_ram : ram;
  w_machine : machine;
  w_timer : mmio_timer;
  w_uart : uart;
  w_blk : blkdev
}.

#[export] Instance world_cpu : Has cpu world.
Proof.
  refine {| view := w_cpu;
            put c w := mkWorld c (w_ram w) (w_machine w) (w_timer w) (w_uart w) (w_blk w) |};
    by intros; destruct w.
Defined.

#[export] Instance world_ram : Has ram world.
Proof.
  refine {| view := w_ram;
            put r w := mkWorld (w_cpu w) r (w_machine w) (w_timer w) (w_uart w) (w_blk w) |};
    by intros; destruct w.
Defined.

#[export] Instance world_machine : Has machine world.
Proof.
  refine {| view := w_machine;
            put m w := mkWorld (w_cpu w) (w_ram w) m (w_timer w) (w_uart w) (w_blk w) |};
    by intros; destruct w.
Defined.

#[export] Instance world_timer : Has mmio_timer world.
Proof.
  refine {| view := w_timer;
            put t w := mkWorld (w_cpu w) (w_ram w) (w_machine w) t (w_uart w) (w_blk w) |};
    by intros; destruct w.
Defined.

#[export] Instance world_uart : Has uart world.
Proof.
  refine {| view := w_uart;
            put u w := mkWorld (w_cpu w) (w_ram w) (w_machine w) (w_timer w) u (w_blk w) |};
    by intros; destruct w.
Defined.

#[export] Instance world_blk : Has blkdev world.
Proof.
  refine {| view := w_blk;
            put b w := mkWorld (w_cpu w) (w_ram w) (w_machine w) (w_timer w) (w_uart w) b |};
    by intros; destruct w.
Defined.

(** The run() methods the machine polls. *)
Definition world_runner (p : periph) : ST world unit :=
  match p with PtyUART => zoom PtyUART_run | _ => ret tt end.

(** The bound methods of the ranges.  The block device transfers through the RAM
    object that holds the ranges, whose binary transfers bypass them. *)
Section Ranges.
Context (Rbin : RamOps world).

Definition world_read32 (p : periph) (addr : Z) : ST world Z :=
  match p with
  | PtyUART => zoom (PtyUART_read32 addr)
  | MMIOBlockDevice => MMIOBlockDevice_read32 addr
  | MMIOTimer => MMIOTimer_read32 addr
  end.

Definition world_write32 (p : periph) (addr value : Z) : ST world unit :=
  match p with
  | PtyUART => zoom (PtyUART_write32 addr value)
  | MMIOBlockDevice => MMIOBlockDevice_write32 addr value
  | MMIOTimer => MMIOTimer_write32 addr value
  end.
End Ranges.

(** The memory of a world with peripherals, unchecked and checked. *)
Definition world_RAM_MMIO : RamOps world :=
  RAM_MMIO_ops world_read32 (world_write32 RAM_ops).
Definition world_SafeRAM_MMIO : RamOps world :=
  SafeRAM_MMIO_ops world_read32 (world_write32 SafeRAM_ops).

(** ** The plain memory classes in the world *)

(** The processor and the memory are well formed and the trigger of the checks is set. *)
Definition world_inv (Ic : cpu -> Prop) (w : world) : Prop :=
  Ic (w_cpu w) /\ wf_ram (w_ram w) /\ start_checks (w_machine w) <> None.

Lemma world_zoom (Ic : cpu -> Prop) {A} (m : ST ram A) Q : ram_safe m Q ->
  keeps machine_error (world_inv Ic) (zoom m) Q.
Proof.
  intros Hm. eapply keeps_zoom; [exact Hm|by intros ? (? & ? & ?)|]. by intros w r' (? & ? & ?).
Qed.

(** A memory safe beside a processor is safe in the world: the operations of the
    plain classes only see the RAM object. *)
Lemma world_of_node (Ic : cpu -> Prop) {A} (m : ST ram A) Q :
  keeps machine_error (node_inv Ic) (zoom m) Q -> (exists c, Ic c) ->
  keeps machine_error (world_inv Ic) (zoom m) Q.
Proof.
  intros Hm [c Hc]. apply world_zoom. intros r Hr.
  specialize (Hm (c, r) (conj Hc Hr)). unfold zoom in Hm. simpl in Hm.
  destruct (m r) as [[a|e] r']; destruct Hm as [[? ?] ?]; auto.
Qed.

#[export] Instance world_RAM_safe : @RamSafe world _ RAM_ops machine_error wf_cpu (world_inv wf_cpu).
Proof.
  pose proof (RAM_RamSafe wf_cpu) as H. pose proof (new_cpu_ready true) as [Hc _].
  split; [by intros ? (? & ? & ?)|by intros ? ? (? & ? & ?)|..]; intros; apply world_of_node; eauto; apply H.
Qed.

#[export] Instance world_SafeRAM_safe : @RamSafe world _ SafeRAM_ops machine_error wf_cpu (world_inv wf_cpu).
Proof.
  pose proof (SafeRAM_RamSafe wf_cpu) as H. pose proof (new_cpu_ready true) as [Hc _].
  split; [by intros ? (? & ? & ?)|by intros ? ? (? & ? & ?)|..]; intros; apply world_of_node; eauto; apply H.
Qed.

(** ** Routing *)

(** A word access at an address of a registered range goes to the peripheral
    of the first range that contains it, with the value masked to 32 bits, and
    does not touch the memory; at any other address it is exactly the access of
    the memory class without ranges. *)
Theorem mmio_routing (w : world) (a v : Z) :
  load_word (RamOps := world_SafeRAM_MMIO) a w =
    match mmio_find a (mmio_ranges (w_ram w)) with
    | Some p => world_read32 p a w
    | None => load_word (RamOps := SafeRAM_ops) a w
    end /\
  store_word (RamOps := world_SafeRAM_MMIO) a v w =
    match mmio_find a (mmio_ranges (w_ram w)) with
    | Some p => world_write32 SafeRAM_ops p a (v mod 2 ^ 32) w
    | None => store_word (RamOps := SafeRAM_ops) a v w
    end /\
  load_word (RamOps := world_RAM_MMIO) a w =
    match mmio_find a (mmio_ranges (w_ram w)) with
    | Some p => world_read32 p a w
    | None => load_word (RamOps := RAM_ops) a w
    end /\
  store_word (RamOps := world_RAM_MMIO) a v w =
    match mmio_find a (mmio_ranges (w_ram w)) with
    | Some p => world_write32 RAM_ops p a (v mod 2 ^ 32) w
    | None => store_word (RamOps := RAM_ops) a v w
    end.
Proof.
  assert (forall r, body_store_word a (Z.land v 0xFFFFFFFF) r = body_store_word a v r) as Hidem.
  { intros r. unfold body_store_word. rewrite <- Z.land_assoc. done. }
  split_and!.
  - cbn. unfold SafeRAM_MMIO_load_word. simpl view. by destruct (mmio_find _ _).
  - cbn. unfold SafeRAM_MMIO_store_word. simpl view.
    destruct (mmio_find _ _); [by rewrite land_ffffffff|].
    unfold zoom, SafeRAM_store_word, bind. destruct (SafeRAM_check a 4 _) as [[]]; [|done].
    by rewrite Hidem.
  - cbn. unfold RAM_MMIO_load_word. simpl view. by destruct (mmio_find _ _).
  - cbn. unfold RAM_MMIO_store_word. simpl view.
    destruct (mmio_find _ _); [by rewrite land_ffffffff|].
    unfold zoom, RAM_store_word, on_index_error, catch. by rewrite Hidem.
Qed.
