(* ===== verification/Lift.v ===== *)
(** * The processor in a larger world

    The handlers of cpu.py reach nothing but the processor and the memory, so what they
    do on the small node of a processor and the checked memory they also do in every
    world that contains the two, and with every memory class that agrees with the
    checked one.  [lifts P X m0 m]: from a world whose memory satisfies [P], the computation
    [m] does what [m0] does on the node and keeps [P], unless [m0] raises an exception
    outside [X].  The rules follow the structure of the code; [LiftMem] is what a memory
    class promises. *)

From Stdlib Require Import ZArith Lia Bool String.
From stdpp Require Import base numbers list option gmap strings.
From S2P Require Import Prelude PyStr Isa Ram Cpu Rvc CpuSem Exec ExecSem ExecSafe RamSafe Core.
From S2P Require Import Machine Peripherals World.

Local Open Scope Z_scope.
Local Open Scope py_scope.

(** Processor and memory are different parts of the world. *)
Class Separate (W : Type) `{HC : Has cpu W} `{HR : Has ram W} : Prop := {
  sep_ram : forall (c : cpu) (w : W), view (A := ram) (put c w) = view w;
  sep_cpu : forall (r : ram) (w : W), view (A := cpu) (put r w) = view w;
  sep_comm : forall (c : cpu) (r : ram) (w : W), put c (put r w) = put r (put c w)
}.

#[export] Instance node_Separate : Separate node.
Proof. by split; intros; destruct w. Qed.

#[export] Instance world_Separate : Separate world.
Proof. by split; intros; destruct w. Qed.

Create HintDb lifts discriminated.

Section Lift.
Context {W : Type} `{HC : Has cpu W} `{HR : Has ram W} `{HS : !Separate W}.
Context (P : ram -> Prop) (X : exn -> Prop).

(** The processor with its memory, taken out of the world and put back. *)
Definition node_of (w : W) : node := (view w, view w).
Definition with_node (n : node) (w : W) : W := put (snd n) (put (fst n) w).

Lemma node_with n w : node_of (with_node n w) = n.
Proof. unfold node_of, with_node. rewrite sep_cpu, !view_put. by destruct n. Qed.

Lemma with_with n n' w : with_node n (with_node n' w) = with_node n w.
Proof. unfold with_node. by rewrite (sep_comm (fst n)), !put_put. Qed.

Lemma with_node_of w : with_node (node_of w) w = w.
Proof. unfold with_node. simpl. by rewrite !put_view. Qed.

Lemma with_cpu (c : cpu) (w : W) : with_node (c, view w) w = put c w.
Proof. unfold with_node. simpl. by rewrite <- (sep_ram c w), put_view. Qed.

Lemma with_ram (r : ram) (w : W) : with_node (view w, r) w = put r w.
Proof. unfold with_node. simpl. by rewrite put_view. Qed.

Definition allowed {A} (x : res A) : Prop := match x with Ok _ => True | Exn e => X e end.

Definition lifts {A} (m0 : ST node A) (m : ST W A) : Prop :=
  forall w, P (view w) ->
    let '(x, n) := m0 (node_of w) in allowed x -> P (snd n) /\ m w = (x, with_node n w).

(** ** Rules *)

Lemma lifts_ret {A} (a : A) : lifts (ret a) (ret a).
Proof. intros w Hp _. unfold ret. by rewrite with_node_of. Qed.

Lemma lifts_raise {A} e : lifts (A := A) (raise e) (raise e).
Proof. intros w Hp _. unfold raise. by rewrite with_node_of. Qed.

(** An exception that is outside [X] anyway. *)
Lemma lifts_skip {A} e (m : ST W A) : ~ X e -> lifts (raise e) m.
Proof. intros He w Hp H. by destruct He. Qed.

Lemma lifts_bind {A B} (m0 : ST node A) (k0 : A -> ST node B) (m : ST W A) (k : A -> ST W B) :
  lifts m0 m -> (forall a, lifts (k0 a) (k a)) -> lifts (bind m0 k0) (bind m k).
Proof.
  intros Hm Hk w Hp. specialize (Hm w Hp). unfold bind.
  destruct (m0 (node_of w)) as [[a|e] n] eqn:E.
  - destruct (Hm I) as [Hn ->]. specialize (Hk a (with_node n w)). rewrite node_with in Hk.
    specialize (Hk (eq_ind_r P Hn (f_equal snd (node_with n w)))).
    destruct (k0 a n) as [x n']. intros Hx. destruct (Hk Hx) as [? ->]. by rewrite with_with.
  - intros He. by destruct (Hm He) as [? ->].
Qed.

Lemma lifts_gets {A} (f0 : node -> A) (f : W -> A) :
  (forall w, f w = f0 (node_of w)) -> lifts (gets f0) (gets f).
Proof. intros Hf w Hp _. unfold gets. by rewrite Hf, with_node_of. Qed.

Lemma lifts_zoom_cpu {A} (m : ST cpu A) : lifts (zoom m) (zoom m).
Proof.
  intros w Hp. unfold zoom. simpl. destruct (m (view w)) as [x c]. intros _. by rewrite with_cpu.
Qed.

(** A memory operation that agrees with another one where that one succeeds. *)
Lemma lifts_zoom_agree {A} (m0 m : ST ram A) :
  (forall r x r', P r -> m0 r = (x, r') -> allowed x -> P r' /\ m r = (x, r')) ->
  lifts (zoom m0) (zoom m).
Proof.
  intros Hm w Hp. unfold zoom. simpl. destruct (m0 (view w)) as [x r] eqn:E. intros Hx.
  destruct (Hm _ _ _ Hp E Hx) as [? ->]. by rewrite with_ram.
Qed.

Lemma lifts_if {A} (b : bool) (m0 k0 : ST node A) (m k : ST W A) :
  lifts m0 m -> lifts k0 k -> lifts (if b then m0 else k0) (if b then m else k).
Proof. by destruct b. Qed.

Lemma lifts_loop {A} (f0 : A -> ST node A) (f : A -> ST W A) n a :
  (forall x, lifts (f0 x) (f x)) -> lifts (loop n f0 a) (loop n f a).
Proof.
  intros Hf. revert a. induction n as [|n IH]; intros a; simpl; [apply lifts_ret|].
  apply lifts_bind; auto.
Qed.
End Lift.

#[export] Hint Resolve lifts_ret lifts_raise lifts_zoom_cpu : lifts.
#[export] Hint Extern 1 (lifts _ _ (gets _) (gets _)) => apply lifts_gets; done : lifts.

(** The alternatives of a conditional, without unfolding them. *)
Ltac lift_ifs :=
  repeat lazymatch goal with |- lifts _ _ (if _ then _ else _) _ => apply lifts_if end.

(** Follow the structure of the code. *)
Ltac lift :=
  repeat lazymatch goal with
  | |- lifts _ _ (bind _ _) (bind _ _) => apply lifts_bind; [|intros]
  | |- lifts _ _ (if _ then _ else _) (if _ then _ else _) => apply lifts_if
  | |- lifts _ _ (let _ := _ in _) _ => cbv zeta
  | |- lifts _ _ _ _ => solve [eauto with lifts nocore] || fail 1
  end.

(** ** The memory classes *)

Class LiftMem {W : Type} `{HC : Has cpu W} `{HR : Has ram W} (P : ram -> Prop) (X : exn -> Prop)
    (R : RamOps W) : Prop := {
  lift_load_byte : forall a s, lifts P X (load_byte (RamOps := SafeRAM_ops) a s) (load_byte a s);
  lift_load_half : forall a s, lifts P X (load_half (RamOps := SafeRAM_ops) a s) (load_half a s);
  lift_load_word : forall a, lifts P X (load_word (RamOps := SafeRAM_ops) a) (load_word a);
  lift_store_byte : forall a v, lifts P X (store_byte (RamOps := SafeRAM_ops) a v) (store_byte a v);
  lift_store_half : forall a v, lifts P X (store_half (RamOps := SafeRAM_ops) a v) (store_half a v);
  lift_store_word : forall a v, lifts P X (store_word (RamOps := SafeRAM_ops) a v) (store_word a v);
  lift_load_cstring : forall a n,
    lifts P X (load_cstring (RamOps := SafeRAM_ops) a n) (load_cstring a n)
}.

#[export] Hint Resolve lift_load_byte lift_load_half lift_load_word lift_store_byte
  lift_store_half lift_store_word lift_load_cstring : lifts.

(** The exceptions the reference machine knows. *)
Definition stops (e : exn) : Prop :=
  match e with ExecutionTerminated _ | MemoryAccessError _ _ => True | _ => False end.

(** The same without faults of the memory, which the unchecked class detects late. *)
Definition ends (e : exn) : Prop :=
  match e with ExecutionTerminated _ => True | _ => False end.

(** No condition on the memory. *)
Definition any_ram (_ : ram) : Prop := True.

Section Classes.
Context {W : Type} `{HC : Has cpu W} `{HR : Has ram W} `{HS : !Separate W}.

#[export] Instance SafeRAM_LiftMem X : LiftMem (W := W) any_ram X SafeRAM_ops.
Proof. by split; intros; apply lifts_zoom_agree. Qed.

(** What the checked access does successfully, the unchecked one does too. *)
Lemma unchecked_agrees {A} a n (m : ST ram A) r x r' :
  (SafeRAM_check a n ;;; m) r = (x, r') -> allowed ends x -> on_index_error a m r = (x, r').
Proof.
  unfold bind, SafeRAM_check, on_index_error, catch.
  destruct (_ || _); [by intros [= <- <-]|]. intros -> Hx. by destruct x as [|[]].
Qed.

#[export] Instance RAM_LiftMem : LiftMem (W := W) any_ram ends RAM_ops.
Proof.
  split; intros; apply lifts_zoom_agree; intros r x r' _ E Hx; (split; [done|]); revert E Hx;
    try apply unchecked_agrees.
  simpl. unfold SafeRAM_load_cstring, RAM_load_cstring.
  destruct (_ || _); [by intros [= <- <-]|done].
Qed.
End Classes.

(** ** Execution *)

Section Execution.
Context {W : Type} `{HC : Has cpu W} `{HR : Has ram W} `{HS : !Separate W}.
Context (P : ram -> Prop) (X : exn -> Prop) (R : RamOps W) `{HM : !LiftMem P X R}.
Hypothesis HX : forall msg, ~ X (MachineError msg).
Context (handle_ecall : option (ST W unit)).

Lemma exec_loads_lifts inst rd f3 rs1 :
  lifts P X (exec_loads (R := SafeRAM_ops) inst rd f3 rs1) (exec_loads inst rd f3 rs1).
Proof using HM HS. unfold exec_loads. lift. Qed.

Lemma exec_stores_lifts inst f3 rs1 rs2 :
  lifts P X (exec_stores (R := SafeRAM_ops) inst f3 rs1 rs2) (exec_stores inst f3 rs1 rs2).
Proof using HM HS. unfold exec_stores. lift. Qed.

Lemma exec_EBREAK_lifts : lifts P X (exec_EBREAK (R := SafeRAM_ops)) exec_EBREAK.
Proof using HM HS. unfold exec_EBREAK. lift. Qed.

(** Without a handler the node raises; what a world's handler does is outside [X]. *)
Lemma exec_ECALL_lifts : lifts P X (exec_ECALL (W := node) None) (exec_ECALL handle_ecall).
Proof using HS HX.
  unfold exec_ECALL. apply lifts_bind; [auto with lifts|]. intros mtvec.
  destruct (mtvec =? 0); cbn [negb].
  - by apply lifts_skip.
  - destruct handle_ecall; auto with lifts.
Qed.

Lemma exec_SYSTEM_lifts inst rd f3 rs1 :
  lifts P X (exec_SYSTEM (R := SafeRAM_ops) None inst rd f3 rs1)
    (exec_SYSTEM handle_ecall inst rd f3 rs1).
Proof using HM HS HX.
  unfold exec_SYSTEM. pose proof exec_ECALL_lifts. pose proof exec_EBREAK_lifts.
  lift_ifs; auto with lifts.
Qed.

Lemma amo_rmw_lifts a rd rs2 op :
  lifts P X (amo_rmw (R := SafeRAM_ops) a rd rs2 op) (amo_rmw a rd rs2 op).
Proof using HM HS. unfold amo_rmw. lift. Qed.

Lemma amo_rmw_unsigned_lifts a rd rs2 op :
  lifts P X (amo_rmw_unsigned (R := SafeRAM_ops) a rd rs2 op) (amo_rmw_unsigned a rd rs2 op).
Proof using HM HS. unfold amo_rmw_unsigned. lift. Qed.

Lemma exec_AMO_lifts inst rd f3 rs1 rs2 :
  lifts P X (exec_AMO (R := SafeRAM_ops) inst rd f3 rs1 rs2) (exec_AMO inst rd f3 rs1 rs2).
Proof using HM HS.
  unfold exec_AMO. apply lifts_if; [auto with lifts|]. cbv zeta. apply lifts_bind; [auto with lifts|].
  intros a. lift_ifs;
    auto using amo_rmw_lifts, amo_rmw_unsigned_lifts with lifts; unfold exec_LR, exec_SC; lift.
Qed.

Lemma dispatch_lifts inst len d :
  lifts P X (dispatch (R := SafeRAM_ops) None inst len d) (dispatch handle_ecall inst len d).
Proof using HM HS HX.
  unfold dispatch. destruct d. lift_ifs;
    auto using exec_loads_lifts, exec_stores_lifts, exec_SYSTEM_lifts, exec_AMO_lifts with lifts.
Qed.

Lemma execute_decoded_lifts inst len d :
  lifts P X (execute_decoded (R := SafeRAM_ops) None inst len d)
    (execute_decoded handle_ecall inst len d).
Proof using HM HS HX. unfold execute_decoded. pose proof dispatch_lifts. lift. Qed.

Lemma execute_32_lifts inst :
  lifts P X (execute_32 (R := SafeRAM_ops) None inst) (execute_32 handle_ecall inst).
Proof using HM HS HX.
  unfold execute_32. apply lifts_bind; [auto with lifts|]. intros [d|];
    [apply execute_decoded_lifts|]. apply lifts_bind; [auto with lifts|].
  intros. apply execute_decoded_lifts.
Qed.

Lemma execute_16_lifts inst :
  lifts P X (execute_16 (R := SafeRAM_ops) None inst) (execute_16 handle_ecall inst).
Proof using HM HS HX.
  unfold execute_16. apply lifts_bind; [auto with lifts|]. intros [[d e]|];
    [apply execute_decoded_lifts|]. destruct (expand_compressed inst) as [e []]; cbn [negb];
    [|auto with lifts]. apply lifts_bind; [auto with lifts|]. intros. apply execute_decoded_lifts.
Qed.

Lemma execute_lifts inst :
  lifts P X (execute (R := SafeRAM_ops) None inst) (execute handle_ecall inst).
Proof using HM HS HX.
  unfold execute. apply lifts_bind; [auto with lifts|]. intros b.
  lift_ifs; auto using execute_32_lifts, execute_16_lifts.
Qed.

(** ** The rounds of the loops *)

Lemma execute_by_length_lifts inst :
  lifts P X (execute_by_length (R := SafeRAM_ops) None inst) (execute_by_length handle_ecall inst).
Proof using HM HS HX.
  unfold execute_by_length. apply lifts_if; auto using execute_32_lifts, execute_16_lifts.
Qed.

Lemma fetch_word_lifts : lifts P X (fetch_word (R := SafeRAM_ops)) fetch_word.
Proof using HM HS. unfold fetch_word. lift. Qed.

Lemma fetch_halves_lifts : lifts P X (fetch_halves (R := SafeRAM_ops)) fetch_halves.
Proof using HM HS. unfold fetch_halves. lift. Qed.

Lemma tick_lifts on : lifts P X (tick on) (tick on).
Proof using HS. unfold tick. lift. Qed.

Lemma step_fast_lifts u :
  lifts P X (step_fast (R := SafeRAM_ops) None u) (step_fast handle_ecall u).
Proof using HM HS HX.
  unfold step_fast, advance. pose proof fetch_word_lifts. pose proof execute_by_length_lifts.
  repeat (apply lifts_bind; [|intros]); auto with lifts.
Qed.

Lemma step_fast_no_rvc_lifts u :
  lifts P X (step_fast_no_rvc (R := SafeRAM_ops) None u) (step_fast_no_rvc handle_ecall u).
Proof using HM HS HX.
  unfold step_fast_no_rvc, advance.
  apply lifts_bind; [apply fetch_word_lifts|intros inst].
  apply lifts_bind; [apply execute_32_lifts|intros v]. auto with lifts.
Qed.

Lemma step_timer_lifts u :
  lifts P X (step_timer (R := SafeRAM_ops) None u) (step_timer handle_ecall u).
Proof using HM HS HX.
  unfold step_timer, advance. pose proof fetch_word_lifts. pose proof execute_by_length_lifts.
  repeat (apply lifts_bind; [|intros]); auto with lifts.
Qed.
End Execution.
