(* ===== verification/PeriphThms.v ===== *)
(** * Theorems about the peripherals

    The 64-bit timer registers behind 32-bit accesses, the FIFO of the UART, and
    the block device as an array of blocks. *)

From Stdlib Require Import ZArith Lia Bool String.
From stdpp Require Import base numbers list option strings.
From S2P Require Import Prelude PyStr Isa Ram Cpu CpuSem ExecSafe RamSafe Peripherals.

Local Open Scope Z_scope.
Local Open Scope py_scope.

(** ** The timer *)

Abbreviation timer_node := (cpu * mmio_timer)%type.

Lemma join_halves hi lo : u32 lo -> Z.lor (Z.shiftl hi 32) lo = hi * 2 ^ 32 + lo.
Proof. intros Hlo. rewrite Z.lor_comm, lor_shiftl_add by (done || lia). lia. Qed.

Lemma high_half z : 0 <= z -> Z.land z 0xFFFFFFFF00000000 = Z.shiftl (z / 2 ^ 32 mod 2 ^ 32) 32.
Proof.
  intros Hz. change 0xFFFFFFFF00000000 with (Z.shiftl (Z.ones 32) 32).
  apply Z.bits_inj'. intros i Hi. rewrite Z.land_spec, !Z.shiftl_spec by done.
  destruct (decide (i < 32)).
  - rewrite !(Z.testbit_neg_r _ (i - 32)) by lia. apply andb_false_r.
  - rewrite <- Z.land_ones, Z.land_spec by lia. rewrite <- Z.shiftr_div_pow2, Z.shiftr_spec by lia.
    f_equal. f_equal. lia.
Qed.

(** One half of a 64-bit register replaced. *)
Lemma low_replaced z v : u64 z -> u32 v ->
  Z.lor (Z.land z 0xFFFFFFFF00000000) (Z.land v 0xFFFFFFFF) = z / 2 ^ 32 * 2 ^ 32 + v /\
  u64 (z / 2 ^ 32 * 2 ^ 32 + v).
Proof.
  intros Hz Hv. rewrite high_half, u32_mask_id, join_halves by (done || exact (proj1 Hz)).
  unfold uN in *. pose proof (Z.div_pos z (2 ^ 32)). assert (z / 2 ^ 32 < 2 ^ 32)
    by (apply Z.div_lt_upper_bound; lia). rewrite Z.mod_small by lia. split; [done|lia].
Qed.

Lemma high_replaced z v : u64 z -> u32 v ->
  Z.lor (Z.land z 0xFFFFFFFF) (Z.shiftl (Z.land v 0xFFFFFFFF) 32) = v * 2 ^ 32 + z mod 2 ^ 32 /\
  u64 (v * 2 ^ 32 + z mod 2 ^ 32).
Proof.
  intros Hz Hv. rewrite land_ffffffff, u32_mask_id, Z.lor_comm, join_halves by (done || apply u32_wrap).
  split; [done|]. unfold uN in *. pose proof (Z.mod_pos_bound z (2 ^ 32)). lia.
Qed.

(** The counter is updated atomically: with no half pending, the first write
    to either half leaves mtime alone, and the write to the other half sets it to
    the 64-bit value of both, in either order. *)
Theorem timer_mtime_atomic (c : cpu) (t : mmio_timer) (lo hi : Z)
  (Hlo : u32 lo) (Hhi : u32 hi) (Ht : t_lo_updated t = false /\ t_hi_updated t = false) :
  let c' := set_mtime (hi * 2 ^ 32 + lo) c in
  (exists t1 t2, MMIOTimer_write32 REG_MTIME_LO lo (c, t) = (Ok tt, (c, t1)) /\
     MMIOTimer_write32 REG_MTIME_HI hi (c, t1) = (Ok tt, (c', t2)) /\
     t_lo_updated t2 = false /\ t_hi_updated t2 = false) /\
  (exists t1 t2, MMIOTimer_write32 REG_MTIME_HI hi (c, t) = (Ok tt, (c, t1)) /\
     MMIOTimer_write32 REG_MTIME_LO lo (c, t1) = (Ok tt, (c', t2)) /\
     t_lo_updated t2 = false /\ t_hi_updated t2 = false).
Proof.
  destruct t as [l h lu hu], Ht as [Hl Hh]; simpl in Hl, Hh; subst lu hu. intros c'.
  unfold c'. rewrite <- join_halves by done.
  split; eexists _, _; split_and!; reflexivity.
Qed.

(** The registers read back what the processor holds, and a write to one half
    of mtimecmp replaces that half and keeps the other. *)
Theorem timer_mtimecmp_halves (c : cpu) (t : mmio_timer) (v : Z)
  (Hv : u32 v) (Hcmp : u64 (mtimecmp c))
  (Ht : t_lo_updated t && t_hi_updated t = false) :
  let cmp := mtimecmp c in
  MMIOTimer_write32 REG_MTIMECMP_LO v (c, t) =
    (Ok tt, (set_mtimecmp (cmp / 2 ^ 32 * 2 ^ 32 + v) c, t)) /\
  MMIOTimer_write32 REG_MTIMECMP_HI v (c, t) =
    (Ok tt, (set_mtimecmp (v * 2 ^ 32 + cmp mod 2 ^ 32) c, t)) /\
  MMIOTimer_read32 REG_MTIMECMP_LO (c, t) = (Ok (cmp mod 2 ^ 32), (c, t)) /\
  MMIOTimer_read32 REG_MTIMECMP_HI (c, t) = (Ok (cmp / 2 ^ 32), (c, t)).
Proof.
  intros cmp. assert (forall w : timer_node, view (A := mmio_timer) w = t -> timer_commit w = (Ok tt, w)) as Hcommit.
  { intros w Hw. unfold timer_commit, bind, gets. by rewrite Hw, Ht. }
  split_and!.
  - transitivity (timer_commit (set_mtimecmp
      (Z.lor (Z.land cmp 0xFFFFFFFF00000000) (Z.land v 0xFFFFFFFF)) c, t)); [done|].
    rewrite Hcommit by done. by rewrite (proj1 (low_replaced cmp v Hcmp Hv)).
  - transitivity (timer_commit (set_mtimecmp
      (Z.lor (Z.land cmp 0xFFFFFFFF) (Z.shiftl (Z.land v 0xFFFFFFFF) 32)) c, t)); [done|].
    rewrite Hcommit by done. by rewrite (proj1 (high_replaced cmp v Hcmp Hv)).
  - transitivity (Ok (Z.land cmp 0xFFFFFFFF), (c, t)); [done|]. by rewrite land_ffffffff.
  - transitivity (Ok (Z.shiftr cmp 32), (c, t)); [done|]. by rewrite Z.shiftr_div_pow2.
Qed.

(** ** The UART *)

(** An access of the guest or a poll of the machine. *)
Inductive uart_op := ReadRX | Poll | WriteTX (v : Z).

(** The byte an operation delivers to the guest, if any. *)
Definition uart_step (op : uart_op) (u : uart) : option Z * uart :=
  match op with
  | ReadRX => match PtyUART_read32 (u_reg_base u + 4) u with
              | (Ok v, u') => (if v =? Z.shiftl 1 31 then None else Some v, u')
              | (Exn _, u') => (None, u')
              end
  | Poll => (None, snd (PtyUART_run u))
  | WriteTX v => (None, snd (PtyUART_write32 (u_reg_base u) v u))
  end.

Fixpoint uart_steps (ops : list uart_op) (u : uart) : list Z * uart :=
  match ops with
  | [] => ([], u)
  | op :: ops' =>
      let '(b, u1) := uart_step op u in
      let '(bs, u2) := uart_steps ops' u1 in
      (option_list b ++ bs, u2)
  end.

(** The bytes the host sent in a sequence of events. *)
Definition host_data (ev : list (option rx_event)) : list Z :=
  concat (map (fun e => match e with Some (RxData d) => d | _ => [] end) ev).

Definition uart_ok (u : uart) : Prop :=
  Forall u8 (rx_buf u) /\ Forall u8 (host_data (pty_events u)).

Lemma host_data_app l l' : host_data (l ++ l') = host_data l ++ host_data l'.
Proof. unfold host_data. by rewrite map_app, concat_app. Qed.

(** One poll moves the data of one event into the buffer. *)
Lemma uart_run_spec u : exists ev, pty_events u = ev ++ pty_events (snd (PtyUART_run u)) /\
  rx_buf (snd (PtyUART_run u)) = rx_buf u ++ host_data ev /\
  u_reg_base (snd (PtyUART_run u)) = u_reg_base u.
Proof.
  unfold PtyUART_run. destruct (pty_events u) as [|[[d| |]|] ev] eqn:E; simpl.
  1: exists []. 2: exists [Some (RxData d)]. 3: exists [Some RxBlocking].
  4: exists [Some RxOSError]. 5: exists [None].
  all: unfold host_data; simpl; by rewrite ?E, ?app_nil_r.
Qed.

Lemma uart_step_spec op u : uart_ok u ->
  let '(b, u') := uart_step op u in
  exists ev, pty_events u = ev ++ pty_events u' /\
    option_list b ++ rx_buf u' = rx_buf u ++ host_data ev /\ uart_ok u'.
Proof.
  intros [Hb He]. destruct (uart_run_spec u) as (ev & E1 & E2 & E3).
  assert (uart_ok (snd (PtyUART_run u))) as Hok.
  { rewrite E1, host_data_app, Forall_app in He. split; [|tauto]. rewrite E2.
    apply Forall_app. tauto. }
  destruct op as [| |v]; simpl.
  - unfold PtyUART_read32, bind, gets. rewrite Z.eqb_refl.
    destruct (PtyUART_run u) as [[[]|e] u1]; simpl in *; [|by exists ev].
    destruct (rx_buf u1) as [|x l] eqn:Eb; simpl.
    + exists ev. rewrite Eb. by rewrite E2.
    + destruct Hok as [Hb1 He1]. rewrite Eb in Hb1. apply Forall_cons in Hb1 as [Hx Hl].
      replace (x =? Z.shiftl 1 31) with false
        by (symmetry; apply Z.eqb_neq; change (Z.shiftl 1 31) with 2147483648; word_lia).
      exists ev. split_and!; [done|by rewrite <- E2|by split].
  - by exists ev.
  - exists []. unfold PtyUART_write32, bind, gets. rewrite Z.eqb_refl. simpl.
    unfold host_data. simpl. rewrite app_nil_r.
    unfold uart_ok. destruct (pty_accepts u) as [|[] l]; by split_and!.
Qed.

(** The values written to the transmit register, and the bytes of them that the host
    takes: all but those whose write would block or fails. *)
Definition tx_values (ops : list uart_op) : list Z :=
  omap (fun op => match op with WriteTX v => Some v | _ => None end) ops.

Fixpoint taken (values : list Z) (ends : list tx_event) : list Z :=
  match values, ends with
  | [], _ => []
  | v :: vs, [] => v mod 256 :: taken vs []
  | v :: vs, TxAccepted :: l => v mod 256 :: taken vs l
  | v :: vs, (TxBlocking | TxOSError) :: l => taken vs l
  end.

(** One operation and the transmitted bytes. *)
Lemma uart_step_sent op ops u :
  pty_written u ++ taken (tx_values (op :: ops)) (pty_accepts u) =
  pty_written (snd (uart_step op u)) ++ taken (tx_values ops) (pty_accepts (snd (uart_step op u))).
Proof.
  assert (forall u, pty_written (snd (PtyUART_run u)) = pty_written u /\
                    pty_accepts (snd (PtyUART_run u)) = pty_accepts u) as Hrun.
  { intros u0. unfold PtyUART_run. by destruct (pty_events u0) as [|[[]|]]. }
  destruct (Hrun u) as [E1 E2]. destruct op as [| |v]; simpl.
  - unfold PtyUART_read32, bind, gets. rewrite Z.eqb_refl.
    destruct (PtyUART_run u) as [[[]|e] u1]; simpl in *; rewrite <- ?E1, <- ?E2; [|done].
    by destruct (rx_buf u1).
  - by rewrite E1, E2.
  - unfold PtyUART_write32, bind, gets. rewrite Z.eqb_refl, land_ff.
    destruct (pty_accepts u) as [|[] l]; simpl; by rewrite <- ?app_assoc.
Qed.

(** C31: the UART is a FIFO in both directions, whatever the order of polls, reads and
    writes and whatever the host does.  The bytes delivered to the guest followed by those
    still buffered are the bytes buffered before followed by those the host has sent since:
    none received is lost, duplicated or reordered.  The bytes that reach the host are the
    low bytes of the values written, in order, without those whose write would block or
    fails, which are lost. *)
Theorem uart_fifo (ops : list uart_op) (u : uart) (Hu : uart_ok u) :
  let '(delivered, u') := uart_steps ops u in
  (exists ev, pty_events u = ev ++ pty_events u' /\
    delivered ++ rx_buf u' = rx_buf u ++ host_data ev) /\
  pty_written u' = pty_written u ++ taken (tx_values ops) (pty_accepts u).
Proof.
  revert u Hu. induction ops as [|op ops IH]; intros u Hu; cbn [uart_steps].
  - split; [exists []; unfold host_data; simpl|]; by rewrite app_nil_r.
  - pose proof (uart_step_spec op u Hu) as Hstep. rewrite (uart_step_sent op ops u).
    destruct (uart_step op u) as [b u1]. destruct Hstep as (ev1 & E1 & B1 & Hu1).
    specialize (IH u1 Hu1). destruct (uart_steps ops u1) as [bs u2].
    destruct IH as [(ev2 & E2 & B2) Hs]. split; [|exact Hs]. exists (ev1 ++ ev2).
    split; [by rewrite E1, E2, app_assoc|].
    by rewrite <- app_assoc, B2, app_assoc, B1, host_data_app, app_assoc.
Qed.

(** ** The block device *)

Abbreviation blk_node := (blkdev * ram)%type.

(** Block [k] of an image. *)
Definition block (img : list Z) (bs k : Z) : list Z := file_read img (k * bs) bs.

Lemma file_write_len img off data : 0 <= off -> off + py_len data <= py_len img ->
  length (file_write img off data) = length img.
Proof.
  intros Ho Hl. unfold file_write, py_len in *.
  rewrite !length_app, length_take, length_app, length_replicate, length_drop. lia.
Qed.

Lemma file_write_in img off data : 0 <= off <= py_len img ->
  file_write img off data =
  take (Z.to_nat off) img ++ data ++ drop (Z.to_nat off + length data) img.
Proof.
  intros Ho. unfold file_write, py_len in *.
  replace (Z.to_nat off - length img)%nat with O by lia. simpl. by rewrite app_nil_r.
Qed.

Lemma block_same img bs k data : 0 < bs -> 0 <= k -> py_len data = bs ->
  (k + 1) * bs <= py_len img -> block (file_write img (k * bs) data) bs k = data.
Proof.
  intros Hbs Hk Hd Hl. rewrite file_write_in by nia. unfold block, file_read, py_len in *.
  rewrite drop_app_length' by (rewrite length_take; nia). by rewrite take_app_length' by lia.
Qed.

Lemma block_other img bs k j data : 0 < bs -> 0 <= k -> 0 <= j -> j <> k -> py_len data = bs ->
  (k + 1) * bs <= py_len img -> block (file_write img (k * bs) data) bs j = block img bs j.
Proof.
  intros Hbs Hk Hj Hne Hd Hl. rewrite file_write_in by nia. unfold block, file_read, py_len in *.
  destruct (decide (j < k)).
  - assert ((j + 1) * bs <= k * bs) by nia.
    rewrite drop_app_le by (rewrite length_take; nia).
    rewrite take_app_le by (rewrite length_drop, length_take; nia).
    by rewrite skipn_firstn_comm, take_take, Nat.min_l by nia.
  - assert ((k + 1) * bs <= j * bs) by nia.
    rewrite drop_app_ge by (rewrite length_take; nia). rewrite length_take.
    rewrite drop_app_ge by nia. rewrite drop_drop. f_equal. f_equal. nia.
Qed.

(** The first bytes of [data] have been written over a block. *)
Lemma file_write_part img bs k data n : 0 < bs -> 0 <= k -> py_len data = bs ->
  (k + 1) * bs <= py_len img ->
  file_write img (k * bs) (take n data) =
  file_write img (k * bs) (take n data ++ drop n (block img bs k)).
Proof.
  intros Hbs Hk Hd Hl. rewrite !file_write_in by nia. rewrite <- app_assoc. do 2 f_equal.
  assert (length (block img bs k) = Z.to_nat bs) as Hb.
  { unfold block, file_read, py_len in *. rewrite length_take, length_drop. nia. }
  unfold py_len in Hd. rewrite length_app, length_drop, Hb, length_take.
  replace (n `min` length data + (Z.to_nat bs - n))%nat with (Z.to_nat bs) by lia.
  rewrite <- !drop_drop.
  unfold block, file_read in *. set (l := drop (Z.to_nat (k * bs)) img) in *.
  destruct (decide (n <= Z.to_nat bs)%nat).
  - rewrite <- (take_drop (Z.to_nat bs) l) at 1. rewrite drop_app_le by lia.
    f_equal; f_equal; lia.
  - rewrite (drop_ge (take _ _)) by lia. simpl. f_equal. lia.
Qed.

Lemma block_part img bs k data n : 0 < bs -> 0 <= k -> py_len data = bs ->
  (k + 1) * bs <= py_len img ->
  length (file_write img (k * bs) (take n data)) = length img /\
  block (file_write img (k * bs) (take n data)) bs k = take n data ++ drop n (block img bs k) /\
  forall j, 0 <= j -> j <> k -> block (file_write img (k * bs) (take n data)) bs j = block img bs j.
Proof.
  intros Hbs Hk Hd Hl.
  assert (py_len (take n data ++ drop n (block img bs k)) = bs) as Hd'.
  { unfold block, file_read, py_len in *.
    rewrite length_app, length_take, length_drop, length_take, length_drop. nia. }
  rewrite file_write_part by done.
  split_and!; [apply file_write_len; nia|by apply block_same|intros; by apply block_other].
Qed.

Section Block.
(** The binary transfers of the checked and of the unchecked memory. *)
Definition transfer_ops (checked : bool) : RamOps blk_node :=
  if checked then SafeRAM_ops else RAM_ops.

Variables (checked : bool) (d : blkdev) (r : ram).
Hypothesis Hr : wf_ram r.
Hypothesis Hbs : 0 < block_size d.
Hypothesis Hblk : 0 <= blk d.
#[local] Instance Hops : RamOps blk_node := transfer_ops checked.

Lemma execute_cmd_invalid : num_blocks d <= blk d ->
  execute_cmd (d, r) = (Ok tt, (set_status 1 d, r)).
Proof.
  intros Hn. unfold execute_cmd, bind, bget, gets. simpl view.
  by rewrite (proj2 (Z.leb_le _ _)) by (simpl; nia).
Qed.

Lemma execute_cmd_valid : blk d < num_blocks d ->
  execute_cmd (d, r) =
  ((if cmd d =? 0 then
      data <- zoom (disk_read (blk d * block_size d) (block_size d)) ;; store_binary (ptr d) data
    else if cmd d =? 1 then
      data <- load_binary (ptr d) (block_size d) ;;
      zoom (disk_write (blk d * block_size d) data)
    else ret tt) ;;; bset (set_status 1)) (d, r).
Proof.
  intros Hn. unfold execute_cmd at 1. unfold bind at 1, bget, gets. simpl view.
  by rewrite (proj2 (Z.leb_gt _ _)) by (simpl; nia).
Qed.

Lemma transfer_store a data (d' : blkdev) : in_bounds r a (py_len data) = true ->
  store_binary a data (d', r) = (Ok tt, (d', with_bytes r a data)).
Proof.
  intros Hb. unfold store_binary, Hops, transfer_ops. destruct checked; unfold SafeRAM_ops, RAM_ops, zoom; simpl view.
  - by rewrite SafeRAM_store_binary_eq, Hb.
  - apply in_bounds_spec in Hb. pose proof (wf_len r Hr).
    unfold RAM_store_binary, catch, body_store_binary. by rewrite py_slice_set_in by lia.
Qed.

Lemma transfer_load a n : 0 <= n -> in_bounds r a n = true ->
  load_binary a n (d, r) = (Ok (bytes_at r a n), (d, r)).
Proof.
  intros Hn Hb. unfold load_binary, Hops, transfer_ops. destruct checked; unfold SafeRAM_ops, RAM_ops, zoom; simpl view.
  - by rewrite SafeRAM_load_binary_eq, Hb by done.
  - apply in_bounds_spec in Hb. pose proof (wf_len r Hr).
    unfold RAM_load_binary, body_load_binary, gets. by rewrite py_slice_in by lia.
Qed.

Lemma transfer_out a n data (d' : blkdev) : checked = true -> 0 <= n -> py_len data = n ->
  in_bounds r a n = false ->
  store_binary a data (d', r) = (Exn (out_of_bounds a), (d', r)) /\
  load_binary a n (d', r) = (Exn (out_of_bounds a), (d', r)).
Proof.
  intros Hc Hn Hd Hb. unfold store_binary, load_binary, Hops, transfer_ops. rewrite Hc.
  unfold SafeRAM_ops, zoom. simpl view.
  by rewrite SafeRAM_store_binary_eq, Hd, Hb, SafeRAM_load_binary_eq, Hb by done.
Qed.

(** The host ends the file operations of the next command, and the device after that. *)
Definition host_end : disk_event := fst (disk_next d).
Definition told : blkdev := snd (disk_next d).

Lemma told_image : image told = image d.
Proof. unfold told, disk_next. by destruct (disk_events d). Qed.

Lemma disk_read_eq off n : zoom (W := blk_node) (disk_read off n) (d, r) =
  match host_end with
  | DiskDone => (Ok (file_read (image d) off n), (told, r))
  | DiskFailed _ => (Exn OSError, (told, r))
  end.
Proof. unfold zoom, disk_read, host_end, told. simpl. by destruct (disk_next d) as [[] ?]. Qed.

Lemma disk_write_eq off data : zoom (W := blk_node) (disk_write off data) (d, r) =
  match host_end with
  | DiskDone => (Ok tt, (set_image (file_write (image d) off data) told, r))
  | DiskFailed n => (Exn OSError, (set_image (file_write (image d) off (take n data)) told, r))
  end.
Proof. unfold zoom, disk_write, host_end, told. simpl. by destruct (disk_next d) as [[] ?]. Qed.

(** The two commands for an existing block. *)
Lemma read_command : blk d < num_blocks d -> cmd d = 0 ->
  execute_cmd (d, r) =
  match host_end with
  | DiskDone => (store_binary (ptr d) (block (image d) (block_size d) (blk d)) ;;;
                 bset (set_status 1)) (told, r)
  | DiskFailed _ => (Exn OSError, (told, r))
  end.
Proof.
  intros Hn Hc. rewrite execute_cmd_valid, Hc by done. cbn [Z.eqb]. unfold bind.
  rewrite disk_read_eq. by destruct host_end.
Qed.

Lemma write_command : blk d < num_blocks d -> cmd d = 1 -> in_bounds r (ptr d) (block_size d) = true ->
  let write data := file_write (image d) (blk d * block_size d) data in
  let data := bytes_at r (ptr d) (block_size d) in
  execute_cmd (d, r) =
  match host_end with
  | DiskDone => (Ok tt, (set_status 1 (set_image (write data) told), r))
  | DiskFailed n => (Exn OSError, (set_image (write (take n data)) told, r))
  end.
Proof.
  intros Hn Hc Hb. rewrite execute_cmd_valid, Hc by done. cbn [Z.eqb Pos.eqb]. unfold bind.
  rewrite transfer_load by (done || lia). rewrite disk_write_eq. by destruct host_end.
Qed.
End Block.

(** C32: the block device is an array of blocks, for an image file of exactly its size and
    with the checked and the unchecked memory.  For a buffer inside the memory a write command
    puts its bytes into the addressed block and no other, and a read command puts the
    addressed block into the buffer and changes no other byte of the memory; when the file
    operations of the host fail it is an OSError, after which the memory is as it was and no
    other block has changed.  A command for a block that does not exist and an unknown command
    change nothing, and with the checked memory a transfer that leaves the memory is a
    MemoryAccessError that changes neither side. *)
Theorem block_device_array (checked : bool) (d : blkdev) (r : ram) (Hr : wf_ram r)
  (Hbs : 0 < block_size d)
  (Himg : py_len (image d) = num_blocks d * block_size d /\ Forall u8 (image d))
  (Hblk : 0 <= blk d) :
  let bs := block_size d in
  let out := execute_cmd (R := transfer_ops checked) (d, r) in
  (num_blocks d <= blk d \/ (cmd d <> 0 /\ cmd d <> 1) -> out = (Ok tt, (set_status 1 d, r))) /\
  (blk d < num_blocks d -> in_bounds r (ptr d) bs = false -> checked = true ->
   (cmd d = 1 -> out = (Exn (out_of_bounds (ptr d)), (d, r))) /\
   (cmd d = 0 -> host_end d = DiskDone -> out = (Exn (out_of_bounds (ptr d)), (told d, r)))) /\
  (blk d < num_blocks d -> in_bounds r (ptr d) bs = true -> cmd d = 1 ->
   exists img, length img = length (image d) /\
     (forall j, 0 <= j -> j <> blk d -> block img bs j = block (image d) bs j) /\
     match host_end d with
     | DiskDone => out = (Ok tt, (set_status 1 (set_image img (told d)), r)) /\
         block img bs (blk d) = bytes_at r (ptr d) bs
     | DiskFailed n => out = (Exn OSError, (set_image img (told d), r)) /\
         block img bs (blk d) = take n (bytes_at r (ptr d) bs) ++ drop n (block (image d) bs (blk d))
     end) /\
  (blk d < num_blocks d -> cmd d = 0 ->
   match host_end d with
   | DiskFailed _ => out = (Exn OSError, (told d, r))
   | DiskDone => in_bounds r (ptr d) bs = true ->
       exists r', out = (Ok tt, (set_status 1 (told d), r')) /\ wf_ram r' /\
         bytes_at r' (ptr d) bs = block (image d) bs (blk d) /\
         forall x, 0 <= x -> x < ptr d \/ ptr d + bs <= x -> mem_byte r' x = mem_byte r x
   end).
Proof.
  destruct Himg as [Hlen Hu8]. intros bs out. pose proof (wf_len r Hr) as Hrl.
  assert (blk d < num_blocks d -> py_len (block (image d) bs (blk d)) = bs) as Hblen.
  { intros Hn. unfold block, file_read, py_len in *. rewrite length_take, length_drop. nia. }
  split_and!.
  - intros [Hn|[H0 H1]]; [by apply execute_cmd_invalid|].
    destruct (Z.le_gt_cases (num_blocks d) (blk d)); [by apply execute_cmd_invalid|].
    unfold out. rewrite execute_cmd_valid by (done || lia).
    by rewrite (proj2 (Z.eqb_neq _ _) H0), (proj2 (Z.eqb_neq _ _) H1).
  - intros Hn Hb Hc. specialize (Hblen Hn).
    destruct (transfer_out checked r Hr (ptr d) bs _ d Hc ltac:(lia) Hblen Hb) as [_ Hl].
    destruct (transfer_out checked r Hr (ptr d) bs _ (told d) Hc ltac:(lia) Hblen Hb) as [Hs _].
    split; intros Hcmd.
    + unfold out. rewrite execute_cmd_valid, Hcmd by done. cbn [Z.eqb Pos.eqb]. unfold bind. fold bs.
      by rewrite Hl.
    + intros He. unfold out. rewrite read_command, He by done. unfold bind. fold bs. by rewrite Hs.
  - intros Hn Hb Hcmd. pose proof (proj1 (in_bounds_spec _ _ _) Hb).
    assert (py_len (bytes_at r (ptr d) bs) = bs) as Hd.
    { unfold bytes_at, py_len in *. rewrite length_take, length_drop. lia. }
    assert ((blk d + 1) * bs <= py_len (image d)) by (unfold bs; nia).
    pose proof (write_command checked d r Hr Hbs Hn Hcmd Hb) as E. cbv zeta in E. fold bs out in E.
    destruct (host_end d) as [|n]; eexists; (split_and!; [| |exact E|]).
    + apply file_write_len; nia.
    + intros j Hj Hne. by apply block_other.
    + by apply block_same.
    + by apply block_part.
    + by apply block_part.
    + by apply block_part.
  - intros Hn Hcmd. specialize (Hblen Hn).
    pose proof (read_command checked d r Hbs Hn Hcmd) as E. fold bs out in E.
    destruct (host_end d) as [|n]; [|exact E]. intros Hb. pose proof (proj1 (in_bounds_spec _ _ _) Hb).
    exists (with_bytes r (ptr d) (block (image d) bs (blk d))). split_and!.
    + etransitivity; [exact E|]. unfold bind. by rewrite transfer_store by (rewrite ?Hblen; done).
    + apply with_bytes_wf; [done| |lia|lia]. by apply Forall_take, Forall_drop.
    + pose proof (with_bytes_same r (ptr d) (block (image d) bs (blk d))) as Hsame.
      rewrite Hblen in Hsame. apply Hsame; lia.
    + intros x Hx Hdis. rewrite with_bytes_byte, Hblen by lia.
      by replace ((ptr d <=? x) && (x <? ptr d + bs)) with false by lia.
Qed.
