(* ===== verification/MachineThms.v ===== *)
(** * Theorems about the machine

    The fast loops and the checked loop execute the same instructions; every loop
    keeps the machine well formed; the invariant checks pass exactly when the
    invariants hold; and the program arguments are laid out in memory as a C
    program expects them. *)

From Stdlib Require Import ZArith Lia Bool String.
From stdpp Require Import base numbers list option gmap strings.
From S2P Require Import Prelude PyStr Isa Ram Cpu Rvc CpuSem Exec ExecSem ExecSafe RamSafe Core.
From S2P Require Import Machine Peripherals World.

Local Open Scope Z_scope.
Local Open Scope py_scope.

(** ** Fetching *)

Lemma word_of_halves r a : mem_word r a = Z.lor (mem_half r a) (Z.shiftl (mem_half r (a + 2)) 16).
Proof.
  unfold mem_word, le32, mem_half. rewrite Z.shiftl_lor, Z.shiftl_shiftl, Z.lor_assoc by lia.
  by replace (a + 2 + 1) with (a + 3) by lia.
Qed.

Lemma word_low_bits r a : wf_ram r -> mem_word r a mod 65536 = mem_half r a.
Proof.
  intros Hr. rewrite word_of_halves.
  pose proof (u16_half _ _ (mem_byte_u8 r a Hr) (mem_byte_u8 r (a + 1) Hr)) as Hh.
  fold (mem_half r a) in Hh. unfold uN in Hh. rewrite lor_shiftl_add by lia.
  change 65536 with (2 ^ 16). rewrite Z_mod_plus_full. apply Z.mod_small. lia.
Qed.

Lemma mod_mod_4 z : (z mod 65536) mod 4 = z mod 4.
Proof. Z.div_mod_to_equations. lia. Qed.

Section Fetch.
Context {W : Type} `{HC : Has cpu W} `{HR : Has ram W}.
#[local] Existing Instance SafeRAM_ops.

Lemma fetch_word_eq (w : W) : wf_ram (view w) -> fetch_word w =
  let p := pc (view w) in
  if in_bounds (view w) p 4 then (Ok (mem_word (view w) p), w) else (Exn (out_of_bounds p), w).
Proof.
  intros Hr. unfold fetch_word, bind, gets, load_word, SafeRAM_ops, zoom. simpl.
  rewrite SafeRAM_load_word_eq by done. destruct (in_bounds _ _ _); by rewrite put_view.
Qed.

Lemma load_half_eq (w : W) a : wf_ram (view w) -> load_half a false w =
  if in_bounds (view w) a 2 then (Ok (mem_half (view w) a), w) else (Exn (out_of_bounds a), w).
Proof.
  intros Hr. unfold load_half, SafeRAM_ops, zoom.
  rewrite SafeRAM_load_half_eq by done. destruct (in_bounds _ _ _); by rewrite put_view.
Qed.

Lemma fetch_halves_eq (w : W) : wf_ram (view w) -> fetch_halves w =
  let p := pc (view w) in let r := view w in
  if in_bounds r p 2 then
    if mem_half r p mod 4 =? 3
    then if in_bounds r p 4 then (Ok (mem_word r p), w) else (Exn (out_of_bounds (p + 2)), w)
    else (Ok (mem_half r p), w)
  else (Exn (out_of_bounds p), w).
Proof.
  intros Hr. cbv zeta. unfold fetch_halves, bind, gets. rewrite load_half_eq by done.
  destruct (in_bounds (view w) (pc (view w)) 2) eqn:H2; [|done]. rewrite land_3.
  destruct (_ =? 3); [|done]. rewrite load_half_eq by done.
  assert (in_bounds (view w) (pc (view w) + 2) 2 = in_bounds (view w) (pc (view w)) 4) as ->.
  { unfold in_bounds in *. lia. }
  destruct (in_bounds _ _ 4); [|done]. by rewrite word_of_halves.
Qed.

(** The fast loops, which fetch a word and look at its two low bits, and the
    checked loop, which fetches half words and lets execute decide, run the same
    instruction with the same effect wherever a whole word can be fetched; in the
    last two bytes of the memory the checked loop still runs a compressed
    instruction, where the fast loops raise MemoryAccessError. *)
Theorem fetch_agree (handle_ecall : option (ST W unit)) (w : W)
  (Hr : wf_ram (view w)) (Hrvc : rvc_enabled (view w) = true) :
  let p := pc (view w) in let r := view w in
  (in_bounds r p 4 = true ->
   (inst <- fetch_word ;; execute_by_length handle_ecall inst) w =
   (inst <- fetch_halves ;; execute handle_ecall inst) w) /\
  (in_bounds r p 4 = false -> in_bounds r p 2 = true -> mem_half r p mod 4 <> 3 ->
   fetch_word w = (Exn (out_of_bounds p), w) /\
   fetch_halves w = (Ok (mem_half r p), w)).
Proof.
  intros p r. split.
  - intros Hb. assert (in_bounds r p 2 = true) as H2 by (unfold in_bounds in *; lia).
    unfold bind. rewrite fetch_word_eq, fetch_halves_eq by done. cbv zeta. fold r p.
    rewrite Hb, H2. unfold execute_by_length, execute, bind, gets. rewrite land_3, land_ffff.
    rewrite <- (word_low_bits r p) by done. rewrite mod_mod_4.
    destruct (mem_word r p mod 4 =? 3) eqn:E.
    + rewrite Hrvc. cbn [negb]. by rewrite land_3, E.
    + rewrite Hrvc. cbn [negb]. rewrite land_3, land_ffff, mod_mod_4, E.
      by rewrite Zmod_mod.
  - intros Hb H2 Hc. rewrite fetch_word_eq, fetch_halves_eq by done. cbv zeta. fold r p.
    by rewrite Hb, H2, (proj2 (Z.eqb_neq _ _) Hc).
Qed.
End Fetch.

(** ** Register logging *)

Definition getter_ok (g : getter) : Prop :=
  match g with GReg i => 0 <= i < 32 | GCsr a => 0 <= a < 4096 | _ => True end.

Lemma name_index_range s l n : name_index s l = Some n -> 0 <= n < Z.of_nat (length l).
Proof.
  revert n. induction l as [|x l IH]; intros n; simpl; [done|].
  destruct (String.eqb s x); [intros [= <-]; lia|].
  destruct (name_index s l) as [m|]; simpl; [|done]. intros [= <-]. specialize (IH m eq_refl). lia.
Qed.

Lemma REG_NAME_NUM_range s n : REG_NAME_NUM s = Some n -> 0 <= n < 32.
Proof.
  unfold REG_NAME_NUM. destruct (_ || _); [intros [= <-]; lia|].
  destruct (name_index s REG_NAMES) eqn:E.
  - intros [= <-]. exact (name_index_range _ _ _ E).
  - intros E'. exact (name_index_range _ _ _ E').
Qed.

Lemma CSR_NAME_ADDR_range s n : CSR_NAME_ADDR s = Some n -> 0 <= n < 4096.
Proof.
  unfold CSR_NAME_ADDR.
  destruct (name_index s ["mstatus"; "misa"; "mie"; "mtvec"]%string) as [k|].
  - intros H. assert (Forall (fun a => 0 <= a < 4096) [0x300; 0x301; 0x304; 0x305]) as Hf
      by (repeat constructor; lia). exact (Forall_lookup_1 _ _ _ _ Hf H).
  - destruct (name_index s _) as [k|] eqn:E; [|done]. intros [= <-].
    apply name_index_range in E. simpl in E. lia.
Qed.

Lemma getter_of_ok s g : getter_of s = Ok g -> getter_ok g.
Proof.
  unfold getter_of. destruct (REG_NAME_NUM s) eqn:E1.
  { intros [= <-]. exact (REG_NAME_NUM_range _ _ E1). }
  repeat (destruct (String.eqb _ _); [by intros [= <-]|]).
  destruct (CSR_NAME_ADDR s) eqn:E2.
  { intros [= <-]. exact (CSR_NAME_ADDR_range _ _ E2). }
  destruct (String.eqb _ _); by intros; simplify_eq.
Qed.

Lemma getters_of_ok names gs : getters_of names = Ok gs -> Forall getter_ok gs.
Proof.
  revert gs. induction names as [|x l IH]; intros gs; simpl; [by intros [= <-]|].
  destruct (getter_of x) eqn:E; [|done]. destruct (getters_of l); [|done].
  intros [= <-]. constructor; [by eapply getter_of_ok|by apply IH].
Qed.

Lemma getter_of_exn s e : getter_of s = Exn e -> machine_error e.
Proof. unfold getter_of. repeat case_match; by intros; simplify_eq. Qed.

Lemma getters_of_exn names e : getters_of names = Exn e -> machine_error e.
Proof.
  induction names as [|x l IH]; simpl; [done|]. destruct (getter_of x) eqn:E.
  - destruct (getters_of l); [done|]. intros [= <-]. by apply IH.
  - intros [= <-]. by eapply getter_of_exn.
Qed.

(** ** What the loops need *)

(** The processor with its memory, as the loops use them: fetching, execution, the timer and
    the reads of registers keep the invariant [I] of the world and raise nothing but [X].
    [V] is what is known of a fetched instruction. *)
Class LoopSafe {W : Type} `{HC : Has cpu W} `{HR : Has ram W} `{HM : Has machine W}
    `{R : RamOps W} (X : exn -> Prop) (V : Z -> Prop) (I : W -> Prop)
    (handle_ecall : option (ST W unit)) : Prop := {
  loop_error : forall e, machine_error e -> X e;
  loop_load_word : forall a, keeps X I (load_word a) (fun _ => True);
  loop_fetch_word : keeps X I fetch_word V;
  loop_fetch_halves : keeps X I fetch_halves V;
  loop_execute : forall i, V i -> keeps X I (execute handle_ecall i) (fun _ => True);
  loop_execute_32 : forall i, V i -> keeps X I (execute_32 handle_ecall i) (fun _ => True);
  loop_by_length : forall i, V i -> keeps X I (execute_by_length handle_ecall i) (fun _ => True);
  loop_advance : keeps X I advance (fun _ => True);
  loop_timer : keeps X I (zoom timer_update) (fun _ => True);
  loop_reg : forall i, 0 <= i < 32 -> keeps X I (zoom (reg i)) (fun _ => True);
  loop_csr : forall i, 0 <= i < 4096 -> keeps X I (zoom (csr i)) (fun _ => True);
  loop_check_enable : forall b, keeps X I (mset (set_check_enable b)) (fun _ => True);
  loop_start : forall w, I w -> start_checks (view (A := machine) w) <> None
}.

(** ** Every loop keeps the invariant *)

Section Run.
Context {W : Type} `{HC : Has cpu W} `{HR : Has ram W} `{HM : Has machine W} `{R : RamOps W}.
Context (X : exn -> Prop) (V : Z -> Prop) (I : W -> Prop) (handle_ecall : option (ST W unit)).
Context `{HL : !LoopSafe X V I handle_ecall}.
Context (runner : periph -> ST W unit).
Hypothesis Hrunner : forall p, keeps X I (runner p) (fun _ => True).

Abbreviation msafe m Q := (keeps X I m Q).

Lemma tick_safe on : msafe (tick on) (fun _ => True).
Proof. unfold tick. apply keeps_if; intros _; [apply loop_timer|by apply keeps_ret]. Qed.

Lemma poll_safe div : msafe (poll runner div) (fun _ => True).
Proof.
  unfold poll, peripherals_run, mget. keep; [|by apply keeps_ret..].
  apply keeps_for_each. auto.
Qed.

Lemma trigger_check_safe : msafe trigger_check (fun _ => True).
Proof.
  unfold trigger_check.
  eapply keeps_bind; [apply (keeps_gets _ _ _ (fun s => s <> None)); by intros w Hw; apply loop_start|].
  intros [s|] Hs; [|done]. eapply keeps_bind; [apply keeps_any|]. intros p _.
  repeat (apply keeps_if; intros _); try by apply keeps_ret.
  - eapply keeps_bind; [apply keeps_any|]. intros; by apply keeps_ret.
  - eapply keeps_bind; [apply loop_load_word|]. intros; by apply keeps_ret.
  - destruct (py_int 0 s); [by apply keeps_ret|by apply keeps_raise, loop_error].
Qed.

Lemma require_safe b msg : msafe (require b msg) (fun _ => True).
Proof.
  unfold require, violation. apply keeps_if; intros _; [by apply keeps_ret|].
  by apply keeps_raise, loop_error.
Qed.

Lemma invariants_safe : msafe invariants (fun _ => True).
Proof.
  unfold invariants, mget.
  repeat lazymatch goal with
  | |- keeps _ _ (bind _ _) _ => eapply keeps_bind; [|intros ? _]
  | |- keeps _ _ (require _ _) _ => apply require_safe
  | |- keeps _ _ (gets _) _ => apply keeps_any
  | |- keeps _ _ (zoom (reg _)) _ => apply loop_reg; lia
  | |- keeps _ _ (ret tt) _ => apply keeps_skip
  | |- keeps _ _ (match ?x with _ => _ end) _ => destruct x
  end.
Qed.

Lemma check_invariants_safe : msafe check_invariants (fun _ => True).
Proof.
  unfold check_invariants. eapply keeps_bind; [apply keeps_any|]. intros on _.
  apply keeps_if; intros _; [apply invariants_safe|].
  eapply keeps_bind; [apply trigger_check_safe|]. intros go _.
  eapply keeps_bind; [apply loop_check_enable|]. intros _ _.
  apply keeps_if; intros _; [apply invariants_safe|by apply keeps_ret].
Qed.

Lemma getter_value_safe g : getter_ok g -> msafe (zoom (getter_value g)) (fun _ => True).
Proof.
  intros Hg. destruct g; simpl in *; try by apply loop_reg.
  all: try by apply loop_csr.
  all: intros w Hw; unfold zoom, gets; rewrite put_view; auto.
Qed.

Lemma log_regs_safe gs : Forall getter_ok gs -> msafe (log_regs gs) (fun _ => True).
Proof.
  intros Hgs. apply keeps_for_each. intros g Hg.
  eapply keeps_bind; [|intros; by apply keeps_ret].
  apply getter_value_safe. rewrite Forall_forall in Hgs. by apply Hgs.
Qed.

(** Fetch and execute one instruction, then the rest of the round. *)
Lemma round_safe {A} (fetch : ST W Z) (exec : Z -> ST W unit) (rest : ST W A) Q :
  msafe fetch V -> (forall i, V i -> msafe (exec i) (fun _ => True)) -> msafe rest Q ->
  msafe (inst <- fetch ;; exec inst ;;; rest) Q.
Proof.
  intros Hf He Hr. eapply keeps_bind; [exact Hf|]. intros i Hi.
  eapply keeps_bind; [by apply He|]. by intros _ _.
Qed.

Lemma then_safe {A} (m : ST W unit) (rest : ST W A) Q :
  msafe m (fun _ => True) -> msafe rest Q -> msafe (m ;;; rest) Q.
Proof. intros Hm Hr. eapply keeps_bind; [exact Hm|]. by intros _ _. Qed.

Lemma step_with_checks_safe gs div : Forall getter_ok gs ->
  msafe (step_with_checks handle_ecall runner gs div) (fun _ => True).
Proof.
  intros Hgs. unfold step_with_checks. eapply keeps_bind; [apply keeps_any|]. intros m _.
  apply then_safe; [by apply log_regs_safe|].
  apply then_safe; [apply keeps_if; intros _; [apply check_invariants_safe|by apply keeps_ret]|].
  apply round_safe; [apply loop_fetch_halves|apply loop_execute|].
  apply then_safe; [apply tick_safe|]. apply then_safe; [apply loop_advance|].
  apply keeps_if; intros _; [apply poll_safe|by apply keeps_ret].
Qed.

Lemma step_mmio_safe div : msafe (step_mmio handle_ecall runner div) (fun _ => True).
Proof.
  unfold step_mmio. eapply keeps_bind; [apply keeps_any|]. intros on _.
  apply round_safe; [apply loop_fetch_word|apply loop_by_length|].
  apply then_safe; [apply tick_safe|]. apply then_safe; [apply loop_advance|]. apply poll_safe.
Qed.

Lemma run_with_checks_safe n : msafe (run_with_checks handle_ecall runner n) (fun _ => True).
Proof.
  unfold run_with_checks. eapply keeps_bind; [apply keeps_any|]. intros m _.
  eapply keeps_bind with (R := Forall getter_ok).
  - destruct (regs_opt m) as [s|]; [|by apply keeps_ret].
    destruct (truthy _); [|by apply keeps_ret]. intros w Hw.
    destruct (make_regformatter_lambda s) eqn:E.
    + split; [done|]. by eapply getters_of_ok.
    + split; [done|]. by eapply loop_error, getters_of_exn.
  - intros gs Hgs. eapply keeps_bind; [|intros; by apply keeps_ret].
    apply (keeps_loop _ _ _ (fun _ => True)); [|done]. intros. by apply step_with_checks_safe.
Qed.

Lemma run_loop_safe {A} n (step : A -> ST W A) a :
  (forall a, msafe (step a) (fun _ => True)) -> msafe (loop n step a) (fun _ => True).
Proof. intros Hs. by apply (keeps_loop _ _ _ (fun _ => True)). Qed.

Lemma run_safe n : msafe (run handle_ecall runner n) (fun _ => True).
Proof.
  unfold run. eapply keeps_bind; [apply keeps_any|]. intros m _.
  eapply keeps_bind; [apply keeps_any|]. intros p _. cbv zeta.
  repeat (apply keeps_if; intros _).
  - by apply keeps_raise, loop_error.
  - apply run_with_checks_safe.
  - unfold run_mmio. eapply keeps_bind; [apply run_loop_safe, step_mmio_safe|].
    intros; by apply keeps_ret.
  - apply run_loop_safe. intros. apply round_safe; [apply loop_fetch_word|apply loop_by_length|].
    apply then_safe; [apply loop_timer|apply loop_advance].
  - apply run_loop_safe. intros.
    apply round_safe; [apply loop_fetch_word|apply loop_by_length|apply loop_advance].
  - apply run_loop_safe. intros.
    apply round_safe; [apply loop_fetch_word|apply loop_execute_32|apply loop_advance].
Qed.
End Run.

(** ** A well-formed processor is safe for the loops *)

Section WellFormed.
Context {W : Type} `{HC : Has cpu W} `{HR : Has ram W} `{HM : Has machine W} `{R : RamOps W}.
Context (I : W -> Prop) `{HS : !RamSafe machine_error wf_cpu I}.
Context (handle_ecall : option (ST W unit)).
Hypothesis Hecall : forall h, handle_ecall = Some h -> keeps machine_error I h (fun _ => True).

(** The machine object is apart from the invariant, except that the trigger of
    the checks is set. *)
Hypothesis Hmach : forall w m, I w -> start_checks m <> None -> I (put m w).
Hypothesis Hstart : forall w, I w -> start_checks (view (A := machine) w) <> None.

Abbreviation wsafe m Q := (keeps machine_error I m Q).

Lemma zoom_cpu_safe {A} (m : ST cpu A) Q : cpu_safe wf_cpu m Q -> wsafe (zoom m) Q.
Proof. apply (zoom_safe wf_cpu I). Qed.

Lemma execute_by_length_safe inst : u32 inst ->
  wsafe (execute_by_length handle_ecall inst) (fun _ => True).
Proof.
  intros Hi. unfold execute_by_length. apply keeps_if; intros _.
  - eapply (execute_32_safe wf_cpu); eauto using cache_32_wf.
  - eapply (execute_16_safe wf_cpu); eauto using cache_16_wf.
    rewrite land_ffff. by apply Z.mod_pos_bound.
Qed.

Lemma execute_msafe inst : u32 inst -> wsafe (execute handle_ecall inst) (fun _ => True).
Proof.
  intros Hi w Hw.
  assert (after I (x0_zero (view w)) (execute handle_ecall inst w)) as H
    by (eapply (execute_after wf_cpu); eauto using cache_16_wf, cache_32_wf).
  unfold after in H. destruct (execute handle_ecall inst w) as [[]]; tauto.
Qed.

Lemma fetch_halves_safe : wsafe fetch_halves u32.
Proof.
  unfold fetch_halves. eapply keeps_bind; [apply keeps_any|]. intros p _.
  eapply keeps_bind; [apply (safe_load_half _ false)|]. intros lo Hlo. apply keeps_if; intros _.
  - eapply keeps_bind; [apply (safe_load_half _ false)|]. intros hi Hhi. apply keeps_ret.
    unfold loaded, uN in *. rewrite lor_shiftl_add by lia. lia.
  - apply keeps_ret. unfold loaded, uN in *. lia.
Qed.

#[local] Instance wf_loop : LoopSafe machine_error u32 I handle_ecall.
Proof.
  split; try done.
  - intros a. eapply keeps_weaken; [apply safe_load_word|done].
  - unfold fetch_word. eapply keeps_bind; [apply keeps_any|]. intros. apply safe_load_word.
  - apply fetch_halves_safe.
  - apply execute_msafe.
  - intros i Hi. eapply (execute_32_safe wf_cpu); eauto using cache_32_wf.
  - apply execute_by_length_safe.
  - apply zoom_cpu_safe, modify_safe; [exact _| |done|done]. by intros c [].
  - apply zoom_cpu_safe. by apply (timer_update_safe wf_cpu).
  - intros i Hi. apply zoom_cpu_safe. eapply keeps_weaken; [by apply reg_safe; [exact _|]|done].
  - intros i Hi. apply zoom_cpu_safe. eapply keeps_weaken; [by apply csr_safe; [exact _|]|done].
  - intros b w Hw. unfold mset, zoom, modify. split; [|done]. by apply Hmach, Hstart.
Qed.

Lemma run_wf runner n : (forall p, wsafe (runner p) (fun _ => True)) ->
  wsafe (run handle_ecall runner n) (fun _ => True).
Proof. intros Hr. by apply (run_safe machine_error u32 I handle_ecall). Qed.
End WellFormed.

(** C9: whatever loop run() selects and however many rounds it makes, a well-formed machine
    stays well formed, and the only way out are the exceptions of the emulator: no
    IndexError, KeyError or TypeError of Python leaves the loop. The system-call handler and
    the peripherals are any that keep the invariant, 32-bit registers included, and raise
    only exceptions of the emulator, and the memory any that keeps its promise ([RamSafe]).
    The handler of syscalls.py is not such a handler, since it leaves negative error codes
    in a0; what holds of a process with it is in ScriptThms.v. *)
Theorem run_invariant {W : Type} `{HC : Has cpu W} `{HR : Has ram W} `{HM : Has machine W}
  `{R : RamOps W} (I : W -> Prop) `{HS : !RamSafe machine_error wf_cpu I}
  (handle_ecall : option (ST W unit)) (runner : periph -> ST W unit)
  (Hecall : forall h, handle_ecall = Some h -> keeps machine_error I h (fun _ => True))
  (Hrunner : forall p, keeps machine_error I (runner p) (fun _ => True))
  (Hmach : forall w m, I w -> start_checks m <> None -> I (put m w))
  (Hstart : forall w, I w -> start_checks (view (A := machine) w) <> None)
  (n : nat) (w : W) (Hw : I w) :
  match run handle_ecall runner n w with
  | (Ok _, w') => I w' /\ wf_cpu (view w')
  | (Exn e, w') => I w' /\ wf_cpu (view w') /\ machine_error e
  end.
Proof.
  pose proof (run_wf I handle_ecall Hecall Hmach Hstart runner n Hrunner w Hw) as H.
  destruct (run handle_ecall runner n w) as [[]]; destruct H as [H1 H2];
    pose proof (safe_view _ H1); auto.
Qed.

(** ** The invariant checks *)

Section Checks.
Context {W : Type} `{HC : Has cpu W} `{HR : Has ram W} `{HM : Has machine W} `{R : RamOps W}.

(** Each check, on the objects. *)
Definition sp_ok (c : cpu) (m : machine) : bool :=
  (match stack_top m with
   | Some top => (rv c 3 =? 0) || (rv c 2 <=? top) | None => true end) &&
  (match stack_bottom m with
   | Some bottom => (rv c 3 =? 0) || (bottom <=? rv c 2) | None => true end).

Definition heap_ok (m : machine) : bool :=
  (match heap_end m, stack_bottom m with Some he, Some b => he + 256 <=? b | _, _ => true end) &&
  (match heap_end m with Some he => he mod 4 =? 0 | None => true end).

Definition text_ok (r : ram) (m : machine) : bool :=
  match text_snapshot m with
  | Some s => bool_decide (py_slice (memory r) (default 0 (text_start m))
                             (default (py_len (memory r)) (text_end m)) = s)
  | None => true
  end.

Definition invariants_on (c : cpu) (r : ram) (m : machine) : bool :=
  (rv c 0 =? 0) && ((0 <=? pc c) && (pc c <? size r)) && sp_ok c m && heap_ok m && text_ok r m.

Definition invariants_hold (w : W) : bool := invariants_on (view w) (view w) (view w).

(** What a check that found [b] does. *)
Definition verdict (b : bool) (w : W) (out : res unit * W) : Prop :=
  if b then out = (Ok tt, w) else exists msg, out = (Exn (InvariantViolationError msg), w).

Lemma seq_verdict b b' (m k : ST W unit) w : verdict b w (m w) -> verdict b' w (k w) ->
  verdict (b && b') w ((m ;;; k) w).
Proof.
  unfold verdict, bind. destruct b; simpl; [by intros ->|]. intros [msg ->] _. by exists msg.
Qed.

Lemma require_verdict b msg (w : W) : verdict b w (require b msg w).
Proof. unfold require. destruct b; simpl; [done|]. by eexists. Qed.

(** A check under the condition that gp is set. *)
Lemma require_if_verdict (z b : bool) msg (w : W) :
  verdict (z || b) w ((if z then ret tt else require b msg) w).
Proof. destruct z; [done|]. apply require_verdict. Qed.

Lemma zoom_reg_seq {A} i (k : Z -> ST W A) (w : W) : wf_cpu (view w) -> 0 <= i < 32 ->
  (x <- zoom (reg i) ;; k x) w = k (rv (view w) i) w.
Proof. intros Hc Hi. unfold bind. by rewrite zoom_reg. Qed.

Lemma gets_seq {A B} (f : W -> A) (k : A -> ST W B) (w : W) : (x <- gets f ;; k x) w = k (f w) w.
Proof. done. Qed.

Lemma invariants_verdict (w : W) : wf_cpu (view w) ->
  verdict (invariants_hold w) w (invariants w).
Proof.
  intros Hc. unfold invariants, invariants_hold, invariants_on, sp_ok, heap_ok, text_ok, mget, MIN_GAP.
  rewrite <- !andb_assoc. rewrite zoom_reg_seq by (done || lia).
  apply seq_verdict; [apply require_verdict|]. rewrite !gets_seq, andb_assoc. cbv beta.
  apply seq_verdict; [apply require_verdict|].
  rewrite gets_seq, !zoom_reg_seq by (done || lia). cbv beta.
  apply seq_verdict; [destruct (stack_top (view w)); [apply require_if_verdict|done]|]. rewrite gets_seq. cbv beta.
  apply seq_verdict; [destruct (stack_bottom (view w)); [apply require_if_verdict|done]|].
  rewrite gets_seq. cbv beta.
  apply seq_verdict; [destruct (heap_end (view w)), (stack_bottom (view w)); try apply require_verdict; done|].
  apply seq_verdict; [destruct (heap_end (view w)); [apply require_verdict|done]|].
  rewrite gets_seq. cbv beta. destruct (text_snapshot (view w)); [|done]. rewrite !gets_seq. unfold id. cbv beta.
  destruct (text_start (view w)), (text_end (view w)); apply require_verdict.
Qed.

(** C29: once the checks are enabled they pass, without any effect, exactly when x0
    is zero, the pc is inside the memory, the stack pointer is between the stack
    bounds (when gp is set), the heap ends a gap of 256 below the stack and at a
    word boundary, and the text segment equals its snapshot; otherwise they raise
    InvariantViolationError. *)
Theorem check_invariants_exact (w : W) (Hc : wf_cpu (view w))
  (Hon : check_enable (view (A := machine) w) = true) :
  verdict (invariants_hold w) w (check_invariants w).
Proof.
  unfold check_invariants, mget. rewrite gets_seq, Hon. by apply invariants_verdict.
Qed.
End Checks.
