(* ===== verification/IsaRun.v ===== *)
(** * Whole runs against the reference machine

    Each round of the execution loops is one step of the reference machine of
    IsaMachine.v, so a run of the emulator, in any world and with the checked or the
    unchecked memory, goes through the states of the reference machine, and stops with
    the exception that stands for its stop. *)

From Stdlib Require Import ZArith Lia Bool String.
From stdpp Require Import base numbers list option gmap strings.
From S2P Require Import Prelude PyStr Isa Ram Cpu Rvc CpuSem Exec ExecSem ExecSafe RamSafe Core.
From S2P Require Import MemInstr Trap IsaMachine IsaRefine Machine Peripherals World Lift MachineThms.

Local Open Scope Z_scope.
Local Open Scope py_scope.

(** The state of a run: agreement, and the pc. *)
Definition in_step (p : platform) (h : hart) (n : node) : Prop :=
  agrees p h (fst n) (snd n) /\ pc (fst n) = hpc h.

(** The outcome [out] of a number of rounds, for the result of the reference machine. *)
Definition follows (p : platform) (res : result) (out : Prelude.res unit * node) : Prop :=
  match res with
  | Running h => exists n, out = (Ok tt, n) /\ in_step p h n
  | Stopped s h => exists n, out = (Exn (stop_exn s), n) /\ agrees p h (fst n) (snd n)
  | Unspecified => True
  end.

(** [cpu.pc = cpu.next_pc] *)
Lemma in_step_advance p h c r : agrees p h c r -> next_pc c = hpc h ->
  in_step p h (set_pc (next_pc c) c, r).
Proof.
  intros Ha Hn. split; [|done]. eapply agrees_cpu; [exact Ha| |done..].
  destruct (ag_ready Ha) as ([] & H0 & []). by split_and!; [split|done|split].
Qed.

(** The end of a round: the timer and the pc. *)
Lemma tick_follows p h c r pc0 : agrees p h c r -> pc c = pc0 -> next_pc c = hpc h ->
  follows p (if p_timer p then timer_tick pc0 h else Running h) ((tick (p_timer p) ;;; advance) (c, r)).
Proof.
  intros Ha Hp Hn. unfold tick. destruct (p_timer p).
  - pose proof (timer_matches p h c r pc0 Ha Hn Hp) as Ht. unfold bind.
    destruct (timer_tick pc0 h) as [h2|s h2|]; simpl in Ht; [|..|done].
    + destruct Ht as (c2 & r2 & -> & Ha2 & _ & Hn2).
      exists (set_pc (next_pc c2) c2, r2). split; [done|]. by apply in_step_advance.
    + destruct Ht as (c2 & r2 & -> & Ha2). by exists (c2, r2).
  - exists (set_pc (next_pc c) c, r). split; [done|]. by apply in_step_advance.
Qed.

#[local] Existing Instance SafeRAM_ops.

Section Round.
Variables (hd : option (ST node unit)) (p : platform).
Variables (h : hart) (c : cpu) (r : ram).
Hypothesis Ha : agrees p h c r.
Hypothesis Hpc : pc c = hpc h.

(** What the code fetches for what the machine fetches. *)
Definition fetches (m : ST node Z) : Prop :=
  match fetch p h with
  | inl a => m (c, r) = (Exn (out_of_bounds a), (c, r))
  | inr bits => m (c, r) = (Ok bits, (c, r)) /\ u32 bits
  end.

Lemma fetch_word_fetches : p_wide p = true -> fetches fetch_word.
Proof.
  intros Hw. unfold fetches, fetch. rewrite Hw, (in_mem_bounds _ _ _ _ _ _ Ha), <- Hpc.
  pose proof (fetch_word_eq (W := node) (c, r) (ag_ram Ha)) as He. cbv zeta in He. simpl view in He.
  destruct (in_bounds r (pc c) 4) eqn:Hb; [|done].
  erewrite read_4; [|exact Ha|by erewrite in_mem_bounds]. split; [done|]. by apply mem_word_u32, (ag_ram Ha).
Qed.

Lemma fetch_halves_fetches : p_wide p = false -> fetches fetch_halves.
Proof.
  intros Hw. unfold fetches, fetch. rewrite Hw, !(in_mem_bounds _ _ _ _ _ _ Ha), <- Hpc.
  pose proof (fetch_halves_eq (W := node) (c, r) (ag_ram Ha)) as He. cbv zeta in He. simpl view in He.
  destruct (in_bounds r (pc c) 2) eqn:H2; [|done].
  erewrite read_2; [|exact Ha|by erewrite in_mem_bounds].
  destruct (mem_half r (pc c) mod 4 =? 3).
  - destruct (in_bounds r (pc c) 4) eqn:H4; [|done].
    erewrite read_4; [|exact Ha|by erewrite in_mem_bounds]. split; [done|]. by apply mem_word_u32, (ag_ram Ha).
  - split; [done|]. pose proof (mem_half_u16 r (pc c) (ag_ram Ha)) as Hu. unfold uN in *. lia.
Qed.

(** What the code executes for what the machine executes. *)
Definition executes (m : Z -> ST node unit) : Prop :=
  forall bits, u32 bits -> matches p (hpc h) (exec_bits p bits h) (m bits (c, r)).

(** Without compressed instructions the other encodings are left open. *)
Lemma other_length bits out : bits mod 4 <> 3 -> p_rvc p = false ->
  matches p (hpc h) (exec_bits p bits h) out.
Proof.
  intros H3 Hrvc. unfold exec_bits. by rewrite (proj2 (Z.eqb_neq _ _) H3), Hrvc.
Qed.

Lemma execute_32_executes : p_rvc p = false -> executes (execute_32 hd).
Proof.
  intros Hrvc bits Hb. destruct (decide (bits mod 4 = 3)); [by apply execute_32_matches|].
  by apply other_length.
Qed.

Lemma execute_by_length_executes : executes (execute_by_length hd).
Proof.
  intros bits Hb. unfold execute_by_length. rewrite land_3, land_ffff.
  destruct (Z.eqb_spec (bits mod 4) 3); [by apply execute_32_matches|].
  destruct (p_rvc p) eqn:Hrvc; [by apply execute_16_matches|by apply other_length].
Qed.

Lemma execute_executes : executes (execute hd).
Proof.
  intros bits Hb. unfold execute, bind, gets. change (view (c, r)) with c.
  rewrite (ag_rvc Ha). destruct (p_rvc p) eqn:Hrvc; cbn [negb].
  - by apply execute_by_length_executes.
  - by apply execute_32_executes.
Qed.

(** One round. *)
Lemma round_follows (f : ST node Z) (e : Z -> ST node unit) : fetches f -> executes e ->
  follows p (isa_step p h) ((inst <- f ;; e inst ;;; tick (p_timer p) ;;; advance) (c, r)).
Proof.
  intros Hf He. unfold fetches, isa_step in *. destruct (fetch p h) as [a|bits].
  { exists (c, r). split; [|done]. unfold bind. by rewrite Hf. }
  destruct Hf as [Hf Hb]. specialize (He bits Hb). unfold bind at 1. rewrite Hf.
  destruct (exec_bits p bits h) as [h'|s h'|]; simpl in He; [|..|done].
  - destruct He as (c' & r' & E & Ha' & Hp' & Hn'). unfold bind at 1. rewrite E.
    apply (tick_follows p h' c' r' (hpc h) Ha' Hp' Hn').
  - destruct He as (c' & r' & E & Ha'). exists (c', r'). split; [|done]. unfold bind. by rewrite E.
Qed.
End Round.

(** ** Runs *)

Section Runs.
Variable p : platform.

(** A loop whose rounds are steps of the machine. *)
Lemma loop_follows (body : unit -> ST node unit) :
  (forall h c r, agrees p h c r -> pc c = hpc h -> follows p (isa_step p h) (body tt (c, r))) ->
  forall n h c r, agrees p h c r -> pc c = hpc h ->
  follows p (isa_run p n h) (loop n body tt (c, r)).
Proof.
  intros Hbody n. induction n as [|n IH]; intros h c r Ha Hpc; simpl; [by exists (c, r)|].
  specialize (Hbody h c r Ha Hpc). unfold bind.
  destruct (isa_step p h) as [h'|s h'|]; simpl in Hbody; [|..|done].
  - destruct Hbody as ([c' r'] & -> & Ha' & Hpc'). by apply IH.
  - destruct Hbody as (nd & -> & Ha'). by exists nd.
Qed.

Lemma run_fast_follows n h c r : p_wide p = true -> p_timer p = false ->
  agrees p h c r -> pc c = hpc h -> follows p (isa_run p n h) (run_fast None n (c, r)).
Proof.
  intros Hw Ht. unfold run_fast. apply loop_follows. intros h' c' r' Ha' Hpc'.
  pose proof (round_follows p h' c' r' Ha' fetch_word (execute_by_length None)) as H.
  rewrite Ht in H. apply H; [by apply fetch_word_fetches|by apply execute_by_length_executes].
Qed.

Lemma run_fast_no_rvc_follows n h c r : p_wide p = true -> p_timer p = false -> p_rvc p = false ->
  agrees p h c r -> pc c = hpc h -> follows p (isa_run p n h) (run_fast_no_rvc None n (c, r)).
Proof.
  intros Hw Ht Hrvc. unfold run_fast_no_rvc. apply loop_follows. intros h' c' r' Ha' Hpc'.
  pose proof (round_follows p h' c' r' Ha' fetch_word (execute_32 None)) as H.
  rewrite Ht in H. apply H; [by apply fetch_word_fetches|by apply execute_32_executes].
Qed.

Lemma run_timer_follows n h c r : p_wide p = true -> p_timer p = true ->
  agrees p h c r -> pc c = hpc h -> follows p (isa_run p n h) (run_timer None n (c, r)).
Proof.
  intros Hw Ht. unfold run_timer. apply loop_follows. intros h' c' r' Ha' Hpc'.
  pose proof (round_follows p h' c' r' Ha' fetch_word (execute_by_length None)) as H.
  rewrite Ht in H. apply H; [by apply fetch_word_fetches|by apply execute_by_length_executes].
Qed.
End Runs.

(** ** The hart a machine represents *)

Definition hart_of (n : node) : hart :=
  mkHart (rv (fst n)) (pc (fst n)) (cv (fst n)) (mem_byte (snd n))
    (if reservation_valid (fst n) then Some (reservation_addr (fst n)) else None)
    (mtime (fst n)) (mtimecmp (fst n)).

(** What the reference machine assumes of a machine: the alignment of instructions is the one
    of its instruction set, and the timer flag of the CPU is the MTIP bit of mip. *)
Record isa_ready (n : node) : Prop := {
  ir_ready : ready (fst n);
  ir_ram : wf_ram (snd n);
  ir_mask : alignment_mask (fst n) = if rvc_enabled (fst n) then 1 else 3;
  ir_mtip : mtip (fst n) = Z.testbit (cv (fst n) MIP) 7
}.

Lemma hart_of_agrees p n : isa_ready n -> p_size p = size (snd n) ->
  p_rvc p = rvc_enabled (fst n) -> agrees p (hart_of n) (fst n) (snd n).
Proof. intros [] Hs Hr. split; try done. by rewrite Hr. Qed.

(** ** The machine *)

Section Machine.
Context {W : Type} `{HC : Has cpu W} `{HR : Has ram W} `{HM : Has machine W} `{HS : !Separate W}.
Context (X : exn -> Prop) (R : RamOps W) `{HL : !LiftMem any_ram X R}.
Hypothesis HX : forall msg, ~ X (MachineError msg).
Context (handle_ecall : option (ST W unit)) (runner : periph -> ST W unit).

(** A run without logging, checks and peripherals, on a CPU that is set up for the machine. *)
Record plain_run (m : machine) (c : cpu) : Prop := {
  pr_regs : truthy (regs_opt m) = false;
  pr_check : check_inv m = false;
  pr_trace : trace m = false;
  pr_mmio : mmio m = false;
  pr_rvc : m_rvc m = rvc_enabled c
}.

(** The loop that is chosen, and the same loop on the node. *)
Definition plain_loop {V : Type} `{HCV : Has cpu V} `{RV : RamOps V} (hd : option (ST V unit))
    (timer rvc : bool) (n : nat) : ST V unit :=
  if timer then run_timer hd n else if rvc then run_fast hd n else run_fast_no_rvc hd n.

Lemma run_plain n (w : W) : plain_run (view w) (view w) ->
  Z.land (pc (view w)) (if rvc_enabled (view w) then 1 else 3) = 0 ->
  run handle_ecall runner n w =
    plain_loop handle_ecall (timer (view w)) (rvc_enabled (view w)) n w.
Proof.
  intros [H1 H2 H3 H4 H5] Hp. unfold run, bind, mget, gets, id, plain_loop.
  rewrite H1, H2, H3, H4, H5, Hp. cbn [negb orb Z.eqb].
  by destruct (timer (view w)), (rvc_enabled (view w)).
Qed.

Lemma plain_loop_lifts tm rvc n :
  lifts any_ram X (plain_loop (V := node) None tm rvc n) (plain_loop handle_ecall tm rvc n).
Proof.
  unfold plain_loop. apply lifts_if; [|apply lifts_if]; apply lifts_loop; intros;
    [by apply step_timer_lifts|by apply step_fast_lifts|by apply step_fast_no_rvc_lifts].
Qed.

(** From a state in step with a hart, [n] rounds go where [n] steps go. *)
Lemma run_in_step (p : platform) (n : nat) (h : hart) (w : W) :
  p_wide p = true -> p_timer p = timer (view w) ->
  in_step p h (node_of w) -> plain_run (view w) (view w) ->
  pc (view w) mod (if rvc_enabled (view w) then 2 else 4) = 0 ->
  match isa_run p n h with
  | Running h' => exists nd, run handle_ecall runner n w = (Ok tt, with_node nd w) /\ in_step p h' nd
  | Stopped s h' => X (stop_exn s) -> exists nd,
      run handle_ecall runner n w = (Exn (stop_exn s), with_node nd w) /\
      agrees p h' (fst nd) (snd nd)
  | Unspecified => True
  end.
Proof.
  intros Hw Htm [Ha Hp] Hplain Hpc.
  rewrite run_plain; [|done|by destruct (rvc_enabled (view w)); rewrite ?land_1, ?land_3].
  pose proof (ag_rvc Ha) as Hr. change (fst (node_of w)) with (view (A := cpu) w) in Hr.
  assert (follows p (isa_run p n h)
    (plain_loop None (timer (view w)) (rvc_enabled (view w)) n (node_of w))) as Hf.
  { unfold plain_loop. destruct (timer (view w)) eqn:Ht; [by apply run_timer_follows|].
    destruct (rvc_enabled (view w)) eqn:Hrvc;
      [by apply run_fast_follows|by apply run_fast_no_rvc_follows]. }
  pose proof (plain_loop_lifts (timer (view w)) (rvc_enabled (view w)) n w I) as Hl.
  destruct (isa_run p n h) as [h'|s h'|]; simpl in Hf; [|..|done].
  - destruct Hf as (nd & E & Hin). rewrite E in Hl. exists nd. split; [by apply Hl|done].
  - intros Hs. destruct Hf as (nd & E & Hin). rewrite E in Hl. exists nd. split; [by apply Hl|done].
Qed.

(** C3: run() implements the instruction set, whole programs at a time: from any ready
    machine at an aligned pc, with or without compressed instructions, without logging,
    checks and peripherals, [n] rounds of the loop go exactly where [n] steps of the
    reference machine of the ISA go, in registers, pc, CSRs, memory, reservation and timer,
    for every program; when the reference machine stops (an access outside the memory, a
    trap or a breakpoint without a handler) the run ends with the exception for it. It holds
    in every world, with the timer on or off, and for the memory classes: with the checked
    one to the end ([stops]), with the unchecked one up to a fault. Nothing is said from a
    step on that the reference machine leaves open: a system call, and what the ISA leaves
    open or the emulator does otherwise (IsaMachine.v lists it, Deviations.v shows what the
    emulator does instead). *)
Theorem run_refines_isa (n : nat) (w : W)
  (Hready : isa_ready (node_of w)) (Hplain : plain_run (view w) (view w))
  (Hpc : pc (view w) mod (if rvc_enabled (view w) then 2 else 4) = 0) :
  let p := mkPlatform (size (view w)) (rvc_enabled (view w)) true (timer (view w)) in
  match isa_run p n (hart_of (node_of w)) with
  | Running h => exists nd, run handle_ecall runner n w = (Ok tt, with_node nd w) /\ in_step p h nd
  | Stopped s h => X (stop_exn s) -> exists nd,
      run handle_ecall runner n w = (Exn (stop_exn s), with_node nd w) /\
      agrees p h (fst nd) (snd nd)
  | Unspecified => True
  end.
Proof.
  intros p. apply run_in_step; try done. split; [by apply hart_of_agrees|done].
Qed.
End Machine.
