(* ===== verification/IsaMonitor.v ===== *)
(** * Monitored runs against the reference machine

    The loop of run_with_checks logs registers and checks invariants before every
    instruction, and fetches in halves.  The monitor only watches: it changes nothing the
    program can see, and it either stops the run at a state of the reference machine of
    IsaMachine.v or the run goes where the reference machine goes. *)

From Stdlib Require Import ZArith Lia Bool String.
From stdpp Require Import base numbers list option gmap strings.
From S2P Require Import Prelude PyStr Isa Ram Cpu Rvc CpuSem Exec ExecSem ExecSafe RamSafe Core.
From S2P Require Import MemInstr Trap IsaMachine IsaRefine Machine Peripherals World Lift MachineThms IsaRun.

Local Open Scope Z_scope.
Local Open Scope py_scope.

(** The machine object is a part of the world beside processor and memory. *)
Class MachineApart (W : Type) `{HC : Has cpu W} `{HR : Has ram W} `{HM : Has machine W} : Prop := {
  apart_node : forall (m : machine) (w : W), node_of (put m w) = node_of w;
  apart_machine : forall (nd : node) (w : W), view (A := machine) (with_node nd w) = view w
}.

#[export] Instance world_MachineApart : MachineApart world.
Proof. by split. Qed.

(** The exceptions with which the monitor stops a run in the state of [c], [r] and [m]: a
    violated invariant, an option that cannot be understood, a word at the pc that cannot be
    read to look for the first call. *)
Definition monitor_stop (c : cpu) (r : ram) (m : machine) (e : exn) : Prop :=
  match e with
  | InvariantViolationError _ => check_inv m = true /\ invariants_on c r m = false
  | SetupError _ =>
      (exists names, regs_opt m = Some names /\ make_regformatter_lambda names = Exn e) \/
      (check_inv m = true /\ exists s, start_checks m = Some s /\ py_int 0 s = None)
  | _ => e = out_of_bounds (pc c) /\ check_inv m = true /\ start_checks m = Some "first-call"%string /\
         in_bounds r (pc c) 4 = false
  end.

(** An option --regs that cannot be understood. *)
Lemma monitor_getters_exn names e : getters_of names = Exn e -> exists msg, e = SetupError msg.
Proof.
  induction names as [|x l IH]; simpl; [done|]. destruct (getter_of x) eqn:E.
  - destruct (getters_of l); [done|]. intros [= <-]. by apply IH.
  - intros [= <-]. unfold getter_of in E. repeat case_match; simplify_eq; eauto.
Qed.

Section Monitor.
Context {W : Type} `{HC : Has cpu W} `{HR : Has ram W} `{HM : Has machine W}.
Context `{HS : !Separate W} `{HA : !MachineApart W}.
Context (R : RamOps W) `{HL : !LiftMem any_ram stops R}.
Context (handle_ecall : option (ST W unit)) (runner : periph -> ST W unit).

(** ** The monitor only watches *)

Section Watch.
Variables (nd : node) (m : machine).
Hypothesis Hready : ready (fst nd).
Hypothesis Hram : wf_ram (snd nd).
Hypothesis Hstart : start_checks m <> None.

(** The state the program is in, with the checks enabled or not yet. *)
Definition watched (w : W) : Prop :=
  node_of w = nd /\ exists on, view w = set_check_enable on m.

Abbreviation watches k Q := (keeps (monitor_stop (fst nd) (snd nd) m) watched k Q).

Lemma watched_cpu w : watched w -> view w = fst nd.
Proof. by intros [<- _]. Qed.

(** A read of the processor that succeeds. *)
Lemma watches_read {A} (k : ST cpu A) : (exists v, k (fst nd) = (Ok v, fst nd)) ->
  watches (zoom k) (fun _ => True).
Proof.
  intros [v E] w Hw. unfold zoom. rewrite (watched_cpu w Hw), E.
  by rewrite <- (watched_cpu w Hw), put_view.
Qed.

Lemma watches_reg i : 0 <= i < 32 -> watches (zoom (reg i)) (fun _ => True).
Proof.
  intros Hi. apply watches_read. exists (rv (fst nd) i). apply reg_eq; [apply Hready|done].
Qed.

Lemma watches_csr i : 0 <= i < 4096 -> watches (zoom (csr i)) (fun _ => True).
Proof.
  intros Hi. apply watches_read. exists (cv (fst nd) i). apply csr_eq; [apply Hready|done].
Qed.

Lemma watches_getter g : getter_ok g -> watches (zoom (getter_value g)) (fun _ => True).
Proof.
  intros Hg. destruct g; simpl in *; try by apply watches_reg.
  all: try by apply watches_csr.
  all: apply watches_read; by eexists.
Qed.

Lemma watches_log gs : Forall getter_ok gs -> watches (log_regs gs) (fun _ => True).
Proof.
  intros Hgs. apply keeps_for_each. intros g Hg.
  eapply keeps_bind; [|intros; by apply keeps_ret].
  apply watches_getter. rewrite Forall_forall in Hgs. by apply Hgs.
Qed.

Lemma watches_enable on : watches (mset (set_check_enable on)) (fun _ => True).
Proof.
  intros w [Hn [b Hm]]. unfold mset, zoom, modify. split; [|done]. split.
  - by rewrite apart_node.
  - exists on. rewrite view_put, Hm. by destruct m.
Qed.

Section Checked.
Hypothesis Hcheck : check_inv m = true.

(** The look at the instruction. *)
Lemma watches_load : start_checks m = Some "first-call"%string ->
  watches (load_word (pc (fst nd))) (fun _ => True).
Proof using All.
  intros Hfirst w [Hn Hm]. set (a := pc (fst nd)).
  pose proof (lift_load_word (P := any_ram) (X := stops) a w I) as Hl. rewrite Hn in Hl.
  assert (load_word (RamOps := SafeRAM_ops) a nd =
    (if in_bounds (snd nd) a 4 then Ok (mem_word (snd nd) a) else Exn (out_of_bounds a), nd)) as E.
  { subst a. destruct nd as [c r]. cbn [load_word SafeRAM_ops fst]. unfold zoom. cbn [view Has_snd snd].
    rewrite SafeRAM_load_word_eq by exact Hram. by destruct (in_bounds r (pc c) 4). }
  rewrite E in Hl. assert (with_node nd w = w) as Hid by (rewrite <- Hn; apply with_node_of).
  rewrite Hid in Hl. destruct (in_bounds (snd nd) a 4) eqn:Hb; rewrite (proj2 (Hl I)); by repeat split.
Qed.

Lemma watches_trigger : watches trigger_check (fun _ => True).
Proof using All.
  unfold trigger_check.
  eapply keeps_bind; [apply (keeps_gets _ _ _ (fun s => s = start_checks m)); by intros w [_ [b ->]]|].
  intros s Hs. eapply keeps_bind; [apply (keeps_gets _ _ _ (fun p => p = pc (fst nd)));
    intros w Hw; by rewrite (watched_cpu w Hw)|].
  intros ? ->. destruct s as [s|]; [|done].
  apply keeps_if; intros _; [by apply keeps_ret|].
  apply keeps_if; intros _; [eapply keeps_bind; [apply keeps_any|]; intros; by apply keeps_ret|].
  apply keeps_if; [intros ->%String.eqb_eq|intros _].
  - eapply keeps_bind; [by apply watches_load|]. intros; by apply keeps_ret.
  - destruct (py_int 0 s) eqn:E; [by apply keeps_ret|]. apply keeps_raise. right. split; [done|]. by exists s.
Qed.

Lemma watches_invariants : watches invariants (fun _ => True).
Proof using All.
  intros w [Hn [on Hm]]. assert (wf_cpu (view w)) as Hw by (rewrite <- Hn in Hready; apply Hready).
  pose proof (invariants_verdict w Hw) as Hv. unfold verdict, invariants_hold in Hv. rewrite Hm in Hv.
  change (invariants_on (view w) (view w) (set_check_enable on m))
    with (invariants_on (fst (node_of w)) (snd (node_of w)) m) in Hv. rewrite Hn in Hv.
  destruct (invariants_on (fst nd) (snd nd) m) eqn:E; [rewrite Hv|destruct Hv as [msg ->]];
    (split; [by split; [|exists on]|done]).
Qed.

Lemma watches_checks : watches check_invariants (fun _ => True).
Proof using All.
  unfold check_invariants. eapply keeps_bind; [apply keeps_any|]. intros on _.
  apply keeps_if; intros _; [apply watches_invariants|].
  eapply keeps_bind; [apply watches_trigger|]. intros go _.
  eapply keeps_bind; [apply watches_enable|]. intros _ _.
  apply keeps_if; intros _; [apply watches_invariants|by apply keeps_ret].
Qed.
End Checked.

(** What happens before the fetch. *)
Lemma watches_before gs : Forall getter_ok gs ->
  watches (log_regs gs ;;; if check_inv m then check_invariants else ret tt) (fun _ => True).
Proof using All.
  intros Hgs. eapply keeps_bind; [by apply watches_log|]. intros _ _.
  apply keeps_if; intros Hc; [by apply watches_checks|by apply keeps_ret].
Qed.
End Watch.

(** ** The rounds *)

(** The instruction of a round, and the same on the node. *)
Definition instruction {V : Type} `{HCV : Has cpu V} `{RV : RamOps V} (hd : option (ST V unit))
    (on : bool) : ST V unit :=
  inst <- fetch_halves ;; execute hd inst ;;; tick on ;;; advance.

Lemma instruction_lifts on :
  lifts any_ram stops (instruction (RV := SafeRAM_ops) None on) (instruction handle_ecall on).
Proof.
  unfold instruction. apply lifts_bind; [apply (fetch_halves_lifts any_ram stops _)|intros inst].
  apply lifts_bind; [apply (execute_lifts any_ram stops _ (fun msg H => H))|intros _].
  apply lifts_bind; [apply tick_lifts|intros _]. apply lifts_zoom_cpu.
Qed.

Section Run.
Variable p : platform.
Hypothesis Hhalves : p_wide p = false.
Variable gs : list getter.
Hypothesis Hgs : Forall getter_ok gs.

(** A monitored machine that is in step with a hart. *)
Record monitored (h : hart) (w : W) : Prop := {
  mo_step : in_step p h (node_of w);
  mo_timer : timer (view w) = p_timer p;
  mo_mmio : mmio (view w) = false;
  mo_start : start_checks (view w) <> None
}.

(** The outcome of [n] rounds from [h] on: the monitor has stopped the run after some of
    them, or they are steps. *)
Definition run_or_stop {A} (n : nat) (h : hart) (out : res A * W) : Prop :=
  match out with
  | (Exn e, w') => monitor_stop (view w') (view w') (view w') e /\
      exists k h', (k < n)%nat /\ isa_run p k h = Running h' /\ monitored h' w'
  | (Ok _, _) => False
  end \/
  match isa_run p n h with
  | Running h' => exists a w', out = (Ok a, w') /\ monitored h' w'
  | Stopped s h' => exists w', out = (Exn (stop_exn s), w') /\ agrees p h' (view w') (view w')
  | Unspecified => True
  end.

Lemma step_with_checks_eq div w : mmio (view w) = false ->
  step_with_checks handle_ecall runner gs div w =
    ((log_regs gs ;;; if check_inv (view w) then check_invariants else ret tt) ;;;
     instruction handle_ecall (timer (view w)) ;;; ret div) w.
Proof.
  intros Hm. unfold step_with_checks, instruction, mget, gets, id. unfold bind at 1. rewrite Hm.
  unfold bind. destruct (log_regs gs w) as [[?|] ?]; [|done].
  destruct ((if check_inv (view w) then check_invariants else ret tt) _) as [[?|] ?]; [|done].
  destruct (fetch_halves _) as [[?|] ?]; [|done].
  destruct (execute handle_ecall _ _) as [[?|] ?]; [|done].
  destruct (tick _ _) as [[?|] ?]; [|done]. by destruct (advance _) as [[?|] ?].
Qed.

Lemma round_run_or_stop h w div : monitored h w ->
  run_or_stop 1 h (step_with_checks handle_ecall runner gs div w).
Proof.
  intros [Hin Ht Hm Hst]. pose proof Hin as [Ha Hpc].
  assert (watched (node_of w) (view w) w) as Hw0
    by (split; [done|]; exists (check_enable (view w)); by destruct (view w)).
  pose proof (watches_before (node_of w) (view w) (ag_ready Ha) (ag_ram Ha) Hst gs Hgs w Hw0) as Hw.
  rewrite step_with_checks_eq by done. unfold bind at 1.
  destruct ((log_regs gs ;;; _) w) as [[[]|e] w1].
  2:{ destruct Hw as [[Hn [on Hm1]] He]. left.
      split; [rewrite Hm1; by rewrite <- Hn in He|]. exists 0%nat, h. split; [lia|].
      split; [done|]. by split; rewrite ?Hn, ?Hm1; destruct (view w). }
  destruct Hw as [[Hn [on Hm1]] _]. right.
  pose proof (instruction_lifts (timer (view w)) w1 I) as Hl. rewrite Hn in Hl.
  assert (follows p (isa_step p h) (instruction (RV := SafeRAM_ops) None (timer (view w)) (node_of w))) as Hf.
  { rewrite Ht. apply (round_follows p h _ _ Ha (fetch_halves (R := SafeRAM_ops))
      (execute (R := SafeRAM_ops) None));
      [by apply fetch_halves_fetches|by apply execute_executes]. }
  unfold run_or_stop, bind. cbn [isa_run].
  destruct (isa_step p h) as [h'|s h'|]; simpl in Hf; [|..|done];
    destruct Hf as (nd & E & Hin'); rewrite E in Hl.
  - rewrite (proj2 (Hl I)). exists div, (with_node nd w1). split; [done|].
    by split; rewrite ?node_with, ?apart_machine, ?Hm1; destruct (view w).
  - rewrite (proj2 (Hl ltac:(by destruct s))). exists (with_node nd w1). split; [done|].
    by rewrite <- (node_with nd w1) in Hin'.
Qed.

(** A number of rounds. *)
Lemma loop_run_or_stop n h w div : monitored h w ->
  run_or_stop n h (loop n (step_with_checks handle_ecall runner gs) div w).
Proof.
  revert h w div. induction n as [|n IH]; intros h w div Hmo; [right; by exists div, w|].
  pose proof (round_run_or_stop h w div Hmo) as Hr. cbn [loop]. unfold bind.
  unfold run_or_stop in Hr |- *. cbn [isa_run] in Hr |- *.
  destruct Hr as [Hr|Hr].
  - left. destruct (step_with_checks _ _ _ _ w) as [[a|e] w1]; [done|].
    destruct Hr as (He & k & h' & Hk & Hi & Hm). split; [done|]. exists k, h'. split; [lia|done].
  - destruct (isa_step p h) as [h1|s h1|] eqn:Hs; [|..|by right].
    + destruct Hr as (a & w1 & -> & Hm1). specialize (IH h1 w1 a Hm1).
      destruct IH as [IH|IH]; [left|by right].
      destruct (loop n _ a w1) as [[b|e] w2]; [done|]. destruct IH as (He & k & h' & Hk & Hi & Hm).
      split; [done|]. exists (S k), h'. split; [lia|]. split; [|done]. cbn [isa_run]. by rewrite Hs.
    + right. destruct Hr as (w1 & -> & Hag). by exists w1.
Qed.
End Run.

(** C4: the monitor only watches.  With --regs, --trace or --check-inv and the checked
    memory, without peripherals, from a ready machine at an aligned pc: a run that comes
    through [n] rounds is where the reference machine of the ISA is after [n] steps; a run
    that ends with an exception has either been stopped by the monitor, exactly in the state
    of the reference machine after some number of steps, for its reason in that state (an
    invariant that does not hold there, an option that cannot be understood, with
    --check-inv and the search for the first call a word at the pc that is outside the
    memory), or with the reference machine, by the exception for its stop.  Nothing is said
    of a program from a step on that the reference machine leaves open. *)
Theorem monitored_run_refines_isa (n : nat) (w : W)
  (Hready : isa_ready (node_of w)) (Hrvc : m_rvc (view w) = rvc_enabled (view w))
  (Hmon : truthy (regs_opt (view w)) || check_inv (view w) || trace (view w) = true)
  (Hmmio : mmio (view w) = false) (Hstart : start_checks (view w) <> None)
  (Hpc : pc (view w) mod (if rvc_enabled (view w) then 2 else 4) = 0) :
  let p := mkPlatform (size (view w)) (rvc_enabled (view w)) false (timer (view w)) in
  let h := hart_of (node_of w) in
  match run handle_ecall runner n w with
  | (Ok _, w') => match isa_run p n h with
                  | Running h' => in_step p h' (node_of w')
                  | Stopped _ _ => False
                  | Unspecified => True
                  end
  | (Exn e, w') =>
      (monitor_stop (view w') (view w') (view w') e /\ exists k h', (k <= n)%nat /\ isa_run p k h = Running h' /\
                                      in_step p h' (node_of w')) \/
      match isa_run p n h with
      | Running _ => False
      | Stopped s h' => e = stop_exn s /\ agrees p h' (view w') (view w')
      | Unspecified => True
      end
  end.
Proof.
  intros p h.
  assert (monitored p h w) as Hmo
    by (split; try done; split; [by apply hart_of_agrees|done]).
  assert (run handle_ecall runner n w = run_with_checks handle_ecall runner n w) as ->.
  { unfold run, bind, mget, gets, id. rewrite Hmon, Hrvc.
    by destruct (rvc_enabled (view w)); rewrite ?land_1, ?land_3, Hpc. }
  unfold run_with_checks. unfold bind at 1, mget, gets, id. unfold bind at 1.
  lazymatch goal with
  | |- match (match ?t w with _ => _ end) with _ => _ end => destruct (t w) as [[gs|e] w1] eqn:Hg
  end.
  2:{ left. destruct (regs_opt (view w)) as [r|] eqn:Hr; [|done]. destruct (truthy _); [|done].
      destruct (make_regformatter_lambda r) as [|e'] eqn:E; simplify_eq.
      destruct (monitor_getters_exn _ _ E) as [msg ->]. split; [left; by exists r|]. exists 0%nat, h. split; [lia|]. split; [done|]. apply Hmo. }
  assert (w1 = w /\ Forall getter_ok gs) as [-> Hgs].
  { destruct (regs_opt (view w)) as [r|]; [destruct (truthy _)|]; unfold ret in Hg; simplify_eq; try done.
    destruct (make_regformatter_lambda r) eqn:E; simplify_eq. split; [done|]. by eapply getters_of_ok. }
  pose proof (loop_run_or_stop p eq_refl gs Hgs n h w 0 Hmo) as Hl. unfold bind, run_or_stop in *.
  destruct (loop n _ 0 w) as [[a|e] w2]; simpl in *.
  - destruct Hl as [[]|Hl]. destruct (isa_run p n h); [|by destruct Hl as (? & ? & _)|done].
    destruct Hl as (? & ? & [= <- <-] & []). done.
  - destruct Hl as [(He & k & h' & Hk & Hi & Hm)|Hl]; [left|right].
    + split; [done|]. exists k, h'. split; [lia|]. split; [done|]. apply Hm.
    + destruct (isa_run p n h); [by destruct Hl as (? & ? & ? & _)| |done].
      by destruct Hl as (? & [= <- <-] & ?).
Qed.
End Monitor.
