(* ===== verification/Hosted.v ===== *)
(** * Programs with system calls

    The reference machine of IsaMachine.v in an environment: an ECALL without a trap handler
    of the program is a call of the environment, which works on the hart and on a state of
    its own and returns, ends the program or leaves open what happens.  The file has the
    machine ([hosted_run], a specification) and the refinement of the execution loops against
    it, for every environment that the handler installed in the CPU implements
    ([Implements]). *)

From Stdlib Require Import ZArith Lia Bool String.
From stdpp Require Import base numbers list option gmap strings.
From S2P Require Import Prelude PyStr Isa Ram Cpu Rvc CpuSem Exec ExecSem ExecSafe RamSafe Core.
From S2P Require Import MemInstr Trap IsaMachine IsaRefine Machine Peripherals World Lift MachineThms IsaRun.

Local Open Scope Z_scope.
Local Open Scope py_scope.

(** ** The machine *)

Inductive call_result (E : Type) :=
| Returned (h : hart) (e : E)
| Ended (code : Z) (e : E)
| Refused.
Arguments Returned {E} h e.
Arguments Ended {E} code e.
Arguments Refused {E}.

Inductive hosted_result (E : Type) :=
| Hosted (h : hart) (e : E)
| HostedStop (s : stop_cause) (h : hart) (e : E)
| HostedExit (code : Z) (h : hart) (e : E)
| HostedOpen.
Arguments Hosted {E} h e.
Arguments HostedStop {E} s h e.
Arguments HostedExit {E} code h e.
Arguments HostedOpen {E}.

Section Machine.
Variables (p : platform) (E : Type) (call : hart -> E -> call_result E).

(** The hart is at an ECALL that the environment takes. *)
Definition at_call (h : hart) : bool :=
  match fetch p h with
  | inr bits => (bits =? 0x73) && (hcsr h MTVEC =? 0)
  | inl _ => false
  end.

Definition with_env (e : E) (r : result) : hosted_result E :=
  match r with
  | Running h => Hosted h e
  | Stopped s h => HostedStop s h e
  | Unspecified => HostedOpen
  end.

(** The hart after a call that has returned, before the timer. *)
Definition after_call (h h' : hart) : hart := set_hpc (wrap (hpc h + 4)) (noted 11 h').

Definition hosted_step (h : hart) (e : E) : hosted_result E :=
  if at_call h then
    match call h e with
    | Returned h' e' =>
        let h2 := after_call h h' in
        with_env e' (if p_timer p then timer_tick (hpc h) h2 else Running h2)
    | Ended code e' => HostedExit code h e'
    | Refused => HostedOpen
    end
  else with_env e (isa_step p h).

Fixpoint hosted_run (n : nat) (h : hart) (e : E) : hosted_result E :=
  match n with
  | O => Hosted h e
  | S n' => match hosted_step h e with Hosted h' e' => hosted_run n' h' e' | r => r end
  end.
End Machine.

Arguments with_env {E} e r.
Arguments hosted_step p {E} call h e.
Arguments hosted_run p {E} call n h e.

(** ** The promise of a handler

    The handler does to the machine and to the environment what the call does, and leaves the
    [rest] of the world alone. *)

Class Implements {W : Type} `{HC : Has cpu W} `{HR : Has ram W} (p : platform) {E : Type}
    (call : hart -> E -> call_result E) (env : E -> W -> Prop) {T : Type} (rest : W -> T)
    (hd : ST W unit) : Prop := {
  env_apart : forall e w nd, env e w -> env e (with_node nd w);
  call_implemented : forall h e w, agrees p h (view w) (view w) -> pc (view w) = hpc h -> env e w ->
    match call h e with
    | Returned h' e' => hpc h' = hpc h /\ exists w', hd w = (Ok tt, w') /\
        agrees p h' (view w') (view w') /\ pc (view w') = pc (view w) /\
        next_pc (view w') = next_pc (view w) /\ env e' w' /\ rest w' = rest w
    | Ended code e' => exists w', hd w = (Exn (ExecutionTerminated (ExitCode code)), w') /\
        agrees p h (view w') (view w') /\ env e' w' /\ rest w' = rest w
    | Refused => True
    end
}.

(** ** The rounds *)

Section Rounds.
Context {W : Type} `{HC : Has cpu W} `{HR : Has ram W} `{HS : !Separate W}.
Context (X : exn -> Prop) (R : RamOps W) `{HL : !LiftMem any_ram X R}.
Hypothesis HX : forall msg, ~ X (MachineError msg).
Context (p : platform) {E : Type} (call : hart -> E -> call_result E) (env : E -> W -> Prop).
Context {T : Type} (rest : W -> T) (hd : ST W unit) `{HI : !Implements p call env rest hd}.
Hypothesis Hwide : p_wide p = true.

(** The outcome of a number of rounds. *)
Definition hosted_outcome (res : hosted_result E) (out : Prelude.res unit * W) : Prop :=
  match res with
  | Hosted h e => exists w, out = (Ok tt, w) /\ in_step p h (node_of w) /\ env e w
  | HostedStop s h e => X (stop_exn s) -> exists w,
      out = (Exn (stop_exn s), w) /\ agrees p h (view w) (view w) /\ env e w
  | HostedExit code h e => exists w,
      out = (Exn (ExecutionTerminated (ExitCode code)), w) /\ agrees p h (view w) (view w) /\ env e w
  | HostedOpen => True
  end.

(** What follows the hart on the node, lifted. *)
Lemma lifted_outcome res e (w : W) (m0 : ST node unit) (m : ST W unit) :
  lifts any_ram X m0 m -> env e w -> follows p res (m0 (node_of w)) ->
  hosted_outcome (with_env e res) (m w).
Proof using HI HS.
  intros Hl He Hf. specialize (Hl w I).
  destruct res as [h|s h|]; [|intros Hs|done]; destruct Hf as (nd & E0 & Hin); rewrite E0 in Hl.
  - rewrite (proj2 (Hl I)). exists (with_node nd w). rewrite node_with. split; [done|].
    split; [done|]. by apply env_apart.
  - rewrite (proj2 (Hl Hs)). exists (with_node nd w). split; [done|]. split; [|by apply env_apart].
    by rewrite <- (node_with nd w) in Hin.
Qed.

(** The ECALL itself. *)
Lemma ecall_starts h (w : W) : in_step p h (node_of w) -> hcsr h MTVEC = 0 ->
  exists c, agrees p h c (view w) /\ pc c = hpc h /\ next_pc c = wrap (hpc h + 4) /\
    execute_32 (Some hd) 0x73 w =
      (hd ;;; zoom (bypassed_trap_return 11 0) ;;; zoom (set_reg 0 0)) (put c w).
Proof using HS.
  intros [Ha Hpc] Hm. destruct (ag_ready Ha) as (_ & _ & Hcoh). simpl in Ha, Hpc, Hcoh.
  exists (fetched 4 (cache_32 0x73 (view w))).
  assert (agrees p h (fetched 4 (cache_32 0x73 (view w))) (view w)) as Ha1
    by by apply agrees_fetched, agrees_cache_32.
  split; [done|]. split; [done|]. split; [by simpl; rewrite <- Hpc|].
  rewrite execute_32_cached, execute_decoded_eq, view_put, put_put by done.
  change (decode_fields 0x73) with (mkDecoded 0x73 0 0 0 0 0). cbn [dispatch Z.eqb Pos.eqb].
  change (set_next_pc (wrap (pc (cache_32 0x73 (view w)) + 4)) (cache_32 0x73 (view w)))
    with (fetched 4 (cache_32 0x73 (view w))).
  unfold exec_SYSTEM, exec_ECALL. cbn [Z.eqb Pos.eqb]. unfold bind at 1 2.
  assert (zoom (csr 0x305) (put (fetched 4 (cache_32 0x73 (view w))) w) =
    (Ok 0, put (fetched 4 (cache_32 0x73 (view w))) w)) as ->.
  { unfold zoom. rewrite view_put. destruct (ag_ready Ha1) as (Hwf & _).
    rewrite (csr_eq _ 0x305 (wf_csrs_len _ Hwf)) by lia.
    rewrite <- (ag_csr Ha1 0x305) by lia. change (hcsr h 0x305) with (hcsr h MTVEC). by rewrite Hm, put_put. }
  cbn [Z.eqb]. unfold bind. by destruct (hd _) as [[?|] ?].
Qed.

(** After the handler: the bookkeeping of the trap and the register zero. *)
Lemma call_returns h (w : W) : agrees p h (view w) (view w) -> pc (view w) = hpc h ->
  (zoom (bypassed_trap_return 11 0) ;;; zoom (set_reg 0 0)) w =
    (Ok tt, put (bypassed 11 (view w)) w) /\ agrees p (noted 11 h) (bypassed 11 (view w)) (view w).
Proof using.
  intros Ha Hpc. assert (agrees p (noted 11 h) (bypassed 11 (view w)) (view w)) as Hb
    by by apply agrees_bypassed. split; [|done].
  destruct (ag_ready Ha) as (Hwf & _). destruct (ag_ready Hb) as (Hwf' & H0' & _).
  unfold bind, zoom. rewrite bypassed_eq, view_put, set_reg_eq, put_put by (done || lia || apply Hwf').
  by rewrite wr_x0.
Qed.

Lemma rest_outcome h e (w : W) pc0 : agrees p h (view w) (view w) -> env e w ->
  pc (view w) = pc0 -> next_pc (view w) = hpc h ->
  hosted_outcome (with_env e (if p_timer p then timer_tick pc0 h else Running h))
    ((tick (p_timer p) ;;; advance) w).
Proof using HI HS.
  intros Ha He Hp Hn. apply (lifted_outcome _ _ _ (tick (p_timer p) ;;; advance)); [|done|].
  - apply lifts_bind; [apply tick_lifts|intros _; apply lifts_zoom_cpu].
  - by apply tick_follows.
Qed.

Lemma call_round h e (w : W) : in_step p h (node_of w) -> env e w -> at_call p h = true ->
  hosted_outcome (hosted_step p call h e)
    ((execute_32 (Some hd) 0x73 ;;; tick (p_timer p) ;;; advance) w).
Proof using HI HS.
  intros Hin He Hat. unfold hosted_step. rewrite Hat. unfold at_call in Hat.
  destruct (fetch p h) as [|bits]; [done|]. apply andb_true_iff in Hat as [_ Hm].
  apply Z.eqb_eq in Hm. destruct (ecall_starts h w Hin Hm) as (c & Ha & Hp & Hn & Hex).
  assert (env e (put c w)) as He1 by (rewrite <- with_cpu; by apply env_apart).
  pose proof (call_implemented (Implements := HI) h e (put c w)) as Hc. rewrite view_put, sep_ram in Hc.
  specialize (Hc Ha Hp He1). unfold bind at 1. rewrite Hex. unfold bind at 1.
  destruct (call h e) as [h' e'|code e'|]; [|..|done].
  - destruct Hc as (Hh & w' & -> & Ha' & Hp' & Hn' & He' & _). rewrite Hp, <- Hh in Hp'.
    destruct (call_returns h' w' Ha' Hp') as [-> Hb]. rewrite <- Hh.
    apply rest_outcome; rewrite ?view_put, ?sep_ram; try done.
    + by apply agrees_hpc.
    + rewrite <- with_cpu. by apply env_apart.
    + simpl. by rewrite Hn', Hn.
  - destruct Hc as (w' & -> & Ha' & He' & _). by exists w'.
Qed.

(** One round of a loop. *)
Lemma hosted_round (e0 : Z -> ST node unit) (ex : Z -> ST W unit) h e (w : W) :
  (forall c r, agrees p h c r -> pc c = hpc h -> executes p h c r e0) ->
  (forall inst, lifts any_ram X (e0 inst) (ex inst)) -> ex 0x73 = execute_32 (Some hd) 0x73 ->
  in_step p h (node_of w) -> env e w ->
  hosted_outcome (hosted_step p call h e)
    ((inst <- fetch_word ;; ex inst ;;; tick (p_timer p) ;;; advance) w).
Proof using HI HS HL Hwide.
  intros Hex Hl Hecall Hin He. pose proof Hin as [Ha Hpc]. destruct (at_call p h) eqn:Hat.
  - assert (fetch_word w = (Ok 0x73, w)) as Hf.
    { unfold at_call in Hat. destruct (fetch p h) as [|bits] eqn:Ef; [done|].
      apply andb_true_iff in Hat as [Hb _]. apply Z.eqb_eq in Hb as ->.
      pose proof (fetch_word_fetches p h _ _ Ha Hpc Hwide) as Hfe. unfold fetches in Hfe. rewrite Ef in Hfe.
      pose proof (fetch_word_lifts any_ram X R w I) as Hlf.
      change (node_of w) with (fst (node_of w), snd (node_of w)) in Hlf. rewrite (proj1 Hfe) in Hlf.
      rewrite (proj2 (Hlf I)). f_equal. apply with_node_of. }
    unfold bind at 1. rewrite Hf, Hecall. by apply call_round.
  - unfold hosted_step. rewrite Hat.
    apply (lifted_outcome _ _ _ (inst <- fetch_word (R := SafeRAM_ops) ;; e0 inst ;;; tick (p_timer p) ;;; advance));
      [|done|].
    + apply lifts_bind; [apply (fetch_word_lifts any_ram X R)|intros inst].
      apply lifts_bind; [done|intros _]. apply lifts_bind; [apply tick_lifts|intros _; apply lifts_zoom_cpu].
    + apply (round_follows p h _ _ Ha fetch_word e0); [by apply fetch_word_fetches|by apply Hex].
Qed.

(** ** Runs *)

Lemma hosted_loop (body : unit -> ST W unit) :
  (forall h e w, in_step p h (node_of w) -> env e w ->
     hosted_outcome (hosted_step p call h e) (body tt w)) ->
  forall n h e w, in_step p h (node_of w) -> env e w ->
  hosted_outcome (hosted_run p call n h e) (loop n body tt w).
Proof using.
  intros Hbody n. induction n as [|n IH]; intros h e w Hin He; cbn [hosted_run loop]; [by exists w|].
  specialize (Hbody h e w Hin He). unfold bind.
  destruct (hosted_step p call h e) as [h' e'|s h' e'|code h' e'|]; [|intros Hs|..|done].
  - destruct Hbody as (w' & -> & Hin' & He'). by apply IH.
  - destruct (Hbody Hs) as (w' & -> & Ha). by exists w'.
  - destruct Hbody as (w' & -> & Ha). by exists w'.
Qed.

Lemma plain_loop_hosted n h e (w : W) : in_step p h (node_of w) -> env e w ->
  hosted_outcome (hosted_run p call n h e) (plain_loop (Some hd) (p_timer p) (p_rvc p) n w).
Proof using HI HS HL HX Hwide.
  intros Hin He. unfold plain_loop.
  assert (forall h c r, agrees p h c r -> pc c = hpc h -> executes p h c r (execute_by_length (R := SafeRAM_ops) None)) as H1
    by by intros; apply execute_by_length_executes.
  pose proof (execute_by_length_lifts any_ram X R HX (Some hd)) as L1.
  pose proof (fun h e w => hosted_round (execute_by_length (R := SafeRAM_ops) None) (execute_by_length (Some hd)) h e w
    (H1 h) L1 eq_refl) as Hr.
  destruct (p_timer p) eqn:Ht; [by apply hosted_loop|].
  destruct (p_rvc p) eqn:Hv; [by apply hosted_loop|].
  apply hosted_loop; [|done..]. intros h' e' w' Hin' He'.
  pose proof (hosted_round (execute_32 (R := SafeRAM_ops) None) (execute_32 (Some hd)) h' e' w') as Hr2. rewrite Ht in Hr2.
  apply Hr2; [by intros; apply execute_32_executes|by apply (execute_32_lifts any_ram X R)|done..].
Qed.

(** run(), without logging, checks and peripherals. *)
Lemma run_hosted `{HM : Has machine W} (runner : periph -> ST W unit) n h e (w : W) :
  in_step p h (node_of w) -> env e w -> plain_run (view w) (view w) -> p_timer p = timer (view w) ->
  hpc h mod isa_align p = 0 ->
  hosted_outcome (hosted_run p call n h e) (run (Some hd) runner n w).
Proof using HI HS HL HX Hwide.
  intros Hin He Hpr Ht Hal. pose proof Hin as [Ha Hpc]. pose proof (ag_rvc Ha) as Hr. simpl in Hr, Hpc.
  rewrite run_plain; [rewrite Hr, <- Ht; by apply plain_loop_hosted|done|].
  rewrite Hr, Hpc. unfold isa_align in Hal. by destruct (p_rvc p); rewrite ?land_1, ?land_3.
Qed.
End Rounds.

