(* ===== verification/Argv.v ===== *)
(** * Program arguments in memory

    setup_argv lays out the argument strings and the argv table in the heap as a C
    program expects them: theorem for ASCII arguments, and the case that the
    source gets wrong (the heap pointer advances by characters, not bytes). *)

From Stdlib Require Import ZArith Lia Bool String.
From stdpp Require Import base numbers list option gmap strings.
From S2P Require Import Prelude PyStr Isa Ram Cpu Rvc CpuSem Exec ExecSem ExecSafe RamSafe Core.
From S2P Require Import Machine Peripherals World MemInstr.

Local Open Scope Z_scope.
Local Open Scope py_scope.

#[local] Existing Instance SafeRAM_ops.

(** ** Layout *)

(** The pointers of the arguments stored from [h] on, and the heap end after them. *)
Fixpoint arg_pointers (h : Z) (argv : list (list Z)) : list Z :=
  match argv with
  | [] => []
  | a :: rest => h :: arg_pointers (align_up (h + (py_len a + 1)) 4) rest
  end.

Fixpoint args_end (h : Z) (argv : list (list Z)) : Z :=
  match argv with
  | [] => h
  | a :: rest => args_end (align_up (h + (py_len a + 1)) 4) rest
  end.

(** A NUL-terminated string in memory. *)
Definition cstring_at (r : ram) (p : Z) (s : list Z) : Prop :=
  forall i c, (s ++ [0]) !! i = Some c -> mem_byte r (p + Z.of_nat i) = c.

(** Memories that agree below an address. *)
Definition same_below (r r' : ram) (h : Z) : Prop :=
  forall x, 0 <= x < h -> mem_byte r' x = mem_byte r x.

Definition ascii_string (s : list Z) : Prop := Forall (fun c => 0 < c < 128) s.

Lemma utf8_ascii s : ascii_string s -> utf8_encode s = Some s.
Proof.
  induction 1 as [|c s Hc Hs IH]; [done|]. simpl. unfold utf8_char.
  rewrite (proj2 (Z.ltb_lt c 0x80)) by lia. by rewrite IH.
Qed.

Lemma align_up_4 x : 0 <= x -> x <= align_up x 4 < x + 4 /\ align_up x 4 mod 4 = 0.
Proof.
  intros Hx. unfold align_up. change (Z.lnot (4 - 1)) with (Z.lnot (Z.ones 2)).
  rewrite <- Z.ldiff_land, Z.ldiff_ones_r, Z.shiftl_mul_pow2, Z.shiftr_div_pow2 by lia.
  simpl (2 ^ 2). Z.div_mod_to_equations. lia.
Qed.

Lemma align_up_8 x : 0 <= x -> x <= align_up x 8 < x + 8 /\ align_up x 8 mod 8 = 0.
Proof.
  intros Hx. unfold align_up. change (Z.lnot (8 - 1)) with (Z.lnot (Z.ones 3)).
  rewrite <- Z.ldiff_land, Z.ldiff_ones_r, Z.shiftl_mul_pow2, Z.shiftr_div_pow2 by lia.
  simpl (2 ^ 3). Z.div_mod_to_equations. lia.
Qed.

Lemma args_end_ge h argv : 0 <= h -> h <= args_end h argv.
Proof.
  revert h. induction argv as [|a rest IH]; intros h Hh; simpl; [lia|].
  pose proof (align_up_4 (h + (py_len a + 1))) as Hal. unfold py_len in *.
  specialize (IH (align_up (h + (Z.of_nat (length a) + 1)) 4)). lia.
Qed.

(** ** The two loops *)

(** The world with another memory and heap end. *)
Definition heap_world (w : world) (r : ram) (h : Z) : world :=
  mkWorld (w_cpu w) r (set_heap_end (Some h) (w_machine w)) (w_timer w) (w_uart w) (w_blk w).

Lemma heap_world_heap w r h r' h' : heap_world (heap_world w r h) r' h' = heap_world w r' h'.
Proof. done. Qed.

Lemma store_arg_eq (w : world) r h a : ascii_string a -> wf_ram r -> 0 <= h ->
  h + (py_len a + 1) <= size r ->
  store_arg a (heap_world w r h) =
    (Ok h, heap_world w (with_bytes r h (a ++ [0])) (align_up (h + (py_len a + 1)) 4)).
Proof.
  intros Ha Hr Hh Hb. unfold store_arg, mget, bind, gets. simpl.
  rewrite utf8_ascii by done. unfold of_option, ret. unfold store_binary, SafeRAM_ops, zoom.
  simpl view. rewrite SafeRAM_store_binary_eq by done.
  assert (py_len (a ++ [0]) = py_len a + 1) as Hlen
    by (unfold py_len; rewrite length_app; simpl; lia).
  replace (in_bounds r h (py_len (a ++ [0]))) with true; [done|].
  symmetry. apply in_bounds_spec. rewrite Hlen. lia.
Qed.

Lemma stored_string r h a : wf_ram r -> 0 <= h -> h + (py_len a + 1) <= size r ->
  cstring_at (with_bytes r h (a ++ [0])) h a /\ same_below r (with_bytes r h (a ++ [0])) h.
Proof.
  intros Hr Hh Hb. pose proof (wf_len r Hr) as Hl.
  assert (py_len (a ++ [0]) = py_len a + 1) as Hlen
    by (unfold py_len; rewrite length_app; simpl; lia).
  split.
  - intros i c Hi. pose proof (lookup_lt_Some _ _ _ Hi) as Hlt.
    rewrite with_bytes_byte, Hlen by lia.
    replace ((h <=? h + Z.of_nat i) && (h + Z.of_nat i <? h + (py_len a + 1))) with true.
    + replace (Z.to_nat (h + Z.of_nat i - h)) with i by lia. by rewrite Hi.
    + unfold py_len in *. rewrite length_app in Hlt. simpl in Hlt. lia.
  - intros x Hx. rewrite with_bytes_byte, Hlen by lia.
    by replace ((h <=? x) && (x <? h + (py_len a + 1))) with false by lia.
Qed.

Lemma store_args_spec (argv : list (list Z)) : forall (w : world) r h,
  Forall ascii_string argv -> wf_ram r -> 0 <= h -> args_end h argv <= size r ->
  exists r', store_args argv (heap_world w r h) =
      (Ok (arg_pointers h argv), heap_world w r' (args_end h argv)) /\
    wf_ram r' /\ size r' = size r /\ same_below r r' h /\
    Forall2 (cstring_at r') (arg_pointers h argv) argv.
Proof.
  induction argv as [|a rest IH]; intros w r h Hasc Hr Hh Hend; simpl.
  - exists r. by split_and!.
  - apply Forall_cons in Hasc as [Ha Hrest]. simpl in Hend.
    set (h1 := align_up (h + (py_len a + 1)) 4) in *.
    assert (h + (py_len a + 1) <= h1 /\ 0 <= h1) as [Hle Hh1].
    { unfold h1. pose proof (align_up_4 (h + (py_len a + 1))). unfold py_len in *. lia. }
    pose proof (args_end_ge h1 rest Hh1) as Hge.
    set (r1 := with_bytes r h (a ++ [0])).
    destruct (stored_string r h a Hr Hh ltac:(lia)) as [Hstr Hbelow].
    assert (wf_ram r1) as Hr1.
    { apply with_bytes_wf; try done.
      - apply Forall_app_2; [|repeat constructor; by unfold uN].
        eapply Forall_impl; [exact Ha|]. intros c Hc. simpl in Hc. unfold uN. lia.
      - unfold py_len in *. rewrite length_app. simpl. lia. }
    destruct (IH w r1 h1 Hrest Hr1 Hh1 Hend) as (r' & E & Hr' & Hsz & Hb' & Hs').
    exists r'. unfold bind. rewrite store_arg_eq by (done || lia). fold r1 h1.
    rewrite E. split_and!; try done.
    + intros x Hx. rewrite Hb' by (unfold py_len in *; lia). by apply Hbelow.
    + constructor; [|done]. intros i c Hi. rewrite Hb'; [by apply Hstr|].
      apply lookup_lt_Some in Hi. rewrite length_app in Hi. simpl in Hi. unfold py_len in *. lia.
Qed.

Lemma same_below_word r r' h a : same_below r r' h -> 0 <= a -> a + 4 <= h ->
  mem_word r' a = mem_word r a.
Proof. intros Hs Ha Hh. unfold mem_word. by rewrite !Hs by lia. Qed.

Lemma store_pointer_eq (w : world) r h p : wf_ram r -> 0 <= h -> h + 4 <= size r ->
  exists r', store_pointer p (heap_world w r h) = (Ok tt, heap_world w r' (h + 4)) /\
    stored r h 4 p r'.
Proof.
  intros Hr Hh Hb. pose proof (SafeRAM_store_word_ok r h p Hr) as Hst. unfold store_ok in Hst.
  rewrite (proj2 (in_bounds_spec _ _ _)) in Hst by lia. destruct Hst as (r' & E & Hst).
  exists r'. split; [|done].
  unfold store_pointer, heap, mget, bind, gets. simpl. unfold of_option, ret.
  unfold store_word, SafeRAM_ops, zoom. simpl view. by rewrite E.
Qed.

Lemma store_pointers_spec (ps : list Z) : forall (w : world) r h,
  wf_ram r -> 0 <= h -> h + 4 * py_len ps <= size r ->
  exists r', for_each store_pointer ps (heap_world w r h) =
      (Ok tt, heap_world w r' (h + 4 * py_len ps)) /\
    wf_ram r' /\ same_below r r' h /\
    forall k p, ps !! k = Some p -> mem_word r' (h + 4 * Z.of_nat k) = p mod 2 ^ 32.
Proof.
  induction ps as [|p ps IH]; intros w r h Hr Hh Hb.
  - exists r. split_and!; try done. simpl. unfold ret. do 2 f_equal. unfold py_len. simpl. lia.
  - assert (py_len (p :: ps) = py_len ps + 1) as Hlen by (unfold py_len; simpl; lia).
    assert (0 <= py_len ps) by (unfold py_len; lia).
    destruct (store_pointer_eq w r h p Hr Hh ltac:(lia)) as (r1 & E1 & Hst).
    pose proof (stored_wf _ _ _ _ _ Hst) as Hr1. pose proof (stored_size _ _ _ _ _ Hst) as Hs1.
    destruct (IH w r1 (h + 4) Hr1 ltac:(lia) ltac:(lia)) as (r' & E & Hr' & Hbelow & Hw).
    exists r'. simpl. unfold bind. rewrite E1, E.
    split_and!; [|done| |].
    + do 2 f_equal. lia.
    + intros x Hx. rewrite Hbelow by lia. rewrite (stored_bytes _ _ _ _ _ Hst) by lia.
      by replace ((h <=? x) && (x <? h + 4)) with false by lia.
    + intros [|k] q Hk; simpl in Hk.
      * injection Hk as <-. replace (h + 4 * Z.of_nat 0) with h by lia.
        rewrite (same_below_word r1 r' (h + 4)) by (done || lia). by apply (stored_word_same r).
      * replace (h + 4 * Z.of_nat (S k)) with (h + 4 + 4 * Z.of_nat k) by lia. by apply Hw.
Qed.

Lemma arg_pointers_len h argv : length (arg_pointers h argv) = length argv.
Proof. revert h. induction argv; intros h; simpl; [done|]. by rewrite IHargv. Qed.

Lemma Forall2_both {A B} (P Q : A -> B -> Prop) l k :
  Forall2 P l k -> Forall2 Q l k -> Forall2 (fun x y => P x y /\ Q x y) l k.
Proof. induction 1; intros HQ; inversion HQ; constructor; auto. Qed.

(** The strings are below the table. *)
Lemma arg_pointers_below h argv : 0 <= h ->
  Forall2 (fun p a => 0 <= p /\ p + (py_len a + 1) <= args_end h argv) (arg_pointers h argv) argv.
Proof.
  revert h. induction argv as [|a rest IH]; intros h Hh; simpl; [done|].
  pose proof (align_up_4 (h + (py_len a + 1))) as Hal.
  assert (0 <= py_len a) by (unfold py_len; lia).
  pose proof (args_end_ge (align_up (h + (py_len a + 1)) 4) rest ltac:(lia)).
  constructor; [lia|]. apply IH. lia.
Qed.

(** C30: for ASCII arguments that fit, setup_argv stores every argument as a
    NUL-terminated string, then a table with a pointer to each of them in order
    and a null pointer, leaves every byte below the heap alone, returns the number
    of arguments in a0 and the address of the table in a1, and moves the heap end
    behind the table, 8-byte aligned. *)
Theorem setup_argv_layout (w : world) (argv : list (list Z)) (h : Z)
  (Hc : wf_cpu (w_cpu w)) (Hr : wf_ram (w_ram w)) (Hheap : heap_end (w_machine w) = Some h)
  (Hh : 0 <= h) (Hasc : Forall ascii_string argv)
  (Hfit : args_end h argv + 4 * (py_len argv + 1) <= size (w_ram w)) :
  let table := args_end h argv in
  exists w', setup_argv argv w = (Ok tt, w') /\
    Forall2 (cstring_at (w_ram w')) (arg_pointers h argv) argv /\
    (forall k p, (arg_pointers h argv ++ [0]) !! k = Some p ->
       mem_word (w_ram w') (table + 4 * Z.of_nat k) = p mod 2 ^ 32) /\
    same_below (w_ram w) (w_ram w') h /\
    rv (w_cpu w') 10 = py_len argv /\ rv (w_cpu w') 11 = table /\
    heap_end (w_machine w') = Some (align_up (table + 4 * (py_len argv + 1)) 8).
Proof.
  intros table. set (r := w_ram w) in *. pose proof (wf_regs_len _ Hc) as Hlr.
  assert (w = heap_world w r h) as Hw.
  { unfold heap_world, r. destruct w as [c r0 m t u b]. simpl in *. f_equal.
    destruct m; simpl in *. by subst. }
  assert (0 <= py_len argv) by (unfold py_len; lia).
  destruct (store_args_spec argv w r h Hasc Hr Hh ltac:(lia)) as (r1 & E1 & Hr1 & Hs1 & Hb1 & Hstr).
  pose proof (args_end_ge h argv Hh) as Hge. fold table in E1, Hge, Hfit.
  assert (py_len (arg_pointers h argv ++ [0]) = py_len argv + 1) as Hlen
    by (unfold py_len; rewrite length_app, arg_pointers_len; simpl; lia).
  destruct (store_pointers_spec (arg_pointers h argv ++ [0]) w r1 table Hr1 ltac:(lia)
    ltac:(rewrite Hlen; lia)) as (r2 & E2 & Hr2 & Hb2 & Hw2).
  exists (mkWorld (wr 11 table (wr 10 (py_len argv) (w_cpu w))) r2
    (set_heap_end (Some (align_up (table + 4 * (py_len argv + 1)) 8)) (w_machine w))
    (w_timer w) (w_uart w) (w_blk w)).
  simpl. split_and!; try done.
  - unfold setup_argv. rewrite Hw at 1. unfold bind at 1. rewrite E1. unfold mget at 1.
    unfold bind at 1, gets at 1. simpl heap_end. unfold bind at 1. rewrite E2, Hlen.
    unfold bind at 1, heap, mget, bind at 1, gets at 1. simpl heap_end.
    unfold of_option at 1, ret at 1. unfold bind at 1, mset, zoom at 1, modify.
    unfold bind at 1, zoom at 1. simpl view. rewrite set_reg_eq by (done || lia).
    unfold bind, of_option, ret, zoom. simpl view.
    rewrite set_reg_eq by (rewrite ?wr_len; done || lia). done.
  - pose proof (arg_pointers_below h argv Hh) as Hpos. fold table in Hpos.
    eapply Forall2_impl; [exact (Forall2_both _ _ _ _ Hstr Hpos)|].
    intros p s [Hs [Hp Hend]] i c Hi. rewrite Hb2; [by apply Hs|].
    apply lookup_lt_Some in Hi. rewrite length_app in Hi. simpl in Hi. unfold py_len in *. lia.
  - intros x Hx. rewrite Hb2 by lia. by apply Hb1.
  - rewrite rv_wr by (rewrite ?wr_len; done || lia). cbn [Z.eqb Pos.eqb].
    rewrite rv_wr by (done || lia). done.
  - rewrite rv_wr by (rewrite ?wr_len; done || lia). done.
Qed.

(** The heap pointer advances by the number of characters of an argument, not
    by its number of bytes, so that an argument with characters outside ASCII is
    overwritten by what follows: the first of the two arguments, four characters
    of two bytes each, is no longer the string it was. *)
Theorem setup_argv_overlaps_non_ascii :
  let e_acute := 0xE9 in
  let arg := [e_acute; e_acute; e_acute; e_acute] in
  let w := mkWorld (new_cpu false)
             (from_ok (mkRam [] 0 0 []) (RAM_init (fun _ => 0) 64 0 None))
             (mkMachine false false false false false None false None false []
                None None (Some 0) None None None ∅ None)
             MMIOTimer_init (PtyUART_init 0 [] []) (MMIOBlockDevice_init 0 512 0 None []) in
  match setup_argv [arg; [0x41]] w with
  | (Ok _, w') =>
      mem_word (w_ram w') (rv (w_cpu w') 11) = 0 /\
      utf8_encode arg = Some [0xC3; 0xA9; 0xC3; 0xA9; 0xC3; 0xA9; 0xC3; 0xA9] /\
      bytes_at (w_ram w') 0 10 = [0xC3; 0xA9; 0xC3; 0xA9; 0xC3; 0xA9; 0xC3; 0xA9; 0x41; 0]
  | (Exn _, _) => False
  end.
Proof. vm_compute. done. Qed.
