(* ===== verification/Syscalls.v ===== *)
(** * System calls (syscalls.py)

    [syscalls] is the SyscallHandler object: the table of open files, the next
    descriptor and the umask.  The operating system of the host is an argument, the
    operations of the class [Host]: a call returns a value or the errno of the
    OSError it raises, and may change the world in its own part of it.  Path names
    are the bytes of the guest's string; their decoding belongs to the host calls.
    Error numbers are those of Linux.  Octal constants of the source are written in
    decimal: 18 is 0o022, 438 is 0o666, 511 is 0o777 and 8192 is 0o020000. *)

From Stdlib Require Import ZArith Lia Bool String.
From stdpp Require Import base numbers list option gmap strings.
From S2P Require Import Prelude PyStr Isa Ram Cpu Rvc CpuSem Exec ExecSem ExecSafe RamSafe Core.
From S2P Require Import Machine.

Local Open Scope Z_scope.
Local Open Scope py_scope.

(** ** The host *)

Inductive os_result (A : Type) := Done (a : A) | Fail (errno : Z).
Arguments Done {A} a.
Arguments Fail {A} errno.

Class Host (W : Type) := {
  host_print : list Z -> ST W unit;
  host_input : ST W (option (list Z));
  host_read_char : ST W (option Z);
  os_write : Z -> list Z -> ST W (os_result Z);
  os_read : Z -> Z -> ST W (os_result (list Z));
  os_open : list Z -> Z -> Z -> ST W (os_result Z);
  os_close : Z -> ST W (os_result unit);
  os_lseek : Z -> Z -> Z -> ST W (os_result Z);
  os_fstat : Z -> ST W (os_result (Z * Z));
  os_umask : Z -> ST W Z;
  os_mkdir : list Z -> Z -> ST W (os_result unit);
  os_rmdir : list Z -> ST W (os_result unit);
  os_unlink : list Z -> ST W (os_result unit)
}.

Definition EPERM : Z := 1.
Definition ENOENT : Z := 2.
Definition EIO : Z := 5.
Definition EBADF : Z := 9.
Definition EACCES : Z := 13.
Definition EEXIST : Z := 17.
Definition EISDIR : Z := 21.
Definition ENOSYS : Z := 38.
Definition ENOTSUP : Z := 95.

(** [isinstance(e, PermissionError)] *)
Definition is_PermissionError (errno : Z) : bool := (errno =? EACCES) || (errno =? EPERM).

(** ** State *)

Record syscalls := mkSyscalls {
  sys_logger : bool;
  raw_tty : bool;
  fd_map : gmap Z Z;
  next_fd : Z;
  umask : Z
}.

(** The constructor; the arguments are the host's descriptors of the terminal. *)
Definition SyscallHandler_init (logger raw_tty : bool) (stdin stdout stderr : Z) : syscalls :=
  mkSyscalls logger raw_tty (<[0 := stdin]> (<[1 := stdout]> (<[2 := stderr]> ∅))) 3 18.

Definition set_fd_map (v : gmap Z Z) (s : syscalls) : syscalls :=
  mkSyscalls (sys_logger s) (raw_tty s) v (next_fd s) (umask s).
Definition set_next_fd (v : Z) (s : syscalls) : syscalls :=
  mkSyscalls (sys_logger s) (raw_tty s) (fd_map s) v (umask s).
Definition set_umask (v : Z) (s : syscalls) : syscalls :=
  mkSyscalls (sys_logger s) (raw_tty s) (fd_map s) (next_fd s) v.

(** [v - 0x100000000 if v >= 0x80000000] *)
Definition as_signed (v : Z) : Z := if 0x80000000 <=? v then v - 0x100000000 else v.

(** The structure _fstat fills: st_mode at offset 4, st_size at offset 16. *)
Definition stat_buf (mode size : Z) : list Z :=
  replicate 4 0 ++ map (byte_of mode) [0; 1; 2; 3] ++ replicate 8 0 ++
  map (byte_of size) [0; 1; 2; 3; 4; 5; 6; 7] ++ replicate 64 0.

Definition S_IFCHR : Z := 8192.

Section Syscalls.
Context {W : Type} `{HC : Has cpu W} `{HR : Has ram W} `{HM : Has machine W} `{R : RamOps W}.
Context `{HS : Has syscalls W} `{HO : Host W}.

Definition yget {A} (f : syscalls -> A) : ST W A := gets (fun w => f (view w)).
Definition yset (f : syscalls -> syscalls) : ST W unit := zoom (modify f).

(** [self.cpu.registers[10 + i]] *)
Definition arg (i : Z) : ST W Z := zoom (reg (10 + i)).

(** [self.cpu.registers[10] = v] *)
Definition result (v : Z) : ST W unit := zoom (set_reg 10 v).

(** [self.logger.warning(...)], which fails without a logger. *)
Definition warning : ST W unit :=
  on <- yget sys_logger ;; if on : bool then ret tt else raise AttributeError.

(** ** Process and memory *)

Definition handle_exit : ST W unit :=
  zoom (modify (fun c => set_pc (next_pc c) c)) ;;;
  exit_code <- arg 0 ;;
  raise (ExecutionTerminated (ExitCode (as_signed exit_code))).

Definition handle_sbrk : ST W unit :=
  bottom <- mget stack_bottom ;;
  match bottom with
  | None => raise (InvalidSyscallError "SYSCALL _sbrk: stack bottom not set")
  | Some bottom =>
      increment <- arg 0 ;;
      old_heap_end <- mget heap_end ;;
      old_heap_end <- of_option TypeError old_heap_end ;;
      let new_heap_end := old_heap_end + increment in
      if bottom <=? new_heap_end then result 0xFFFFFFFF
      else mset (set_heap_end (Some new_heap_end)) ;;; result old_heap_end
  end.

(** ** Files *)

(** [fd in self.fd_map] and [self.fd_map[fd]] *)
Definition lookup_fd (fd : Z) : ST W (option Z) := yget (fun s => fd_map s !! fd).

Definition handle_write : ST W unit :=
  fd <- arg 0 ;;
  addr <- arg 1 ;;
  count <- arg 2 ;;
  data <- load_binary addr count ;;
  if (fd =? 1) || (fd =? 2) then host_print data ;;; result count
  else
    host <- lookup_fd fd ;;
    match host with
    | Some h =>
        r <- os_write h data ;;
        match r with
        | Done count => result count
        | Fail errno => result (- errno) ;;; warning
        end
    | None => result (- EBADF) ;;; warning
    end.

Definition handle_read : ST W unit :=
  fd <- arg 0 ;;
  addr <- arg 1 ;;
  count <- arg 2 ;;
  if fd =? 0 then
    raw <- yget raw_tty ;;
    if negb raw then
      text <- host_input ;;
      data <- match text with
              | Some text =>
                  bytes <- of_option ValueError (utf8_encode (text ++ [10])) ;;
                  ret (py_slice bytes 0 count)
              | None => ret []
              end ;;
      store_binary addr data ;;;
      result (py_len data)
    else
      ch <- host_read_char ;;
      ch <- of_option TypeError ch ;;
      store_byte addr ch ;;;
      result 1
  else
    host <- lookup_fd fd ;;
    match host with
    | Some h =>
        r <- os_read h count ;;
        match r with
        | Done data => store_binary addr data ;;; result (py_len data)
        | Fail _ => raise OSError
        end
    | None => result (- EBADF) ;;; warning
    end.

(** [dirfd != AT_FDCWD]: the calls work on paths relative to the host's directory only. *)
Definition at_cwd (body : ST W unit) : ST W unit :=
  dirfd <- arg 0 ;;
  if negb (as_signed dirfd =? -100) then warning ;;; result (- ENOTSUP) else body.

Definition handle_openat : ST W unit :=
  at_cwd (
    pathname_ptr <- arg 1 ;;
    flags <- arg 2 ;;
    mode <- arg 3 ;;
    pathname <- load_cstring pathname_ptr 1024 ;;
    old_umask <- os_umask 0 ;;
    um <- yget umask ;;
    r <- os_open pathname flags (Z.land mode (Z.lnot um)) ;;
    match r with
    | Done host_fd =>
        emu_fd <- yget next_fd ;;
        yset (fun s => set_fd_map (<[emu_fd := host_fd]> (fd_map s)) s) ;;;
        yset (fun s => set_next_fd (next_fd s + 1) s) ;;;
        result emu_fd
    | Fail errno => result (- errno)
    end ;;;
    os_umask old_umask ;;;
    ret tt).

Definition handle_close : ST W unit :=
  fd <- arg 0 ;;
  host <- lookup_fd fd ;;
  match host with
  | Some h =>
      r <- os_close h ;;
      match r with
      | Done _ => yset (fun s => set_fd_map (delete fd (fd_map s)) s) ;;; result 0
      | Fail errno => result (- errno) ;;; warning
      end
  | None => result (- EBADF) ;;; warning
  end.

Definition handle_lseek : ST W unit :=
  fd <- arg 0 ;;
  offset <- arg 1 ;;
  whence <- arg 2 ;;
  host <- lookup_fd fd ;;
  match host with
  | None => result (- EBADF) ;;; warning
  | Some h =>
      r <- os_lseek h offset whence ;;
      match r with
      | Done pos => result pos
      | Fail errno => result (- errno) ;;; warning
      end
  end.

(** The end of handle_fstat. *)
Definition store_stat (buf_ptr mode size : Z) : ST W unit :=
  store_binary buf_ptr (stat_buf mode size) ;;; result 0.

Definition handle_fstat : ST W unit :=
  fd <- arg 0 ;;
  buf_ptr <- arg 1 ;;
  if (fd =? 0) || (fd =? 1) || (fd =? 2) then store_stat buf_ptr (Z.lor S_IFCHR 438) 0
  else
    host <- lookup_fd fd ;;
    match host with
    | Some h =>
        r <- os_fstat h ;;
        match r with
        | Done (mode, size) => store_stat buf_ptr mode size
        | Fail errno => result (- errno) ;;; warning
        end
    | None => result (- EBADF) ;;; warning
    end.

Definition handle_isatty : ST W unit :=
  fd <- arg 0 ;;
  if (fd =? 0) || (fd =? 1) || (fd =? 2) then result 1
  else
    host <- lookup_fd fd ;;
    match host with
    | Some _ => result 0
    | None => result (- EBADF) ;;; warning
    end.

(** ** Others *)

Definition handle_kill : ST W unit := result (- ENOSYS).
Definition handle_getpid : ST W unit := result 1.

Definition handle_umask : ST W unit :=
  new_mask <- arg 0 ;;
  old_mask <- yget umask ;;
  yset (set_umask (Z.land new_mask 511)) ;;;
  result old_mask.

Definition handle_mkdirat : ST W unit :=
  at_cwd (
    pathname_ptr <- arg 1 ;;
    mode <- arg 2 ;;
    pathname <- load_cstring pathname_ptr 1024 ;;
    um <- yget umask ;;
    r <- os_mkdir pathname (Z.land mode (Z.lnot um)) ;;
    match r with
    | Done _ => result 0
    | Fail errno =>
        if errno =? EEXIST then result (- EEXIST)
        else if is_PermissionError errno then result (- EPERM)
        else result (- EIO)
    end).

Definition handle_unlinkat : ST W unit :=
  at_cwd (
    pathname_ptr <- arg 1 ;;
    flags <- arg 2 ;;
    pathname <- load_cstring pathname_ptr 1024 ;;
    r <- (if negb (Z.land flags 0x200 =? 0) then os_rmdir pathname else os_unlink pathname) ;;
    match r with
    | Done _ => result 0
    | Fail errno =>
        if errno =? ENOENT then result (- ENOENT)
        else if errno =? EISDIR then result (- EISDIR)
        else if is_PermissionError errno then result (- EPERM)
        else result (- EIO)
    end).

(** ** Dispatch *)

(** [syscall_handlers.get(id)] *)
Definition syscall_handler (syscall_id : Z) : option (ST W unit) :=
  match syscall_id with
  | 93 => Some handle_exit
  | 214 => Some handle_sbrk
  | 64 => Some handle_write
  | 63 => Some handle_read
  | 1024 => Some handle_openat
  | 57 => Some handle_close
  | 62 => Some handle_lseek
  | 80 => Some handle_fstat
  | 89 => Some handle_isatty
  | 129 => Some handle_kill
  | 172 => Some handle_getpid
  | 60 => Some handle_umask
  | 34 => Some handle_mkdirat
  | 35 => Some handle_unlinkat
  | _ => None
  end.

Definition handle : ST W unit :=
  syscall_id <- zoom (reg 17) ;;
  match syscall_handler syscall_id with
  | Some handler => handler
  | None => raise (InvalidSyscallError "UNKNOWN SYSCALL")
  end.
End Syscalls.
