(* ===== verification/SyscallThms.v ===== *)
(** * Theorems about the system calls

    The heap grows between its start and the stack and never meets it; the table of
    open files hands out fresh descriptors and closing undoes opening; write and
    read move exactly the addressed bytes between the guest's memory and the host;
    and an error leaves a negative number in a0. *)

From Stdlib Require Import ZArith Lia Bool String.
From stdpp Require Import base numbers list option gmap strings.
From S2P Require Import Prelude PyStr Isa Ram Cpu Rvc CpuSem Exec ExecSem ExecSafe RamSafe Core.
From S2P Require Import Machine Peripherals World Syscalls.

Local Open Scope Z_scope.
Local Open Scope py_scope.

(** ** A world with a host

    The emulator, the system-call handler and the state [H] of the host; the calls
    of the host change the host only. *)

Section Guest.
Context {H : Type} (os : Host H).

Definition guest : Type := world * (syscalls * H).

#[export] Instance guest_part {A} `{Has A world} : Has A guest.
Proof.
  refine {| view w := view (fst w); put a w := (put a (fst w), snd w) |}.
  - intros a [w x]. apply view_put.
  - intros [w x]. simpl. by rewrite put_view.
  - intros a b [w x]. simpl. by rewrite put_put.
Defined.

#[export] Instance guest_syscalls : Has syscalls guest.
Proof.
  refine {| view w := fst (snd w); put s w := (fst w, (s, snd (snd w))) |}; try done.
  by intros [? []].
Defined.

Definition guest_host : Has H guest.
Proof.
  refine {| view w := snd (snd w); put h w := (fst w, (fst (snd w), h)) |}; try done.
  by intros [? []].
Defined.

(** The calls of the host, run in the guest's world. *)
Definition hostly {A} (m : ST H A) : ST guest A := zoom (H := guest_host) m.

#[export] Instance guest_Host : Host guest := {|
  host_print data := hostly (host_print data);
  host_input := hostly host_input;
  host_read_char := hostly host_read_char;
  os_write fd data := hostly (os_write fd data);
  os_read fd n := hostly (os_read fd n);
  os_open path flags mode := hostly (os_open path flags mode);
  os_close fd := hostly (os_close fd);
  os_lseek fd off whence := hostly (os_lseek fd off whence);
  os_fstat fd := hostly (os_fstat fd);
  os_umask m := hostly (os_umask m);
  os_mkdir path mode := hostly (os_mkdir path mode);
  os_rmdir path := hostly (os_rmdir path);
  os_unlink path := hostly (os_unlink path)
|}.

#[export] Instance guest_ram : RamOps guest := SafeRAM_ops.

Implicit Types (w : world) (s : syscalls) (h : H).

(** The processor replaced. *)
Definition with_cpu (w : world) (c : cpu) : world := put c w.

Lemma arg_any w s h i : py_len (registers (w_cpu w)) = 32 -> 0 <= 10 + i < 32 ->
  arg i ((w, (s, h)) : guest) = (Ok (rv (w_cpu w) (10 + i)), (w, (s, h))).
Proof.
  intros Hc Hi. unfold arg, zoom. cbn [view put guest_part fst snd].
  rewrite reg_eq by done. by destruct w.
Qed.

Lemma result_any w s h v : py_len (registers (w_cpu w)) = 32 ->
  result v ((w, (s, h)) : guest) = (Ok tt, (with_cpu w (wr 10 v (w_cpu w)), (s, h))).
Proof.
  intros Hc. unfold result, zoom. cbn [view put guest_part fst snd].
  by rewrite set_reg_eq by (lia || done).
Qed.

Lemma arg_eq w s h i : wf_cpu (w_cpu w) -> 0 <= 10 + i < 32 ->
  arg i ((w, (s, h)) : guest) = (Ok (rv (w_cpu w) (10 + i)), (w, (s, h))).
Proof. intros Hc. apply arg_any, Hc. Qed.

Lemma result_eq w s h v : wf_cpu (w_cpu w) ->
  result v ((w, (s, h)) : guest) = (Ok tt, (with_cpu w (wr 10 v (w_cpu w)), (s, h))).
Proof. intros Hc. apply result_any, Hc. Qed.

(** Read the arguments of a call from the registers. *)
Ltac args :=
  repeat (unfold bind at 1; rewrite arg_eq by (done || lia));
  change (10 + 0) with 10; change (10 + 1) with 11; change (10 + 2) with 12;
  change (10 + 3) with 13.

(** Look a descriptor up in the table. *)
Ltac find_fd Hfd :=
  unfold bind at 1, lookup_fd, yget, gets; cbn [view guest_syscalls fst snd]; rewrite Hfd.

(** ** The heap *)

(** C39: sbrk, whatever integer a0 holds, returns the old end of the heap and moves it by
    the increment, or fails with -1 and no change when the new end would reach the stack; so
    the heap stays below the stack.  For a 32-bit increment, as the instructions of a program
    leave it in a0, it never shrinks; the negative error code another system call has left
    there lowers it, without a bound. *)
Theorem sbrk_bounds (w : world) (s : syscalls) (h : H) (bottom heap : Z)
  (Hc : py_len (registers (w_cpu w)) = 32) (Hb : stack_bottom (w_machine w) = Some bottom)
  (Hh : heap_end (w_machine w) = Some heap) (Hlt : heap < bottom) :
  exists w' heap', handle_sbrk ((w, (s, h)) : guest) = (Ok tt, (w', (s, h))) /\
    heap_end (w_machine w') = Some heap' /\ heap' < bottom /\
    (u32 (rv (w_cpu w) 10) -> heap <= heap') /\ (rv (w_cpu w) 10 < 0 -> heap' < heap) /\
    (heap + rv (w_cpu w) 10 < bottom ->
       heap' = heap + rv (w_cpu w) 10 /\ rv (w_cpu w') 10 = heap) /\
    (bottom <= heap + rv (w_cpu w) 10 -> heap' = heap /\ rv (w_cpu w') 10 = 0xFFFFFFFF) /\
    w_ram w' = w_ram w.
Proof.
  unfold handle_sbrk, mget, bind at 1, gets. cbn [view guest_part fst world_machine]. rewrite Hb.
  unfold bind at 1. rewrite arg_any by (done || lia). unfold bind at 1, gets.
  cbn [view guest_part fst world_machine]. rewrite Hh. unfold bind at 1. cbn [of_option ret].
  change (10 + 0) with 10. unfold uN.
  destruct (Z.leb_spec bottom (heap + rv (w_cpu w) 10)) as [Hf|Hok].
  - rewrite result_any by done. eexists _, heap. split; [done|]. cbn.
    rewrite rv_wr by lia. split_and!; try done; lia.
  - unfold bind, mset, zoom, modify. cbn [view put guest_part fst snd world_machine].
    rewrite result_any by done. eexists _, _. split; [done|]. cbn.
    rewrite rv_wr by lia. split_and!; try done; lia.
Qed.

(** ** Files *)

(** Descriptors are handed out in order: none from [next_fd] on is in use. *)
Definition fds_ok (s : syscalls) : Prop := forall fd, next_fd s <= fd -> fd_map s !! fd = None.

Definition opened (hfd : Z) (s : syscalls) : syscalls :=
  mkSyscalls (sys_logger s) (raw_tty s) (<[next_fd s := hfd]> (fd_map s)) (next_fd s + 1) (umask s).

Lemma opened_ok hfd s : fds_ok s -> fds_ok (opened hfd s).
Proof. intros Hs fd Hfd. simpl in *. rewrite lookup_insert_ne by lia. apply Hs. lia. Qed.

Lemma zoom_ram_same {A} (m : ST ram A) w s h r : m (w_ram w) = (r, w_ram w) ->
  zoom m ((w, (s, h)) : guest) = (r, (w, (s, h))).
Proof. intros E. unfold zoom. cbn [view put guest_part fst snd world_ram]. rewrite E. by destruct w. Qed.

Lemma hostly_eq {A} (m : ST H A) w s h r h' : m h = (r, h') ->
  hostly m ((w, (s, h)) : guest) = (r, (w, (s, h'))).
Proof. intros E. unfold hostly, zoom. cbn [view put guest_host fst snd]. by rewrite E. Qed.

Lemma openat_eq w s h path um hfd h1 h2 h3 x : let c := w_cpu w in wf_cpu c ->
  as_signed (rv c 10) = -100 ->
  SafeRAM_load_cstring (rv c 11) 1024 (w_ram w) = (Ok path, w_ram w) ->
  os_umask 0 h = (Ok um, h1) ->
  os_open path (rv c 12) (Z.land (rv c 13) (Z.lnot (umask s))) h1 = (Ok (Done hfd), h2) ->
  os_umask um h2 = (Ok x, h3) ->
  handle_openat ((w, (s, h)) : guest) =
    (Ok tt, (with_cpu w (wr 10 (next_fd s) c), (opened hfd s, h3))).
Proof.
  intros c Hc Hdir Hpath Hum Hopen Hum'. unfold handle_openat, at_cwd.
  args. fold c. rewrite Hdir. cbn [Z.eqb Pos.eqb negb]. args. fold c.
  unfold bind at 1. cbn [load_cstring guest_ram SafeRAM_ops].
  rewrite (zoom_ram_same _ w s h _ Hpath). unfold bind at 1. cbn [Syscalls.os_umask guest_Host].
  rewrite (hostly_eq _ w s h _ _ Hum). unfold bind at 1, yget, gets. cbn [view guest_syscalls fst snd].
  unfold bind at 1. cbn [Syscalls.os_open guest_Host].
  rewrite (hostly_eq _ w s h1 _ _ Hopen).
  unfold bind at 1 2 3 4, yset, zoom at 1 2, modify, gets.
  cbn [view put guest_syscalls fst snd].
  rewrite result_eq by done. unfold bind at 1. by rewrite (hostly_eq _ _ _ _ _ _ Hum').
Qed.

Lemma close_eq w s h hfd h' : let c := w_cpu w in wf_cpu c -> fd_map s !! rv c 10 = Some hfd ->
  os_close hfd h = (Ok (Done tt), h') ->
  handle_close ((w, (s, h)) : guest) =
    (Ok tt, (with_cpu w (wr 10 0 c), (set_fd_map (delete (rv c 10) (fd_map s)) s, h'))).
Proof.
  intros c Hc Hfd Hclose. unfold handle_close. args. fold c. find_fd Hfd.
  unfold bind at 1. cbn [Syscalls.os_close guest_Host]. rewrite (hostly_eq _ w s h _ _ Hclose).
  unfold bind, yset, zoom, modify. cbn [view put guest_syscalls fst snd]. by rewrite result_eq.
Qed.

(** Opening a file returns a descriptor that was not in use, maps it to the
    host's and changes no other entry of the table; closing it afterwards restores
    the table, and the descriptor is not handed out again. *)
Theorem open_close_roundtrip (w : world) (s : syscalls) (h h1 h2 h3 h4 : H) (path : list Z)
  (um x hfd : Z) (Hc : wf_cpu (w_cpu w)) (Hfds : fds_ok s) (Hnext : u32 (next_fd s))
  (Hdir : as_signed (rv (w_cpu w) 10) = -100)
  (Hpath : SafeRAM_load_cstring (rv (w_cpu w) 11) 1024 (w_ram w) = (Ok path, w_ram w))
  (Hum : os_umask 0 h = (Ok um, h1))
  (Hopen : os_open path (rv (w_cpu w) 12) (Z.land (rv (w_cpu w) 13) (Z.lnot (umask s))) h1 =
           (Ok (Done hfd), h2))
  (Hum' : os_umask um h2 = (Ok x, h3))
  (Hclose : os_close hfd h3 = (Ok (Done tt), h4)) :
  exists w1 s1 w2 s2,
    handle_openat ((w, (s, h)) : guest) = (Ok tt, (w1, (s1, h3))) /\
    rv (w_cpu w1) 10 = next_fd s /\ fd_map s !! next_fd s = None /\
    (forall fd, fd_map s1 !! fd = if fd =? next_fd s then Some hfd else fd_map s !! fd) /\
    fds_ok s1 /\
    handle_close ((w1, (s1, h3)) : guest) = (Ok tt, (w2, (s2, h4))) /\
    rv (w_cpu w2) 10 = 0 /\ fd_map s2 = fd_map s /\ next_fd s2 = next_fd s + 1 /\ fds_ok s2.
Proof.
  set (w1 := with_cpu w (wr 10 (next_fd s) (w_cpu w))).
  pose proof (wf_regs_len _ Hc) as Hl.
  assert (wf_cpu (w_cpu w1)) as Hc1 by (by apply wr_wf).
  assert (rv (w_cpu w1) 10 = next_fd s) as H10 by (cbn; by rewrite rv_wr by lia).
  assert (fd_map s !! next_fd s = None) as Hfree by (by apply Hfds).
  exists w1, (opened hfd s), (with_cpu w1 (wr 10 0 (w_cpu w1))),
    (set_fd_map (delete (next_fd s) (fd_map (opened hfd s))) (opened hfd s)).
  assert (delete (next_fd s) (fd_map (opened hfd s)) = fd_map s) as Hdel
    by (simpl; by rewrite delete_insert_id).
  split_and!; [by eapply openat_eq|done|done| |by apply opened_ok| | |done|done|].
  - intros fd. simpl. destruct (Z.eqb_spec fd (next_fd s)) as [->|];
      [by rewrite lookup_insert_eq|by rewrite lookup_insert_ne].
  - rewrite <- H10. rewrite (close_eq w1 (opened hfd s) h3 hfd h4); [done|done| |done].
    rewrite H10. simpl. by rewrite lookup_insert_eq.
  - cbn. rewrite rv_wr by (rewrite ?wr_len; lia). done.
  - intros fd Hfd. cbn [fd_map set_fd_map next_fd opened] in *. rewrite Hdel. apply Hfds. lia.
Qed.

(** C40: on an open descriptor above 2 and with the checked memory, write hands exactly the
    bytes of the guest's buffer to the host's file and returns the number the host reports;
    read stores exactly the bytes the host delivers into the buffer, changes no other byte,
    and returns their number; a buffer outside the memory is a MemoryAccessError.  When the
    call of the host fails, write returns the negated error number and read is an OSError,
    both with no other change. *)
Theorem file_transfer (w : world) (s : syscalls) (h h' : H) (hfd n : Z) (data : list Z)
  (Hc : wf_cpu (w_cpu w)) (Hr : wf_ram (w_ram w))
  (Hfd : fd_map s !! rv (w_cpu w) 10 = Some hfd)
  (Hstd : 2 < rv (w_cpu w) 10) :
  let c := w_cpu w in let r := w_ram w in
  let addr := rv c 11 in let count := rv c 12 in
  (in_bounds r addr count = true -> os_write hfd (bytes_at r addr count) h = (Ok (Done n), h') ->
   handle_write ((w, (s, h)) : guest) = (Ok tt, (with_cpu w (wr 10 n c), (s, h')))) /\
  (in_bounds r addr count = false ->
   handle_write ((w, (s, h)) : guest) = (Exn (out_of_bounds addr), (w, (s, h)))) /\
  (os_read hfd count h = (Ok (Done data), h') ->
   handle_read ((w, (s, h)) : guest) =
     if in_bounds r addr (py_len data)
     then (Ok tt, (with_cpu (put (with_bytes r addr data) w) (wr 10 (py_len data) c), (s, h')))
     else (Exn (out_of_bounds addr), (w, (s, h')))) /\
  (sys_logger s = true -> in_bounds r addr count = true ->
   os_write hfd (bytes_at r addr count) h = (Ok (Fail n), h') ->
   handle_write ((w, (s, h)) : guest) = (Ok tt, (with_cpu w (wr 10 (- n) c), (s, h')))) /\
  (os_read hfd count h = (Ok (Fail n), h') ->
   handle_read ((w, (s, h)) : guest) = (Exn OSError, (w, (s, h')))).
Proof.
  intros c r addr count.
  assert ((rv c 10 =? 0) = false /\ (rv c 10 =? 1) = false /\ (rv c 10 =? 2) = false)
    as (E0 & E1 & E2) by (unfold c; lia).
  fold c in Hfd.
  assert (0 <= count) as Hcount by (apply (rv_u32 c 12 Hc)).
  pose proof (SafeRAM_load_binary_eq r addr count Hr Hcount) as Hload.
  split_and!.
  - intros Hin Hw. rewrite Hin in Hload. unfold handle_write. args. fold c addr count.
    unfold bind at 1. cbn [load_binary guest_ram SafeRAM_ops].
    rewrite (zoom_ram_same _ w s h _ Hload), E1, E2. unfold orb. find_fd Hfd.
    unfold bind at 1. cbn [Syscalls.os_write guest_Host].
    rewrite (hostly_eq _ w s h _ _ Hw). by rewrite result_eq.
  - intros Hin. rewrite Hin in Hload. unfold handle_write. args. fold c addr count.
    unfold bind at 1. cbn [load_binary guest_ram SafeRAM_ops].
    by rewrite (zoom_ram_same _ w s h _ Hload).
  - intros Hread. unfold handle_read. args. fold c addr count. rewrite E0. find_fd Hfd.
    unfold bind at 1. cbn [Syscalls.os_read guest_Host].
    rewrite (hostly_eq _ w s h _ _ Hread). unfold bind at 1.
    cbn [store_binary guest_ram SafeRAM_ops]. unfold zoom at 1. cbn [view put guest_part fst snd world_ram].
    fold r. rewrite SafeRAM_store_binary_eq by done.
    destruct (in_bounds r addr (py_len data)); [by rewrite result_eq|by destruct w].
  - intros Hlog Hin Hw. rewrite Hin in Hload. unfold handle_write. args. fold c addr count.
    unfold bind at 1. cbn [load_binary guest_ram SafeRAM_ops].
    rewrite (zoom_ram_same _ w s h _ Hload), E1, E2. unfold orb. find_fd Hfd.
    unfold bind at 1. cbn [Syscalls.os_write guest_Host].
    rewrite (hostly_eq _ w s h _ _ Hw). unfold bind at 1. rewrite result_eq by done.
    unfold warning, yget, gets, bind. cbn [view guest_syscalls fst snd]. by rewrite Hlog.
  - intros Hread. unfold handle_read. args. fold c addr count. rewrite E0. find_fd Hfd.
    unfold bind at 1. cbn [Syscalls.os_read guest_Host].
    by rewrite (hostly_eq _ w s h _ _ Hread).
Qed.

(** An error code is stored in a0 as a negative Python integer, not as a 32-bit
    value: after a call on an unknown descriptor the register file is no longer
    well formed.  Without a logger the warning that follows is an AttributeError. *)
Theorem error_result_negative (w : world) (s : syscalls) (h : H)
  (Hc : wf_cpu (w_cpu w)) (Hfd : fd_map s !! rv (w_cpu w) 10 = None) :
  let w' := with_cpu w (wr 10 (- EBADF) (w_cpu w)) in
  handle_close ((w, (s, h)) : guest) =
    ((if sys_logger s then Ok tt else Exn AttributeError), (w', (s, h))) /\
  rv (w_cpu w') 10 = -9 /\ ~ wf_cpu (w_cpu w').
Proof.
  intros w'. pose proof (wf_regs_len _ Hc) as Hl.
  assert (rv (w_cpu w') 10 = -9) as H10 by (cbn; by rewrite rv_wr by lia).
  split_and!; [|done|].
  - unfold handle_close. args. find_fd Hfd. unfold bind. rewrite result_eq by done.
    unfold warning, yget, gets, bind. cbn [view guest_syscalls fst snd]. by destruct (sys_logger s).
  - intros Hwf. pose proof (rv_u32 _ 10 Hwf) as Hu. rewrite H10 in Hu. unfold uN in Hu. lia.
Qed.
End Guest.
