(* ===== verification/GdbPacket.v ===== *)
(** * Packets of the GDB remote protocol (gdbstub.py, GDBPacket and recv_packet)

    The codec of GDBPacket on strings as lists of characters, the client socket,
    and the reception of a packet.  The socket delivers the bytes of the client in
    pieces: [rx] is the list of pieces, and an empty piece is a moment at which
    nothing has arrived yet.  A blocking recv waits for the next byte and returns
    at most what one piece holds. *)

From Stdlib Require Import ZArith Lia Bool Ascii String.
From stdpp Require Import base numbers list option strings.
From S2P Require Import Prelude PyStr.

Local Open Scope Z_scope.
Local Open Scope py_scope.

(** A Python string. *)
Abbreviation str := (list ascii).

(** A string literal. *)
Definition lit (s : string) : str := list_ascii_of_string s.

(** ** GDBPacket *)

Definition checksum (data : str) : Z := Z.land (foldr Z.add 0 (map ord data)) 0xFF.

(** [c in ['#', '$', '}', '*']] *)
Definition is_special (c : ascii) : bool :=
  (ord c =? 35) || (ord c =? 36) || (ord c =? 125) || (ord c =? 42).

Fixpoint escape (data : str) : str :=
  match data with
  | [] => []
  | c :: l => if is_special c then chr 125 :: chr (Z.lxor (ord c) 0x20) :: escape l
              else c :: escape l
  end.

(** The character after a closing brace is escaped, whatever it is; a brace that
    ends the data stands for itself. *)
Fixpoint unescape (data : str) : str :=
  match data with
  | [] => []
  | c :: l =>
      match l with
      | d :: l' => if ord c =? 125 then chr (Z.lxor (ord d) 0x20) :: unescape l'
                   else c :: unescape l
      | [] => [c]
      end
  end.

Definition encode (data : str) : str :=
  let escaped := escape data in
  chr 36 :: escaped ++ chr 35 :: hex2 (checksum escaped).

(** [s.split('#', 1)] of a string that contains a separator. *)
Fixpoint split_hash (s : str) : option (str * str) :=
  match s with
  | [] => None
  | c :: l => if ord c =? 35 then Some ([], l)
              else match split_hash l with
                   | Some (a, b) => Some (c :: a, b)
                   | None => None
                   end
  end.

Definition decode (packet : str) : option str :=
  match packet with
  | c :: l =>
      if ord c =? 36 then
        match split_hash l with
        | Some (data, checksum_str) =>
            match py_int_list 16 (take 2 checksum_str) with
            | Some expected_cs =>
                if expected_cs =? checksum data then Some (unescape data) else None
            | None => None
            end
        | None => None
        end
      else None
  | [] => None
  end.

(** ** The client socket *)

Record conn := mkConn { rx : list str; rx_reset : bool; tx : str }.

Definition set_rx (l : list str) (c : conn) : conn := mkConn l (rx_reset c) (tx c).

(** What one recv(n) takes from the pieces: nothing at the end of the stream. *)
Fixpoint take_piece (n : nat) (l : list str) : str * list str :=
  match l with
  | [] => ([], [])
  | [] :: l' => take_piece n l'
  | p :: l' => (take n p, match drop n p with [] => l' | rest => rest :: l' end)
  end.

(** [client_socket.recv(n)]; the peer may have reset the connection. *)
Definition recv (n : nat) : ST conn str :=
  fun c => match take_piece n (rx c) with
           | ([], l) => if rx_reset c then (Exn OSError, set_rx l c) else (Ok [], set_rx l c)
           | (s, l) => (Ok s, set_rx l c)
           end.

(** [.decode('ascii')] *)
Definition decode_ascii (s : str) : ST conn str :=
  if forallb (fun c => ord c <? 128) s then ret s else raise ValueError.

(** [client_socket.sendall(s.encode('ascii'))] *)
Definition sendall (s : str) : ST conn unit :=
  if forallb (fun c => ord c <? 128) s
  then modify (fun c => mkConn (rx c) (rx_reset c) (tx c ++ s)) else raise ValueError.

(** [send_packet(data)] *)
Definition send_packet (data : str) : ST conn unit := sendall (encode data).

(** [check_for_interrupt()]: the next byte is looked at, and taken when it is
    Ctrl+C; a socket error counts as no interrupt. *)
Definition check_for_interrupt : ST conn bool :=
  fun c => match rx c with
           | [] => (Ok false, c)
           | [] :: l => (Ok false, set_rx l c)
           | (b :: p) :: l =>
               if ord b =? 3
               then (Ok true, set_rx (match p with [] => l | _ => p :: l end) c)
               else (Ok false, c)
           end.

(** ** recv_packet *)

(** [try: s = recv(n).decode('ascii') except (ConnectionResetError, ...)]: [None]
    when the connection was reset. *)
Definition recv_ascii (n : nat) : ST conn (option str) :=
  catch (s <- recv n ;; s <- decode_ascii s ;; ret (Some s))
    (fun e => match e with OSError => ret None | _ => raise e end).

(** The loop of recv_packet, with its variables [buffer] and [in_packet].  Every
    round takes a byte, so that [fuel] rounds are enough for fewer bytes. *)
Fixpoint recv_loop (fuel : nat) (buffer : str) (in_packet : bool) : ST conn (option str) :=
  match fuel with
  | O => ret None
  | S fuel =>
      r <- recv_ascii 1 ;;
      match r with
      | None | Some [] => ret None
      | Some (char :: _) =>
          if ord char =? 3 then ret (Some (lit "interrupt"))
          else if negb in_packet && ((ord char =? 43) || (ord char =? 45))
          then recv_loop fuel buffer in_packet
          else if ord char =? 36 then recv_loop fuel [char] true
          else if in_packet then
            let buffer := buffer ++ [char] in
            if ord char =? 35 then
              cs <- recv_ascii 2 ;;
              match cs with
              | None => ret None
              | Some cs =>
                  match decode (buffer ++ cs) with
                  | Some data => sendall [chr 43] ;;; ret (Some data)
                  | None => sendall [chr 45] ;;; recv_loop fuel [] false
                  end
              end
            else recv_loop fuel buffer true
          else recv_loop fuel buffer in_packet
      end
  end.

Definition recv_packet : ST conn (option str) :=
  fun c => recv_loop (S (length (concat (rx c)))) [] false c.

(** ** The codec *)

Lemma ord_inj a b : ord a = ord b -> a = b.
Proof. intros H. by rewrite <- (chr_ord a), <- (chr_ord b), H. Qed.

Lemma escape_special c : is_special c = true ->
  is_special (chr (Z.lxor (ord c) 0x20)) = false /\
  chr (Z.lxor (ord (chr (Z.lxor (ord c) 0x20))) 0x20) = c.
Proof.
  unfold is_special. rewrite !orb_true_iff, !Z.eqb_eq. intros [[[H|H]|H]|H]; rewrite H.
  all: split; [reflexivity|]; apply ord_inj; rewrite H; reflexivity.
Qed.

Lemma unescape_cons c l : ord c <> 125 -> unescape (c :: l) = c :: unescape l.
Proof. intros H. destruct l; simpl; [done|]. by rewrite (proj2 (Z.eqb_neq _ _) H). Qed.

Lemma unescape_escape s : unescape (escape s) = s.
Proof.
  induction s as [|c s IH]; [done|]. simpl. destruct (is_special c) eqn:E.
  - simpl. change (ord (chr 125) =? 125) with true. cbn iota.
    by rewrite (proj2 (escape_special c E)), IH.
  - rewrite unescape_cons, IH; [done|]. unfold is_special in E. lia.
Qed.

(** A string without a separator. *)
Definition no_hash (s : str) : Prop := Forall (fun c => ord c <> 35) s.

Lemma escape_no_hash s : no_hash (escape s).
Proof.
  unfold no_hash. induction s as [|c s IH]; [constructor|]. simpl. destruct (is_special c) eqn:E.
  - repeat constructor; [by vm_compute| |done].
    pose proof (proj1 (escape_special c E)) as H. unfold is_special in H. lia.
  - constructor; [|done]. unfold is_special in E. lia.
Qed.

Lemma split_hash_app a b : no_hash a -> split_hash (a ++ chr 35 :: b) = Some (a, b).
Proof.
  induction 1 as [|c a Hc _ IH]; [done|]. simpl. by rewrite (proj2 (Z.eqb_neq _ _) Hc), IH.
Qed.

Lemma checksum_range s : 0 <= checksum s < 256.
Proof. unfold checksum. rewrite land_ff. by apply Z.mod_pos_bound. Qed.

(** A framed packet: the checksum decides. *)
Lemma decode_frame x c : no_hash x -> 0 <= c < 256 ->
  decode (chr 36 :: x ++ chr 35 :: hex2 c) = if c =? checksum x then Some (unescape x) else None.
Proof.
  intros Hx Hc. unfold decode. change (ord (chr 36) =? 36) with true. cbn iota.
  rewrite split_hash_app by done. simpl take. fold (hex2 c). by rewrite py_int_hex2.
Qed.

(** C33: every string of characters of eight bits survives the codec: decoding the encoded
    packet gives back the data, the special characters included. *)
Theorem packet_roundtrip (data : str) : decode (encode data) = Some data.
Proof.
  unfold encode. rewrite decode_frame; [|apply escape_no_hash|apply checksum_range].
  by rewrite Z.eqb_refl, unescape_escape.
Qed.

Lemma checksum_app a b : checksum (a ++ b) = (checksum a + checksum b) mod 256.
Proof.
  unfold checksum. rewrite !land_ff, <- Zplus_mod, map_app, foldr_app. f_equal.
  induction (map ord a) as [|x l IH]; simpl; [done|]. lia.
Qed.

(** C34: the checksum detects a corrupted character: when one character of the body of an
    encoded packet is replaced by another character of eight bits that is not the hash sign
    (which would end the packet early), decode returns None. *)
Theorem packet_corruption_detected (data : str) (before after : str) (c c' : ascii)
  (Hbody : escape data = before ++ c :: after) (Hne : c' <> c) (Hsep : ord c' <> 35) :
  decode (chr 36 :: (before ++ c' :: after) ++ chr 35 :: hex2 (checksum (escape data))) = None.
Proof.
  pose proof (escape_no_hash data) as Hn. unfold no_hash in Hn. rewrite Hbody in Hn.
  apply Forall_app in Hn as [Hb Ha]. apply Forall_cons_1 in Ha as [_ Ha].
  rewrite decode_frame; [|by apply Forall_app_2; [|constructor]|apply checksum_range].
  rewrite (proj2 (Z.eqb_neq _ _)); [done|]. rewrite Hbody.
  change (c :: after) with ([c] ++ after). change (c' :: after) with ([c'] ++ after).
  rewrite !checksum_app. intros H. apply Hne. apply ord_inj.
  pose proof (ord_range c). pose proof (ord_range c').
  assert (checksum [c] = ord c) as Hc
    by (unfold checksum; simpl; rewrite land_ff, Z.add_0_r; apply Z.mod_small; lia).
  assert (checksum [c'] = ord c') as Hc'
    by (unfold checksum; simpl; rewrite land_ff, Z.add_0_r; apply Z.mod_small; lia).
  rewrite Hc, Hc' in H. pose proof (checksum_range before). pose proof (checksum_range after).
  Z.div_mod_to_equations. lia.
Qed.

(** ** Reception *)

(** No piece of the stream ends after exactly [k] bytes. *)
Definition no_cut (l : list str) (k : nat) : Prop :=
  forall l1 l2, l = l1 ++ l2 -> length (concat l1) <> k.

Lemma no_cut_tail p l k : no_cut (p :: l) (length p + k) -> no_cut l k.
Proof.
  intros H l1 l2 ->. specialize (H (p :: l1) l2 eq_refl). simpl in H. rewrite length_app in H. lia.
Qed.

Lemma take_piece_1 l c s : concat l = c :: s -> exists l',
  take_piece 1 l = ([c], l') /\ concat l' = s /\
  forall k, no_cut l (S (S k)) -> no_cut l' (S k).
Proof.
  induction l as [|p l IH]; simpl; [done|]. destruct p as [|x p]; simpl; intros H.
  - destruct (IH H) as (l' & E & Hc & Hcut). exists l'. split_and!; auto.
    intros k Hk. apply Hcut. by apply (no_cut_tail [] l).
  - injection H as -> Hs. rewrite take_0, drop_0. destruct p as [|y p]; simpl in *.
    + exists l. split_and!; auto. intros k Hk. by apply (no_cut_tail [c] l).
    + exists ((y :: p) :: l). split_and!; auto. intros k Hk [|q l1] l2 E; [done|].
      simpl in E. injection E as <- ->. specialize (Hk ((c :: y :: p) :: l1) l2 eq_refl).
      simpl in *. lia.
Qed.

Lemma take_piece_2 l d1 d2 s : concat l = d1 :: d2 :: s -> no_cut l 1 -> exists l',
  take_piece 2 l = ([d1; d2], l') /\ concat l' = s.
Proof.
  induction l as [|p l IH]; simpl; [done|]. destruct p as [|x p]; simpl; intros H Hcut.
  - apply IH; [done|]. by apply (no_cut_tail [] l).
  - injection H as -> Hs. destruct p as [|y p]; simpl in *.
    + by destruct (Hcut [[d1]] l eq_refl).
    + injection Hs as -> Hs. rewrite take_0, drop_0.
      destruct p; [by exists l|]. eexists. split; [done|]. done.
Qed.

Lemma recv_ascii_1 c x s : concat (rx c) = x :: s -> ord x < 128 -> exists l,
  recv_ascii 1 c = (Ok (Some [x]), set_rx l c) /\ concat l = s /\
  forall k, no_cut (rx c) (S (S k)) -> no_cut l (S k).
Proof.
  intros H Hx. destruct (take_piece_1 _ _ _ H) as (l & E & Hc & Hcut). exists l.
  split_and!; [|done|done]. unfold recv_ascii, catch, bind, recv. rewrite E. simpl.
  unfold decode_ascii. simpl. by rewrite (proj2 (Z.ltb_lt _ _) Hx).
Qed.

Lemma recv_ascii_2 c d1 d2 s : concat (rx c) = d1 :: d2 :: s -> no_cut (rx c) 1 ->
  ord d1 < 128 -> ord d2 < 128 -> exists l,
  recv_ascii 2 c = (Ok (Some [d1; d2]), set_rx l c) /\ concat l = s.
Proof.
  intros H Hcut H1 H2. destruct (take_piece_2 _ _ _ _ H Hcut) as (l & E & Hc). exists l.
  split; [|done]. unfold recv_ascii, catch, bind, recv. rewrite E. simpl.
  unfold decode_ascii. simpl. by rewrite (proj2 (Z.ltb_lt _ _) H1), (proj2 (Z.ltb_lt _ _) H2).
Qed.

(** A character the loop takes into the buffer as it is. *)
Definition plain (x : ascii) : Prop :=
  ord x < 128 /\ ord x <> 3 /\ ord x <> 35 /\ ord x <> 36.

Lemma recv_body body : forall fuel buffer c d1 d2 rest data,
  concat (rx c) = body ++ chr 35 :: d1 :: d2 :: rest ->
  Forall plain body -> no_cut (rx c) (length body + 2) -> (length body < fuel)%nat ->
  ord d1 < 128 -> ord d2 < 128 ->
  decode (buffer ++ body ++ [chr 35; d1; d2]) = Some data ->
  exists l, recv_loop fuel buffer true c =
      (Ok (Some data), mkConn l (rx_reset c) (tx c ++ [chr 43])) /\ concat l = rest.
Proof.
  induction body as [|x body IH]; intros fuel buffer c d1 d2 rest data Hrx Hp Hcut Hf H1 H2 Hd;
    (destruct fuel as [|fuel]; [simpl in Hf; lia|]).
  - destruct (recv_ascii_1 c (chr 35) (d1 :: d2 :: rest)) as (l & E & Hl & Hc'); [done|done|].
    destruct (recv_ascii_2 (set_rx l c) d1 d2 rest) as (l' & E' & Hl'); [done|by apply Hc'|done..|].
    exists l'. split; [|done]. simpl. unfold bind at 1. rewrite E. simpl.
    unfold bind at 1. rewrite E'. simpl. rewrite <- app_assoc. simpl in Hd |- *. by rewrite Hd.
  - apply Forall_cons_1 in Hp as [(Hx & H3 & H35 & H36) Hp].
    destruct (recv_ascii_1 c x (body ++ chr 35 :: d1 :: d2 :: rest)) as (l & E & Hl & Hc');
      [done|done|].
    destruct (IH fuel (buffer ++ [x]) (set_rx l c) d1 d2 rest data) as (l' & E' & Hl');
      [done|done| | |done|done| |].
    + simpl. replace (length body + 2)%nat with (S (length body + 1)) by lia. apply Hc'.
      simpl in Hcut. by replace (S (S (length body + 1))) with (S (length body + 2)) by lia.
    + simpl in Hf. lia.
    + by rewrite <- app_assoc.
    + exists l'. split; [|done]. simpl. unfold bind at 1. rewrite E.
      rewrite (proj2 (Z.eqb_neq _ 3)), (proj2 (Z.eqb_neq _ 35)), (proj2 (Z.eqb_neq _ 36)) by done.
      exact E'.
Qed.

Lemma escape_plain data : Forall (fun x => ord x < 128 /\ ord x <> 3 /\ ord x <> 35) data ->
  Forall plain (escape data).
Proof.
  induction 1 as [|x data (Hx & H3 & H35) _ IH]; [constructor|]. simpl.
  destruct (is_special x) eqn:E.
  - unfold is_special in E. constructor; [by vm_compute|]. constructor; [|done].
    rewrite !orb_true_iff, !Z.eqb_eq in E. destruct E as [[[E|E]|E]|E]; [lia|..].
    all: rewrite E; by vm_compute.
  - constructor; [|done]. unfold is_special in E. unfold plain. lia.
Qed.

Lemma hex_digit_ascii d : 0 <= d < 16 -> ord (hex_digit d) < 128.
Proof. revert d. enumerate. Qed.

Lemma recv_framed fuel c data rest : concat (rx c) = encode data ++ rest ->
  Forall (fun x => ord x < 128 /\ ord x <> 3 /\ ord x <> 35) data ->
  no_cut (rx c) (length (escape data) + 3) -> (S (length (escape data)) < fuel)%nat ->
  exists l, recv_loop fuel [] false c =
      (Ok (Some data), mkConn l (rx_reset c) (tx c ++ [chr 43])) /\ concat l = rest.
Proof.
  intros Hrx Hd Hcut Hf. destruct fuel as [|fuel]; [lia|].
  pose proof (checksum_range (escape data)) as Hcs.
  set (h1 := hex_digit (checksum (escape data) / 16)).
  set (h2 := hex_digit (checksum (escape data) mod 16)).
  destruct (recv_ascii_1 c (chr 36) (escape data ++ chr 35 :: h1 :: h2 :: rest))
    as (l & E & Hl & Hc); [|done|].
  { rewrite Hrx. unfold encode, hex2. simpl. by rewrite <- app_assoc. }
  destruct (recv_body (escape data) fuel [chr 36] (set_rx l c) h1 h2 rest data) as (l' & E' & Hl').
  - done.
  - by apply escape_plain.
  - simpl. replace (length (escape data) + 2)%nat with (S (length (escape data) + 1)) by lia.
    apply Hc. by replace (S (S (length (escape data) + 1))) with (length (escape data) + 3)%nat by lia.
  - lia.
  - apply hex_digit_ascii. Z.div_mod_to_equations. lia.
  - apply hex_digit_ascii. Z.div_mod_to_equations. lia.
  - pose proof (decode_frame (escape data) _ (escape_no_hash data) Hcs) as Hdec.
    rewrite Z.eqb_refl, unescape_escape in Hdec. exact Hdec.
  - exists l'. split; [|done]. simpl. unfold bind at 1. rewrite E.
    change (ord (chr 36) =? 3) with false. change (ord (chr 36) =? 36) with true.
    change (ord (chr 36) =? 43) with false. change (ord (chr 36) =? 45) with false. exact E'.
Qed.

Lemma recv_acks acks : forall fuel c s, concat (rx c) = acks ++ s ->
  Forall (fun x => ord x = 43 \/ ord x = 45) acks -> (length acks <= fuel)%nat ->
  exists l, recv_loop fuel [] false c = recv_loop (fuel - length acks) [] false (set_rx l c) /\
    concat l = s /\ forall k, no_cut (rx c) (length acks + S k) -> no_cut l (S k).
Proof.
  induction acks as [|x acks IH]; intros fuel c s Hrx Ha Hf.
  - exists (rx c). rewrite Nat.sub_0_r. split_and!; [by destruct c|done|done].
  - apply Forall_cons_1 in Ha as [Hx Ha]. destruct fuel as [|fuel]; [simpl in Hf; lia|].
    destruct (recv_ascii_1 c x (acks ++ s)) as (l & E & Hl & Hc); [done|lia|].
    destruct (IH fuel (set_rx l c) s) as (l' & E' & Hl' & Hc'); [done|done|simpl in Hf; lia|].
    exists l'. split_and!; [|done|].
    + simpl. unfold bind at 1. rewrite E.
      rewrite (proj2 (Z.eqb_neq _ 3)) by lia.
      assert ((ord x =? 43) || (ord x =? 45) = true) as -> by lia. exact E'.
    + intros k Hk. apply Hc'. simpl in *. rewrite Nat.add_succ_r. apply Hc.
      by rewrite <- Nat.add_succ_r.
Qed.

(** C35: recv_packet delivers the data of a packet that a client encoded, skipping the
    acknowledgements before it, acknowledges it, and leaves the bytes after it in the
    stream, for every cut of the stream into pieces that does not separate the two digits of
    the checksum, and data in ASCII without the character 3 and the hash sign. Without these
    conditions it does not hold ([recv_packet_short_read], [recv_packet_hash_interrupts]).
    *)
Theorem recv_packet_delivers (c : conn) (acks data rest : str)
  (Hrx : concat (rx c) = acks ++ encode data ++ rest)
  (Hacks : Forall (fun x => ord x = 43 \/ ord x = 45) acks)
  (Hdata : Forall (fun x => ord x < 128 /\ ord x <> 3 /\ ord x <> 35) data)
  (Hcut : no_cut (rx c) (length acks + (length (escape data) + 3))) :
  exists l, recv_packet c = (Ok (Some data), mkConn l (rx_reset c) (tx c ++ [chr 43])) /\
    concat l = rest.
Proof.
  assert (length (concat (rx c)) = length acks + (length (escape data) + 4) + length rest)%nat as Hlen.
  { rewrite Hrx. unfold encode, hex2. rewrite !length_app. simpl. rewrite !length_app. simpl. lia. }
  unfold recv_packet.
  destruct (recv_acks acks (S (length (concat (rx c)))) c _ Hrx Hacks) as (l & -> & Hl & Hc); [lia|].
  destruct (recv_framed (S (length (concat (rx c))) - length acks) (set_rx l c) data rest)
    as (l' & E & Hl'); [done|done| |lia|].
  - simpl. rewrite Nat.add_succ_r. apply Hc. by rewrite <- Nat.add_succ_r.
  - by exists l'.
Qed.

Lemma recv_packet_delivers_witness :
  let c := mkConn [lit "+$m"; []; lit "0,4}"; chr 4 :: lit "#7e$g#67"] false [] in
  exists l, recv_packet c =
      (Ok (Some (lit "m0,4$")), mkConn l (rx_reset c) (tx c ++ [chr 43])) /\
    concat l = lit "$g#67".
Proof.
  intros c. apply (recv_packet_delivers c (lit "+") (lit "m0,4$") (lit "$g#67")).
  - reflexivity.
  - repeat constructor.
  - repeat (constructor; [vm_compute; repeat split; discriminate|]). constructor.
  - intros l1 l2 E.
    repeat (destruct l1 as [|p l1]; [vm_compute; discriminate|injection E as <- E]).
    destruct l1; [vm_compute; discriminate|discriminate E].
Defined.

(** An escaped hash sign is Ctrl+C on the wire ([ord('#') ^ 0x20] is 3), so a
    valid packet whose data contain a hash sign is received as an interrupt, not
    as the data. *)
Theorem recv_packet_hash_interrupts :
  decode (encode (lit "#")) = Some (lit "#") /\
  fst (recv_packet (mkConn [encode (lit "#")] false [])) = Ok (Some (lit "interrupt")).
Proof. split; reflexivity. Qed.

(** recv(2) may return one byte only: a valid packet whose checksum digits
    arrive in two pieces is refused with a negative acknowledgement. *)
Theorem recv_packet_short_read :
  decode (lit "$?#3f") = Some (lit "?") /\
  recv_packet (mkConn [lit "$?#3"; lit "f"] false []) = (Ok None, mkConn [] false (lit "-")).
Proof. split; reflexivity. Qed.

(** ** The loop ends *)

(** One round of the loop of recv_packet: it returns, or goes on with new variables. *)
Definition recv_round (vars : str * bool) : ST conn (option str + str * bool) :=
  let '(buffer, in_packet) := vars in
  r <- recv_ascii 1 ;;
  match r with
  | None | Some [] => ret (inl None)
  | Some (char :: _) =>
      if ord char =? 3 then ret (inl (Some (lit "interrupt")))
      else if negb in_packet && ((ord char =? 43) || (ord char =? 45))
      then ret (inr (buffer, in_packet))
      else if ord char =? 36 then ret (inr ([char], true))
      else if in_packet then
        let buffer := buffer ++ [char] in
        if ord char =? 35 then
          cs <- recv_ascii 2 ;;
          match cs with
          | None => ret (inl None)
          | Some cs =>
              match decode (buffer ++ cs) with
              | Some data => sendall [chr 43] ;;; ret (inl (Some data))
              | None => sendall [chr 45] ;;; ret (inr ([], false))
              end
          end
        else ret (inr (buffer, true))
      else ret (inr (buffer, in_packet))
  end.

(** The [while True] loop without fuel: it ends, in [k] rounds, by a return or an exception. *)
Inductive recv_ends : str * bool -> conn -> nat -> res (option str) -> conn -> Prop :=
| ends_return v c r c' : recv_round v c = (Ok (inl r), c') -> recv_ends v c 1 (Ok r) c'
| ends_raise v c e c' : recv_round v c = (Exn e, c') -> recv_ends v c 1 (Exn e) c'
| ends_later v c v1 c1 k r c' : recv_round v c = (Ok (inr v1), c1) ->
    recv_ends v1 c1 k r c' -> recv_ends v c (S k) r c'.

Lemma recv_loop_round n b i c : recv_loop (S n) b i c =
  match recv_round (b, i) c with
  | (Ok (inl r), c') => (Ok r, c')
  | (Ok (inr (b', i')), c') => recv_loop n b' i' c'
  | (Exn e, c') => (Exn e, c')
  end.
Proof.
  cbn [recv_loop recv_round]. unfold bind, ret.
  destruct (recv_ascii 1 c) as [[[[|x s]|]|e] c1]; try done.
  destruct (ord x =? 3); [done|]. destruct (negb i && _); [done|].
  destruct (ord x =? 36); [done|]. destruct i; [|done]. destruct (ord x =? 35); [|done].
  destruct (recv_ascii 2 c1) as [[[cs|]|e] c2]; try done.
  destruct (decode _); by destruct (sendall _ c2) as [[[]|e] c3].
Qed.

Lemma take_piece_length n l s l' : take_piece n l = (s, l') ->
  length (concat l) = (length s + length (concat l'))%nat.
Proof.
  revert s l'. induction l as [|p l IH]; intros s l'; simpl; [by intros [= <- <-]|].
  destruct p as [|x p]; [apply IH|]. intros [= <- <-]. rewrite length_app.
  rewrite <- (take_drop n (x :: p)) at 1. rewrite length_app.
  destruct (drop n (x :: p)); simpl; rewrite ?length_app; simpl; lia.
Qed.

(** A read takes what it returns from the stream. *)
Lemma recv_ascii_length n c r c' : recv_ascii n c = (r, c') ->
  match r with
  | Ok (Some s) => length (concat (rx c)) = (length s + length (concat (rx c')))%nat
  | _ => (length (concat (rx c')) <= length (concat (rx c)))%nat
  end.
Proof.
  unfold recv_ascii, catch, recv, bind, decode_ascii.
  destruct (take_piece n (rx c)) as [s l] eqn:E. apply take_piece_length in E.
  destruct s as [|x s]; [destruct (rx_reset c)|destruct (forallb _ _)];
    intros [= <- <-]; simpl in *; lia.
Qed.

Lemma sendall_rx s c : rx (snd (sendall s c)) = rx c.
Proof. unfold sendall. by destruct (forallb _ _). Qed.

(** A round that goes on has taken a byte. *)
Lemma recv_round_progress v c v' c' : recv_round v c = (Ok (inr v'), c') ->
  (length (concat (rx c')) < length (concat (rx c)))%nat.
Proof.
  destruct v as [b i]. unfold recv_round, bind, ret.
  destruct (recv_ascii 1 c) as [r1 c1] eqn:E1. apply recv_ascii_length in E1.
  destruct r1 as [[[|x s]|]|e]; try done. simpl in E1.
  destruct (ord x =? 3); [done|]. destruct (negb i && _); [intros [= _ <-]; lia|].
  destruct (ord x =? 36); [intros [= _ <-]; lia|]. destruct i; [|intros [= _ <-]; lia].
  destruct (ord x =? 35); [|intros [= _ <-]; lia].
  destruct (recv_ascii 2 c1) as [r2 c2] eqn:E2. apply recv_ascii_length in E2.
  destruct r2 as [[cs|]|e]; try done. destruct (decode _).
  - by destruct (sendall _ c2) as [[[]|e] c3].
  - pose proof (sendall_rx [chr 45] c2) as Hs.
    destruct (sendall _ c2) as [[[]|e] c3]; [|done]. simpl in Hs. intros [= _ <-]. rewrite Hs. lia.
Qed.

Lemma recv_loop_ends n v c : (length (concat (rx c)) < n)%nat ->
  exists k r c', (k <= S (length (concat (rx c))))%nat /\ recv_ends v c k r c' /\
    recv_loop n (fst v) (snd v) c = (r, c').
Proof.
  revert v c. induction n as [|n IH]; intros [b i] c Hn; [lia|]. simpl fst. simpl snd.
  rewrite recv_loop_round. destruct (recv_round (b, i) c) as [[[r|[b' i']]|e] c1] eqn:E.
  - exists 1%nat, (Ok r), c1. split_and!; [lia|by constructor|done].
  - pose proof (recv_round_progress _ _ _ _ E) as Hp.
    destruct (IH (b', i') c1) as (k & r & c' & Hk & He & Hl); [lia|].
    exists (S k), r, c'. split_and!; [lia|by econstructor|done].
  - exists 1%nat, (Exn e), c1. split_and!; [lia|by constructor|done].
Qed.

(** C19: recv_packet terminates for every stream, cut in every way, with noise, bad
    checksums, nested starts, an early end or a reset: the loop of the source ends after at
    most one round per byte and one more, and what the model computes with its fuel is what
    the loop returns or raises. *)
Theorem recv_packet_terminates (c : conn) :
  exists k r c', (k <= S (length (concat (rx c))))%nat /\ recv_ends ([], false) c k r c' /\
    recv_packet c = (r, c').
Proof. apply (recv_loop_ends _ ([], false)). lia. Qed.
