(* ===== verification/Gdb.v ===== *)
(** * The GDB stub (gdbstub.py, GDBStub; machine.py, run_with_gdb and run_gdbstub)

    [stub] is the execution state of a GDBStub object; its commands run in a world
    [W] that also contains the CPU, the RAM object, the machine and the client
    socket.  Strings are lists of characters, as in GdbPacket.v.  The text Python
    gives to an exception, which a monitor command echoes, is an argument. *)

From Stdlib Require Import ZArith Lia Bool Ascii String.
From stdpp Require Import base numbers list option gmap strings.
From S2P Require Import Prelude PyStr Isa Ram Cpu Rvc CpuSem Exec ExecSem ExecSafe RamSafe Core.
From S2P Require Import Machine GdbPacket.

Local Open Scope Z_scope.
Local Open Scope py_scope.

(** ** GDBSignals *)

Definition SIGINT : Z := 2.
Definition SIGILL : Z := 4.
Definition SIGTRAP : Z := 5.
Definition SIGSEGV : Z := 11.

(** [from_trap_cause(cause)] *)
Definition from_trap_cause (cause : Z) : Z :=
  if cause =? 2 then SIGILL
  else if cause =? 3 then SIGTRAP
  else if bool_decide (cause ∈ [0; 1; 5; 7]) then SIGSEGV
  else SIGTRAP.

(** ** State *)

Record stub := mkStub {
  running : bool;
  single_step : bool;
  last_signal : Z;
  sw_breakpoints : gset Z
}.

Definition GDBStub_init : stub := mkStub false false SIGTRAP ∅.

Definition set_running (v : bool) (s : stub) : stub :=
  mkStub v (single_step s) (last_signal s) (sw_breakpoints s).
Definition set_single_step (v : bool) (s : stub) : stub :=
  mkStub (running s) v (last_signal s) (sw_breakpoints s).
Definition set_last_signal (v : Z) (s : stub) : stub :=
  mkStub (running s) (single_step s) v (sw_breakpoints s).
Definition set_sw_breakpoints (v : gset Z) (s : stub) : stub :=
  mkStub (running s) (single_step s) (last_signal s) v.

Definition csr_base : Z := 65.

Definition important_csrs : list (Z * string) :=
  [(0x300, "mstatus"); (0x301, "misa"); (0x304, "mie"); (0x305, "mtvec"); (0x340, "mscratch");
   (0x341, "mepc"); (0x342, "mcause"); (0x343, "mtval"); (0x344, "mip"); (0x7C0, "mtime_low");
   (0x7C1, "mtime_high"); (0x7C2, "mtimecmp_low"); (0x7C3, "mtimecmp_high")]%string.

(** ** Strings *)

(** [s.startswith(prefix)], with the rest of the string. *)
Fixpoint after_prefix (prefix s : str) : option str :=
  match prefix, s with
  | [], _ => Some s
  | a :: p, b :: s' => if ord a =? ord b then after_prefix p s' else None
  | _ :: _, [] => None
  end.

Definition str_eqb (a b : str) : bool := bool_decide (a = b).

(** A 32-bit value as four bytes, little end first, two digits each. *)
Definition hex_le (val : Z) : str :=
  hex2 (byte_of val 0) ++ hex2 (byte_of val 1) ++ hex2 (byte_of val 2) ++ hex2 (byte_of val 3).

(** The digits of a natural number in base 16, most significant first. *)
Fixpoint hex_digits (fuel : nat) (z : Z) (acc : str) : str :=
  match fuel with
  | O => acc
  | S fuel => if z <? 16 then hex_digit z :: acc
              else hex_digits fuel (z / 16) (hex_digit (z mod 16) :: acc)
  end.

(** [f"{z:0<width>x}"]: the sign counts in the width. *)
Definition format_hex (width : nat) (z : Z) : str :=
  let digits := hex_digits (S (Z.to_nat (Z.log2 (Z.abs z)))) (Z.abs z) [] in
  let sign := if z <? 0 then [chr 45] else [] in
  sign ++ replicate (width - length sign - length digits) (chr 48) ++ digits.

(** [s.split()]: the runs of characters that are not white space. *)
Fixpoint split_ws (acc : str) (s : str) : list str :=
  match s with
  | [] => match acc with [] => [] | _ => [rev acc] end
  | c :: s' =>
      if is_space c then match acc with [] => split_ws [] s' | _ => rev acc :: split_ws [] s' end
      else split_ws (c :: acc) s'
  end.

(** [bytes.fromhex(s)]: pairs of digits, with white space between them. *)
Fixpoint fromhex (s : str) : option (list Z) :=
  match s with
  | [] => Some []
  | c :: s' =>
      if (ord c =? 32) || ((9 <=? ord c) && (ord c <=? 13)) then fromhex s'
      else match s' with
           | [] => None
           | d :: s'' =>
               match digit_value c, digit_value d with
               | Some h, Some l =>
                   if (h <? 16) && (l <? 16)
                   then match fromhex s'' with Some b => Some (16 * h + l :: b) | None => None end
                   else None
               | _, _ => None
               end
           end
  end.

Section Stub.
Context {W : Type} `{HC : Has cpu W} `{HR : Has ram W} `{HM : Has machine W} `{R : RamOps W}.
Context `{HG : Has stub W} `{HN : Has conn W}.
Context (handle_ecall : option (ST W unit)) (runner : periph -> ST W unit).
Context (exn_text : exn -> str -> str).

Definition sget {A} (f : stub -> A) : ST W A := gets (fun w => f (view w)).
Definition sset (f : stub -> stub) : ST W unit := zoom (modify f).
Definition cget {A} (f : cpu -> A) : ST W A := gets (fun w => f (view w)).

(** [int(s, 16)] *)
Definition int16 (s : str) : ST W Z := of_option ValueError (py_int_list 16 s).

(** [a, b = s.split(sep)] *)
Definition split2 (sep : Z) (s : str) : ST W (str * str) :=
  match split_list sep [] s with
  | [a; b] => ret (a, b)
  | _ => raise ValueError
  end.

(** [except (ValueError, IndexError): return 'E01'] *)
Definition or_E01 (m : ST W str) : ST W str :=
  catch m (fun e => match e with ValueError | IndexError => ret (lit "E01") | _ => raise e end).

(** [except ValueError: return 'E01'] *)
Definition or_E01_value (m : ST W str) : ST W str :=
  catch m (fun e => match e with ValueError => ret (lit "E01") | _ => raise e end).

(** [except Exception: return 'E01'] *)
Definition or_E01_any (m : ST W str) : ST W str := catch m (fun _ => ret (lit "E01")).

(** [for i in range(n)] *)
Definition range (n : Z) : list Z := map Z.of_nat (seq 0 (Z.to_nat n)).

(** [int(hex[o:o+2], 16)], ..., [int(hex[o+6:o+8], 16)], joined little end first. *)
Definition parse_le (hex : str) (o : Z) : ST W Z :=
  b0 <- int16 (py_slice hex o (o + 2)) ;;
  b1 <- int16 (py_slice hex (o + 2) (o + 4)) ;;
  b2 <- int16 (py_slice hex (o + 4) (o + 6)) ;;
  b3 <- int16 (py_slice hex (o + 6) (o + 8)) ;;
  ret (le32 b0 b1 b2 b3).

(** [cpu.pc = v; cpu.next_pc = cpu.pc] *)
Definition set_both_pc (v : Z) : ST W unit :=
  zoom (modify (fun c => set_next_pc v (set_pc v c))).

(** ** Registers *)

Definition cmd_halt_reason : ST W str :=
  s <- sget last_signal ;; ret (lit "S" ++ hex2 s).

Fixpoint read_gprs (l : list Z) : ST W str :=
  match l with
  | [] => ret []
  | i :: l' =>
      v <- zoom (reg i) ;;
      rest <- read_gprs l' ;;
      ret (hex_le (Z.land v 0xFFFFFFFF) ++ rest)
  end.

Definition cmd_read_registers : ST W str :=
  gprs <- read_gprs (range 32) ;;
  p <- cget pc ;;
  ret (gprs ++ hex_le (Z.land p 0xFFFFFFFF)).

(** One round of the loop of cmd_write_registers. *)
Definition write_gpr (hex_data : str) (i : Z) : ST W unit :=
  val <- parse_le hex_data (i * 8) ;;
  if i =? 0 then ret tt else zoom (set_reg i (Z.land val 0xFFFFFFFF)).

Definition cmd_write_registers (hex_data : str) : ST W str :=
  or_E01 (
    for_each (write_gpr hex_data) (range 32) ;;;
    p <- parse_le hex_data (32 * 8) ;;
    set_both_pc (Z.land p 0xFFFFFFFF) ;;;
    ret (lit "OK")).

Definition cmd_read_register (reg_num_str : str) : ST W str :=
  or_E01_value (
    reg_num <- int16 reg_num_str ;;
    if reg_num <? 32 then
      v <- zoom (reg reg_num) ;; ret (hex_le (Z.land v 0xFFFFFFFF))
    else if reg_num =? 32 then
      p <- cget pc ;; ret (hex_le (Z.land p 0xFFFFFFFF))
    else if csr_base <=? reg_num then
      let csr_addr := reg_num - csr_base in
      if csr_addr <? 4096 then
        v <- zoom (csr csr_addr) ;; ret (hex_le (Z.land v 0xFFFFFFFF))
      else ret (lit "E01")
    else ret (lit "E01")).

Definition cmd_write_register (params : str) : ST W str :=
  or_E01 (
    parts <- split2 61 params ;;
    let '(reg_num_str, val_str) := parts in
    reg_num <- int16 reg_num_str ;;
    val <- (if 8 <=? py_len val_str then parse_le val_str 0 else int16 val_str) ;;
    if reg_num =? 0 then ret (lit "OK")
    else if reg_num <? 32 then
      zoom (set_reg reg_num (Z.land val 0xFFFFFFFF)) ;;; ret (lit "OK")
    else if reg_num =? 32 then
      set_both_pc (Z.land val 0xFFFFFFFF) ;;; ret (lit "OK")
    else if csr_base <=? reg_num then
      let csr_addr := reg_num - csr_base in
      if csr_addr <? 4096 then
        if CSR_RO csr_addr then ret (lit "E02")
        else zoom (set_csr csr_addr (Z.land val 0xFFFFFFFF)) ;;; ret (lit "OK")
      else ret (lit "E01")
    else ret (lit "E01")).

(** ** Memory *)

Fixpoint read_bytes (addr : Z) (l : list Z) : ST W str :=
  match l with
  | [] => ret []
  | i :: l' =>
      byte <- load_byte (addr + i) false ;;
      rest <- read_bytes addr l' ;;
      ret (hex2 byte ++ rest)
  end.

Definition cmd_read_memory (params : str) : ST W str :=
  or_E01_any (
    parts <- split2 44 params ;;
    let '(addr_str, len_str) := parts in
    addr <- int16 addr_str ;;
    length <- int16 len_str ;;
    read_bytes addr (range length)).

Definition write_one (addr : Z) (hex_data : str) (i : Z) : ST W unit :=
  byte <- int16 (py_slice hex_data (i * 2) ((i + 1) * 2)) ;;
  store_byte (addr + i) byte.

Definition cmd_write_memory (params : str) : ST W str :=
  or_E01_any (
    parts <- split2 58 params ;;
    let '(addr_len, hex_data) := parts in
    parts <- split2 44 addr_len ;;
    let '(addr_str, len_str) := parts in
    addr <- int16 addr_str ;;
    length <- int16 len_str ;;
    if py_len hex_data <? length * 2 then ret (lit "E01")
    else for_each (write_one addr hex_data) (range length) ;;; ret (lit "OK")).

(** ** Execution control *)

(** The common part of cmd_continue and cmd_step: [None] is Python's None. *)
Definition resume (step : bool) (addr_str : option str) : ST W (option str) :=
  let go := sset (set_running true) ;;; sset (set_single_step step) ;;; ret None in
  match addr_str with
  | Some (c :: s) =>
      match py_int_list 16 (c :: s) with
      | Some addr => set_both_pc (Z.land addr 0xFFFFFFFF) ;;; go
      | None => ret (Some (lit "E01"))
      end
  | _ => go
  end.

Definition cmd_continue : option str -> ST W (option str) := resume false.
Definition cmd_step : option str -> ST W (option str) := resume true.

(** The address of Z0 and z0 parameters. *)
Definition break_addr (params : str) : ST W Z :=
  match split_list 44 [] params with
  | a :: _ => int16 a
  | [] => raise IndexError
  end.

Definition cmd_insert_breakpoint (params : str) : ST W str :=
  or_E01 (
    addr <- break_addr params ;;
    sset (fun s => set_sw_breakpoints ({[addr]} ∪ sw_breakpoints s) s) ;;;
    ret (lit "OK")).

Definition cmd_remove_breakpoint (params : str) : ST W str :=
  or_E01 (
    addr <- break_addr params ;;
    sset (fun s => set_sw_breakpoints (sw_breakpoints s ∖ {[addr]}) s) ;;;
    ret (lit "OK")).

Definition cmd_supported : str :=
  lit "PacketSize=4096;swbreak+;hwbreak-;qRelocInsn-;vContSupported+".

Definition is_breakpoint (addr : Z) : ST W bool :=
  sget (fun s => bool_decide (addr ∈ sw_breakpoints s)).

Definition stop_reply (signal : Z) : ST W str :=
  sset (set_last_signal signal) ;;; ret (lit "S" ++ hex2 signal).

(** ** Monitor commands *)

(** [_encode_hex(text)] *)
Definition encode_hex (text : str) : ST W str :=
  if forallb (fun c => ord c <? 128) text then ret (concat (map (fun c => hex2 (ord c)) text))
  else raise ValueError.

(** [csr_name_to_addr[name]] *)
Definition csr_by_name (name : str) : option Z :=
  fst <$> find (fun p => str_eqb (lit (snd p)) name) important_csrs.

(** [important_csrs.get(addr, f"0x{addr:03x}")] *)
Definition csr_name (addr : Z) : str :=
  match find (fun p => fst p =? addr) important_csrs with
  | Some (_, name) => lit name
  | None => lit "0x" ++ format_hex 3 addr
  end.

(** A string literal that ends with a line break. *)
Definition line (s : string) : str := lit s ++ [chr 10].

(** The CSR commands: [csr name] and [csr name value]. *)
Definition monitor_csr (parts : list str) : ST W str :=
  match parts with
  | csr_arg :: args =>
      found <- match after_prefix (lit "0x") csr_arg with
               | Some _ => a <- int16 csr_arg ;; ret (Some a)
               | None => ret (csr_by_name csr_arg)
               end ;;
      match found with
      | None => encode_hex (lit "Unknown CSR: " ++ csr_arg ++ [chr 10])
      | Some csr_addr =>
          if 4096 <=? csr_addr then encode_hex (line "CSR address out of range")
          else match args with
               | [] =>
                   v <- zoom (csr csr_addr) ;;
                   encode_hex (csr_name csr_addr ++ lit ": 0x" ++
                               format_hex 8 (Z.land v 0xFFFFFFFF) ++ [chr 10])
               | value :: _ =>
                   val <- of_option ValueError (py_int_list 0 value) ;;
                   zoom (set_csr csr_addr (Z.land val 0xFFFFFFFF)) ;;;
                   encode_hex (csr_name csr_addr ++ lit " = 0x" ++ format_hex 8 val ++ [chr 10])
               end
      end
  | [] =>
      encode_hex (line "Usage: csr <name|0xADDR> [value]" ++
                  line "CSRs: mstatus misa mie mtvec mscratch mepc mcause mtval mip")
  end.

Definition cmd_monitor (hex_cmd : str) : ST W str :=
  catch (
    bytes <- of_option ValueError (fromhex hex_cmd) ;;
    if forallb (fun b => b <? 128) bytes then
      match split_ws [] (map chr bytes) with
      | [] => encode_hex (line "Unknown command")
      | cmd :: parts =>
          if str_eqb cmd (lit "csr") then monitor_csr parts
          else if str_eqb cmd (lit "help") then
            encode_hex (line "Available commands:" ++
                        line "  csr <name|0xADDR> [value]  - Read/write CSR" ++
                        line "  help                       - Show this help")
          else encode_hex (lit "Unknown command: " ++ cmd ++ [chr 10])
      end
    else raise ValueError)
  (fun e => encode_hex (lit "Error: " ++ exn_text e hex_cmd ++ [chr 10])).

(** ** handle_command *)

(** The rest of the command after its letter, [None] when there is none. *)
Definition arg_of (rest : str) : option str :=
  match rest with [] => None | _ => Some rest end.

(** The queries and the extended commands, which match by whole words. *)
Definition handle_query (cmd : str) : ST W (option str) :=
  let reply s := ret (Some (lit s)) in
  match after_prefix (lit "qSupported") cmd with
  | Some _ => ret (Some cmd_supported)
  | None =>
  if str_eqb cmd (lit "qAttached") then reply "1"%string
  else if str_eqb cmd (lit "qC") then reply "QC0"%string
  else if str_eqb cmd (lit "qfThreadInfo") then reply "m0"%string
  else if str_eqb cmd (lit "qsThreadInfo") then reply "l"%string
  else if str_eqb cmd (lit "qOffsets") then reply "Text=0;Data=0;Bss=0"%string
  else match after_prefix (lit "qRcmd,") cmd with
  | Some rest => r <- cmd_monitor rest ;; ret (Some r)
  | None =>
  if str_eqb cmd (lit "vCont?") then reply "vCont;c;s"%string
  else if str_eqb cmd (lit "vCont;c") || str_eqb cmd (lit "vCont;c:0") then cmd_continue None
  else if str_eqb cmd (lit "vCont;s") || str_eqb cmd (lit "vCont;s:0") then cmd_step None
  else if str_eqb cmd (lit "k") then raise (ExecutionTerminated KilledByGDB)
  else if str_eqb cmd (lit "D") then reply "OK"%string
  else reply ""%string
  end end.

Definition handle_command (cmd : str) : ST W (option str) :=
  if str_eqb cmd (lit "?") then r <- cmd_halt_reason ;; ret (Some r)
  else if str_eqb cmd (lit "g") then r <- cmd_read_registers ;; ret (Some r)
  else match after_prefix (lit "G") cmd with
  | Some rest => r <- cmd_write_registers rest ;; ret (Some r)
  | None => match after_prefix (lit "p") cmd with
  | Some rest => r <- cmd_read_register rest ;; ret (Some r)
  | None => match after_prefix (lit "P") cmd with
  | Some rest => r <- cmd_write_register rest ;; ret (Some r)
  | None => match after_prefix (lit "m") cmd with
  | Some rest => r <- cmd_read_memory rest ;; ret (Some r)
  | None => match after_prefix (lit "M") cmd with
  | Some rest => r <- cmd_write_memory rest ;; ret (Some r)
  | None => match after_prefix (lit "c") cmd with
  | Some rest => cmd_continue (arg_of rest)
  | None => match after_prefix (lit "s") cmd with
  | Some rest => cmd_step (arg_of rest)
  | None => match after_prefix (lit "Z0,") cmd with
  | Some rest => r <- cmd_insert_breakpoint rest ;; ret (Some r)
  | None => match after_prefix (lit "z0,") cmd with
  | Some rest => r <- cmd_remove_breakpoint rest ;; ret (Some r)
  | None => handle_query cmd
  end end end end end end end end end.

(** ** The execution loop of the debugger (machine.py) *)

(** Fetch and execute one instruction, update the timer, advance. *)
Definition gdb_instruction (timer : bool) : ST W unit :=
  p <- cget pc ;;
  inst_low <- load_half p false ;;
  (if Z.land inst_low 0x3 =? 0x3 then
     p <- cget pc ;;
     inst_high <- load_half (p + 2) false ;;
     execute_32 handle_ecall (Z.lor inst_low (Z.shiftl inst_high 16))
   else execute_16 handle_ecall inst_low) ;;;
  tick timer ;;;
  advance.

(** One round in continue mode; the variables are cycle_count and div. *)
Definition gdb_round (timer mmio : bool) (vars : Z * Z) : ST W (Z * Z) :=
  let '(cycle_count, div) := vars in
  p <- cget pc ;;
  hit <- is_breakpoint p ;;
  if hit : bool then raise (DebugBreak "Breakpoint" 5)
  else
    let cycle_count := cycle_count + 1 in
    (if Z.land cycle_count 0xFFF =? 0 then
       stop <- zoom check_for_interrupt ;;
       if stop : bool
       then sset (set_running false) ;;; raise (DebugBreak "Interrupted by user" 2)
       else ret tt
     else ret tt) ;;;
    gdb_instruction timer ;;;
    div <- (if mmio then poll runner div else ret div) ;;
    ret (cycle_count, div).

(** [while gdb_stub.running], at most [n] rounds: true when the loop was left
    because the stub is not running, false when rounds are left to run. *)
Fixpoint gdb_while (timer mmio : bool) (n : nat) (vars : Z * Z) : ST W bool :=
  on <- sget running ;;
  if on : bool then
    match n with
    | O => ret false
    | S n => vars <- gdb_round timer mmio vars ;; gdb_while timer mmio n vars
    end
  else ret true.

Definition run_with_gdb (n : nat) : ST W bool :=
  timer <- mget timer ;;
  mmio <- mget mmio ;;
  step <- sget single_step ;;
  if step : bool then
    gdb_instruction timer ;;;
    (if mmio : bool then peripherals_run runner else ret tt) ;;;
    raise (DebugBreak "Single step complete" 5)
  else gdb_while timer mmio n (0, 0).

(** ** The command loop (machine.py) *)

(** The text of the emulator's errors, as far as run_gdbstub inspects it. *)
Definition error_message (e : exn) : str :=
  match e with
  | MachineError m | SetupError m | InvariantViolationError m
  | MemoryAccessError m _ | InvalidSyscallError m => lit m
  | _ => []
  end.

(** [pat in s] *)
Fixpoint contains (pat s : str) : bool :=
  match after_prefix pat s, s with
  | Some _, _ => true
  | None, _ :: s' => contains pat s'
  | None, [] => false
  end.

Definition error_signal (e : exn) : Z :=
  let text := map lower_char (error_message e) in
  if contains (lit "illegal") text then SIGILL
  else if contains (lit "trap") text then SIGTRAP
  else SIGSEGV.

(** [gdb_stub.send_packet(gdb_stub.stop_reply(signal))] *)
Definition report (signal : Z) : ST W unit :=
  s <- stop_reply signal ;; zoom (send_packet s).

(** The handlers of the exceptions that end a run. *)
Definition on_stop (e : exn) : ST W bool :=
  match e with
  | DebugBreak _ signal =>
      sset (set_running false) ;;; sset (set_single_step false) ;;; report signal ;;; ret true
  | ExecutionTerminated _ => sset (set_running false) ;;; report SIGTRAP ;;; ret true
  | _ => if is_machine_error e
         then sset (set_running false) ;;; report (error_signal e) ;;; ret true
         else raise e
  end.

(** What one round of the command loop leaves: the connection is closed, the
    program is still executing after the rounds allowed to it, or the loop goes
    on with the next packet. *)
Inductive session := Closed | Executing | Ready.

(** [try: self.run_with_gdb(gdb_stub) ... except ...]: a run that returns is
    reported like a breakpoint, inside the same try. *)
Definition gdb_run (rounds : nat) : ST W session :=
  done <- catch (
      done <- run_with_gdb rounds ;;
      (if done : bool then sset (set_running false) ;;; report SIGTRAP else ret tt) ;;;
      ret done)
    on_stop ;;
  ret (if done : bool then Ready else Executing).

Definition gdb_command (rounds : nat) : ST W session :=
  cmd <- zoom recv_packet ;;
  match cmd with
  | None => ret Closed
  | Some cmd =>
      if str_eqb cmd (lit "interrupt") then
        sset (set_running false) ;;; report SIGINT ;;; ret Ready
      else
        response <- handle_command cmd ;;
        on <- sget running ;;
        if on : bool then gdb_run rounds
        else match response with
             | Some r => zoom (send_packet r) ;;; ret Ready
             | None => ret Ready
             end
  end.

(** [run_gdbstub(gdb_stub)], for [n] packets. *)
Fixpoint run_gdbstub (n rounds : nat) : ST W session :=
  match n with
  | O => ret Ready
  | S n => s <- gdb_command rounds ;;
           match s with Ready => run_gdbstub n rounds | _ => ret s end
  end.
End Stub.
