(* ===== verification/GdbThms.v ===== *)
(** * Theorems about the GDB stub

    Registers, CSRs and memory read back what the debugger wrote; a breakpoint
    stops the program before the instruction at its address is executed; a round
    of the debugger's loop is a round of the emulator's own loop; single step
    executes one instruction; and every stop is reported to the client. *)

From Stdlib Require Import ZArith Lia Bool Ascii String.
From stdpp Require Import base numbers list option gmap strings.
From S2P Require Import Prelude PyStr Isa Ram Cpu Rvc CpuSem Exec ExecSem ExecSafe RamSafe Core.
From S2P Require Import Machine Peripherals World MachineThms GdbPacket Gdb.

Local Open Scope Z_scope.
Local Open Scope py_scope.

(** ** Hexadecimal fields *)

Lemma py_slice_mid {A} (s pre x post : list A) o n : s = pre ++ x ++ post ->
  o = py_len pre -> n = o + py_len x -> py_slice s o n = x.
Proof.
  intros -> -> ->. rewrite py_slice_in; unfold py_len; rewrite ?length_app; [|lia..].
  rewrite !Nat2Z.id, drop_app_length. by rewrite take_app_length.
Qed.

Lemma py_len_app {A} (a b : list A) : py_len (a ++ b) = py_len a + py_len b.
Proof. unfold py_len. rewrite length_app. lia. Qed.

(** One element after a prefix of the right length. *)
Lemma insert_splice {A} (p m : list A) n x : length p = n -> (n < length m)%nat ->
  <[n := x]> (p ++ drop n m) = (p ++ [x]) ++ drop (S n) m.
Proof.
  intros Hp Hn. rewrite insert_app_r_alt by lia. replace (n - length p)%nat with 0%nat by lia.
  destruct (lookup_lt_is_Some_2 m n Hn) as [y Hy]. rewrite (drop_S m y n Hy).
  by rewrite <- app_assoc.
Qed.

Section Fields.
Context {W : Type}.

Lemma int16_hex2 b (w : W) : u8 b -> int16 (hex2 b) w = (Ok b, w).
Proof. intros H. unfold int16. by rewrite py_int_hex2. Qed.

Lemma int16_field (w : W) (s a k : str) b o n : u8 b -> s = a ++ hex2 b ++ k ->
  o = py_len a -> n = o + 2 -> int16 (py_slice s o n) w = (Ok b, w).
Proof. intros Hb -> -> ->. rewrite (py_slice_mid _ a (hex2 b) k); [by apply int16_hex2|done..]. Qed.

Lemma parse_le_eq (w : W) (s pre post : str) v o : u32 v -> s = pre ++ hex_le v ++ post ->
  o = py_len pre -> parse_le s o w = (Ok v, w).
Proof.
  intros Hv -> ->. unfold parse_le, hex_le, bind.
  set (h i := hex2 (byte_of v i)). pose proof (u8_byte_of v) as Hb.
  rewrite (int16_field w _ pre (h 1 ++ h 2 ++ h 3 ++ post) (byte_of v 0));
    [|done|by rewrite <- !app_assoc|done|done].
  rewrite (int16_field w _ (pre ++ h 0) (h 2 ++ h 3 ++ post) (byte_of v 1));
    [|done|by rewrite <- !app_assoc|by rewrite py_len_app|lia].
  rewrite (int16_field w _ (pre ++ h 0 ++ h 1) (h 3 ++ post) (byte_of v 2));
    [|done|by rewrite <- !app_assoc|by rewrite !py_len_app|lia].
  rewrite (int16_field w _ (pre ++ h 0 ++ h 1 ++ h 2) post (byte_of v 3));
    [|done|by rewrite <- !app_assoc|by rewrite !py_len_app|lia].
  by rewrite le32_bytes.
Qed.
End Fields.

Lemma hex_le_len v : py_len (hex_le v) = 8.
Proof. done. Qed.

Lemma hex_le_all_len vs : py_len (concat (map hex_le vs)) = 8 * py_len vs.
Proof.
  induction vs as [|v vs IH]; [done|]. cbn [map concat]. rewrite py_len_app, hex_le_len, IH.
  unfold py_len. simpl length. lia.
Qed.

(** ** All the registers *)

Section Registers.
Context {W : Type} `{HC : Has cpu W} `{HR : Has ram W} `{R : RamOps W} `{HG : Has stub W}.
Context (exn_text : exn -> str -> str).
Abbreviation command := (handle_command exn_text).

Lemma zoom_same {X A} `{Has A W} (m : ST A X) (w : W) x : m (view w) = (Ok x, view w) ->
  zoom m w = (Ok x, w).
Proof. intros E. unfold zoom. by rewrite E, put_view. Qed.

(** The commands by their letter. *)
Lemma dispatch_g : command (lit "g") = (r <- cmd_read_registers ;; ret (Some r)).
Proof. reflexivity. Qed.
Lemma dispatch_G x : command (lit "G" ++ x) = (r <- cmd_write_registers x ;; ret (Some r)).
Proof. reflexivity. Qed.
Lemma dispatch_p x : command (lit "p" ++ x) = (r <- cmd_read_register x ;; ret (Some r)).
Proof. reflexivity. Qed.
Lemma dispatch_P x : command (lit "P" ++ x) = (r <- cmd_write_register x ;; ret (Some r)).
Proof. reflexivity. Qed.
Lemma dispatch_m x : command (lit "m" ++ x) = (r <- cmd_read_memory x ;; ret (Some r)).
Proof. reflexivity. Qed.
Lemma dispatch_M x : command (lit "M" ++ x) = (r <- cmd_write_memory x ;; ret (Some r)).
Proof. reflexivity. Qed.
Lemma dispatch_Z0 x : command (lit "Z0," ++ x) = (r <- cmd_insert_breakpoint x ;; ret (Some r)).
Proof. reflexivity. Qed.
Lemma dispatch_z0 x : command (lit "z0," ++ x) = (r <- cmd_remove_breakpoint x ;; ret (Some r)).
Proof. reflexivity. Qed.

(** The registers 1 to 31 and the pc replaced. *)
Definition with_registers (vs : list Z) (c : cpu) : cpu :=
  let p := default 0 (vs !! 32%nat) in
  set_next_pc p (set_pc p (set_registers (rv c 0 :: take 31 (drop 1 vs)) c)).

Lemma parse_le_nth (w : W) vs k v : Forall u32 vs -> vs !! k = Some v ->
  parse_le (concat (map hex_le vs)) (Z.of_nat k * 8) w = (Ok v, w).
Proof.
  intros Hu Hv. pose proof (lookup_lt_Some _ _ _ Hv).
  eapply (parse_le_eq _ _ (concat (map hex_le (take k vs))) (concat (map hex_le (drop (S k) vs)))).
  - exact (Forall_lookup_1 _ _ _ _ Hu Hv).
  - rewrite <- (take_drop_middle vs k v Hv) at 1. by rewrite map_app, concat_app.
  - rewrite hex_le_all_len. unfold py_len. rewrite length_take. lia.
Qed.

Lemma write_gpr_eq vs k v (w : W) : Forall u32 vs -> vs !! k = Some v -> (0 < k < 32)%nat ->
  py_len (registers (view w)) = 32 ->
  write_gpr (concat (map hex_le vs)) (Z.of_nat k) w =
    (Ok tt, put (set_registers (<[k := v]> (registers (view w))) (view w)) w).
Proof.
  intros Hu Hv Hk Hlen. unfold write_gpr, bind. rewrite (parse_le_nth w vs k v Hu Hv).
  rewrite (proj2 (Z.eqb_neq _ 0)) by lia. unfold zoom, set_reg.
  rewrite py_set_in, Nat2Z.id, u32_mask_id by (exact (Forall_lookup_1 _ _ _ _ Hu Hv) || lia).
  done.
Qed.

Lemma write_gprs vs (c : cpu) (w : W) : py_len (registers c) = 32 ->
  length vs = 33%nat -> Forall u32 vs -> forall n k, (S k + n = 32)%nat ->
  for_each (write_gpr (concat (map hex_le vs))) (map Z.of_nat (seq (S k) n))
    (put (set_registers ((rv c 0 :: take k (drop 1 vs)) ++ drop (S k) (registers c)) c) w) =
  (Ok tt, put (set_registers (rv c 0 :: take 31 (drop 1 vs)) c) w).
Proof.
  intros Hlen Hl Hu. unfold py_len in Hlen. induction n as [|n IH]; intros k Hk.
  - replace k with 31%nat by lia. simpl. by rewrite (drop_ge (registers c)), app_nil_r by lia.
  - destruct (lookup_lt_is_Some_2 vs (S k)) as [v Hv]; [lia|].
    cbn [seq map for_each]. unfold bind at 1.
    rewrite (write_gpr_eq vs (S k) v) by
      (first [done|lia|rewrite view_put; unfold py_len; cbn [registers set_registers];
        rewrite length_app, length_cons, length_take, !length_drop; lia]).
    rewrite view_put, put_put. cbn [registers set_registers].
    rewrite insert_splice by (rewrite ?length_cons, ?length_take, ?length_drop; lia).
    rewrite <- (IH (S k)) by lia. rewrite (take_S_r (drop 1 vs) k v) by (by rewrite lookup_drop).
    done.
Qed.

Lemma read_gprs_eq (w : W) : py_len (registers (view w)) = 32 ->
  Forall u32 (registers (view w)) -> forall n k, (k + n = 32)%nat ->
  read_gprs (map Z.of_nat (seq k n)) w =
    (Ok (concat (map hex_le (drop k (registers (view w))))), w).
Proof.
  intros Hlen Hu. unfold py_len in Hlen. induction n as [|n IH]; intros k Hk; simpl.
  - by rewrite drop_ge by lia.
  - destruct (lookup_lt_is_Some_2 (registers (view w)) k) as [v Hv]; [lia|].
    unfold bind at 1. rewrite (zoom_same (reg (Z.of_nat k)) w v).
    2: { unfold reg. by rewrite py_get_in, Nat2Z.id, Hv by (unfold py_len; lia). }
    unfold bind. rewrite IH by lia. rewrite (drop_S _ v k Hv), u32_mask_id; [done|].
    exact (Forall_lookup_1 _ _ _ _ Hu Hv).
Qed.

Lemma registers_split c : py_len (registers c) = 32 -> registers c = [rv c 0] ++ drop 1 (registers c).
Proof.
  intros H. unfold rv. destruct (registers c) as [|x l]; [done|]. simpl. by rewrite drop_0.
Qed.

Lemma write_all_eq (w : W) vs : wf_cpu (view w) -> length vs = 33%nat -> Forall u32 vs ->
  cmd_write_registers (concat (map hex_le vs)) w =
    (Ok (lit "OK"), put (with_registers vs (view w)) w).
Proof.
  intros Hc Hl Hu. set (c := view w). pose proof (wf_regs_len c Hc) as Hlen.
  unfold cmd_write_registers, or_E01, catch. change (range 32) with (0 :: map Z.of_nat (seq 1 31)).
  cbn [for_each]. unfold bind at 1 2.
  assert (write_gpr (concat (map hex_le vs)) 0 w = (Ok tt, w)) as ->.
  { destruct (lookup_lt_is_Some_2 vs 0) as [v Hv]; [lia|].
    unfold write_gpr, bind. by rewrite (parse_le_nth w vs 0 v Hu Hv : parse_le _ (0 * 8) w = _). }
  assert (set_registers ((rv c 0 :: take 0 (drop 1 vs)) ++ drop 1 (registers c)) c = c) as E0.
  { change ((rv c 0 :: take 0 (drop 1 vs)) ++ drop 1 (registers c))
      with ([rv c 0] ++ drop 1 (registers c)). rewrite <- registers_split by done. by destruct c. }
  pose proof (write_gprs vs c w Hlen Hl Hu 31 0 eq_refl) as Hw. rewrite E0 in Hw.
  unfold c in Hw at 1. rewrite put_view in Hw. rewrite Hw.
  destruct (lookup_lt_is_Some_2 vs 32) as [p Hp]; [lia|]. unfold bind.
  rewrite (parse_le_nth _ vs 32 p Hu Hp : parse_le _ (32 * 8) _ = _). unfold set_both_pc, zoom, modify.
  rewrite view_put, put_put, u32_mask_id by exact (Forall_lookup_1 _ _ _ _ Hu Hp).
  unfold with_registers. by rewrite Hp.
Qed.

Lemma read_all_eq (w : W) : wf_cpu (view w) -> cmd_read_registers w =
  (Ok (concat (map hex_le (registers (view w) ++ [pc (view w)]))), w).
Proof.
  intros Hc. unfold cmd_read_registers, bind. change (range 32) with (map Z.of_nat (seq 0 32)).
  rewrite (read_gprs_eq w (wf_regs_len _ Hc) (wf_regs _ Hc) 32 0) by lia.
  unfold cget, gets. rewrite u32_mask_id by apply Hc.
  rewrite drop_0, map_app, concat_app. cbn [map concat]. by rewrite app_nil_r.
Qed.

Lemma with_registers_wf vs c : wf_cpu c -> length vs = 33%nat -> Forall u32 vs ->
  wf_cpu (with_registers vs c).
Proof.
  intros Hc Hl Hu. destruct (lookup_lt_is_Some_2 vs 32) as [p Hp]; [lia|].
  assert (u32 p) by exact (Forall_lookup_1 _ _ _ _ Hu Hp).
  unfold with_registers. rewrite Hp. destruct Hc. split; try done.
  - unfold py_len. simpl. rewrite length_take, length_drop. lia.
  - simpl. constructor; [by apply rv_u32|]. by apply Forall_take, Forall_drop.
Qed.

(** C36: a debugger that writes all the registers ('G') and reads them back ('g')
    gets the values it wrote; x0 keeps its value, next_pc follows the pc, and
    nothing else of the machine changes. *)
Theorem gdb_registers_roundtrip (w : W) (vs : list Z)
  (Hc : wf_cpu (view w)) (Hl : length vs = 33%nat) (Hu : Forall u32 vs) :
  let w' := put (with_registers vs (view w)) w in
  command (lit "G" ++ concat (map hex_le vs)) w = (Ok (Some (lit "OK")), w') /\
  command (lit "g") w' =
    (Ok (Some (concat (map hex_le (rv (view w) 0 :: drop 1 vs)))), w').
Proof.
  intros w'. split.
  - rewrite dispatch_G. unfold bind. by rewrite write_all_eq.
  - rewrite dispatch_g. unfold bind. rewrite read_all_eq.
    + destruct (lookup_lt_is_Some_2 vs 32) as [p Hp]; [lia|].
      subst w'. rewrite view_put. unfold with_registers. rewrite Hp.
      cbn [registers pc set_registers set_pc set_next_pc app].
      change (default 0 (Some p)) with p.
      assert (take 31 (drop 1 vs) ++ [p] = drop 1 vs) as ->; [|done].
      rewrite <- take_S_r by (by rewrite lookup_drop).
      apply take_ge. rewrite length_drop. lia.
    + subst w'. rewrite view_put. by apply with_registers_wf.
Qed.
End Registers.

(** ** Parameters *)

(** A field that does not contain its separator. *)
Definition field_ok (sep : Z) (s : str) : Prop := Forall (fun c => ord c <> sep) s.

Lemma split_list_last sep s acc : field_ok sep s -> split_list sep acc s = [rev acc ++ s].
Proof.
  intros H. revert acc. induction H as [|c s Hc _ IH]; intros acc; simpl; [by rewrite app_nil_r|].
  rewrite (proj2 (Z.eqb_neq _ _) Hc), IH. simpl. by rewrite <- app_assoc.
Qed.

Lemma split_list_field sep s c rest acc : field_ok sep s -> ord c = sep ->
  split_list sep acc (s ++ c :: rest) = (rev acc ++ s) :: split_list sep [] rest.
Proof.
  intros H Hc. revert acc. induction H as [|d s Hd _ IH]; intros acc; simpl.
  - by rewrite Hc, Z.eqb_refl, app_nil_r.
  - rewrite (proj2 (Z.eqb_neq _ _) Hd), IH. simpl. by rewrite <- app_assoc.
Qed.

Lemma split2_eq {W} sep a c b (w : W) : field_ok sep a -> ord c = sep -> field_ok sep b ->
  split2 sep (a ++ c :: b) w = (Ok (a, b), w).
Proof. intros Ha Hc Hb. unfold split2. by rewrite split_list_field, split_list_last. Qed.

Lemma hex_digit_fields d : 0 <= d < 16 ->
  ord (hex_digit d) <> 44 /\ ord (hex_digit d) <> 58 /\ ord (hex_digit d) <> 61.
Proof. revert d. enumerate. Qed.

Lemma hex2_field b sep : u8 b -> sep ∈ [44; 58; 61] -> field_ok sep (hex2 b).
Proof.
  intros Hb Hs. unfold uN in Hb.
  assert (0 <= b / 16 < 16) as H1 by (Z.div_mod_to_equations; lia).
  assert (0 <= b mod 16 < 16) as H2 by (Z.div_mod_to_equations; lia).
  apply hex_digit_fields in H1, H2.
  repeat constructor; (repeat apply elem_of_cons in Hs as [->|Hs]; try tauto; by apply elem_of_nil in Hs).
Qed.

Lemma hex_le_field v sep : sep ∈ [44; 58; 61] -> field_ok sep (hex_le v).
Proof. intros Hs. repeat apply Forall_app_2; apply hex2_field; auto with words. Qed.

(** ** One register *)

(** The debugger's register file: the integer registers, the pc and the CSRs. *)
Definition reg_view (c : cpu) (n : Z) : option Z :=
  if n <? 32 then Some (rv c n)
  else if n =? 32 then Some (pc c)
  else if (csr_base <=? n) && (n <? csr_base + 4096) then Some (cv c (n - csr_base))
  else None.

Definition reg_put (n v : Z) (c : cpu) : cpu :=
  if n <? 32 then wr n v c
  else if n =? 32 then set_next_pc v (set_pc v c)
  else wc (n - csr_base) v c.

(** The register can be written. *)
Definition reg_writable (c : cpu) (n : Z) : Prop :=
  0 < n /\ reg_view c n <> None /\ (csr_base <= n -> CSR_RO (n - csr_base) = false).

Lemma reg_view_put c n v m : wf_cpu c -> reg_writable c n -> 0 <= m ->
  reg_view (reg_put n v c) m = if m =? n then Some v else reg_view c m.
Proof.
  intros Hc (Hn & Hv & _) Hm. unfold reg_view, reg_put, csr_base in *.
  pose proof (wf_regs_len c Hc). pose proof (wf_csrs_len c Hc).
  destruct (Z.ltb_spec n 32); [|destruct (Z.eqb_spec n 32)].
  - destruct (Z.ltb_spec m 32).
    + rewrite rv_wr by lia. rewrite (Z.eqb_sym n m). by destruct (m =? n).
    + by rewrite (proj2 (Z.eqb_neq m n)) by lia.
  - subst. destruct (Z.ltb_spec m 32); [by rewrite (proj2 (Z.eqb_neq m 32)) by lia|].
    by destruct (Z.eqb_spec m 32).
  - destruct ((65 <=? n) && (n <? 65 + 4096)) eqn:E; [|done].
    destruct (Z.ltb_spec m 32); [by rewrite (proj2 (Z.eqb_neq m n)) by lia|].
    destruct (Z.eqb_spec m 32); [by rewrite (proj2 (Z.eqb_neq m n)) by lia|].
    destruct ((65 <=? m) && (m <? 65 + 4096)) eqn:E'.
    + rewrite cv_wc by lia. destruct (Z.eqb_spec m n) as [->|]; [by rewrite Z.eqb_refl|].
      by rewrite (proj2 (Z.eqb_neq _ _)) by lia.
    + by rewrite (proj2 (Z.eqb_neq m n)) by lia.
Qed.

Section Register.
Context {W : Type} `{HC : Has cpu W} `{HR : Has ram W} `{R : RamOps W} `{HG : Has stub W}.
Context (exn_text : exn -> str -> str).
Abbreviation command := (handle_command exn_text).

Lemma read_register_eq (w : W) ns n : wf_cpu (view w) -> py_int_list 16 ns = Some n -> 0 <= n ->
  cmd_read_register ns w = (Ok (from_option hex_le (lit "E01") (reg_view (view w) n)), w).
Proof.
  intros Hc Hn H0. unfold cmd_read_register, or_E01_value, catch, bind at 1, int16. rewrite Hn.
  cbn beta iota delta [of_option ret]. unfold reg_view, csr_base, bind, cget, gets, ret.
  destruct (Z.ltb_spec n 32); [|destruct (Z.eqb_spec n 32)]; cbn beta.
  - rewrite (zoom_same _ w (rv (view w) n)) by (apply reg_eq; [apply Hc|lia]).
    by rewrite u32_mask_id by by apply rv_u32.
  - by rewrite u32_mask_id by apply Hc.
  - destruct (Z.leb_spec 65 n); [|done]. rewrite andb_true_l.
    destruct (Z.ltb_spec (n - 65) 4096), (Z.ltb_spec n (65 + 4096)); try lia; [|done].
    rewrite (zoom_same _ w (cv (view w) (n - 65))) by (apply csr_eq; [apply Hc|lia]).
    by rewrite u32_mask_id by by apply cv_u32.
Qed.

Lemma write_register_eq (w : W) ns n v : wf_cpu (view w) -> py_int_list 16 ns = Some n -> 0 <= n ->
  field_ok 61 ns -> u32 v ->
  cmd_write_register (ns ++ lit "=" ++ hex_le v) w =
    if n =? 0 then (Ok (lit "OK"), w)
    else match reg_view (view w) n with
         | None => (Ok (lit "E01"), w)
         | Some _ => if (csr_base <=? n) && CSR_RO (n - csr_base) then (Ok (lit "E02"), w)
                     else (Ok (lit "OK"), put (reg_put n v (view w)) w)
         end.
Proof.
  intros Hc Hn H0 Hf Hv. unfold cmd_write_register, or_E01, catch, bind at 1.
  change (lit "=" ++ hex_le v) with (chr 61 :: hex_le v).
  rewrite split2_eq by (done || (apply hex_le_field; set_solver)). cbn beta iota.
  unfold bind at 1, int16 at 1. rewrite Hn. cbn beta iota delta [of_option ret].
  rewrite hex_le_len. cbn [Z.leb Z.compare Pos.compare Pos.compare_cont].
  unfold bind at 1. rewrite (parse_le_eq w (hex_le v) [] [] v 0) by (by rewrite ?app_nil_r).
  unfold reg_view, reg_put, csr_base, bind, zoom, set_both_pc. rewrite u32_mask_id by done.
  destruct (n =? 0) eqn:En; [done|].
  destruct (Z.ltb_spec n 32); [|destruct (Z.eqb_spec n 32)].
  - rewrite set_reg_eq by (apply Hc || lia).
    by rewrite (proj2 (Z.leb_gt 65 n)) by lia.
  - subst. done.
  - destruct (Z.leb_spec 65 n); [|done]. rewrite andb_true_l.
    destruct (Z.ltb_spec (n - 65) 4096), (Z.ltb_spec n (65 + 4096)); try lia; [|done].
    destruct (CSR_RO (n - 65)); [done|]. by rewrite set_csr_eq by (apply Hc || lia).
Qed.

(** Reading register n ('p') returns its value in the debugger's register file
    (x0-x31, pc, CSRs from 65 on), or E01 when there is no such register; writing
    it ('P') replaces exactly that register, except that a write to x0 is ignored,
    a read-only CSR is refused with E02 and a missing register with E01. *)
Theorem gdb_register_access (w : W) (ns : str) (n v : Z)
  (Hc : wf_cpu (view w)) (Hn : py_int_list 16 ns = Some n) (H0 : 0 <= n)
  (Hf : field_ok 61 ns) (Hv : u32 v) :
  command (lit "p" ++ ns) w =
    (Ok (Some (from_option hex_le (lit "E01") (reg_view (view w) n))), w) /\
  let write := command (lit "P" ++ ns ++ lit "=" ++ hex_le v) w in
  (reg_writable (view w) n ->
     write = (Ok (Some (lit "OK")), put (reg_put n v (view w)) w) /\
     forall m, 0 <= m ->
       reg_view (reg_put n v (view w)) m = if m =? n then Some v else reg_view (view w) m) /\
  (n = 0 -> write = (Ok (Some (lit "OK")), w)) /\
  (reg_view (view w) n = None -> write = (Ok (Some (lit "E01")), w)) /\
  (csr_base <= n -> CSR_RO (n - csr_base) = true -> write = (Ok (Some (lit "E02")), w)).
Proof.
  cbv zeta. rewrite dispatch_p, dispatch_P. unfold bind.
  rewrite (read_register_eq w ns n), (write_register_eq w ns n v) by done. split; [done|].
  split_and!.
  - intros Hw. split; [|by intros; apply reg_view_put]. destruct Hw as (Hp & Hs & Hro).
    rewrite (proj2 (Z.eqb_neq n 0)) by lia. destruct (reg_view (view w) n); [|done].
    destruct (Z.leb_spec csr_base n); [|done]. by rewrite Hro.
  - by intros ->.
  - intros E. rewrite E. destruct (Z.eqb_spec n 0); [|done]. subst. done.
  - intros Hb Hro. unfold csr_base in *. rewrite (proj2 (Z.eqb_neq n 0)) by lia.
    rewrite (proj2 (Z.leb_le 65 n)) by lia. rewrite andb_true_l, Hro.
    unfold reg_view, csr_base. unfold CSR_RO in Hro.
    rewrite (proj2 (Z.ltb_ge n 32)), (proj2 (Z.eqb_neq n 32)), (proj2 (Z.leb_le 65 n)) by lia.
    by rewrite (proj2 (Z.ltb_lt n (65 + 4096))) by lia.
Qed.

(** The read command catches only ValueError: a register number below -32,
    which Python's [int] accepts, raises IndexError out of the command loop, while
    the write command answers E01. *)
Theorem gdb_negative_register (w : W) (Hc : wf_cpu (view w)) :
  command (lit "p-21") w = (Exn IndexError, w) /\
  command (lit "P-21=0") w = (Ok (Some (lit "E01")), w).
Proof.
  assert (zoom (reg (-33)) w = (Exn IndexError, w)) as Hr.
  { unfold zoom, reg, py_get. rewrite (wf_regs_len _ Hc).
    change (py_index 32 (-33)) with (@None Z). cbn. by rewrite put_view. }
  assert (forall v, zoom (set_reg (-33) v) w = (Exn IndexError, w)) as Hs.
  { intros v. unfold zoom, set_reg, py_set. rewrite (wf_regs_len _ Hc).
    change (py_index 32 (-33)) with (@None Z). cbn. by rewrite put_view. }
  change (lit "p-21") with (lit "p" ++ lit "-21").
  change (lit "P-21=0") with (lit "P" ++ lit "-21=0").
  rewrite dispatch_p, dispatch_P. split.
  - unfold cmd_read_register, or_E01_value, catch, bind, int16.
    change (py_int_list 16 (lit "-21")) with (Some (-33)). cbn -[zoom reg Z.land].
    by rewrite Hr.
  - unfold cmd_write_register, or_E01, catch, bind, int16, split2.
    change (split_list 61 [] (lit "-21=0")) with [lit "-21"; lit "0"]. cbn iota beta delta [ret].
    change (py_int_list 16 (lit "-21")) with (Some (-33)).
    change (py_int_list 16 (lit "0")) with (Some 0). cbn -[zoom set_reg Z.land].
    change (8 <=? py_len [_]) with false. cbn iota beta delta [ret]. by rewrite Hs.
Qed.
End Register.

(** ** Memory *)

Lemma bytes_at_cons r a n : wf_ram r -> 0 <= a -> a < size r -> 0 <= n ->
  bytes_at r a (1 + n) = mem_byte r a :: bytes_at r (a + 1) n.
Proof.
  intros Hr Ha Hb Hn. pose proof (wf_len r Hr) as Hl. unfold bytes_at, mem_byte.
  rewrite py_get_in by lia. unfold py_len in Hl.
  destruct (lookup_lt_is_Some_2 (memory r) (Z.to_nat a)) as [x Hx]; [lia|].
  rewrite (drop_S _ x _ Hx), Hx. replace (Z.to_nat (1 + n)) with (S (Z.to_nat n)) by lia.
  simpl. by replace (Z.to_nat (a + 1)) with (S (Z.to_nat a)) by lia.
Qed.

(** The bytes of a transfer at [a] that lie inside the memory. *)
Definition fitting (r : ram) (a : Z) (data : list Z) : nat :=
  if 0 <=? a then Nat.min (length data) (Z.to_nat (size r - a)) else 0%nat.

Lemma in_bounds_fitting r a data : data <> [] ->
  in_bounds r a (py_len data) = true <-> fitting r a data = length data.
Proof.
  intros Hd. unfold in_bounds, fitting, py_len.
  assert (0 < length data)%nat by (destruct data; [done|simpl; lia]).
  destruct (Z.leb_spec 0 a); simpl; [rewrite Z.leb_le; lia|]. lia.
Qed.

Section Memory.
Context {W : Type} `{HC : Has cpu W} `{HR : Has ram W} `{HG : Has stub W}.
Context (exn_text : exn -> str -> str).
#[local] Existing Instance SafeRAM_ops.
Abbreviation command := (handle_command exn_text).

Lemma load_byte_eq (w : W) a : wf_ram (view w) -> load_byte a false w =
  if in_bounds (view w) a 1 then (Ok (mem_byte (view w) a), w) else (Exn (out_of_bounds a), w).
Proof.
  intros Hr. unfold load_byte, SafeRAM_ops, zoom.
  rewrite SafeRAM_load_byte_eq by done. destruct (in_bounds _ _ _); by rewrite put_view.
Qed.

Lemma read_bytes_in (w : W) a : wf_ram (view w) -> 0 <= a -> forall n k,
  a + Z.of_nat (k + n) <= size (view w) ->
  read_bytes a (map Z.of_nat (seq k n)) w =
    (Ok (concat (map hex2 (bytes_at (view w) (a + Z.of_nat k) (Z.of_nat n)))), w).
Proof.
  intros Hr Ha. induction n as [|n IH]; intros k Hb; [done|].
  cbn [seq map read_bytes]. unfold bind at 1. rewrite load_byte_eq by done.
  rewrite (proj2 (in_bounds_spec _ _ _)) by lia. unfold bind. rewrite IH by lia.
  replace (Z.of_nat (S n)) with (1 + Z.of_nat n) by lia.
  rewrite bytes_at_cons by (done || lia).
  by replace (a + Z.of_nat (S k)) with (a + Z.of_nat k + 1) by lia.
Qed.

Lemma read_bytes_out (w : W) a : wf_ram (view w) -> forall n k, (0 < n)%nat ->
  (k = 0%nat \/ 0 <= a) -> (a < 0 \/ size (view w) < a + Z.of_nat (k + n)) ->
  exists e, read_bytes a (map Z.of_nat (seq k n)) w = (Exn e, w).
Proof.
  intros Hr. induction n as [|n IH]; intros k Hn Hk Hb; [lia|].
  cbn [seq map read_bytes]. unfold bind at 1. rewrite load_byte_eq by done.
  destruct (in_bounds (view w) (a + Z.of_nat k) 1) eqn:E; [|by eexists].
  apply in_bounds_spec in E. destruct (IH (S k)) as [e He]; [lia..|].
  unfold bind. rewrite He. by eexists.
Qed.

Lemma range_of_nat n : range (Z.of_nat n) = map Z.of_nat (seq 0 n).
Proof. unfold range. by rewrite Nat2Z.id. Qed.

Lemma read_memory_eq (w : W) sa sn a n : wf_ram (view w) ->
  py_int_list 16 sa = Some a -> py_int_list 16 sn = Some n -> 0 < n ->
  field_ok 44 sa -> field_ok 44 sn ->
  cmd_read_memory (sa ++ lit "," ++ sn) w =
    (Ok (if in_bounds (view w) a n then concat (map hex2 (bytes_at (view w) a n))
         else lit "E01"), w).
Proof.
  intros Hr Hsa Hsn Hn Hfa Hfn. unfold cmd_read_memory, or_E01_any, catch, bind at 1.
  change (lit "," ++ sn) with (chr 44 :: sn). rewrite split2_eq by done. cbn beta iota.
  unfold bind, int16. rewrite Hsa, Hsn. cbn beta iota delta [of_option ret].
  rewrite <- (Z2Nat.id n) at 1 by lia. rewrite range_of_nat.
  destruct (in_bounds (view w) a n) eqn:E.
  - apply in_bounds_spec in E. rewrite read_bytes_in by (done || lia).
    by rewrite Z.add_0_r, Z2Nat.id by lia.
  - destruct (read_bytes_out w a Hr (Z.to_nat n) 0) as [e ->]; [lia|by left| |done].
    unfold in_bounds in E. lia.
Qed.

(** The memory after the first [k] bytes have been written. *)
Definition partial (r : ram) (a : Z) (data : list Z) (k : nat) : ram :=
  with_bytes r a (take k data).

Lemma partial_0 r a data : partial r a data 0 = r.
Proof.
  unfold partial, with_bytes, set_memory. rewrite take_0. cbn [app py_len length].
  rewrite Z.add_0_r, take_drop. by destruct r.
Qed.

Lemma partial_step r a data k x : wf_ram r -> 0 <= a -> data !! k = Some x ->
  a + Z.of_nat k < size r ->
  upd (partial r a data k) (a + Z.of_nat k) x = partial r a data (S k).
Proof.
  intros Hr Ha Hx Hb. pose proof (lookup_lt_Some _ _ _ Hx). pose proof (wf_len r Hr) as Hl.
  unfold py_len in Hl. unfold partial, upd, with_bytes, set_memory. simpl memory.
  rewrite (take_S_r data k x Hx). unfold py_len. rewrite length_app, length_take. simpl length.
  replace (Z.to_nat (a + Z.of_nat (k `min` length data))) with (Z.to_nat a + k)%nat by lia.
  replace (Z.to_nat (a + Z.of_nat k)) with (Z.to_nat a + k)%nat by lia.
  replace (Z.to_nat (a + Z.of_nat (k `min` length data + 1))) with (S (Z.to_nat a + k)) by lia.
  rewrite !app_assoc, insert_splice; [by rewrite <- !app_assoc| |lia].
  rewrite length_app, !length_take. lia.
Qed.

Lemma partial_wf r a data k : wf_ram r -> 0 <= a -> a + Z.of_nat k <= size r -> Forall u8 data ->
  wf_ram (partial r a data k).
Proof.
  intros Hr Ha Hb Hd. apply with_bytes_wf; [done|by apply Forall_take|done|].
  unfold py_len. rewrite length_take. lia.
Qed.

Lemma store_byte_eq (w : W) a v : wf_ram (view w) -> u8 v -> store_byte a v w =
  if in_bounds (view w) a 1 then (Ok tt, put (upd (view w) a v) w)
  else (Exn (out_of_bounds a), w).
Proof.
  intros Hr Hv. unfold store_byte, SafeRAM_ops, zoom, SafeRAM_store_byte. rewrite checked_eq.
  pose proof (wf_len _ Hr). destruct (in_bounds _ _ _) eqn:E; [|by rewrite put_view].
  apply in_bounds_spec in E. rewrite body_store_byte_eq by lia. do 3 f_equal.
  rewrite byte_of_div by lia. change (2 ^ (8 * 0)) with 1. rewrite Z.div_1_r.
  by apply Z.mod_small.
Qed.

Lemma hex2_all_len data : py_len (concat (map hex2 data)) = 2 * py_len data.
Proof.
  induction data as [|v vs IH]; [done|]. cbn [map concat]. rewrite py_len_app, IH.
  unfold py_len. simpl length. lia.
Qed.

Lemma write_one_eq (w : W) a data k x : wf_ram (view w) -> Forall u8 data -> data !! k = Some x ->
  write_one a (concat (map hex2 data)) (Z.of_nat k) w =
  if in_bounds (view w) (a + Z.of_nat k) 1 then (Ok tt, put (upd (view w) (a + Z.of_nat k) x) w)
  else (Exn (out_of_bounds (a + Z.of_nat k)), w).
Proof.
  intros Hr Hd Hx. pose proof (lookup_lt_Some _ _ _ Hx).
  assert (u8 x) by exact (Forall_lookup_1 _ _ _ _ Hd Hx).
  unfold write_one, bind. rewrite (int16_field w _ (concat (map hex2 (take k data)))
    (concat (map hex2 (drop (S k) data))) x); [by apply store_byte_eq|done|..].
  - rewrite <- (take_drop_middle data k x Hx) at 1. by rewrite map_app, concat_app.
  - rewrite hex2_all_len. unfold py_len. rewrite length_take. lia.
  - lia.
Qed.

Lemma write_bytes (w : W) a data : let r := view w in wf_ram r -> Forall u8 data -> 0 <= a ->
  forall n k, (k + n = length data)%nat -> a + Z.of_nat k <= size r ->
  let out := for_each (write_one a (concat (map hex2 data))) (map Z.of_nat (seq k n))
               (put (partial r a data k) w) in
  snd out = put (partial r a data (fitting r a data)) w /\
  (fst out = Ok tt <-> fitting r a data = length data).
Proof.
  intros r Hr Hd Ha. induction n as [|n IH]; intros k Hk Hb.
  - assert (fitting r a data = k) as ->; [|split; [done|split; [intros _; lia|done]]].
    unfold fitting. rewrite (proj2 (Z.leb_le 0 a)) by lia. lia.
  - destruct (lookup_lt_is_Some_2 data k) as [x Hx]; [lia|].
    cbn [seq map for_each]. cbv zeta. unfold bind.
    rewrite (write_one_eq _ a data k x) by
      (first [done|rewrite view_put; by apply partial_wf]).
    rewrite view_put. destruct (in_bounds _ _ _) eqn:E; unfold in_bounds in E; simpl in E.
    + rewrite put_put, partial_step by (done || lia). apply IH; lia.
    + assert (fitting r a data = k) as ->; [|split; [done|split; [done|intros ?; lia]]].
      unfold fitting. rewrite (proj2 (Z.leb_le 0 a)) by lia. lia.
Qed.

Lemma write_memory_eq (w : W) sa sn a data : wf_ram (view w) -> Forall u8 data -> data <> [] ->
  py_int_list 16 sa = Some a -> py_int_list 16 sn = Some (py_len data) ->
  field_ok 44 sa -> field_ok 44 sn -> field_ok 58 sa -> field_ok 58 sn ->
  cmd_write_memory (sa ++ lit "," ++ sn ++ lit ":" ++ concat (map hex2 data)) w =
    (Ok (if in_bounds (view w) a (py_len data) then lit "OK" else lit "E01"),
     put (partial (view w) a data (fitting (view w) a data)) w).
Proof.
  intros Hr Hd Hne Hsa Hsn Ha1 Hn1 Ha2 Hn2. unfold cmd_write_memory, or_E01_any, catch, bind at 1.
  replace (sa ++ lit "," ++ sn ++ lit ":" ++ concat (map hex2 data))
    with ((sa ++ chr 44 :: sn) ++ chr 58 :: concat (map hex2 data)) by (by rewrite <- app_assoc).
  assert (field_ok 58 (concat (map hex2 data))) as Hf.
  { clear -Hd. induction Hd; [constructor|]. apply Forall_app_2; [|done]. apply hex2_field; [done|].
    set_solver. }
  assert (field_ok 58 (sa ++ chr 44 :: sn)).
  { apply Forall_app_2; [done|]. by constructor. }
  rewrite split2_eq by done. cbn beta iota. unfold bind at 1. rewrite split2_eq by done.
  cbn beta iota. unfold bind at 1 2, int16. rewrite Hsa, Hsn. cbn beta iota delta [of_option ret].
  rewrite hex2_all_len, (proj2 (Z.ltb_ge _ _)) by lia.
  unfold py_len at 1. rewrite range_of_nat. pose proof (in_bounds_fitting (view w) a data Hne) as Hin.
  destruct (decide (0 <= a <= size (view w))) as [Hb|Hb].
  - destruct (write_bytes w a data Hr Hd (proj1 Hb) (length data) 0) as [Hs Hf']; [lia..|].
    rewrite partial_0, put_view in Hs, Hf'. unfold bind. destruct (for_each _ _ w) as [[[]|e] w'];
      simpl in Hs, Hf'; subst w'.
    + by rewrite (proj2 Hin) by tauto.
    + destruct (in_bounds _ _ _); [|done]. by destruct Hf' as [_ Hf']; discriminate Hf'; tauto.
  - assert (fitting (view w) a data = 0%nat) as E.
    { unfold fitting. destruct (Z.leb_spec 0 a); [|done]. lia. }
    rewrite E, partial_0, put_view. destruct data as [|x data]; [done|].
    assert (in_bounds (view w) a (py_len (x :: data)) = false) as ->.
    { destruct (in_bounds _ _ _); [|done]. rewrite E in Hin. simpl in Hin.
      destruct Hin as [Hin _]. specialize (Hin eq_refl). discriminate. }
    pose proof (write_one_eq w a (x :: data) 0 x Hr Hd eq_refl) as H1.
    assert (in_bounds (view w) (a + Z.of_nat 0) 1 = false) as E1.
    { apply not_true_is_false. rewrite in_bounds_spec. pose proof (wf_size _ Hr). lia. }
    rewrite E1 in H1. set (hex := concat (map hex2 (x :: data))) in *.
    cbn [seq map for_each length]. unfold bind at 1 2. by rewrite H1.
Qed.

(** C37: with the checked memory and at least one byte, reading memory ('m') returns the
    bytes in hexadecimal, or E01 when the range leaves the memory; writing ('M') stores the
    bytes that lie inside the memory and answers OK exactly when all of them do, and what
    was written reads back. *)
Theorem gdb_memory_access (w : W) (sa sn : str) (a : Z) (data : list Z)
  (Hr : wf_ram (view w)) (Hd : Forall u8 data) (Hne : data <> [])
  (Hsa : py_int_list 16 sa = Some a) (Hsn : py_int_list 16 sn = Some (py_len data))
  (Hf : Forall (fun c => ord c <> 44 /\ ord c <> 58) (sa ++ sn)) :
  let r := view w in let n := py_len data in
  let w' := put (with_bytes r a (take (fitting r a data) data)) w in
  command (lit "m" ++ sa ++ lit "," ++ sn) w =
    (Ok (Some (if in_bounds r a n then concat (map hex2 (bytes_at r a n)) else lit "E01")), w) /\
  command (lit "M" ++ sa ++ lit "," ++ sn ++ lit ":" ++ concat (map hex2 data)) w =
    (Ok (Some (if in_bounds r a n then lit "OK" else lit "E01")), w') /\
  (in_bounds r a n = true ->
   command (lit "m" ++ sa ++ lit "," ++ sn) w' = (Ok (Some (concat (map hex2 data))), w')).
Proof.
  intros r n w'. apply Forall_app in Hf as [Hfa Hfn].
  assert (forall s, Forall (fun c => ord c <> 44 /\ ord c <> 58) s -> field_ok 44 s /\ field_ok 58 s)
    as Hsplit by (intros s Hs; split; eapply Forall_impl; eauto; by intros ? []).
  apply Hsplit in Hfa as [Ha1 Ha2]. apply Hsplit in Hfn as [Hn1 Hn2].
  assert (0 < py_len data) by (destruct data; [done|unfold py_len; simpl; lia]).
  rewrite !dispatch_m, dispatch_M. unfold bind. split_and!.
  - by rewrite (read_memory_eq w sa sn a n).
  - by rewrite (write_memory_eq w sa sn a data).
  - intros Hin. pose proof (proj1 (in_bounds_fitting r a data Hne) Hin) as Hfit.
    apply in_bounds_spec in Hin as [H0 Hn]. pose proof (wf_len r Hr).
    assert (view w' = with_bytes r a data) as Ew.
    { subst w'. rewrite view_put, Hfit. by rewrite firstn_all. }
    rewrite (read_memory_eq w' sa sn a n); [|rewrite Ew; apply with_bytes_wf; auto; lia|done..].
    rewrite Ew. rewrite (proj2 (in_bounds_spec _ _ _)) by (split; simpl; lia).
    subst n. by rewrite with_bytes_same by lia.
Qed.
End Memory.

(** ** Execution *)

Section Break.
Context {W : Type} `{HC : Has cpu W} `{HR : Has ram W} `{HM : Has machine W} `{R : RamOps W}.
Context `{HG : Has stub W} `{HN : Has conn W}.
Context (handle_ecall : option (ST W unit)) (runner : periph -> ST W unit).

(** In continue mode a breakpoint at the pc stops the run before anything happens. *)
Lemma break_at_pc (w : W) (n : nat) : running (view w) = true -> single_step (view w) = false ->
  pc (view w) ∈ sw_breakpoints (view w) ->
  run_with_gdb handle_ecall runner (S n) w = (Exn (DebugBreak "Breakpoint" 5), w).
Proof.
  intros Hrun Hstep Hbp. unfold run_with_gdb, mget, bind at 1 2 3, sget, gets. rewrite Hstep.
  cbn [gdb_while]. unfold bind at 1, sget, gets. rewrite Hrun.
  unfold bind, gdb_round, cget, is_breakpoint, sget, gets, bind. by rewrite bool_decide_true.
Qed.

End Break.

Section Execution.
Context {W : Type} `{HC : Has cpu W} `{HR : Has ram W} `{HM : Has machine W}.
Context `{HG : Has stub W} `{HN : Has conn W}.
Context (handle_ecall : option (ST W unit)) (runner : periph -> ST W unit).
#[local] Existing Instance SafeRAM_ops.

(** One instruction as the emulator's own loop executes it. *)
Definition instruction (timer : bool) : ST W unit :=
  inst <- fetch_halves ;; execute handle_ecall inst ;;; tick timer ;;; advance.

Lemma half_of_word_low lo hi : Z.lor lo (Z.shiftl hi 16) mod 4 = lo mod 4.
Proof.
  rewrite <- !land_3, Z.land_lor_distr_l. change 3 with (Z.ones 2) at 2.
  rewrite Z.land_ones, Z.shiftl_mul_pow2 by lia.
  replace (hi * 2 ^ 16) with (hi * 2 ^ 14 * 2 ^ 2) by lia.
  by rewrite Z.mod_mul, Z.lor_0_r by lia.
Qed.

(** The instruction at the pc is one the processor has: compressed instructions are enabled,
    or it is a 32-bit one. *)
Definition length_known (w : W) : Prop :=
  rvc_enabled (view w) = true \/ mem_half (view w) (pc (view w)) mod 4 = 3.

Lemma gdb_instruction_eq on (w : W) : wf_ram (view w) -> length_known w ->
  gdb_instruction handle_ecall on w = instruction on w.
Proof.
  intros Hr Hrvc. unfold gdb_instruction, instruction, fetch_halves, bind, cget, gets.
  rewrite load_half_eq by done. destruct (in_bounds _ _ 2) eqn:E; [|done].
  rewrite land_3. destruct (_ =? 3) eqn:E3.
  - rewrite load_half_eq by done. destruct (in_bounds (view w) (pc (view w) + 2) 2); [|done].
    unfold execute, bind, gets, ret. rewrite land_3, half_of_word_low, E3. by destruct (rvc_enabled _).
  - destruct Hrvc as [Hrvc|H3]; [|by rewrite H3 in E3].
    unfold execute, bind, gets, ret. rewrite Hrvc. cbn [negb]. rewrite land_3, E3, land_ffff.
    rewrite Z.mod_small; [done|].
    pose proof (u16_half _ _ (mem_byte_u8 _ (pc (view w)) Hr) (mem_byte_u8 _ (pc (view w) + 1) Hr)).
    done.
Qed.

(** C38: debugging is transparent: with the checked memory and without the invariant
    checks, where there is no breakpoint at the pc, no poll of the client is due and the
    instruction is not a compressed one on a processor without them, a round of the
    debugger's loop does exactly what a round of the emulator's own checked loop does, with
    the same exceptions. *)
Theorem gdb_round_transparent (w : W) (cycle_count div : Z)
  (Hr : wf_ram (view w)) (Hrvc : length_known w)
  (Hcheck : check_inv (view w) = false)
  (Hbp : pc (view w) ∉ sw_breakpoints (view w))
  (Hpoll : Z.land (cycle_count + 1) 0xFFF <> 0) :
  gdb_round handle_ecall runner (timer (view w)) (mmio (view w)) (cycle_count, div) w =
    (div <- step_with_checks handle_ecall runner [] div ;; ret (cycle_count + 1, div)) w.
Proof.
  unfold gdb_round, step_with_checks, bind at 1 2, cget, is_breakpoint, sget, gets.
  rewrite bool_decide_false by done. rewrite (proj2 (Z.eqb_neq _ _) Hpoll).
  unfold bind at 1, ret at 1. unfold bind at 1. rewrite gdb_instruction_eq by done.
  unfold bind, mget, gets, log_regs, for_each, ret, id. rewrite Hcheck.
  unfold instruction, bind. destruct (fetch_halves w) as [[inst|e] w1]; [|done].
  destruct (execute handle_ecall inst w1) as [[[]|e] w2]; [|done].
  destruct (tick _ w2) as [[[]|e] w3]; [|done]. destruct (advance w3) as [[[]|e] w4]; [|done].
  destruct (mmio (view w)); [|done]. by destruct (poll runner div w4) as [[d|e] w5].
Qed.

(** A single step executes one instruction, runs the peripherals when there
    are any, and stops with SIGTRAP; an exception of the instruction comes first. *)
Theorem gdb_single_step (w : W) (n : nat)
  (Hr : wf_ram (view w)) (Hrvc : length_known w)
  (Hstep : single_step (view w) = true) :
  run_with_gdb handle_ecall runner n w =
    match (instruction (timer (view w)) ;;;
           if mmio (view w) then peripherals_run runner else ret tt) w with
    | (Ok _, w') => (Exn (DebugBreak "Single step complete" 5), w')
    | (Exn e, w') => (Exn e, w')
    end.
Proof.
  unfold run_with_gdb, mget, bind at 1 2 3, sget, gets. rewrite Hstep.
  unfold bind at 1. rewrite gdb_instruction_eq by done. unfold bind at 2.
  destruct (instruction _ w) as [[[]|e] w1]; [|done]. unfold bind.
  destruct (mmio (view w)); [|done]. by destruct (peripherals_run runner w1) as [[[]|e] w2].
Qed.
End Execution.

(** ** Sessions *)

(** The world of a debugging session: the emulator, the stub and the socket. *)
Definition dworld : Type := world * (stub * conn).

#[export] Instance dworld_part {A} `{Has A world} : Has A dworld.
Proof.
  refine {| view w := view (fst w); put a w := (put a (fst w), snd w) |}.
  - intros a [w x]. apply view_put.
  - intros [w x]. simpl. by rewrite put_view.
  - intros a b [w x]. simpl. by rewrite put_put.
Defined.

#[export] Instance dworld_stub : Has stub dworld.
Proof.
  refine {| view w := fst (snd w); put s w := (fst w, (s, snd (snd w))) |}; try done.
  by intros [? []].
Defined.

#[export] Instance dworld_conn : Has conn dworld.
Proof.
  refine {| view w := snd (snd w); put c w := (fst w, (fst (snd w), c)) |}; try done.
  by intros [? []].
Defined.

Lemma hex2_ascii b : u8 b -> forallb (fun c => ord c <? 128) (hex2 b) = true.
Proof.
  intros Hb. unfold uN in Hb. simpl. rewrite !(proj2 (Z.ltb_lt _ _)); [done|..];
    apply hex_digit_ascii; Z.div_mod_to_equations; lia.
Qed.

Section Session.
Context `{R : RamOps dworld} (handle_ecall : option (ST dworld unit)).
Context (runner : periph -> ST dworld unit).

(** The packet of a stop reply. *)
Definition stop_packet (signal : Z) : str := encode (lit "S" ++ hex2 signal).

Lemma stop_packet_ascii signal : u8 signal ->
  forallb (fun c => ord c <? 128) (stop_packet signal) = true.
Proof. revert signal. intros s Hs. unfold uN in Hs. revert s Hs. enumerate. Qed.

Lemma report_eq (w : world) (s : stub) (c : conn) signal : u8 signal ->
  report signal ((w, (s, c)) : dworld) =
    (Ok tt, (w, (set_last_signal signal s, mkConn (rx c) (rx_reset c) (tx c ++ stop_packet signal)))).
Proof.
  intros Hs. unfold report, stop_reply, sset, zoom, bind, modify, ret. cbn [view put fst snd].
  unfold send_packet, sendall. change (encode (lit "S" ++ hex2 signal)) with (stop_packet signal).
  by rewrite (stop_packet_ascii signal Hs).
Qed.

(** The signal a stop is reported with. *)
Definition stop_signal (e : exn) : Z :=
  match e with
  | DebugBreak _ signal => signal
  | ExecutionTerminated _ => SIGTRAP
  | _ => error_signal e
  end.

Lemma error_signal_u8 e : u8 (error_signal e).
Proof. unfold error_signal, SIGILL, SIGTRAP, SIGSEGV. repeat case_match; unfold uN; lia. Qed.

(** What a stop makes of the stub: only a DebugBreak ends the stepping mode. *)
Definition stopped (e : exn) (s : stub) : stub :=
  mkStub false (match e with DebugBreak _ _ => false | _ => single_step s end)
    (stop_signal e) (sw_breakpoints s).

(** Whatever error of the emulator ends a run, the stub is no longer running,
    remembers the signal, and the client receives exactly one stop reply with it;
    the command loop goes on. *)
Theorem gdb_stop_reported (w w' : world) (s s' : stub) (c c' : conn) (rounds : nat) (e : exn)
  (Hrun : run_with_gdb handle_ecall runner rounds (w, (s, c)) = (Exn e, (w', (s', c'))))
  (He : machine_error e) (Hsig : u8 (stop_signal e)) :
  gdb_run handle_ecall runner rounds (w, (s, c)) =
    (Ok Ready, (w', (stopped e s',
       mkConn (rx c') (rx_reset c') (tx c' ++ stop_packet (stop_signal e))))).
Proof.
  unfold gdb_run, bind at 1, catch, bind at 1. rewrite Hrun.
  destruct e; try discriminate He; unfold on_stop, stopped, stop_signal in *;
    cbn [is_machine_error]; unfold bind, sset, zoom, modify;
    cbn [view put fst snd dworld_stub]; by rewrite report_eq.
Qed.

(** A client that continues a program whose pc is on a breakpoint gets the stop
    reply S05 at once, and the emulator is exactly as it was. *)
Theorem gdb_session_breakpoint (exn_text : exn -> str -> str) (w : world) (s : stub) (c c' : conn)
  (n : nat) (Hrecv : recv_packet c = (Ok (Some (lit "c")), c'))
  (Hbp : pc (w_cpu w) ∈ sw_breakpoints s) :
  gdb_command handle_ecall runner exn_text (S n) (w, (s, c)) =
    (Ok Ready, (w, (mkStub false false SIGTRAP (sw_breakpoints s),
       mkConn (rx c') (rx_reset c') (tx c' ++ stop_packet SIGTRAP)))).
Proof.
  unfold gdb_command, bind at 1, zoom. cbn [view put fst snd dworld_conn]. rewrite Hrecv.
  change (str_eqb (lit "c") (lit "interrupt")) with false. cbn iota.
  unfold bind at 1. change (handle_command exn_text (lit "c")) with (resume (W := dworld) false None).
  unfold resume, sset, zoom, modify, bind at 1 2, ret.
  cbn [view put fst snd dworld_conn dworld_stub set_running set_single_step].
  unfold bind at 1, sget, gets. cbn [view put fst snd dworld_stub running].
  change (running (set_single_step false (set_running true s))) with true. cbn iota.
  unfold gdb_run, bind, catch. rewrite break_at_pc by done.
  unfold on_stop, bind, sset, zoom, modify. cbn [view put fst snd dworld_stub].
  by rewrite report_eq.
Qed.
End Session.

(** ** Breakpoint commands *)

Section Breakpoints.
Context {W : Type} `{HC : Has cpu W} `{HR : Has ram W} `{R : RamOps W} `{HG : Has stub W}.
Context (exn_text : exn -> str -> str).
Abbreviation command := (handle_command exn_text).

Lemma break_addr_eq (w : W) sa rest a : py_int_list 16 sa = Some a -> field_ok 44 sa ->
  break_addr (sa ++ lit "," ++ rest) w = (Ok a, w).
Proof.
  intros Ha Hf. unfold break_addr. change (lit "," ++ rest) with (chr 44 :: rest).
  rewrite split_list_field by done. unfold int16. simpl. by rewrite Ha.
Qed.

(** Inserting a breakpoint ('Z0') adds exactly its address to the set, and
    removing it ('z0') takes exactly that address out again. *)
Theorem gdb_breakpoint_set (w : W) (sa rest : str) (a : Z)
  (Ha : py_int_list 16 sa = Some a) (Hf : field_ok 44 sa) :
  exists w1 w2,
    command (lit "Z0," ++ sa ++ lit "," ++ rest) w = (Ok (Some (lit "OK")), w1) /\
    (forall x, x ∈ sw_breakpoints (view w1) <-> x = a \/ x ∈ sw_breakpoints (view w)) /\
    command (lit "z0," ++ sa ++ lit "," ++ rest) w1 = (Ok (Some (lit "OK")), w2) /\
    (forall x, x ∈ sw_breakpoints (view w2) <-> x <> a /\ x ∈ sw_breakpoints (view w)) /\
    running (view w2) = running (view w) /\ single_step (view w2) = single_step (view w).
Proof.
  rewrite dispatch_Z0, dispatch_z0.
  unfold cmd_insert_breakpoint, cmd_remove_breakpoint, or_E01, catch, bind.
  rewrite (break_addr_eq w sa rest a Ha Hf). unfold sset, zoom, modify, ret. do 2 eexists.
  split_and!; [done| |by rewrite (break_addr_eq _ sa rest a Ha Hf)|..]; rewrite ?view_put; cbn; [set_solver..|done|done].
Qed.
End Breakpoints.
