(* ===== verification/MemClass.v ===== *)
(** * The class of the RAM object

    Python dispatches a method call on the class of the object.  riscv-emu.py and
    the web application choose one of four memory classes when they start, so the
    class is a value: [class_ops] is the memory interface of a class, and
    [by_class] the interface of a world that holds the RAM object together with
    its class. *)

From Stdlib Require Import ZArith Lia Bool.
From stdpp Require Import base numbers list option.
From S2P Require Import Prelude PyStr Ram.

Local Open Scope Z_scope.

Inductive ram_class := Class_RAM | Class_SafeRAM | Class_RAM_MMIO | Class_SafeRAM_MMIO.

#[export] Instance ram_class_eq_dec : EqDecision ram_class.
Proof. solve_decision. Defined.

Section Dispatch.
Context {W : Type} `{HR : Has ram W}.
Context (read32 : periph -> Z -> ST W Z) (write32 : RamOps W -> periph -> Z -> Z -> ST W unit).

(** The methods of a class; a peripheral that transfers blocks uses the binary
    transfers of the class, which bypass the ranges. *)
Definition class_ops (k : ram_class) : RamOps W :=
  match k with
  | Class_RAM => RAM_ops
  | Class_SafeRAM => SafeRAM_ops
  | Class_RAM_MMIO => RAM_MMIO_ops read32 (write32 RAM_ops)
  | Class_SafeRAM_MMIO => SafeRAM_MMIO_ops read32 (write32 SafeRAM_ops)
  end.

Context (class_of : W -> ram_class).

Definition by_class : RamOps W := {|
  load_byte a s w := load_byte (RamOps := class_ops (class_of w)) a s w;
  load_half a s w := load_half (RamOps := class_ops (class_of w)) a s w;
  load_word a w := load_word (RamOps := class_ops (class_of w)) a w;
  store_byte a v w := store_byte (RamOps := class_ops (class_of w)) a v w;
  store_half a v w := store_half (RamOps := class_ops (class_of w)) a v w;
  store_word a v w := store_word (RamOps := class_ops (class_of w)) a v w;
  load_binary a n w := load_binary (RamOps := class_ops (class_of w)) a n w;
  store_binary a b w := store_binary (RamOps := class_ops (class_of w)) a b w;
  load_cstring a n w := load_cstring (RamOps := class_ops (class_of w)) a n w
|}.
End Dispatch.

(** ** Binary transfers of every class *)

(** A class that checks the addresses. *)
Definition checked_class (k : ram_class) : bool :=
  match k with Class_SafeRAM | Class_SafeRAM_MMIO => true | Class_RAM | Class_RAM_MMIO => false end.

(** Where [n] bytes can be stored from [a] on: inside the memory for the classes with checks;
    for the others the four bytes behind the memory belong to it. *)
Definition stores_at (k : ram_class) (r : ram) (a n : Z) : bool :=
  if checked_class k then in_bounds r a n else (n =? 0) || (a + n <=? size r + 4).

Lemma slice_out {A} (l b : list A) a : 0 <= a -> py_len b <> 0 -> py_len l < a + py_len b ->
  py_slice_set l a (a + py_len b) b = None.
Proof.
  intros Ha Hb Hl. unfold py_slice_set. rewrite (proj2 (Z.eqb_neq _ _)); [done|].
  pose proof (Nat2Z.is_nonneg (length b)). pose proof (Nat2Z.is_nonneg (length l)).
  unfold py_clamp, py_len in *. repeat case_match; lia.
Qed.

Lemma slice_from {A} (l : list A) a n : 0 <= a -> 0 <= n ->
  py_slice l a (a + n) = take (Z.to_nat n) (drop (Z.to_nat a) l).
Proof.
  intros Ha Hn. destruct (Z.le_gt_cases (a + n) (py_len l)); [by apply py_slice_in|].
  pose proof (Nat2Z.is_nonneg (length l)). unfold py_slice, py_clamp, py_len in *.
  rewrite !(proj2 (Z.ltb_ge _ _)) by lia.
  rewrite (take_ge (drop (Z.to_nat a) l)) by (rewrite length_drop; lia).
  rewrite take_ge by (rewrite length_drop; lia).
  destruct (Z.le_gt_cases a (Z.of_nat (length l))); [by rewrite Z.min_l by lia|].
  by rewrite !drop_ge by lia.
Qed.

Lemma RAM_store_binary_eq r a b : wf_ram r -> 0 <= a ->
  RAM_store_binary a b r =
    if (py_len b =? 0) || (a + py_len b <=? size r + 4) then (Ok tt, with_bytes r a b)
    else (Exn (out_of_bounds a), r).
Proof.
  intros Hr Ha. pose proof (wf_len r Hr) as Hl. unfold RAM_store_binary, catch, body_store_binary.
  destruct (Z.leb_spec (a + py_len b) (size r + 4)).
  - rewrite orb_true_r. by rewrite py_slice_set_in by lia.
  - destruct (Z.eqb_spec (py_len b) 0) as [E|E]; [|by rewrite slice_out by lia].
    destruct b as [|x b]; [|unfold py_len in E; simpl in E; lia]. simpl.
    unfold py_slice_set, with_bytes. change (py_len []) with 0. rewrite Z.add_0_r, Z.max_id, Z.sub_diag.
    cbn [Z.eqb app]. rewrite take_drop. by rewrite take_drop.
Qed.

Section Transfers.
Context {W : Type} `{HR : Has ram W}.
Context (read32 : periph -> Z -> ST W Z) (write32 : RamOps W -> periph -> Z -> Z -> ST W unit).

Lemma class_store_binary k a b (w : W) : wf_ram (view w) -> 0 <= a ->
  store_binary (RamOps := class_ops read32 write32 k) a b w =
    if stores_at k (view w) a (py_len b) then (Ok tt, put (with_bytes (view w) a b) w)
    else (Exn (out_of_bounds a), w).
Proof.
  intros Hr Ha. unfold stores_at.
  destruct k; cbn [class_ops store_binary RAM_ops SafeRAM_ops RAM_MMIO_ops SafeRAM_MMIO_ops checked_class];
    unfold zoom; rewrite ?SafeRAM_store_binary_eq, ?RAM_store_binary_eq by done;
    destruct (_ : bool); by rewrite ?put_view.
Qed.

(** A load of bytes outside the memory raises with the classes that check; the others give
    the bytes there are. *)
Lemma class_load_binary k a n (w : W) : wf_ram (view w) -> 0 <= a -> 0 <= n ->
  load_binary (RamOps := class_ops read32 write32 k) a n w =
    if checked_class k && negb (in_bounds (view w) a n) then (Exn (out_of_bounds a), w)
    else (Ok (bytes_at (view w) a n), w).
Proof.
  intros Hr Ha Hn.
  assert (py_slice (memory (view w)) a (a + n) = bytes_at (view w) a n) as Hs.
  { unfold bytes_at. by apply slice_from. }
  destruct k; cbn [class_ops load_binary RAM_ops SafeRAM_ops RAM_MMIO_ops SafeRAM_MMIO_ops checked_class andb];
    unfold zoom; rewrite ?SafeRAM_load_binary_eq by done;
    unfold RAM_load_binary, body_load_binary, gets; rewrite ?Hs;
    try destruct (in_bounds _ _ _); by rewrite ?put_view.
Qed.
End Transfers.
