(* ===== verification/MmioSafe.v ===== *)
(** * The memory with peripherals keeps its promise to the processor

    The four memory classes the command line can choose, in a world whose registered
    ranges are the UART and the block device, keep the whole world well typed: the
    registers of the devices are 32-bit values, the bytes of the UART and of the disk
    are bytes, and nothing but the errors of the emulator and the OSError of a failing
    host call is raised.  So every loop of the machine is safe with these devices.  The
    memory-mapped timer is apart: mtime is not bounded, so that its upper half is a 32-bit
    value only below 2^64. *)

From Stdlib Require Import ZArith Lia Bool String.
From stdpp Require Import base numbers list option gmap strings.
From S2P Require Import Prelude PyStr Isa Ram Cpu Rvc CpuSem Exec ExecSem ExecSafe RamSafe Core.
From S2P Require Import Trap Machine Peripherals World MachineThms MemClass.

Local Open Scope Z_scope.
Local Open Scope py_scope.

(** ** Types of the devices *)

(** The exceptions [E] that an access may raise include those of the emulator. *)
Class Allows (E : exn -> Prop) : Prop := allows : forall e, machine_error e -> E e.

#[export] Instance allows_machine_error : Allows machine_error.
Proof. by intros e. Qed.

(** Those of the emulator and the OSError of a host call. *)
Definition device_error (e : exn) : Prop := machine_error e \/ e = OSError.

#[export] Instance allows_device_error : Allows device_error.
Proof. by left. Qed.

(** What the pseudo-terminal and the image file will do: the terminal delivers bytes, and
    they fail only where the OSError is one of [E]. *)
Definition event_ok (E : exn -> Prop) (ev : option rx_event) : Prop :=
  match ev with
  | Some (RxData data) => Forall u8 data
  | Some RxOSError => E OSError
  | _ => True
  end.

Definition tx_ok (E : exn -> Prop) (ev : tx_event) : Prop :=
  match ev with TxOSError => E OSError | _ => True end.

Definition io_ok (E : exn -> Prop) (ev : disk_event) : Prop :=
  match ev with DiskFailed _ => E OSError | DiskDone => True end.

Record uart_typed (E : exn -> Prop) (u : uart) : Prop := {
  uart_rx : Forall u8 (rx_buf u);
  uart_events : Forall (event_ok E) (pty_events u);
  uart_accepts : Forall (tx_ok E) (pty_accepts u)
}.

Record blk_typed (E : exn -> Prop) (d : blkdev) : Prop := {
  blk_cmd : u32 (cmd d);
  blk_blk : u32 (blk d);
  blk_ptr : u32 (ptr d);
  blk_status : u32 (status d);
  blk_image : Forall u8 (image d);
  blk_size : 0 <= block_size d;
  blk_events : Forall (io_ok E) (disk_events d)
}.

(** A world whose processor satisfies [Ic], whose machine object satisfies [Im] and whose
    ranges belong to peripherals of [dev]. *)
Record devices_inv (E : exn -> Prop) (Ic : cpu -> Prop) (Im : machine -> Prop) (dev : periph -> Prop)
    (w : world) : Prop := {
  mi_cpu : Ic (w_cpu w);
  mi_ram : wf_ram (w_ram w);
  mi_machine : Im (w_machine w);
  mi_uart : uart_typed E (w_uart w);
  mi_blk : blk_typed E (w_blk w);
  mi_ranges : Forall (fun x => dev (snd x)) (mmio_ranges (w_ram w))
}.
Arguments mi_cpu {E Ic Im dev} w _.
Arguments mi_ram {E Ic Im dev} w _.
Arguments mi_machine {E Ic Im dev} w _.
Arguments mi_uart {E Ic Im dev} w _.
Arguments mi_blk {E Ic Im dev} w _.
Arguments mi_ranges {E Ic Im dev} w _.

(** A well-formed processor, with the UART and the block device. *)
Definition not_timer (p : periph) : Prop := p <> MMIOTimer.
Definition started (m : machine) : Prop := start_checks m <> None.
Abbreviation mmio_inv E := (devices_inv E wf_cpu started not_timer).

(** A method that raises errors of the emulator only. *)
Lemma keeps_allows {S A} (E : exn -> Prop) `{HE : !Allows E} (I : S -> Prop) (m : ST S A) Q :
  keeps machine_error I m Q -> keeps E I m Q.
Proof.
  intros Hm. eapply triple_conseq; [exact Hm|done|done|]. intros e s [Hs He].
  split; [done|by apply HE].
Qed.

Section Devices.
Context {E : exn -> Prop} `{HE : !Allows E}.
Context {Ic : cpu -> Prop} {Im : machine -> Prop} {dev : periph -> Prop}.

Abbreviation mmio_safe m Q := (keeps E (devices_inv E Ic Im dev) m Q).

(** ** Memory accesses *)

(** A method of the RAM keeps the memory well formed and does not touch the ranges and the
    size. *)
Definition layout (r : ram) : list (Z * Z * periph) * Z := (mmio_ranges r, size r).

Definition ranges_kept {A} (m : ST ram A) : Prop := forall r, layout (snd (m r)) = layout r.

Lemma zoom_ram_mmio {A} (m : ST ram A) Q : ram_safe m Q -> ranges_kept m -> mmio_safe (zoom m) Q.
Proof.
  intros Hm Hk w Hw. unfold zoom. specialize (Hm (view w) (mi_ram w Hw)).
  specialize (Hk (view w)). apply (f_equal fst) in Hk.
  destruct (m (view w)) as [[a|e] r]; destruct Hm as [Hr HQ];
    simpl in Hk; (split; [|try done; by apply HE]); destruct Hw; split; simpl; try done; by rewrite Hk.
Qed.
End Devices.

Lemma ranges_bind {A B} (m : ST ram A) (f : A -> ST ram B) :
  ranges_kept m -> (forall a, ranges_kept (f a)) -> ranges_kept (bind m f).
Proof.
  intros Hm Hf r. unfold bind. specialize (Hm r). destruct (m r) as [[a|e] r1]; simpl in *; [|done].
  by rewrite (Hf a r1).
Qed.

Lemma ranges_catch {A} (m : ST ram A) h :
  ranges_kept m -> (forall e, ranges_kept (h e)) -> ranges_kept (catch m h).
Proof.
  intros Hm Hh r. unfold catch. specialize (Hm r). destruct (m r) as [[a|e] r1]; simpl in *; [done|].
  by rewrite (Hh e r1).
Qed.

Create HintDb ranges.

Lemma ranges_ret {A} (a : A) : ranges_kept (ret a).
Proof. done. Qed.
Lemma ranges_raise {A} e : ranges_kept (raise (A := A) e).
Proof. done. Qed.
Lemma ranges_if {A} (b : bool) (m1 m2 : ST ram A) :
  ranges_kept m1 -> ranges_kept m2 -> ranges_kept (if b then m1 else m2).
Proof. by destruct b. Qed.
Lemma ranges_mem_get i : ranges_kept (mem_get i).
Proof. intros r. unfold mem_get. by destruct (py_get _ _). Qed.
Lemma ranges_mem_set i v : ranges_kept (mem_set i v).
Proof. intros r. unfold mem_set. by destruct (py_set _ _ _). Qed.
Lemma ranges_check a n : ranges_kept (SafeRAM_check a n).
Proof. intros r. unfold SafeRAM_check. by destruct (_ || _). Qed.

#[export] Hint Resolve ranges_bind ranges_ret ranges_raise ranges_if ranges_mem_get ranges_mem_set
  ranges_check : ranges.

Lemma ranges_mem32_get i : ranges_kept (mem32_get i).
Proof.
  intros r. unfold mem32_get. destruct (py_index _ _) as [k|]; [|done].
  match goal with |- layout (snd (?m r)) = _ => apply (id (A := ranges_kept m)) end.
  auto 10 with ranges.
Qed.

Lemma ranges_mem32_set i v : ranges_kept (mem32_set i v).
Proof.
  intros r. unfold mem32_set. destruct (py_index _ _) as [k|]; [|done].
  match goal with |- layout (snd (?m r)) = _ => apply (id (A := ranges_kept m)) end.
  auto 10 with ranges.
Qed.

#[export] Hint Resolve ranges_mem32_get ranges_mem32_set : ranges.

Lemma ranges_on_index {A} a (m : ST ram A) : ranges_kept m -> ranges_kept (on_index_error a m).
Proof. intros Hm. apply ranges_catch; [done|]. intros []; apply ranges_raise. Qed.

Lemma ranges_load_byte a s : ranges_kept (body_load_byte a s).
Proof. unfold body_load_byte. auto with ranges. Qed.
Lemma ranges_load_half a s : ranges_kept (body_load_half a s).
Proof. unfold body_load_half. auto with ranges. Qed.
Lemma ranges_load_word a : ranges_kept (body_load_word a).
Proof. unfold body_load_word. auto 10 with ranges. Qed.
Lemma ranges_store_byte a v : ranges_kept (body_store_byte a v).
Proof. unfold body_store_byte. auto with ranges. Qed.
Lemma ranges_store_half a v : ranges_kept (body_store_half a v).
Proof. unfold body_store_half. auto with ranges. Qed.
Lemma ranges_store_word a v : ranges_kept (body_store_word a v).
Proof. unfold body_store_word. auto 10 with ranges. Qed.
Lemma ranges_cstring a n : ranges_kept (body_load_cstring a n).
Proof. intros r. unfold body_load_cstring. by destruct (py_find _ _). Qed.
Lemma ranges_safe_cstring a n : ranges_kept (SafeRAM_load_cstring a n).
Proof. intros r. unfold SafeRAM_load_cstring. destruct (_ || _); [done|apply ranges_cstring]. Qed.

#[export] Hint Resolve ranges_on_index ranges_load_byte ranges_load_half ranges_load_word
  ranges_store_byte ranges_store_half ranges_store_word ranges_cstring ranges_safe_cstring : ranges.

(** ** The plain classes *)

(** A memory method that is safe beside a processor is safe on its own. *)
Lemma ram_of_node {A} (m : ST ram A) Q :
  keeps machine_error (node_inv wf_cpu) (zoom m) Q -> ram_safe m Q.
Proof.
  intros Hm r Hr. specialize (Hm (new_cpu true, r) (conj (proj1 (new_cpu_ready true)) Hr)).
  unfold zoom in Hm. simpl in Hm. destruct (m r) as [[a|e] r']; destruct Hm as [[? ?] ?]; auto.
Qed.

Section Plain.
Context {E : exn -> Prop} `{HE : !Allows E}.
Context {Ic : cpu -> Prop} {Im : machine -> Prop} {dev : periph -> Prop}.

Abbreviation mmio_safe m Q := (keeps E (devices_inv E Ic Im dev) m Q).

#[export] Instance mmio_RAM_safe : @RamSafe world _ RAM_ops E Ic (devices_inv E Ic Im dev).
Proof.
  pose proof (RAM_RamSafe wf_cpu) as H.
  split; [by intros ? []|intros ? ? [] ?; by split|..]; intros; (apply zoom_ram_mmio;
    [apply ram_of_node; apply H|unfold RAM_load_byte, RAM_load_half, RAM_load_word, RAM_store_byte,
      RAM_store_half, RAM_store_word, RAM_load_cstring; auto with ranges]).
Qed.

#[export] Instance mmio_SafeRAM_safe : @RamSafe world _ SafeRAM_ops E Ic (devices_inv E Ic Im dev).
Proof.
  pose proof (SafeRAM_RamSafe wf_cpu) as H.
  split; [by intros ? []|intros ? ? [] ?; by split|..]; intros; (apply zoom_ram_mmio;
    [apply ram_of_node; apply H|unfold SafeRAM_load_byte, SafeRAM_load_half, SafeRAM_load_word,
      SafeRAM_store_byte, SafeRAM_store_half, SafeRAM_store_word; auto with ranges]).
Qed.

(** Binary transfers of bytes. *)
Lemma store_bytes a b r r' : wf_ram r -> Forall u8 b -> body_store_binary a b r = r' ->
  match r' with
  | (Ok _, r1) => wf_ram r1 /\ mmio_ranges r1 = mmio_ranges r
  | (Exn e, r1) => r1 = r /\ e = BufferError
  end.
Proof.
  intros [Hb Hs Hl Ha] Hu <-. unfold body_store_binary.
  destruct (py_slice_set _ _ _ _) as [m|] eqn:Es; [|done]. split; [|done].
  split; simpl; [exact (py_slice_set_Forall _ _ _ _ _ _ Hb Hu Es)|done| |done].
  by rewrite (py_slice_set_len _ _ _ _ _ Es).
Qed.

Lemma RAM_store_binary_safe a b : Forall u8 b ->
  mmio_safe (store_binary (RamOps := RAM_ops) a b) (fun _ => True).
Proof.
  intros Hu. apply zoom_ram_mmio; unfold RAM_store_binary, catch.
  - intros r Hr. pose proof (store_bytes a b r _ Hr Hu eq_refl) as H.
    destruct (body_store_binary a b r) as [[[]|e] r1]; [by destruct H|]. destruct H as [-> ->]. done.
  - intros r. unfold body_store_binary. by destruct (py_slice_set _ _ _ _).
Qed.

Lemma SafeRAM_store_binary_safe a b : Forall u8 b ->
  mmio_safe (store_binary (RamOps := SafeRAM_ops) a b) (fun _ => True).
Proof.
  intros Hu. apply zoom_ram_mmio.
  - intros r Hr. rewrite SafeRAM_store_binary_eq by done.
    destruct (in_bounds _ _ _) eqn:Es; [|done]. split; [|done].
    apply in_bounds_spec in Es. pose proof (wf_len r Hr).
    pose proof (store_bytes a b r _ Hr Hu eq_refl) as H1. unfold body_store_binary in H1.
    rewrite py_slice_set_in in H1 by lia. apply H1.
  - intros r. unfold SafeRAM_store_binary, bind. pose proof (ranges_check a (py_len b) r) as H.
    destruct (SafeRAM_check _ _ r) as [[[]|e] r1]; simpl in *; [|done].
    unfold body_store_binary. by destruct (py_slice_set _ _ _ _).
Qed.

Lemma load_bytes a n r : wf_ram r -> Forall u8 (py_slice (memory r) a (a + n)).
Proof. intros Hr. apply py_slice_Forall, Hr. Qed.

Lemma RAM_load_binary_safe a n : mmio_safe (load_binary (RamOps := RAM_ops) a n) (Forall u8).
Proof.
  apply zoom_ram_mmio; [|done]. intros r Hr. split; [done|]. by apply load_bytes.
Qed.

Lemma SafeRAM_load_binary_safe a n : mmio_safe (load_binary (RamOps := SafeRAM_ops) a n) (Forall u8).
Proof.
  apply zoom_ram_mmio.
  - intros r Hr. unfold SafeRAM_load_binary, bind, SafeRAM_check. destruct (_ || _); [done|].
    split; [done|]. by apply load_bytes.
  - intros r. unfold SafeRAM_load_binary, bind. pose proof (ranges_check a n r).
    by destruct (SafeRAM_check _ _ r) as [[[]|e] r1].
Qed.

(** ** The devices *)

Lemma uart_lift {A} (m : ST uart A) Q :
  keeps E (uart_typed E) m Q -> mmio_safe (zoom m) Q.
Proof.
  intros Hm. eapply keeps_zoom; [exact Hm|by intros ? []|]. by intros ? ? []; split.
Qed.

Lemma uart_run_safe : keeps E (uart_typed E) PtyUART_run (fun _ => True).
Proof.
  intros u [Hr He Ha]. unfold PtyUART_run. destruct (pty_events u) as [|x ev] eqn:Eu.
  { split; [|done]. split; [done| |done]. by rewrite Eu. }
  apply Forall_cons in He as [H1 H2]. destruct x as [[data| |]|]; simpl in H1; try done;
    (split; [|done]); split; simpl; try done. by apply Forall_app_2.
Qed.

Lemma uart_read_safe addr : keeps E (uart_typed E) (PtyUART_read32 addr) u32.
Proof.
  unfold PtyUART_read32. eapply keeps_bind; [apply keeps_any|]. intros base _.
  repeat (apply keeps_if; intros _); [|by apply keeps_ret|by apply keeps_raise, allows].
  eapply keeps_bind; [apply uart_run_safe|]. intros _ _ u Hu.
  pose proof Hu as [Hr He Ha].
  destruct (rx_buf u) as [|b l]; [by split|]. apply Forall_cons in Hr as [Hb Hl].
  split; [by split|]. unfold uN in *. lia.
Qed.

Lemma uart_write_safe addr v : keeps E (uart_typed E) (PtyUART_write32 addr v) (fun _ => True).
Proof.
  unfold PtyUART_write32. eapply keeps_bind; [apply keeps_any|]. intros base _.
  apply keeps_if; intros _; [|by apply keeps_raise, allows]. intros u [Hr He Ha].
  destruct (pty_accepts u) as [|[] l]; try apply Forall_cons in Ha as [H1 H2]; simpl;
    (split; [by split|done]).
Qed.

Lemma blk_update (f : blkdev -> blkdev) : (forall d, blk_typed E d -> blk_typed E (f d)) ->
  mmio_safe (bset f) (fun _ => True).
Proof.
  intros Hf. eapply (keeps_zoom (A := blkdev) _ (blk_typed E)); [by apply keeps_modify|by intros ? []|].
  intros ? ? [] ?; by split.
Qed.

Lemma blk_read_safe addr : mmio_safe (MMIOBlockDevice_read32 addr) u32.
Proof.
  intros w Hw. pose proof (mi_blk w Hw) as []. unfold MMIOBlockDevice_read32, bget, bind, gets.
  repeat (destruct (_ =? _); [by split|]). split; [done|by apply allows].
Qed.

Section BlockDevice.
Context (Rb : RamOps world).
Hypothesis Hload : forall a n, mmio_safe (load_binary (RamOps := Rb) a n) (Forall u8).
Hypothesis Hstore : forall a b, Forall u8 b ->
  mmio_safe (store_binary (RamOps := Rb) a b) (fun _ => True).

Lemma file_write_bytes img off data : Forall u8 img -> Forall u8 data -> Forall u8 (file_write img off data).
Proof.
  intros Hi Hd. unfold file_write. repeat apply Forall_app_2; auto using Forall_drop.
  apply Forall_take, Forall_app_2; [done|]. by apply Forall_replicate.
Qed.

Lemma status_safe : mmio_safe (bset (set_status 1)) (fun _ => True).
Proof. apply blk_update. intros d []. by split. Qed.

Lemma disk_next_typed d : blk_typed E d ->
  blk_typed E (snd (disk_next d)) /\ io_ok E (fst (disk_next d)).
Proof.
  intros [? ? ? ? ? ? Hev]. unfold disk_next. destruct (disk_events d) as [|ev l] eqn:Ee; simpl.
  - split; [|done]. split; try done. by rewrite Ee.
  - apply Forall_cons in Hev as [H1 H2]. split; [|done]. by split.
Qed.

Lemma blk_lift {A} (m : ST blkdev A) Q : keeps E (blk_typed E) m Q -> mmio_safe (zoom m) Q.
Proof. intros Hm. eapply keeps_zoom; [exact Hm|by intros ? []|]. by intros ? ? []; split. Qed.

Lemma disk_read_safe off n : keeps E (blk_typed E) (disk_read off n) (Forall u8).
Proof.
  intros d Hd. destruct (disk_next_typed d Hd) as [H1 H2]. unfold disk_read.
  destruct (disk_next d) as [[] d']; (split; [done|]); [|done].
  unfold file_read. apply Forall_take, Forall_drop, Hd.
Qed.

Lemma disk_write_safe off data : Forall u8 data ->
  keeps E (blk_typed E) (disk_write off data) (fun _ => True).
Proof.
  intros Hu d Hd. destruct (disk_next_typed d Hd) as [H1 H2]. unfold disk_write.
  destruct (disk_next d) as [[|n] d']; simpl in H1, H2; (split; [|done]); destruct H1;
    split; simpl; try done; apply file_write_bytes; try apply Hd; auto using Forall_take.
Qed.

Lemma execute_cmd_safe : mmio_safe (execute_cmd (R := Rb)) (fun _ => True).
Proof.
  unfold execute_cmd. eapply (keeps_bind _ _ _ _ (blk_typed E)).
  { apply keeps_gets. by intros ? []. }
  intros d Hd. apply keeps_if; intros _; [apply status_safe|].
  eapply (keeps_bind _ _ _ _ (fun _ => True)); [|intros; apply status_safe].
  apply keeps_if; intros _; [|apply keeps_if; intros _; [|by apply keeps_ret]].
  - eapply keeps_bind; [apply blk_lift, disk_read_safe|]. intros data Hu. by apply Hstore.
  - eapply keeps_bind; [apply Hload|]. intros data Hu. by apply blk_lift, disk_write_safe.
Qed.

Lemma blk_write_safe addr v : u32 v -> mmio_safe (MMIOBlockDevice_write32 (R := Rb) addr v) (fun _ => True).
Proof.
  intros Hv. unfold MMIOBlockDevice_write32. eapply keeps_bind; [apply keeps_any|]. intros base _.
  repeat (apply keeps_if; intros _); try (by apply keeps_raise, allows); try (by apply keeps_ret);
    first [apply execute_cmd_safe|apply blk_update; intros d []; by split].
Qed.

End BlockDevice.

(** ** The classes with ranges *)

Lemma mmio_find_ok addr l p :
  Forall (fun x : Z * Z * periph => dev (snd x)) l -> mmio_find addr l = Some p -> dev p.
Proof.
  induction l as [|[[b e] q] l IH]; simpl; [done|]. intros [H1 H2]%Forall_cons.
  destruct (_ && _); [by intros [= <-]|by apply IH].
Qed.

(** An access that is routed to a device or to the memory. *)
Lemma routed_safe {A} addr (access : periph -> ST world A) (mem : ST world A) Q :
  (forall p, dev p -> mmio_safe (access p) Q) -> mmio_safe mem Q ->
  mmio_safe (fun w => match mmio_find addr (mmio_ranges (view w)) with
                      | Some p => access p w | None => mem w end) Q.
Proof.
  intros Hd Hm w Hw. destruct (mmio_find _ _) as [p|] eqn:Es; [|by apply Hm].
  apply Hd; [|done]. eapply mmio_find_ok; [apply (mi_ranges w Hw)|exact Es].
Qed.
End Plain.

Section Ranges.
Context {E : exn -> Prop} `{HE : !Allows E}.

Abbreviation mmio_safe m Q := (keeps E (mmio_inv E) m Q).

Lemma read32_safe p addr : not_timer p -> mmio_safe (world_read32 p addr) u32.
Proof. destruct p; [intros _|intros _|done]; [apply uart_lift, uart_read_safe|apply blk_read_safe]. Qed.

Lemma write32_safe (Rb : RamOps world) p addr v :
  (forall a n, mmio_safe (load_binary (RamOps := Rb) a n) (Forall u8)) ->
  (forall a b, Forall u8 b -> mmio_safe (store_binary (RamOps := Rb) a b) (fun _ => True)) ->
  not_timer p -> u32 v -> mmio_safe (world_write32 Rb p addr v) (fun _ => True).
Proof.
  intros Hl Hs. destruct p; [intros _|intros _|done]; intros Hv;
    [apply uart_lift, uart_write_safe|by apply blk_write_safe].
Qed.

#[export] Instance mmio_RAM_MMIO_safe :
  @RamSafe world _ (RAM_MMIO_ops world_read32 (world_write32 RAM_ops)) E wf_cpu (mmio_inv E).
Proof.
  pose proof (mmio_RAM_safe (E := E) (Ic := wf_cpu) (Im := started) (dev := not_timer)) as H. split; intros; try apply H; try done;
    try (by apply (safe_view (R := RAM_ops))); try (by apply (safe_put (R := RAM_ops))).
  - apply (routed_safe a (fun p => world_read32 p a)); [intros; by apply read32_safe|].
    apply (safe_load_word (R := RAM_ops)).
  - apply (routed_safe a (fun p => world_write32 RAM_ops p a (Z.land v 0xFFFFFFFF))).
    + intros p Hp. apply write32_safe; auto using RAM_load_binary_safe, RAM_store_binary_safe.
      rewrite land_ffffffff. by apply Z.mod_pos_bound.
    + apply (safe_store_word (R := RAM_ops)).
Qed.

#[export] Instance mmio_SafeRAM_MMIO_safe :
  @RamSafe world _ (SafeRAM_MMIO_ops world_read32 (world_write32 SafeRAM_ops)) E wf_cpu (mmio_inv E).
Proof.
  pose proof (mmio_SafeRAM_safe (E := E) (Ic := wf_cpu) (Im := started) (dev := not_timer)) as H. split; intros; try apply H; try done;
    try (by apply (safe_view (R := SafeRAM_ops))); try (by apply (safe_put (R := SafeRAM_ops))).
  - apply (routed_safe a (fun p => world_read32 p a)); [intros; by apply read32_safe|].
    apply (safe_load_word (R := SafeRAM_ops)).
  - apply (routed_safe a (fun p => world_write32 SafeRAM_ops p a (Z.land v 0xFFFFFFFF))).
    + intros p Hp. apply write32_safe; auto using SafeRAM_load_binary_safe, SafeRAM_store_binary_safe.
      rewrite land_ffffffff. by apply Z.mod_pos_bound.
    + apply (safe_store_word (R := SafeRAM_ops)).
Qed.

Lemma class_ops_safe (k : ram_class) :
  @RamSafe world _ (class_ops world_read32 world_write32 k) E wf_cpu (mmio_inv E).
Proof. destruct k; apply _. Qed.
End Ranges.

(** C20: the memory interface is well typed, whichever of the four classes the emulator
    uses and with UART and block device mapped, on any host: in a well-typed world every load
    returns a value in the range of its width and signedness, every access leaves processor,
    memory and devices well typed, also when it fails, and the only failures are the errors of
    the emulator and the OSError of a failing host call; on a host whose calls do not fail
    (their ends are part of the world) only the errors of the emulator.  A block transfer is
    such an access: the word that starts it moves a whole block. *)
Theorem memory_classes_typed (k : ram_class) :
  let R := class_ops world_read32 world_write32 k in
  @RamSafe world _ R device_error wf_cpu (mmio_inv device_error) /\
  @RamSafe world _ R machine_error wf_cpu (mmio_inv machine_error).
Proof. split; apply class_ops_safe. Qed.

(** With UART and block device, whatever memory class is chosen, whichever loop run()
    selects and whatever program is executed, the machine and the devices stay well typed
    and no exception of Python ends the run; the system-call handler is any that keeps the
    invariant, and the host calls of the devices do not fail. *)
Theorem run_with_peripherals (k : ram_class) (handle_ecall : option (ST world unit)) (n : nat)
  (w : world) (Hw : mmio_inv machine_error w)
  (Hecall : forall h, handle_ecall = Some h ->
    keeps machine_error (mmio_inv machine_error) h (fun _ => True)) :
  match run (R := class_ops world_read32 world_write32 k) handle_ecall world_runner n w with
  | (Ok _, w') => mmio_inv machine_error w'
  | (Exn e, w') => mmio_inv machine_error w' /\ machine_error e
  end.
Proof.
  pose (E := machine_error). pose proof (class_ops_safe (E := E) k) as HS.
  assert (forall p, keeps E (mmio_inv E) (world_runner p) (fun _ => True)) as Hrun
    by (intros []; [apply uart_lift, uart_run_safe|by apply keeps_ret..]).
  pose (R := class_ops world_read32 world_write32 k).
  assert (forall w m, mmio_inv E w -> start_checks m <> None -> mmio_inv E (put m w)) as Hm
    by (intros w' m [] ?; by split).
  pose proof (run_wf (R := R) (mmio_inv E) handle_ecall Hecall Hm mi_machine world_runner n Hrun w Hw) as H.
  fold R. destruct (run (R := R) handle_ecall world_runner n w) as [[]]; apply H.
Qed.

(** ** The timer *)

(** The counter mtime does not wrap at 64 bits: a program that sets the counter to its largest value
    through the memory-mapped registers reads, one tick later, an upper half that is not a
    32-bit value. *)
Theorem mtime_overflows (c : cpu) (t : mmio_timer) (Hc : wf_cpu c)
  (Hmie : Z.testbit (cv c 0x300) 3 = false) (Ht : t_lo_updated t = false /\ t_hi_updated t = false) :
  fst ((MMIOTimer_write32 REG_MTIME_LO 0xFFFFFFFF ;;; MMIOTimer_write32 REG_MTIME_HI 0xFFFFFFFF ;;;
        zoom timer_update ;;; MMIOTimer_read32 REG_MTIME_HI) (c, t)) = Ok (2 ^ 32) /\
  ~ u32 (2 ^ 32).
Proof.
  split; [|unfold uN; lia]. destruct t as [l h lu hu], Ht as [Hl Hh]; simpl in Hl, Hh; subst lu hu.
  set (c1 := set_mtime (2 ^ 64 - 1) c).
  assert (wf_cpu c1) as Hc1 by (destruct Hc; by split).
  assert (timer_update c1 = (Ok tt, ticked c1)) as E.
  { rewrite timer_update_eq by done. unfold timer_fires. change (cv c1) with (cv c).
    by rewrite Hmie, andb_false_r. }
  transitivity (fst ((zoom timer_update ;;; MMIOTimer_read32 REG_MTIME_HI)
                  (c1, mkTimer 0xFFFFFFFF 0xFFFFFFFF false false))); [done|].
  unfold bind, zoom. cbn [view put Has_fst fst snd]. rewrite E. cbn.
  assert (mtime (ticked c1) = 2 ^ 64) as -> by (unfold ticked; cbv zeta; by destruct (eqb _ _)).
  done.
Qed.
