(* ===== verification/BoardRefine.v ===== *)
(** * The loop with peripherals against the reference board

    Every round of run_mmio is a step of the board of Board.v: the instructions of the hart
    by the refinement of IsaRefine.v, lifted to a memory whose ranges lie outside the RAM;
    the accesses to the devices register by register.  Runs of any length are in HostedBoard.v. *)

From Stdlib Require Import ZArith Lia Bool String.
From stdpp Require Import base numbers list option gmap strings.
From S2P Require Import Prelude PyStr Isa Ram Cpu Rvc CpuSem Exec ExecSem ExecSafe RamSafe Core.
From S2P Require Import MemInstr Trap IsaMachine Board IsaRefine Machine Peripherals World Lift.
From S2P Require Import PeriphThms MachineThms IsaRun MmioSafe.

Local Open Scope Z_scope.
Local Open Scope py_scope.

(** ** Worlds that contain the objects of the emulator *)

Class InWorld (W : Type) `{HW : Has world W} `{HC : Has cpu W} `{HR : Has ram W}
    `{HM : Has machine W} : Prop := {
  in_cpu : forall w : W, view (A := cpu) w = w_cpu (view w);
  in_ram : forall w : W, view (A := ram) w = w_ram (view w);
  in_machine : forall w : W, view (A := machine) w = w_machine (view w);
  put_in_cpu : forall (c : cpu) (w : W), put c w = put (put c (view (A := world) w)) w;
  put_in_ram : forall (r : ram) (w : W), put r w = put (put r (view (A := world) w)) w
}.

#[export] Instance world_InWorld : InWorld world.
Proof. by split; intros []. Qed.

(** The memory of the objects, as the memory of the larger world. *)
Definition in_world_ops {W : Type} `{HW : Has world W} (R : RamOps world) : RamOps W := {|
  load_byte a s := zoom (load_byte (RamOps := R) a s);
  load_half a s := zoom (load_half (RamOps := R) a s);
  load_word a := zoom (load_word (RamOps := R) a);
  store_byte a v := zoom (store_byte (RamOps := R) a v);
  store_half a v := zoom (store_half (RamOps := R) a v);
  store_word a v := zoom (store_word (RamOps := R) a v);
  load_binary a n := zoom (load_binary (RamOps := R) a n);
  store_binary a b := zoom (store_binary (RamOps := R) a b);
  load_cstring a n := zoom (load_cstring (RamOps := R) a n)
|}.

(** The two memory classes with ranges. *)
Definition mmio_ops (checked : bool) : RamOps world :=
  if checked then world_SafeRAM_MMIO else world_RAM_MMIO.

(** The exceptions in which they agree with the checked memory without ranges. *)
Definition bus_stops (checked : bool) (rs : list (Z * Z * periph)) (e : exn) : Prop :=
  match e with
  | ExecutionTerminated _ => True
  | MemoryAccessError _ a => checked = true /\ mmio_find a rs = None
  | _ => False
  end.

Lemma bus_ends {A} rs (y : res A) : allowed (bus_stops false rs) y -> allowed ends y.
Proof. destruct y as [|[]]; simpl; try done. by intros []. Qed.

(** ** The memory *)

Section Memory.
Variables (rs : list (Z * Z * periph)) (sz : Z).
Hypothesis Hdis : forall a, 0 <= a -> a + 4 <= sz -> mmio_find a rs = None.

Definition laid_out (r : ram) : Prop := layout r = (rs, sz).

Lemma kept_agree {A} (m0 m : ST ram A) X : ranges_kept m0 ->
  (forall r y r', m0 r = (y, r') -> allowed X y -> m r = (y, r')) ->
  lifts (W := world) laid_out X (zoom m0) (zoom m).
Proof.
  intros Hk Hm. apply lifts_zoom_agree. intros r y r' Hp E Hy. split; [|by apply Hm].
  specialize (Hk r). rewrite E in Hk. by unfold laid_out; rewrite <- Hp.
Qed.

(** A word access: inside the RAM and outside the ranges it is the one of the memory. *)
Lemma routed_lifts {A} checked a (m0 m : ST ram A) (dev : periph -> ST world A) :
  ranges_kept m0 ->
  (forall r, in_bounds r a 4 = false -> m0 r = (Exn (out_of_bounds a), r)) ->
  (forall r y r', m0 r = (y, r') -> allowed (bus_stops checked rs) y -> m r = (y, r')) ->
  lifts laid_out (bus_stops checked rs) (zoom m0)
    (fun w => match mmio_find a (mmio_ranges (w_ram w)) with
              | Some d => dev d w
              | None => zoom m w
              end).
Proof using Hdis.
  intros Hk Hout Hm w Hp. pose proof (kept_agree m0 m (bus_stops checked rs) Hk Hm w Hp) as Hl.
  pose proof (f_equal fst Hp) as Hr. pose proof (f_equal snd Hp) as Hs. simpl in Hr, Hs.
  destruct (zoom m0 (node_of w)) as [y nd] eqn:E. intros Hy. specialize (Hl Hy).
  assert (mmio_find a rs = None) as Hnone.
  { destruct (in_bounds (w_ram w) a 4) eqn:Hb.
    - apply in_bounds_spec in Hb. rewrite Hs in Hb. apply Hdis; lia.
    - unfold zoom in E. change (view (node_of w)) with (w_ram w) in E. rewrite (Hout _ Hb) in E. simplify_eq.
      apply Hy. }
  by rewrite Hr, Hnone.
Qed.

Lemma checked_out {A} a n (m : ST ram A) r : in_bounds r a n = false ->
  (SafeRAM_check a n ;;; m) r = (Exn (out_of_bounds a), r).
Proof. intros Hb. by rewrite checked_eq, Hb. Qed.

Lemma body_store_masked a v r : body_store_word a (Z.land v 0xFFFFFFFF) r = body_store_word a v r.
Proof. unfold body_store_word. rewrite <- Z.land_assoc. done. Qed.

Lemma checked_LiftMem : LiftMem laid_out (bus_stops true rs) world_SafeRAM_MMIO.
Proof using Hdis.
  split; intros; cbn [world_SafeRAM_MMIO SafeRAM_MMIO_ops load_byte load_half load_word store_byte
    store_half store_word load_cstring].
  3: apply routed_lifts; [unfold SafeRAM_load_word; auto with ranges|apply checked_out|done].
  5: apply (routed_lifts true a (SafeRAM_store_word a v));
    [unfold SafeRAM_store_word; auto with ranges|apply checked_out|].
  5: { intros r y r' <- _. unfold SafeRAM_store_word, bind.
       destruct (SafeRAM_check a 4 r) as [[]]; [by rewrite body_store_masked|done]. }
  all: apply kept_agree; [unfold SafeRAM_load_byte, SafeRAM_load_half, SafeRAM_store_byte,
    SafeRAM_store_half; auto with ranges|done].
Qed.

Lemma unchecked_LiftMem : LiftMem laid_out (bus_stops false rs) world_RAM_MMIO.
Proof using Hdis.
  split; intros; cbn [world_RAM_MMIO RAM_MMIO_ops load_byte load_half load_word store_byte
    store_half store_word load_cstring].
  3: apply routed_lifts; [unfold SafeRAM_load_word; auto with ranges|apply checked_out|].
  3: intros r y r' E Hy; eapply unchecked_agrees; [exact E|by eapply bus_ends].
  5: apply (routed_lifts false a (SafeRAM_store_word a v));
    [unfold SafeRAM_store_word; auto with ranges|apply checked_out|].
  5: { intros r y r' E Hy. pose proof (unchecked_agrees _ _ _ _ _ _ E (bus_ends _ _ Hy)) as <-.
       unfold on_index_error, catch. by rewrite body_store_masked. }
  all: apply kept_agree; [unfold SafeRAM_load_byte, SafeRAM_load_half, SafeRAM_store_byte,
    SafeRAM_store_half; auto with ranges|].
  all: intros r y r' E Hy; apply bus_ends in Hy; try by eapply unchecked_agrees.
  revert E Hy. simpl. unfold SafeRAM_load_cstring, RAM_load_cstring.
  destruct (_ || _); [by intros [= <- <-]|done].
Qed.

Lemma mmio_LiftMem checked : LiftMem laid_out (bus_stops checked rs) (mmio_ops checked).
Proof using Hdis. destruct checked; [apply checked_LiftMem|apply unchecked_LiftMem]. Qed.
End Memory.

(** What the memory with ranges promises, in a larger world. *)
Section Larger.
Context {W : Type} `{HI : InWorld W} `{HS : !Separate W}.

Lemma in_node (w : W) : node_of w = node_of (view (A := world) w).
Proof using HI. unfold node_of. by rewrite in_cpu, in_ram. Qed.

Lemma in_with_node nd (w : W) : with_node nd w = put (with_node nd (view (A := world) w)) w.
Proof using HI. unfold with_node. by rewrite put_in_ram, put_in_cpu, view_put, put_put. Qed.

Lemma lifts_in_world {A} P X (m0 : ST node A) (m : ST world A) :
  lifts P X m0 m -> lifts P X m0 (zoom (W := W) m).
Proof using HI.
  intros Hm w Hp. rewrite in_ram in Hp. specialize (Hm (view w) Hp). rewrite in_node.
  destruct (m0 _) as [y nd]. intros Hy. destruct (Hm Hy) as [Hn E]. split; [done|].
  unfold zoom. by rewrite E, in_with_node.
Qed.

Lemma in_world_LiftMem P X (R : RamOps world) :
  LiftMem P X R -> LiftMem P X (in_world_ops (W := W) R).
Proof using HI. intros HL. split; intros; apply lifts_in_world; apply HL. Qed.
End Larger.

(** ** Agreement of the devices *)

(** What a look at the line brings. *)
Definition host_chunk (ev : option rx_event) : option (list Z) :=
  match ev with
  | Some (RxData data) => Some data
  | Some RxOSError => None
  | _ => Some []
  end.

(** What becomes of a byte, and how a transfer ends. *)
Definition host_sends (ev : tx_event) : sending :=
  match ev with TxAccepted => Sent | TxBlocking => Lost | TxOSError => Failed end.

Definition host_moves (ev : disk_event) : option nat :=
  match ev with DiskDone => None | DiskFailed n => Some n end.

(** The line is the one of the UART, from its events on. *)
Record line_agrees (b : board) (l : serial) (u : uart) : Prop := {
  la_base : u_reg_base u = bd_line b;
  la_queue : sr_queue l = rx_buf u;
  la_host : sr_host l = host_chunk <$> pty_events u;
  la_room : sr_room l = host_sends <$> pty_accepts u;
  la_sent : sr_sent l = pty_written u
}.

Record disk_agrees (b : board) (k : drive) (d : blkdev) : Prop := {
  da_base : b_reg_base d = bd_drive b;
  da_size : block_size d = bd_bsize b;
  da_num : num_blocks d = bd_blocks b;
  da_cmd : dk_cmd k = cmd d;
  da_blk : dk_blk k = blk d;
  da_ptr : dk_ptr k = ptr d;
  da_status : status d = 1;
  da_nonneg : 0 <= blk d;
  da_len : py_len (image d) = num_blocks d * block_size d;
  da_bytes : Forall u8 (image d);
  da_blocks : forall i, 0 <= i < bd_blocks b -> dk_blocks k i = block (image d) (block_size d) i;
  da_host : dk_host k = host_moves <$> disk_events d
}.

(** A half that has been written, and the field with its flag. *)
Definition half_agrees (o : option Z) (v : Z) (updated : bool) : Prop :=
  match o with Some x => updated = true /\ v = x /\ u32 v | None => updated = false end.

Record time_agrees (t : halves) (m : mmio_timer) : Prop := {
  ta_lo : half_agrees (half_lo t) (t_mtime_lo m) (t_lo_updated m);
  ta_hi : half_agrees (half_hi t) (t_mtime_hi m) (t_hi_updated m)
}.

(** The board and the objects of the emulator. *)
Record board_agrees (p : platform) (b : board) (s : soc) (w : world) : Prop := {
  ba_core : agrees p (core s) (w_cpu w) (w_ram w);
  ba_line : line_agrees b (line s) (w_uart w);
  ba_disk : disk_agrees b (disk s) (w_blk w);
  ba_time : time_agrees (pending s) (w_timer w)
}.

(** What an access to a device leaves alone. *)
Record untouched (s s' : soc) (w w' : world) : Prop := {
  un_pc : pc (w_cpu w') = pc (w_cpu w);
  un_next : next_pc (w_cpu w') = next_pc (w_cpu w);
  un_hpc : hpc (core s') = hpc (core s);
  un_layout : layout (w_ram w') = layout (w_ram w);
  un_machine : w_machine w' = w_machine w;
  un_rounds : rounds s' = rounds s
}.

Definition board_exn (c : board_stop) : exn :=
  match c with
  | CoreStop s => stop_exn s
  | BadRegister a => invalid_mmio a
  | LineFailure | DriveFailure => OSError
  end.

(** A fault of the memory is seen by the checked class only. *)
Definition seen (checked : bool) (c : board_stop) : Prop :=
  match c with CoreStop (AccessFault _) => checked = true | _ => True end.

(** An access of a device and the method of its object. *)
Definition answered {A} (p : platform) (b : board) (checked : bool) (s : soc) (w : world)
    (spec : access A) (out : res A * world) : Prop :=
  match spec with
  | (inl v, s') => exists w', out = (Ok v, w') /\ board_agrees p b s' w' /\ untouched s s' w w'
  | (inr c, s') => seen checked c -> exists w',
      out = (Exn (board_exn c), w') /\ board_agrees p b s' w' /\ untouched s s' w w'
  end.

(** *** Transfers of blocks *)

(** The binary transfers of the two classes. *)
Definition bin_ops (checked : bool) : RamOps world := if checked then SafeRAM_ops else RAM_ops.

Lemma store_binary_in checked a data (w : world) : wf_ram (w_ram w) ->
  in_bounds (w_ram w) a (py_len data) = true ->
  store_binary (RamOps := bin_ops checked) a data w = (Ok tt, put (with_bytes (w_ram w) a data) w).
Proof.
  intros Hr Hb. pose proof (wf_len _ Hr). destruct checked; unfold store_binary; simpl; unfold zoom; simpl.
  - by rewrite SafeRAM_store_binary_eq, Hb by done.
  - apply in_bounds_spec in Hb. unfold RAM_store_binary, catch, body_store_binary.
    by rewrite py_slice_set_in by lia.
Qed.

Lemma load_binary_in checked a n (w : world) : wf_ram (w_ram w) -> 0 <= n ->
  in_bounds (w_ram w) a n = true ->
  load_binary (RamOps := bin_ops checked) a n w = (Ok (bytes_at (w_ram w) a n), w).
Proof.
  intros Hr Hn Hb. pose proof (wf_len _ Hr).
  destruct checked; unfold load_binary; simpl; unfold zoom; simpl.
  - rewrite SafeRAM_load_binary_eq, Hb by done. by destruct w.
  - apply in_bounds_spec in Hb. unfold RAM_load_binary, body_load_binary, gets.
    rewrite py_slice_in by lia. by destruct w.
Qed.

Lemma binary_out a n data (w : world) : wf_ram (w_ram w) -> 0 <= n -> py_len data = n ->
  in_bounds (w_ram w) a n = false ->
  store_binary (RamOps := bin_ops true) a data w = (Exn (out_of_bounds a), w) /\
  load_binary (RamOps := bin_ops true) a n w = (Exn (out_of_bounds a), w).
Proof.
  intros Hr Hn Hd Hb. unfold store_binary, load_binary. simpl. unfold zoom. simpl.
  rewrite SafeRAM_store_binary_eq, Hd, Hb, SafeRAM_load_binary_eq, Hb by done. by destruct w.
Qed.

Lemma bytes_of_agrees p h c r a n : agrees p h c r -> 0 <= n -> in_mem p a n = true ->
  bytes_of (hmem h) a n = bytes_at r a n.
Proof.
  intros Ha Hn Hb. unfold in_mem in Hb. apply andb_true_iff in Hb as [H1 H2].
  pose proof (wf_len r (ag_ram Ha)) as Hl. pose proof (ag_size Ha) as Hsz. unfold py_len in Hl.
  apply list_eq_same_length with (n := Z.to_nat n).
  - unfold bytes_at. rewrite length_take, length_drop. lia.
  - unfold bytes_of. by rewrite length_fmap, length_seqZ.
  - intros i y z Hi Hy Hz. unfold bytes_of in Hy. rewrite list_lookup_fmap in Hy.
    unfold bytes_at in Hz. rewrite lookup_take_lt, lookup_drop in Hz by done.
    rewrite lookup_seqZ_lt in Hy by lia. simpl in Hy. simplify_eq.
    rewrite (ag_mem Ha) by lia. unfold mem_byte. rewrite py_get_in by (unfold py_len; lia).
    replace (Z.to_nat (a + (0 + Z.of_nat i))) with (Z.to_nat a + i)%nat by lia. by rewrite Hz.
Qed.

Lemma agrees_overlay p h c r a data : agrees p h c r -> Forall u8 data ->
  in_mem p a (py_len data) = true ->
  agrees p (set_hmem (overlay (hmem h) a data) h) c (with_bytes r a data).
Proof.
  intros Ha Hd Hb. unfold in_mem in Hb. apply andb_true_iff in Hb as [H1 H2].
  pose proof (wf_len r (ag_ram Ha)) as Hl. pose proof (ag_size Ha) as Hsz.
  assert (wf_ram (with_bytes r a data)) by (apply with_bytes_wf; [apply (ag_ram Ha)|done|lia|lia]).
  destruct Ha. split; try done. intros y Hy. rewrite with_bytes_byte by lia. simpl. unfold overlay.
  by rewrite <- ag_mem.
Qed.

Lemma bset_eq f (w : world) : bset f w = (Ok tt, put (f (w_blk w)) w).
Proof. done. Qed.

(** The status is set again. *)
Lemma status_again (w : world) : status (w_blk w) = 1 ->
  (bset (set_status 1) : ST world unit) w = (Ok tt, w).
Proof.
  intros Hst. unfold bset, zoom, modify. simpl. destruct w as [? ? ? ? ? []]. simpl in *. by rewrite Hst.
Qed.

(** *** The halves of the timer *)

Lemma agrees_htime p h c r t : agrees p h c r -> 0 <= t ->
  agrees p (set_htime t h) (set_mtime t c) r.
Proof.
  intros Ha Ht. assert (ready (set_mtime t c))
    by (destruct (ag_ready Ha) as ([] & H0 & []); by split_and!; [split|done|split]).
  destruct Ha. by split.
Qed.

Lemma agrees_htimecmp p h c r t : agrees p h c r -> u64 t ->
  agrees p (set_htimecmp t h) (set_mtimecmp t c) r.
Proof.
  intros Ha Ht. assert (ready (set_mtimecmp t c))
    by (destruct (ag_ready Ha) as ([] & H0 & []); by split_and!; [split|done|split]).
  destruct Ha. by split.
Qed.

Section Devices.
Variables (p : platform) (b : board) (checked : bool) (s : soc) (w : world).
Hypothesis Hs : board_agrees p b s w.

(** An answer that changes nothing. *)
Lemma answered_read (v : Z) (out : res Z * world) : out = (Ok v, w) -> answered p b checked s w (inl v, s) out.
Proof using Hs. intros ->. by exists w. Qed.

Lemma answered_bad {A} a (out : res A * world) : out = (Exn (invalid_mmio a), w) ->
  answered p b checked s w (inr (BadRegister a), s) out.
Proof using Hs. intros -> _. by exists w. Qed.

(** *** The line *)

Lemma line_poll_agrees : let '(ok, l) := line_poll (line s) in
  exists u, PtyUART_run (w_uart w) = ((if ok : bool then Ok tt else Exn OSError), u) /\
            line_agrees b l u.
Proof using Hs.
  destruct (ba_line _ _ _ _ Hs) as [H1 H2 H3 H4 H5]. unfold line_poll, PtyUART_run.
  destruct (pty_events (w_uart w)) as [|[[data| |]|] ev] eqn:E; simpl in H3; rewrite H3;
    eexists; (split; [reflexivity|]); split; simpl; rewrite ?app_nil_r, ?E; done || congruence.
Qed.

(** A change of the line only. *)
Lemma line_changed l u : line_agrees b l u ->
  board_agrees p b (with_line l s) (put u w) /\ untouched s (with_line l s) w (put u w).
Proof using Hs. intros Hl. destruct Hs. split; [by split|done]. Qed.

Lemma line_load_answered a : answered p b checked s w (line_load b a s) (world_read32 PtyUART a w).
Proof using Hs.
  unfold line_load, world_read32, zoom, PtyUART_read32. cbn [view world_uart].
  unfold bind at 1, gets. rewrite (la_base _ _ _ (ba_line _ _ _ _ Hs)).
  destruct (a =? bd_line b + 4).
  - pose proof line_poll_agrees as Hp. destruct (line_poll (line s)) as [ok l].
    destruct Hp as (u & E & Hl). unfold bind. rewrite E. destruct ok.
    + pose proof (la_queue _ _ _ Hl) as Hq. destruct (rx_buf u) as [|c q] eqn:Eq; rewrite Hq.
      * exists (put u w). split; [done|]. by apply line_changed.
      * eexists. split; [reflexivity|]. apply line_changed. by destruct Hl; split.
    + intros _. exists (put u w). split; [done|]. by apply line_changed.
  - destruct (a =? bd_line b); [by apply answered_read; destruct w|].
    apply answered_bad. by destruct w.
Qed.

Lemma line_store_answered a v :
  answered p b checked s w (line_store b a v s) (zoom (PtyUART_write32 a v) w).
Proof using Hs.
  unfold line_store, zoom, PtyUART_write32. cbn [view world_uart].
  unfold bind, gets. rewrite (la_base _ _ _ (ba_line _ _ _ _ Hs)).
  destruct (a =? bd_line b); [|apply answered_bad; by destruct w].
  destruct (ba_line _ _ _ _ Hs) as [H1 H2 H3 H4 H5]. unfold transmit. rewrite H4, land_ff.
  destruct (pty_accepts (w_uart w)) as [|[] rest]; simpl; try intros _;
    (eexists; split; [reflexivity|]; apply line_changed; split; simpl; done || congruence).
Qed.

(** *** The drive *)

(** A change of the drive only. *)
Lemma disk_changed k d : disk_agrees b k d ->
  board_agrees p b (with_disk k s) (put d w) /\ untouched s (with_disk k s) w (put d w).
Proof using Hs. intros Hk. destruct Hs. split; [by split|done]. Qed.

Lemma answered_disk k d (out : res unit * world) : out = (Ok tt, put d w) -> disk_agrees b k d ->
  answered p b checked s w (inl tt, with_disk k s) out.
Proof using Hs. intros -> Hk. exists (put d w). split; [done|]. by apply disk_changed. Qed.

(** An offset inside the registers of the drive. *)
Lemma reg_offset a k : (a =? bd_drive b + k) = (a - bd_drive b =? k).
Proof using. destruct (Z.eqb_spec a (bd_drive b + k)), (Z.eqb_spec (a - bd_drive b) k); lia || done. Qed.

Lemma reg_base a : (a =? bd_drive b) = (a - bd_drive b =? 0).
Proof using. by rewrite <- reg_offset, Z.add_0_r. Qed.

Lemma drive_load_answered a :
  answered p b checked s w (drive_load b a s) (world_read32 MMIOBlockDevice a w).
Proof using Hs.
  unfold drive_load, world_read32, MMIOBlockDevice_read32, bind, bget, gets, id. cbn [view world_blk].
  destruct (ba_disk _ _ _ _ Hs) as [H1 _ _ H2 H3 H4 H5 _ _ _ _ _]. rewrite H1, !reg_offset, reg_base.
  rewrite H2, H3, H4. repeat case_match; simplify_eq; try by apply answered_read.
  - apply answered_read. by rewrite H5.
  - by apply answered_bad.
Qed.

Hypothesis Hbs : 0 < bd_bsize b.

Lemma block_len i : 0 <= i < bd_blocks b ->
  py_len (block (image (w_blk w)) (bd_bsize b) i) = bd_bsize b.
Proof using Hs Hbs.
  intros Hi. destruct (ba_disk _ _ _ _ Hs) as [_ H2 H3 _ _ _ _ _ H9 _ _ _]. rewrite H2, H3 in H9.
  unfold block, file_read, py_len in *. rewrite length_take, length_drop. nia.
Qed.

Lemma no_such_block : bd_blocks b <= blk (w_blk w) ->
  execute_cmd (R := bin_ops checked) w = (Ok tt, w).
Proof using Hs Hbs.
  intros Hn. destruct (ba_disk _ _ _ _ Hs) as [_ H2 H3 _ _ _ H7 _ _ _ _ _].
  unfold execute_cmd, bind at 1, bget, gets, id. cbn [view world_blk]. rewrite H2, H3.
  rewrite (proj2 (Z.leb_le _ _)) by nia. by apply status_again.
Qed.

(** The disk after the end of the file operations of a command. *)
Lemma drive_end_agrees : let '(fails, k) := drive_end (disk s) in
  exists ev d, disk_next (w_blk w) = (ev, d) /\ fails = host_moves ev /\ disk_agrees b k d /\
    image d = image (w_blk w) /\ dk_blocks k = dk_blocks (disk s) /\
    dk_blk k = blk (w_blk w) /\ dk_ptr k = ptr (w_blk w).
Proof using Hs.
  pose proof (ba_disk _ _ _ _ Hs) as Hd. pose proof (da_host _ _ _ Hd) as Hh.
  unfold drive_end, disk_next. rewrite Hh. destruct (disk_events (w_blk w)) as [|ev l] eqn:Ee; simpl.
  - exists DiskDone, (w_blk w). split_and!; try done; apply Hd.
  - exists ev, (set_disk_events l (w_blk w)). split_and!; try done; try apply Hd.
    destruct Hd. by split.
Qed.
End Devices.

(** The disk after a block has been written. *)
Lemma block_written b k d data : disk_agrees b k d -> 0 < bd_bsize b ->
  blk d < bd_blocks b -> py_len data = bd_bsize b -> Forall u8 data ->
  disk_agrees b (put_block data k) (set_image (file_write (image d) (blk d * bd_bsize b) data) d).
Proof.
  intros [H1 H2 H3 H4 H5 H6 H7 H8 H9 H10 H11 H12] Hbs Hn Hd Hu.
  rewrite H2, H3 in H9. assert ((blk d + 1) * bd_bsize b <= py_len (image d)) by nia.
  split; simpl; try done.
  - unfold py_len in *. rewrite H2, H3, file_write_len; unfold py_len; nia.
  - by apply file_write_bytes.
  - intros i Hi. rewrite H2, H5. destruct (Z.eqb_spec (blk d) i) as [<-|Hne].
    + by rewrite block_same by lia.
    + rewrite block_other by lia. rewrite <- H2. by apply H11.
Qed.

Section Drive.
Variables (p : platform) (b : board) (checked : bool) (s : soc) (w : world).
Hypothesis Hs : board_agrees p b s w.
Hypothesis Hbs : 0 < bd_bsize b.
Hypothesis Hn : blk (w_blk w) < bd_blocks b.

Let Hd := ba_disk _ _ _ _ Hs.
Let Ha := ba_core _ _ _ _ Hs.
Let addressed := block (image (w_blk w)) (bd_bsize b) (blk (w_blk w)).

Lemma addressed_len : py_len addressed = bd_bsize b.
Proof using Hs Hbs Hn. apply (block_len p b s w Hs Hbs). pose proof (da_nonneg _ _ _ Hd). lia. Qed.

Lemma addressed_block : dk_blocks (disk s) (blk (w_blk w)) = addressed.
Proof using Hs Hn.
  rewrite (da_blocks _ _ _ Hd), (da_size _ _ _ Hd); [done|]. pose proof (da_nonneg _ _ _ Hd). lia.
Qed.

Lemma fill_answered : answered p b checked s w (fill p b s)
  ((data <- zoom (disk_read (blk (w_blk w) * bd_bsize b) (bd_bsize b)) ;;
    store_binary (RamOps := bin_ops checked) (ptr (w_blk w)) data) w).
Proof using Hs Hbs Hn.
  pose proof (drive_end_agrees p b s w Hs) as He. unfold fill.
  destruct (drive_end (disk s)) as [fails k].
  destruct He as (ev & d & E & -> & Hk & Ei & Eb & Ek & Ep). rewrite Ek, Ep, Eb, addressed_block.
  destruct (disk_changed p b s w Hs k d Hk) as [Hb1 Hu1].
  unfold bind, zoom, disk_read. cbn [view world_blk]. rewrite E. destruct ev as [|n]; cbn [host_moves].
  2: { intros _. by exists (put d w). }
  change (file_read _ _ _) with addressed. rewrite (in_mem_bounds _ _ _ _ _ _ Ha).
  pose proof addressed_len as Hlen. destruct (in_bounds _ _ _) eqn:Hb.
  - rewrite store_binary_in by (rewrite ?Hlen; apply (ag_ram Ha) || done).
    eexists. split; [reflexivity|]. split; [|done]. split; [|apply Hb1..].
    apply agrees_overlay; [done|by apply Forall_take, Forall_drop, Hd|].
    by rewrite (in_mem_bounds _ _ _ _ _ _ Ha), Hlen.
  - intros ->. exists (put d w). split; [|done].
    destruct (binary_out (ptr (w_blk w)) (bd_bsize b) addressed (put d w)) as [-> _];
      try done; [apply (ag_ram Ha)|lia].
Qed.

Lemma drain_answered : answered p b checked s w (drain p b s)
  ((data <- load_binary (RamOps := bin_ops checked) (ptr (w_blk w)) (bd_bsize b) ;;
    zoom (disk_write (blk (w_blk w) * bd_bsize b) data)) w).
Proof using Hs Hbs Hn.
  pose proof (drive_end_agrees p b s w Hs) as He. unfold drain.
  rewrite (da_ptr _ _ _ Hd), (in_mem_bounds _ _ _ _ _ _ Ha). pose proof (ag_ram Ha) as Hr.
  destruct (in_bounds _ _ _) eqn:Hb.
  2: { intros ->. exists w. split; [|done]. unfold bind.
       by rewrite (proj2 (binary_out _ _ _ w Hr (Z.lt_le_incl _ _ Hbs) addressed_len Hb)). }
  destruct (drive_end (disk s)) as [fails k].
  destruct He as (ev & d & E & -> & Hk & Ei & Eb & Ek & Ep). rewrite Ek, Ep, Eb, addressed_block.
  unfold bind. rewrite load_binary_in by (done || lia).
  rewrite (bytes_of_agrees p _ _ _ _ _ Ha) by (rewrite ?(in_mem_bounds _ _ _ _ _ _ Ha); done || lia).
  set (data := bytes_at _ _ _). apply in_bounds_spec in Hb. pose proof (wf_len _ Hr) as Hl.
  assert (py_len data = bd_bsize b) as Hdata.
  { unfold data, bytes_at, py_len in *. rewrite length_take, length_drop. lia. }
  assert (Forall u8 data) as Hu by apply Forall_take, Forall_drop, Hr.
  assert (blk d = blk (w_blk w)) as Ebk by (rewrite <- Ek; symmetry; apply (da_blk _ _ _ Hk)).
  assert (forall n, file_write (image (w_blk w)) (blk (w_blk w) * bd_bsize b) (take n data) =
    file_write (image d) (blk d * bd_bsize b) (take n data ++ drop n addressed)) as Hpart.
  { intros n. rewrite Ei, Ebk. pose proof (da_nonneg _ _ _ Hd). pose proof (da_len _ _ _ Hd) as Hi.
    rewrite (da_size _ _ _ Hd), (da_num _ _ _ Hd) in Hi. apply file_write_part; try done; nia. }
  unfold zoom, disk_write. cbn [view world_blk]. rewrite E. destruct ev as [|n]; cbn [host_moves].
  - eexists. split; [reflexivity|]. apply disk_changed; [done|].
    rewrite <- Ei, <- Ebk. apply block_written; try done. by rewrite Ebk.
  - intros _. rewrite Hpart. eexists. split; [reflexivity|]. apply disk_changed; [done|].
    pose proof addressed_len as Hlen.
    apply block_written; try done; [by rewrite Ebk| |].
    + unfold py_len in *. rewrite length_app, length_take, length_drop. lia.
    + apply Forall_app_2; [by apply Forall_take|]. by apply Forall_drop, Forall_take, Forall_drop, Hd.
Qed.
End Drive.

Section Devices2.
Variables (p : platform) (b : board) (checked : bool) (s : soc) (w : world).
Hypothesis Hs : board_agrees p b s w.
Hypothesis Hbs : 0 < bd_bsize b.

(** The status is set again after a transfer that has succeeded. *)
Lemma answered_status (spec : access unit) (m : ST world unit) :
  answered p b checked s w spec (m w) ->
  answered p b checked s w spec ((m ;;; bset (set_status 1)) w).
Proof using Hs.
  unfold answered, bind. destruct spec as [[v|c] s'].
  - intros (w' & E & H1 & H2). exists w'. rewrite E. split; [|done].
    rewrite status_again by apply (da_status _ _ _ (ba_disk _ _ _ _ H1)). by destruct v.
  - intros H Hc. destruct (H Hc) as (w' & E & H1 & H2). exists w'. by rewrite E.
Qed.

Lemma transfer_answered :
  answered p b checked s w (transfer p b s) (execute_cmd (R := bin_ops checked) w).
Proof using Hs Hbs.
  pose proof (ba_disk _ _ _ _ Hs) as [H1 H2 H3 H4 H5 H6 H7 H8 H9 H10 H11 H12].
  unfold transfer. rewrite H4, H5. destruct (Z.leb_spec (bd_blocks b) (blk (w_blk w))).
  { exists w. by rewrite (no_such_block p b checked s w). }
  unfold execute_cmd, bind at 1, bget, gets, id. cbn [view world_blk]. rewrite H2, H3.
  rewrite (proj2 (Z.leb_gt (bd_blocks b * bd_bsize b) _)) by nia. apply answered_status.
  destruct (cmd (w_blk w) =? 0); [by apply fill_answered|].
  destruct (cmd (w_blk w) =? 1); [by apply drain_answered|by exists w].
Qed.

Lemma drive_store_answered a v : 0 <= v ->
  answered p b checked s w (drive_store p b a v s) (MMIOBlockDevice_write32 (R := bin_ops checked) a v w).
Proof using Hs Hbs.
  intros Hv. pose proof (ba_disk _ _ _ _ Hs) as Hd.
  unfold drive_store, MMIOBlockDevice_write32, bind, bget, gets. cbn [view world_blk].
  rewrite (da_base _ _ _ Hd), !reg_offset, reg_base.
  destruct (a - bd_drive b =? 0); [|destruct (a - bd_drive b =? 4); [|destruct (a - bd_drive b =? 8)]].
  1-3: eapply (answered_disk p b checked s w Hs); [by rewrite bset_eq|]; by destruct Hd; split.
  destruct (a - bd_drive b =? 12); [|by apply answered_bad].
  destruct (v =? 1); [apply transfer_answered|by exists w].
Qed.

(** *** The timer *)

Lemma clint_load_answered a : answered p b checked s w (clint_load a s) (world_read32 MMIOTimer a w).
Proof using Hs.
  pose proof (ba_core _ _ _ _ Hs) as Ha.
  unfold clint_load, world_read32, MMIOTimer_read32, bind, gets. cbn [view world_cpu].
  rewrite (ag_time Ha), (ag_cmp Ha), !land_ffffffff, !Z.shiftr_div_pow2 by done.
  change REG_MTIME_LO with 0x0200BFF8. change REG_MTIME_HI with 0x0200BFFC.
  change REG_MTIMECMP_LO with 0x02004000. change REG_MTIMECMP_HI with 0x02004004.
  repeat (destruct (a =? _); [by apply answered_read|]). by apply answered_bad.
Qed.

(** A change of the timer only. *)
Lemma time_changed h t c m : agrees p h c (w_ram w) -> time_agrees t m ->
  pc c = pc (w_cpu w) -> next_pc c = next_pc (w_cpu w) -> hpc h = hpc (core s) ->
  board_agrees p b (with_pending t (with_core h s)) (put m (put c w)) /\
  untouched s (with_pending t (with_core h s)) w (put m (put c w)).
Proof using Hs. intros H1 H2 H3 H4 H5. destruct Hs. split; [by split|done]. Qed.
End Devices2.

(** The commit of mtime, in any state of the halves. *)
Lemma commit_agrees p b s w : board_agrees p b s w ->
  exists w', timer_commit w = (Ok tt, w') /\ board_agrees p b (commit_time s) w' /\
             untouched s (commit_time s) w w'.
Proof.
  intros Hs. pose proof (ba_core _ _ _ _ Hs) as Ha. destruct (ba_time _ _ _ _ Hs) as [Hlo Hhi].
  unfold timer_commit, commit_time, bind, gets. cbn [view world_timer].
  destruct (half_lo (pending s)) as [lo|]; simpl in Hlo; [|rewrite Hlo; by exists w].
  destruct Hlo as (-> & -> & Ulo).
  destruct (half_hi (pending s)) as [hi|]; simpl in Hhi; [|rewrite Hhi; by exists w].
  destruct Hhi as (-> & -> & Uhi). cbn [andb]. rewrite <- join_halves by done.
  eexists. split; [reflexivity|]. unfold uN in *.
  apply (time_changed p b s w Hs (set_htime _ _) (mkHalves None None) (set_mtime _ _)
    (mkTimer _ _ false false)); try done.
  apply agrees_htime; [done|]. rewrite join_halves by done. lia.
Qed.

Lemma untouched_trans s s1 s2 w w1 w2 :
  untouched s s1 w w1 -> untouched s1 s2 w1 w2 -> untouched s s2 w w2.
Proof. intros [] []. split; congruence. Qed.

(** A register of the timer is written, and mtime perhaps with it. *)
Lemma then_commit p b checked s s1 w w1 : board_agrees p b s1 w1 -> untouched s s1 w w1 ->
  answered p b checked s w (inl tt, commit_time s1) (timer_commit w1).
Proof.
  intros H1 H2. destruct (commit_agrees p b s1 w1 H1) as (w2 & E & H3 & H4). exists w2.
  split; [done|]. split; [done|]. by eapply untouched_trans.
Qed.

Lemma clint_store_answered p b checked s w a v : board_agrees p b s w -> u32 v ->
  answered p b checked s w (clint_store a v s) (MMIOTimer_write32 a v w).
Proof.
  intros Hs Hv. pose proof (ba_core _ _ _ _ Hs) as Ha. destruct (ba_time _ _ _ _ Hs) as [Hlo Hhi].
  assert (u64 (mtimecmp (w_cpu w))) as Hcmp by apply (ag_ready Ha).
  destruct (low_replaced _ v Hcmp Hv) as [El Ul]. destruct (high_replaced _ v Hcmp Hv) as [Eh Uh].
  unfold clint_store, MMIOTimer_write32.
  change REG_MTIME_LO with 0x0200BFF8. change REG_MTIME_HI with 0x0200BFFC.
  change REG_MTIMECMP_LO with 0x02004000. change REG_MTIMECMP_HI with 0x02004004.
  unfold bind. rewrite (ag_cmp Ha).
  destruct (a =? 0x02004000); [|destruct (a =? 0x02004004); [|destruct (a =? 0x0200BFF8);
    [|destruct (a =? 0x0200BFFC); [|by apply answered_bad]]]];
    unfold zoom, modify; cbn [view world_cpu world_timer]; rewrite ?El, ?Eh; apply then_commit.
  all: try done.
  all: destruct Hs; split; try done.
  all: try by apply agrees_htimecmp.
Qed.

(** Every register of every device. *)
Lemma dev_load_answered p b checked s w d a : board_agrees p b s w ->
  answered p b checked s w (dev_load b d a s) (world_read32 d a w).
Proof.
  intros Hs. destruct d; [by apply line_load_answered|by apply drive_load_answered
    |by apply clint_load_answered].
Qed.

Lemma dev_store_answered p b checked s w d a v : board_agrees p b s w -> 0 < bd_bsize b -> u32 v ->
  answered p b checked s w (dev_store p b d a v s) (world_write32 (bin_ops checked) d a v w).
Proof.
  intros Hs Hbs Hv. destruct d; [by apply line_store_answered| |by apply clint_store_answered].
  apply drive_store_answered; [done..|apply Hv].
Qed.

(** ** Instructions that access a device *)

Section Instruction.
Context {W : Type} `{HC : Has cpu W} `{R : RamOps W} (hd : option (ST W unit)).

(** A word load, for whatever the load of the memory does. *)
Lemma dispatch_lw (w w' : W) inst len rd rs1 off y : decode inst = Some (Load LW rd rs1 off) ->
  u32 inst -> wf_cpu (view w) -> load_word (wrap (rv (view w) rs1 + off)) w = (y, w') ->
  wf_cpu (view w') -> x0_zero (view w') ->
  (dispatch hd inst len (decode_fields inst) ;;; zoom (set_reg 0 0)) w =
    match y with
    | Ok v => (Ok tt, put (write_back (Some (rd, wrap v)) (view w')) w')
    | Exn e => (Exn e, w')
    end.
Proof.
  intros Hd Hi Hc Hl Hc' H0. pose proof (decode_opcode _ _ Hd) as Eop.
  destruct (decode_ok _ _ Hd) as [Hrd Hrs]. simpl in Eop. unfold decode in Hd. rewrite Eop in Hd.
  cbv zeta in Hd. destruct (lop_of (field inst 12 3)) as [o|] eqn:Hop; simpl in Hd; simplify_eq.
  assert (field inst 12 3 = 2) as Ef3 by (unfold lop_of in Hop; repeat case_match; simplify_eq; lia).
  rewrite decode_fields_eq, Eop, Ef3. cbn [dispatch Z.eqb Pos.eqb].
  unfold bind at 1, exec_loads. unfold bind at 1. rewrite zoom_reg, get_imm_i_eq, land_ffffffff by done.
  cbn [Z.eqb Pos.eqb]. fold (wrap (rv (view w) (field inst 15 5) + imm_I inst)).
  unfold bind. rewrite Hl. destruct y as [v|e]; [|done].
  unfold zoom at 1. rewrite set_reg_eq, land_ffffffff by (apply Hc' || done). fold (wrap v).
  unfold zoom. rewrite view_put, set_reg_eq by (rewrite ?wr_len; apply Hc' || lia).
  by rewrite put_put, wr_x0_wr.
Qed.

(** A word store, likewise. *)
Lemma dispatch_sw (w w' : W) inst len rs1 rs2 off y : decode inst = Some (Store SW rs1 rs2 off) ->
  u32 inst -> wf_cpu (view w) ->
  store_word (wrap (rv (view w) rs1 + off)) (rv (view w) rs2) w = (y, w') ->
  wf_cpu (view w') -> x0_zero (view w') ->
  (dispatch hd inst len (decode_fields inst) ;;; zoom (set_reg 0 0)) w =
    match y with
    | Ok _ => (Ok tt, put (set_reservation_valid false (view w')) w')
    | Exn e => (Exn e, w')
    end.
Proof.
  intros Hd Hi Hc Hl Hc' H0. pose proof (decode_opcode _ _ Hd) as Eop.
  destruct (decode_ok _ _ Hd) as [Hrs1 Hrs2]. simpl in Eop. unfold decode in Hd. rewrite Eop in Hd.
  cbv zeta in Hd. destruct (sop_of (field inst 12 3)) as [o|] eqn:Hop; simpl in Hd; simplify_eq.
  assert (field inst 12 3 = 2) as Ef3 by (unfold sop_of in Hop; repeat case_match; simplify_eq; lia).
  rewrite decode_fields_eq, Eop, Ef3. cbn [dispatch Z.eqb Pos.eqb].
  unfold bind at 1, exec_stores. unfold bind at 1. rewrite zoom_reg, get_imm_s_eq, land_ffffffff by done.
  cbn [Z.eqb Pos.eqb]. fold (wrap (rv (view w) (field inst 15 5) + imm_S inst)).
  unfold bind. rewrite zoom_reg by done. rewrite Hl. destruct y as [v|e]; [|done].
  unfold clear_reservation, zoom at 1, modify. unfold zoom.
  rewrite view_put, set_reg_eq by (apply Hc' || lia). rewrite put_put.
  by change (wr 0 0 (set_reservation_valid false (view w')))
    with (set_reservation_valid false (wr 0 0 (view w'))); rewrite wr_x0.
Qed.

(** The instruction of a length, as its handler runs. *)
Lemma execute_by_length_starts p h r (w : W) bits i len : agrees p h (view w) r ->
  u32 bits -> instr_of p bits = Some (i, len) ->
  exists inst c1, decode inst = Some i /\ u32 inst /\ agrees p h c1 r /\
    pc c1 = pc (view w) /\ next_pc c1 = wrap (pc (view w) + len) /\
    execute_by_length hd bits w =
      (dispatch hd inst len (decode_fields inst) ;;; zoom (set_reg 0 0)) (put c1 w).
Proof.
  intros Ha Hb Hi. destruct (ag_ready Ha) as (_ & _ & Hcoh).
  unfold instr_of in Hi. unfold execute_by_length. rewrite land_3, land_ffff.
  destruct (Z.eqb_spec (bits mod 4) 3) as [H3|H3].
  - destruct (decode bits) as [j|] eqn:Hd; simpl in Hi; simplify_eq.
    exists bits, (fetched 4 (cache_32 bits (view w))).
    split_and!; [done..|by apply agrees_fetched, agrees_cache_32|done|done|].
    by rewrite execute_32_cached, execute_decoded_eq, view_put, put_put.
  - destruct (p_rvc p); [|done]. change (2 ^ 16) with 65536 in Hi. set (k := bits mod 65536) in *.
    rewrite <- expand_meaning in Hi. unfold rvc_meaning in Hi.
    pose proof (expand_u32 k) as He. rewrite execute_16_cached by done.
    destruct (cache_16_view (view w) k) as (_ & Ep & _).
    destruct (expand_compressed k) as [e []] eqn:Ee; [|done]. simpl in He.
    destruct (decode e) as [j|] eqn:Hd; simpl in Hi; simplify_eq.
    exists e, (fetched 2 (cache_16 k (view w))).
    split_and!; [done..|by apply agrees_fetched, agrees_cache_16|done|by simpl; rewrite Ep|].
    by rewrite execute_decoded_eq, view_put, put_put.
Qed.
End Instruction.

(** ** Rounds *)

Section Rounds.
Context {W : Type} `{HI : InWorld W} `{HS : !Separate W}.
Context (checked : bool) (hd : option (ST W unit)).
Variables (p : platform) (b : board) (rs : list (Z * Z * periph)).
Hypothesis Hwide : p_wide p = true.
Hypothesis Hbs : 0 < bd_bsize b.
Hypothesis Hmap : forall a, bd_map b a = mmio_find a rs.
Hypothesis Hdis : forall a, 0 <= a -> a + 4 <= p_size p -> mmio_find a rs = None.

#[local] Instance board_ops : RamOps W := in_world_ops (mmio_ops checked).

Definition world_of (w : W) : world := view w.

(** What else holds of the larger world, which the board does not reach. *)
Variable around : W -> Prop.
Hypothesis Haround : forall w1 w, w_machine w1 = w_machine (world_of w) -> around w -> around (put w1 w).

(** What no instruction changes. *)
Record frame (s : soc) (w : world) : Prop := {
  fr_layout : layout (w_ram w) = (rs, p_size p);
  fr_timer : timer (w_machine w) = p_timer p;
  fr_polled : peripheral_runners (w_machine w) = bd_polled b;
  fr_rounds : 0 <= rounds s < 256
}.

(** The state of a run between two rounds. *)
Record on_board (s : soc) (w : world) : Prop := {
  ob_agrees : board_agrees p b s w;
  ob_pc : pc (w_cpu w) = hpc (core s);
  ob_frame : frame s w
}.

(** The outcome of some work of the machine, for the result of the board before the poll. *)
Definition worked (s : soc) (res : result) (out : Prelude.res unit * W) : Prop :=
  match res with
  | Running h => exists w, out = (Ok tt, w) /\ on_board (with_core h s) (world_of w) /\ around w
  | Stopped c h => bus_stops checked rs (stop_exn c) -> exists w,
      out = (Exn (stop_exn c), w) /\ board_agrees p b (with_core h s) (world_of w) /\ around w
  | Unspecified => True
  end.

#[local] Instance board_LiftMem :
  LiftMem (W := W) (laid_out rs (p_size p)) (bus_stops checked rs) board_ops.
Proof using HI Hdis. by apply in_world_LiftMem, mmio_LiftMem. Qed.

(** A round without the poll. *)
Definition round {V : Type} `{HCV : Has cpu V} `{RV : RamOps V} (hd : option (ST V unit)) (on : bool)
    : ST V unit := inst <- fetch_word ;; execute_by_length hd inst ;;; tick on ;;; advance.

Lemma step_mmio_eq runner div w : step_mmio hd runner div w =
  (round hd (timer (w_machine (world_of w))) ;;; poll runner div) w.
Proof using HI.
  unfold step_mmio, round, mget, gets. unfold bind. rewrite in_machine. fold (world_of w).
  destruct (fetch_word w) as [[?|] ?]; [|done].
  destruct (execute_by_length hd _ _) as [[?|] ?]; [|done]. by destruct (tick _ _) as [[?|] ?].
Qed.

Lemma round_lifts on : lifts (W := W) (laid_out rs (p_size p)) (bus_stops checked rs)
  (round (RV := SafeRAM_ops) None on) (round hd on).
Proof using HI HS Hdis.
  assert (forall msg, ~ bus_stops checked rs (MachineError msg)) as HX by by intros ? [].
  unfold round. apply lifts_bind; [by apply (fetch_word_lifts (laid_out rs (p_size p)) _ _)|intros inst].
  apply lifts_bind; [by apply (execute_by_length_lifts (laid_out rs (p_size p)) _ _ HX)|intros _].
  apply lifts_bind; [apply tick_lifts|intros _]. apply lifts_zoom_cpu.
Qed.

(** A node of a board that goes on. *)
Lemma node_on_board s (w : W) h nd : board_agrees p b s (world_of w) -> frame s (world_of w) ->
  agrees p h (fst nd) (snd nd) -> laid_out rs (p_size p) (snd nd) ->
  board_agrees p b (with_core h s) (world_of (with_node nd w)) /\
  frame (with_core h s) (world_of (with_node nd w)).
Proof using HI.
  intros [] [] Ha Hl. unfold world_of in *. rewrite in_with_node, view_put. by split; split.
Qed.

Lemma around_node nd (w : W) : around w -> around (with_node nd w).
Proof using HI Haround. rewrite in_with_node. by apply Haround. Qed.

Lemma around_cpu (c : cpu) (w : W) : around w -> around (put c w).
Proof using HI Haround. rewrite put_in_cpu. by apply Haround. Qed.

(** What follows a hart on the node is work of the machine. *)
Lemma lifted_work s (w : W) h (m0 : ST node unit) (m : ST W unit) :
  lifts (laid_out rs (p_size p)) (bus_stops checked rs) m0 m ->
  board_agrees p b s (world_of w) -> frame s (world_of w) -> around w ->
  follows p h (m0 (node_of w)) -> worked s h (m w).
Proof using HI HS Haround.
  intros Hl Hs Hfr Hv Hf. specialize (Hl w). rewrite in_ram in Hl. specialize (Hl (fr_layout _ _ Hfr)).
  destruct h as [h|c h|]; [|intros Hc|done]; destruct Hf as (nd & E & Hin); rewrite E in Hl.
  - destruct (Hl I) as [Hp ->]. eexists. split; [done|].
    destruct (node_on_board s w h nd Hs Hfr (proj1 Hin) Hp). split; [|by apply around_node].
    split; [done| |done]. unfold world_of. rewrite in_with_node, view_put. apply Hin.
  - destruct (Hl Hc) as [Hp ->]. eexists. split; [done|]. split; [by apply node_on_board|by apply around_node].
Qed.

(** The instructions of the hart. *)
Lemma core_round s (w : W) : on_board s (world_of w) -> around w ->
  worked s (isa_step p (core s)) (round hd (p_timer p) w).
Proof using HI HS Hdis Hwide Haround.
  intros [Hs Hpc Hfr] Hv. eapply lifted_work; [apply round_lifts|done..|]. destruct Hs as [Ha _ _ _].
  rewrite in_node. apply (round_follows p (core s) _ _ Ha fetch_word (execute_by_length None));
    [by apply fetch_word_fetches|by apply execute_by_length_executes].
Qed.

(** The end of a round. *)
Lemma rest_works s (w : W) pc0 : board_agrees p b s (world_of w) -> frame s (world_of w) -> around w ->
  pc (w_cpu (world_of w)) = pc0 -> next_pc (w_cpu (world_of w)) = hpc (core s) ->
  worked s (if p_timer p then timer_tick pc0 (core s) else Running (core s))
    ((tick (p_timer p) ;;; advance) w).
Proof using HI HS Haround.
  intros Hs Hfr Hv Hp Hn. apply (lifted_work _ _ _ (tick (p_timer p) ;;; advance)); [|done..|].
  - apply lifts_bind; [apply tick_lifts|intros _; apply lifts_zoom_cpu].
  - rewrite in_node. apply tick_follows; [apply Hs|done..].
Qed.

(** The word accesses of the bus. *)
Lemma bus_load_word a d (w : W) : layout (w_ram (world_of w)) = (rs, p_size p) -> bd_map b a = Some d ->
  load_word a w = zoom (world_read32 d a) w.
Proof using HI Hmap.
  intros Hl Hd. rewrite Hmap in Hd. apply (f_equal fst) in Hl. simpl in Hl.
  cbn [load_word board_ops in_world_ops]. unfold zoom. fold (world_of w).
  assert (load_word (RamOps := mmio_ops checked) a (world_of w) = world_read32 d a (world_of w)) as ->;
    [|done].
  destruct checked; cbn [mmio_ops load_word world_SafeRAM_MMIO world_RAM_MMIO SafeRAM_MMIO_ops RAM_MMIO_ops];
    [unfold SafeRAM_MMIO_load_word|unfold RAM_MMIO_load_word]; cbn [view world_ram]; by rewrite Hl, Hd.
Qed.

Lemma bus_store_word a v d (w : W) : layout (w_ram (world_of w)) = (rs, p_size p) ->
  bd_map b a = Some d -> u32 v -> store_word a v w = zoom (world_write32 (bin_ops checked) d a v) w.
Proof using HI Hmap.
  intros Hl Hd Hv. rewrite Hmap in Hd. apply (f_equal fst) in Hl. simpl in Hl.
  cbn [store_word board_ops in_world_ops]. unfold zoom. fold (world_of w).
  assert (store_word (RamOps := mmio_ops checked) a v (world_of w) =
    world_write32 (bin_ops checked) d a v (world_of w)) as ->; [|done].
  destruct checked; cbn [mmio_ops store_word world_SafeRAM_MMIO world_RAM_MMIO SafeRAM_MMIO_ops RAM_MMIO_ops];
    [unfold SafeRAM_MMIO_store_word|unfold RAM_MMIO_store_word]; cbn [view world_ram];
    by rewrite Hl, Hd, u32_mask_id.
Qed.

Lemma view_cpu (w : W) : view (A := cpu) w = w_cpu (world_of w).
Proof using HI. apply in_cpu. Qed.

Lemma world_of_put (w' : world) (w : W) : world_of (put w' w) = w'.
Proof using. apply view_put. Qed.

Lemma world_of_cpu (c : cpu) (w : W) : world_of (put c w) = put c (world_of w).
Proof using HI. by rewrite put_in_cpu, world_of_put. Qed.

(** The objects with another processor. *)
Lemma agrees_put_cpu s (w : W) c : board_agrees p b s (world_of w) ->
  agrees p (core s) c (w_ram (world_of w)) -> board_agrees p b s (world_of (put c w)).
Proof using HI. intros [] Ha. rewrite world_of_cpu. by split. Qed.

(** The outcome of an instruction that accesses a device, started at the pc of [h]. *)
Definition executed (h : hart) (res : board_result) (out : Prelude.res unit * W) : Prop :=
  match res with
  | Going s => exists w, out = (Ok tt, w) /\ board_agrees p b s (world_of w) /\
      frame s (world_of w) /\ around w /\ pc (w_cpu (world_of w)) = hpc h /\
      next_pc (w_cpu (world_of w)) = hpc (core s)
  | Halted c s => seen checked c -> exists w,
      out = (Exn (board_exn c), w) /\ board_agrees p b s (world_of w) /\ around w
  | Open => True
  end.

Section Access.
Variables (s : soc) (w : W) (inst len : Z).
Hypothesis Hs : board_agrees p b s (world_of w).
Hypothesis Hfr : frame s (world_of w).
Hypothesis Hv : around w.
Hypothesis Hpc : pc (w_cpu (world_of w)) = hpc (core s).
Hypothesis Hnext : next_pc (w_cpu (world_of w)) = wrap (hpc (core s) + len).
Hypothesis Hi : u32 inst.

(** The access is done, the instruction completes. *)
Lemma access_done s' w' h' c' : board_agrees p b s' w' -> untouched s s' (world_of w) w' ->
  agrees p h' c' (w_ram w') -> pc c' = pc (w_cpu w') -> next_pc c' = next_pc (w_cpu w') ->
  executed (core s) (Going (with_core (set_hpc (wrap (hpc (core s') + len)) h') s'))
    (Ok tt, put c' (put w' w)).
Proof using HI Hfr Hpc Hnext Haround Hv.
  intros Hs' [U1 U2 U3 U4 U5 U6] Ha' Ep En. destruct Hfr as [F1 F2 F3 F4].
  eexists. split; [done|]. rewrite world_of_cpu, world_of_put. split_and!; simpl; [|split|..].
  - destruct Hs'. split; try done. by apply agrees_hpc.
  - simpl. congruence.
  - simpl. congruence.
  - simpl. congruence.
  - simpl. lia.
  - by apply around_cpu, Haround.
  - congruence.
  - congruence.
Qed.

(** A failing access. *)
Lemma access_failed c s' e w' : board_agrees p b s' w' -> w_machine w' = w_machine (world_of w) ->
  e = board_exn c -> executed (core s) (Halted c s') (Exn e, put w' w).
Proof using Haround Hv.
  intros Hs' Hm -> _. eexists. split; [done|]. split; [by rewrite world_of_put|by apply Haround].
Qed.

Lemma lw_executed d rd rs1 off : decode inst = Some (Load LW rd rs1 off) ->
  bd_map b (wrap (x (core s) rs1 + off)) = Some d ->
  executed (core s) (bus_step p b (BusLoad d (wrap (x (core s) rs1 + off)) rd len) s)
    ((dispatch hd inst len (decode_fields inst) ;;; zoom (set_reg 0 0)) w).
Proof using HI Hs Hfr Hpc Hnext Hi Hmap Haround Hv.
  intros Hd Hb. pose proof (ba_core _ _ _ _ Hs) as Ha. destruct (decode_ok _ _ Hd) as [Hrd Hrs].
  rewrite (ag_x Ha) in * by done. set (a := wrap (rv (w_cpu (world_of w)) rs1 + off)) in *.
  unfold bus_step. pose proof (dev_load_answered p b checked s (world_of w) d a Hs) as Hans.
  pose proof (bus_load_word a d w (fr_layout _ _ Hfr) Hb) as Hl. unfold zoom in Hl. fold (world_of w) in Hl.
  assert (forall y w', world_read32 d a (world_of w) = (y, w') -> ready (w_cpu w') ->
    (dispatch hd inst len (decode_fields inst) ;;; zoom (set_reg 0 0)) w =
    match y with
    | Ok v => (Ok tt, put (write_back (Some (rd, wrap v)) (w_cpu w')) (put w' w))
    | Exn e => (Exn e, put w' w)
    end) as Hex.
  { intros y w' E (Hc' & H0' & _). rewrite E in Hl. unfold a in Hl. rewrite <- view_cpu in Hl.
    rewrite (dispatch_lw hd w (put w' w) inst len rd rs1 off y); try done;
      rewrite ?view_cpu, ?world_of_put; try done. apply (ag_ready Ha). }
  destruct (dev_load b d a s) as [[v|c] s'].
  - destruct Hans as (w' & E & Hs' & Hu). pose proof (ba_core _ _ _ _ Hs') as Ha'.
    rewrite (Hex _ _ E (ag_ready Ha')). destruct (write_back_pc (Some (rd, wrap v)) (w_cpu w')).
    apply access_done; [done..|apply agrees_retire; [done..|apply u32_wrap]|done|done].
  - intros Hc. destruct (Hans Hc) as (w' & E & Hs' & Hu).
    rewrite (Hex _ _ E (ag_ready (ba_core _ _ _ _ Hs'))). apply (access_failed c); [done|apply Hu|done..].
Qed.

Lemma sw_executed d rs1 rs2 off : decode inst = Some (Store SW rs1 rs2 off) ->
  bd_map b (wrap (x (core s) rs1 + off)) = Some d ->
  executed (core s)
    (bus_step p b (BusStore d (wrap (x (core s) rs1 + off)) (x (core s) rs2) len) s)
    ((dispatch hd inst len (decode_fields inst) ;;; zoom (set_reg 0 0)) w).
Proof using HI Hs Hfr Hpc Hnext Hi Hmap Hbs Haround Hv.
  intros Hd Hb. pose proof (ba_core _ _ _ _ Hs) as Ha. destruct (decode_ok _ _ Hd) as [Hrs1 Hrs2].
  rewrite !(ag_x Ha) in * by done. set (a := wrap (rv (w_cpu (world_of w)) rs1 + off)) in *.
  assert (u32 (rv (w_cpu (world_of w)) rs2)) as Hu32 by (apply rv_u32, (ag_ready Ha)).
  set (v := rv (w_cpu (world_of w)) rs2) in *.
  unfold bus_step. pose proof (dev_store_answered p b checked s (world_of w) d a v Hs Hbs Hu32) as Hans.
  pose proof (bus_store_word a v d w (fr_layout _ _ Hfr) Hb Hu32) as Hl. unfold zoom in Hl. fold (world_of w) in Hl.
  assert (forall y w', world_write32 (bin_ops checked) d a v (world_of w) = (y, w') -> ready (w_cpu w') ->
    (dispatch hd inst len (decode_fields inst) ;;; zoom (set_reg 0 0)) w =
    match y with
    | Ok _ => (Ok tt, put (set_reservation_valid false (w_cpu w')) (put w' w))
    | Exn e => (Exn e, put w' w)
    end) as Hex.
  { intros y w' E (Hc' & H0' & _). rewrite E in Hl. unfold a, v in Hl. rewrite <- view_cpu in Hl.
    rewrite (dispatch_sw hd w (put w' w) inst len rs1 rs2 off y); try done;
      rewrite ?view_cpu, ?world_of_put; try done. apply (ag_ready Ha). }
  destruct (dev_store p b d a v s) as [[[]|c] s'].
  - destruct Hans as (w' & E & Hs' & Hu). pose proof (ba_core _ _ _ _ Hs') as Ha'.
    rewrite (Hex _ _ E (ag_ready Ha')). apply (access_done s' w' (set_reserved None (core s'))); try done.
    by apply agrees_unreserve.
  - intros Hc. destruct (Hans Hc) as (w' & E & Hs' & Hu).
    rewrite (Hex _ _ E (ag_ready (ba_core _ _ _ _ Hs'))). apply (access_failed c); [done|apply Hu|done..].
Qed.
End Access.

(** The instruction that is fetched. *)
Lemma fetched_bits s (w : W) bits : on_board s (world_of w) -> fetch p (core s) = inr bits ->
  fetch_word w = (Ok bits, w) /\ u32 bits.
Proof using HI HS Hdis Hwide.
  intros [Hs Hpc Hfr] Hf. pose proof (fetch_word_fetches p (core s) _ _ (ba_core _ _ _ _ Hs) Hpc Hwide) as He.
  unfold fetches in He. rewrite Hf in He. destruct He as [He Hb]. split; [|done].
  pose proof (fetch_word_lifts (W := W) (laid_out rs (p_size p)) (bus_stops checked rs) _ w) as Hl.
  rewrite in_ram, in_node in Hl. specialize (Hl (fr_layout _ _ Hfr)).
  change (node_of (view w)) with (w_cpu (world_of w), w_ram (world_of w)) in Hl. rewrite He in Hl.
  rewrite (proj2 (Hl I)). f_equal. change (_, _) with (node_of (world_of w)).
  unfold world_of. rewrite <- in_node. apply with_node_of.
Qed.

Lemma bus_executed s (w : W) op : on_board s (world_of w) -> around w -> bus_access p b (core s) = Some op ->
  exists bits, fetch_word w = (Ok bits, w) /\
    executed (core s) (bus_step p b op s) (execute_by_length hd bits w).
Proof using HI HS Hdis Hwide Hmap Hbs Haround.
  intros Hon Hv Hop. pose proof Hon as [Hs Hpc Hfr]. pose proof (ba_core _ _ _ _ Hs) as Ha.
  rewrite <- view_cpu in Ha. unfold bus_access in Hop.
  destruct (fetch p (core s)) as [|bits] eqn:Ef; [done|]. destruct (fetched_bits s w bits Hon Ef) as [Hf Hb].
  exists bits. split; [done|]. destruct (instr_of p bits) as [[i len]|] eqn:Hi; [|done].
  destruct (execute_by_length_starts hd p (core s) _ w bits i len Ha Hb Hi)
    as (inst & c1 & Hd & Hu & Ha1 & Hp1 & Hn1 & ->).
  assert (board_agrees p b s (world_of (put c1 w))) as Hs1 by by apply agrees_put_cpu.
  assert (frame s (world_of (put c1 w))) as Hfr1 by (rewrite world_of_cpu; by destruct Hfr; split).
  pose proof (around_cpu c1 w Hv) as Hv1. rewrite view_cpu, Hpc in Hp1, Hn1.
  destruct i as [| | | | | | |[] rd rs1 off|[] rs1 rs2 off| | | | | | | ]; try done;
    (destruct (bd_map b (wrap (x (core s) rs1 + off))) as [d|] eqn:Hm; [|done]); simpl in Hop; simplify_eq.
  - apply lw_executed; done || by rewrite world_of_cpu.
  - apply sw_executed; done || by rewrite world_of_cpu.
Qed.

(** A round with an access to a device. *)
Lemma bus_round s (w : W) op : on_board s (world_of w) -> around w -> bus_access p b (core s) = Some op ->
  match bus_step p b op s with
  | Going s' => worked s' (if p_timer p then timer_tick (hpc (core s)) (core s') else Running (core s'))
                  (round hd (p_timer p) w)
  | Halted c s' => seen checked c -> exists w',
      round hd (p_timer p) w = (Exn (board_exn c), w') /\ board_agrees p b s' (world_of w') /\ around w'
  | Open => True
  end.
Proof using HI HS Hdis Hwide Hmap Hbs Haround.
  intros Hon Hv Hop. destruct (bus_executed s w op Hon Hv Hop) as (bits & Hf & Hex).
  destruct (bus_step p b op s) as [s'|c s'|]; [|intros Hc|done];
    unfold round; unfold bind at 1; rewrite Hf; unfold bind at 1.
  - destruct Hex as (w' & -> & Hs' & Hfr' & Hv' & Hp' & Hn'). by apply rest_works.
  - destruct (Hex Hc) as (w' & -> & Hs'). by exists w'.
Qed.

(** The poll. *)
Definition board_runner (d : periph) : ST W unit := zoom (world_runner d).

(** The state of a run and the result of a number of rounds of the loop. *)
Definition board_outcome (res : board_result) (out : Prelude.res Z * W) : Prop :=
  match res with
  | Going s => exists w, out = (Ok (rounds s), w) /\ on_board s (world_of w) /\ around w
  | Halted c s => seen checked c -> exists w,
      out = (Exn (board_exn c), w) /\ board_agrees p b s (world_of w) /\ around w
  | Open => True
  end.

Lemma poll_all_outcome l s (w : W) : on_board s (world_of w) -> around w ->
  board_outcome (poll_all l s) ((for_each board_runner l ;;; ret 0) w).
Proof using Haround.
  revert s w. induction l as [|d l IH]; intros s w Hon Hv.
  - exists w. split; [done|]. split; [|done]. destruct Hon as [[] ? []]. by split; [split|..|split].
  - unfold bind. cbn [for_each poll_all]. unfold bind at 1.
    destruct d; [|by unfold board_runner at 1, zoom at 1; simpl; rewrite put_view; apply (IH s w Hon Hv)..].
    unfold board_runner at 1, zoom at 1. fold (world_of w). cbn [world_runner].
    pose proof (line_poll_agrees p b s (world_of w) (ob_agrees _ _ Hon)) as Hp.
    destruct (line_poll (line s)) as [ok u]. destruct Hp as (u' & E & Hu).
    destruct (line_changed p b s (world_of w) (ob_agrees _ _ Hon) u u' Hu) as [Ha [U1 U2 U3 U4 U5 U6]].
    unfold zoom at 1. cbn [view world_uart]. rewrite E. destruct ok.
    + apply (IH (with_line u s) (put (put u' (world_of w)) w)); [|by apply Haround]. rewrite world_of_put.
      destruct Hon as [_ Hpc []]. by split; [..|split].
    + intros _. eexists. split; [done|]. split; [by rewrite world_of_put|by apply Haround].
Qed.

Lemma end_round_outcome s (w : W) : on_board s (world_of w) -> around w ->
  board_outcome (end_round b s) (poll board_runner (rounds s) w).
Proof using HI Haround.
  intros Hon Hv. pose proof (fr_rounds _ _ (ob_frame _ _ Hon)) as Hr.
  unfold end_round, poll. rewrite land_ff. destruct (Z.eqb_spec (rounds s) 255) as [E|E].
  - rewrite E. change ((255 + 1) mod 256 =? 0) with true. cbn match.
    unfold peripherals_run, mget, gets, bind at 1 2.
    rewrite in_machine. fold (world_of w). rewrite (fr_polled _ _ (ob_frame _ _ Hon)).
    by apply poll_all_outcome.
  - rewrite (proj2 (Z.eqb_neq ((rounds s + 1) mod 256) 0)) by (rewrite Z.mod_small; lia).
    exists w. split; [done|]. split; [|done]. destruct Hon as [[] ? []]. split; [by split|done|split; try done]. simpl. lia.
Qed.

(** The devices do not count. *)
Lemma bus_step_rounds op s :
  match bus_step p b op s with Going s' => rounds s' = rounds s | _ => True end.
Proof using.
  destruct op as [d a rd len|d a v len]; simpl.
  - assert (rounds (snd (dev_load b d a s)) = rounds s) as E
      by (destruct d; simpl; unfold line_load, drive_load, clint_load; by repeat case_match).
    by destruct (dev_load b d a s) as [[] s'].
  - assert (rounds (snd (dev_store p b d a v s)) = rounds s) as E.
    { destruct d; simpl; unfold line_store, drive_store, clint_store, transfer, fill, drain,
        commit_time;
        by repeat case_match. }
    by destruct (dev_store p b d a v s) as [[] s'].
Qed.

(** A round from its work on. *)
Lemma of_core_outcome s (w : W) res k : k = rounds s -> worked s res (round hd (p_timer p) w) ->
  board_outcome (of_core b s res) ((round hd (p_timer p) ;;; poll board_runner k) w).
Proof using HI Hmap Haround.
  intros -> Hw. unfold bind. destruct res as [h|c h|]; simpl in Hw; [|..|done].
  - destruct Hw as (w' & -> & Hon & Hv). by apply (end_round_outcome (with_core h s)).
  - assert (seen checked (CoreStop c) ->
      match c with AccessFault a => bd_map b a = None | _ => True end ->
      exists w', round hd (p_timer p) w = (Exn (stop_exn c), w') /\
        board_agrees p b (with_core h s) (world_of w') /\ around w') as Hc.
    { intros Hc Hm. apply Hw. destruct c; try done. split; [done|]. by rewrite <- Hmap. }
    destruct c as [a| |]; simpl; [destruct (bd_map b a) as [|] eqn:Hm; [done|]|..];
      intros Hs; destruct (Hc Hs) as (w' & -> & Ha); try done; by exists w'.
Qed.

Lemma step_outcome s (w : W) : on_board s (world_of w) -> around w ->
  board_outcome (board_step p b s) (step_mmio hd board_runner (rounds s) w).
Proof using All.
  intros Hon Hv. rewrite step_mmio_eq, (fr_timer _ _ (ob_frame _ _ Hon)). unfold board_step.
  destruct (bus_access p b (core s)) as [op|] eqn:Hop.
  - pose proof (bus_round s w op Hon Hv Hop) as Hr.
    assert (match bus_step p b op s with Going s' => rounds s' = rounds s | _ => True end) as Hk
      by apply bus_step_rounds.
    destruct (bus_step p b op s) as [s'|c s'|]; [|intros Hc|done].
    + by apply of_core_outcome.
    + unfold bind. destruct (Hr Hc) as (w' & -> & Ha). by exists w'.
  - apply of_core_outcome; [done|]. by apply core_round.
Qed.

End Rounds.

