(* ===== verification/HostedBoard.v ===== *)
(** * Programs with system calls on the board

    The reference board of Board.v in an environment that takes the system calls, as the hart
    has one in Hosted.v: the specification ([hosted_board_run]) and the refinement of the loop
    with peripherals against it, for every handler that implements the environment and leaves
    the devices alone. *)

From Stdlib Require Import ZArith Lia Bool String.
From stdpp Require Import base numbers list option gmap strings.
From S2P Require Import Prelude PyStr Isa Ram Cpu Rvc CpuSem Exec ExecSem ExecSafe RamSafe Core.
From S2P Require Import MemInstr Trap IsaMachine Board IsaRefine Machine Peripherals World Lift.
From S2P Require Import MachineThms IsaRun Hosted MemClass MmioSafe BoardRefine.

Local Open Scope Z_scope.
Local Open Scope py_scope.

(** ** The board with its environment *)

Inductive station_result (E : Type) :=
| Station (s : soc) (e : E)
| StationStop (c : board_stop) (s : soc) (e : E)
| StationExit (code : Z) (s : soc) (e : E)
| StationOpen.
Arguments Station {E} s e.
Arguments StationStop {E} c s e.
Arguments StationExit {E} code s e.
Arguments StationOpen {E}.

Section Station.
Variables (p : platform) (b : board) (E : Type) (call : hart -> E -> call_result E).

Definition beside (e : E) (r : board_result) : station_result E :=
  match r with
  | Going s => Station s e
  | Halted c s => StationStop c s e
  | Open => StationOpen
  end.

Definition hosted_board_step (s : soc) (e : E) : station_result E :=
  if at_call p (core s) then
    match call (core s) e with
    | Returned h' e' =>
        let h2 := after_call (core s) h' in
        beside e' (of_core b s (if p_timer p then timer_tick (hpc (core s)) h2 else Running h2))
    | Ended code e' => StationExit code s e'
    | Refused => StationOpen
    end
  else beside e (board_step p b s).

Fixpoint hosted_board_run (n : nat) (s : soc) (e : E) : station_result E :=
  match n with
  | O => Station s e
  | S n' => match hosted_board_step s e with Station s' e' => hosted_board_run n' s' e' | r => r end
  end.
End Station.

Arguments beside {E} e r.
Arguments hosted_board_step p b {E} call s e.
Arguments hosted_board_run p b {E} call n s e.

(** ** Rounds *)

(** What a handler has to leave alone: the devices, the ranges and what selects the work of a
    round. *)
Definition board_rest (w : world) :=
  (w_timer w, w_uart w, w_blk w, layout (w_ram w), timer (w_machine w), peripheral_runners (w_machine w)).

Section Rounds.
Context {W : Type} `{HI : InWorld W} `{HS : !Separate W}.
Context (checked : bool) (p : platform) (b : board) (rs : list (Z * Z * periph)).
Hypothesis Hwide : p_wide p = true.
Hypothesis Hbs : 0 < bd_bsize b.
Hypothesis Hmap : forall a, bd_map b a = mmio_find a rs.
Hypothesis Hdis : forall a, 0 <= a -> a + 4 <= p_size p -> mmio_find a rs = None.
Context {E : Type} (call : hart -> E -> call_result E) (env : E -> W -> Prop).
Context {T : Type} (rest : W -> T) (hd : ST W unit) `{HImp : !Implements p call env rest hd}.
Hypothesis Henv : forall e w1 w, w_machine w1 = w_machine (world_of w) -> env e w -> env e (put w1 w).
Hypothesis Hrest : forall w w', rest w' = rest w -> board_rest (world_of w') = board_rest (world_of w).

#[local] Existing Instance board_ops.
Abbreviation on_board := (on_board p b rs).
Abbreviation worked e := (worked checked p b rs (env e)).
Abbreviation ops := (board_ops (W := W) checked).

(** The board whose rest is as before. *)
Lemma rest_agrees s h (w w' : W) : board_agrees p b s (world_of w) -> frame p b rs s (world_of w) ->
  board_rest (world_of w') = board_rest (world_of w) -> agrees p h (view w') (view w') ->
  board_agrees p b (with_core h s) (world_of w') /\ frame p b rs (with_core h s) (world_of w').
Proof using HI.
  intros [] [] [= E1 E2 E3 E4 E5 E6 E7] Ha. rewrite in_cpu, in_ram in Ha. unfold world_of in *.
  split; split; simpl; try congruence; unfold layout in *; simpl in *; congruence.
Qed.

Lemma board_call s e (w : W) : on_board s (world_of w) -> env e w -> at_call p (core s) = true ->
  match call (core s) e with
  | Returned h' e' => let h2 := after_call (core s) h' in
      worked e' s (if p_timer p then timer_tick (hpc (core s)) h2 else Running h2)
        (round (RV := ops) (Some hd) (p_timer p) w)
  | Ended code e' => exists w', round (RV := ops) (Some hd) (p_timer p) w =
        (Exn (ExecutionTerminated (ExitCode code)), w') /\
      board_agrees p b s (world_of w') /\ env e' w'
  | Refused => True
  end.
Proof using All.
  intros Hon He Hat. unfold at_call in Hat. destruct (fetch p (core s)) as [|bits] eqn:Ef; [done|].
  apply andb_true_iff in Hat as [Hb Hm]. apply Z.eqb_eq in Hb, Hm. subst bits.
  destruct (fetched_bits checked p b rs Hwide Hdis s w 0x73 Hon Ef) as [Hf _].
  destruct Hon as [Hs Hpc Hfr].
  destruct (ecall_starts ops p hd (core s) w) as (c & Ha & Hp & Hn & Hex); [|done|].
  { split; [|unfold node_of; simpl; by rewrite in_cpu]. unfold node_of. simpl. rewrite in_cpu, in_ram. apply Hs. }
  assert (env e (put c w)) as He1 by (rewrite put_in_cpu; by apply Henv).
  pose proof (call_implemented (Implements := HImp) (core s) e (put c w)) as Hc.
  rewrite view_put, sep_ram in Hc. specialize (Hc Ha Hp He1).
  assert (round (RV := ops) (Some hd) (p_timer p) w = (hd ;;; (zoom (bypassed_trap_return 11 0) ;;;
    zoom (set_reg 0 0)) ;;; tick (p_timer p) ;;; advance) (put c w)) as ->.
  { unfold round. unfold bind at 1. rewrite Hf.
    change (execute_by_length (Some hd) 0x73) with (execute_32 (R := ops) (Some hd) 0x73).
    unfold bind at 1. rewrite Hex. unfold bind. by destruct (hd (put c w)) as [[]]. }
  assert (board_rest (world_of (put c w)) = board_rest (world_of w)) as Hr0 by by rewrite world_of_cpu.
  destruct (call (core s) e) as [h' e'|code e'|]; [|..|done]; unfold bind at 1.
  - destruct Hc as (Hh & w' & -> & Ha' & Hp' & Hn' & He' & Hr'). rewrite Hp, <- Hh in Hp'.
    destruct (call_returns p h' w' Ha' Hp') as [Er Hb]. unfold bind at 1. rewrite Er.
    set (w2 := put (bypassed 11 (view w')) w').
    assert (board_rest (world_of w2) = board_rest (world_of w)) as Hr2
      by (unfold w2; rewrite world_of_cpu, <- Hr0; by apply Hrest).
    destruct (rest_agrees s (after_call (core s) h') w w2 Hs Hfr Hr2) as [Hs2 Hfr2].
    { unfold w2. rewrite view_put, sep_ram. by apply agrees_hpc. }
    apply (rest_works checked p b rs (env e') (Henv e') (with_core (after_call (core s) h') s)); try done.
    + unfold w2. rewrite put_in_cpu. by apply Henv.
    + unfold w2. rewrite world_of_cpu. simpl. congruence.
    + unfold w2. rewrite world_of_cpu. simpl. by rewrite Hn', Hn.
  - destruct Hc as (w' & -> & Ha' & He' & Hr'). exists w'. split; [done|]. split; [|done].
    assert (board_rest (world_of w') = board_rest (world_of w)) as Hr2 by (rewrite <- Hr0; by apply Hrest).
    destruct (rest_agrees s (core s) w w' Hs Hfr Hr2 Ha') as [Hs2 _]. by destruct s.
Qed.

(** ** Runs *)

(** The outcome of a number of rounds; the loop counts them, the run does not. *)
Definition station_outcome {A} (counted : soc -> A) (res : station_result E) (out : Prelude.res A * W) : Prop :=
  match res with
  | Station s e => exists w, out = (Ok (counted s), w) /\ on_board s (world_of w) /\ env e w
  | StationStop c s e => seen checked c -> exists w,
      out = (Exn (board_exn c), w) /\ board_agrees p b s (world_of w) /\ env e w
  | StationExit code s e => exists w,
      out = (Exn (ExecutionTerminated (ExitCode code)), w) /\ board_agrees p b s (world_of w) /\ env e w
  | StationOpen => True
  end.

Lemma beside_outcome e res out : board_outcome checked p b rs (env e) res out ->
  station_outcome rounds (beside e res) out.
Proof using. by destruct res. Qed.

Lemma hosted_step_outcome s e (w : W) : on_board s (world_of w) -> env e w ->
  station_outcome rounds (hosted_board_step p b call s e)
    (step_mmio (R := ops) (Some hd) board_runner (rounds s) w).
Proof using All.
  intros Hon He. unfold hosted_board_step. destruct (at_call p (core s)) eqn:Hat.
  - pose proof (board_call s e w Hon He Hat) as Hc.
    rewrite (step_mmio_eq checked), (fr_timer _ _ _ _ _ (ob_frame _ _ _ _ _ Hon)).
    destruct (call (core s) e) as [h' e'|code e'|]; [|..|done].
    + by apply beside_outcome, (of_core_outcome checked _ p b rs Hmap (env e') (Henv e')).
    + destruct Hc as (w' & E' & Ha). unfold bind. rewrite E'. by exists w'.
  - by apply beside_outcome, (step_outcome checked _ p b rs Hwide Hbs Hmap Hdis (env e) (Henv e)).
Qed.

Lemma hosted_loop_outcome n s e (w : W) k : k = rounds s -> on_board s (world_of w) -> env e w ->
  station_outcome rounds (hosted_board_run p b call n s e)
    (loop n (step_mmio (R := ops) (Some hd) board_runner) k w).
Proof using All.
  revert s e w k. induction n as [|n IH]; intros s e w k -> Hon He; cbn [loop hosted_board_run]; [by exists w|].
  pose proof (hosted_step_outcome s e w Hon He) as Hstep. unfold bind.
  destruct (hosted_board_step p b call s e) as [s' e'|c s' e'|code s' e'|]; [|intros Hc|..|done].
  - destruct Hstep as (w' & -> & Hon' & He'). by apply IH.
  - destruct (Hstep Hc) as (w' & -> & Ha). by exists w'.
  - destruct Hstep as (w' & -> & Ha). by exists w'.
Qed.

(** run() without logging and checks, with peripherals. *)
Lemma run_on_board n s e (w : W) : on_board s (world_of w) -> env e w -> rounds s = 0 ->
  (let m := w_machine (world_of w) in
   truthy (regs_opt m) || check_inv m || trace m = false /\ mmio m = true /\ m_rvc m = p_rvc p) ->
  hpc (core s) mod isa_align p = 0 ->
  station_outcome (fun _ => tt) (hosted_board_run p b call n s e) (run (R := ops) (Some hd) board_runner n w).
Proof using All.
  intros Hon He Hk (Hq & Hm & Hr) Hal.
  assert (run (R := ops) (Some hd) board_runner n w = run_mmio (R := ops) (Some hd) board_runner n w) as ->.
  { unfold run, bind at 1 2, mget, gets, id. rewrite in_machine, view_cpu. fold (world_of w).
    rewrite Hr, (ob_pc _ _ _ _ _ Hon), Hq, Hm. unfold isa_align in Hal.
    by destruct (p_rvc p); rewrite ?land_1, ?land_3, Hal. }
  pose proof (hosted_loop_outcome n s e w 0 (eq_sym Hk) Hon He) as Hl. unfold run_mmio, bind.
  destruct (hosted_board_run p b call n s e) as [s' e'|c s' e'|code s' e'|]; [|intros Hc; specialize (Hl Hc)|..|done];
    destruct Hl as (w' & -> & Ha); by exists w'.
Qed.
End Rounds.
