(* ===== verification/Robust.v ===== *)
(** * A processor that runs whatever its registers hold

    The system-call handler stores error codes as negative integers, the heap pointer it
    returns has no bound, and so has the upper half of the memory-mapped timer: in the
    emulator as it is put together a register need not hold a 32-bit value.  What every
    instruction keeps all the same is the shape of the processor: the size of its files
    and the fields of the cached decodings.  With it no index is out of range, and the
    exceptions that escape are those of the emulator, the OverflowError of a quotient that
    is too large for a float, the OSError of a failing host call, and what the surroundings
    of the emulator provoke ([Lapses]). *)

From Stdlib Require Import ZArith Lia Bool String.
From stdpp Require Import base numbers list option gmap strings.
From S2P Require Import Prelude PyFloat PyStr Isa Ram Cpu Rvc CpuSem Exec ExecSem ExecSafe RamSafe Core.
From S2P Require Import Machine MachineThms.

Local Open Scope Z_scope.
Local Open Scope py_scope.

Record shape (c : cpu) : Prop := {
  sh_regs : py_len (registers c) = 32;
  sh_csrs : py_len (csrs c) = 4096;
  sh_cache : forall k d, decode_cache c !! k = Some d -> fields_ok d;
  sh_cache_c : forall k d e, decode_cache_compressed c !! k = Some (d, e) -> fields_ok d
}.

Lemma wf_shape c : wf_cpu c -> shape c.
Proof.
  intros Hc. split; [apply Hc..|apply (wf_cache c Hc)|]. intros k d e H. by eapply (wf_cache_c c Hc).
Qed.

(** The exceptions of Python that the program file and the terminal may provoke: which they
    are is said where the files and the host are described. *)
Class Lapses := lapse : exn -> Prop.

(** The exceptions that can end a run. *)
Definition failure `{LX : Lapses} (e : exn) : Prop :=
  machine_error e \/ e = OverflowError \/ e = OSError \/ lapse e.

Section Robust.
Context {LX : Lapses}.

Lemma machine_failure e : machine_error e -> failure e.
Proof. by left. Qed.

Lemma keeps_failure {S A} (I : S -> Prop) (m : ST S A) Q :
  keeps machine_error I m Q -> keeps failure I m Q.
Proof. intros Hm. eapply triple_conseq; [exact Hm|done|done|]. intros e s []. auto using machine_failure. Qed.

(** ** The handlers of the processor *)

Abbreviation robust m := (keeps failure shape m (fun _ => True)).

Lemma reg_robust i : 0 <= i < 32 -> robust (reg i).
Proof. intros Hi c Hc. by rewrite reg_eq by (done || by apply sh_regs). Qed.

Lemma csr_robust i : 0 <= i < 4096 -> robust (csr i).
Proof. intros Hi c Hc. by rewrite csr_eq by (done || by apply sh_csrs). Qed.

Lemma set_reg_robust i v : 0 <= i < 32 -> robust (set_reg i v).
Proof.
  intros Hi c Hc. rewrite set_reg_eq by (done || by apply sh_regs). split; [|done].
  destruct Hc. split; try done. by rewrite wr_len.
Qed.

Lemma set_csr_robust i v : 0 <= i < 4096 -> robust (set_csr i v).
Proof.
  intros Hi c Hc. rewrite set_csr_eq by (done || by apply sh_csrs). split; [|done].
  destruct Hc. split; try done. by rewrite wc_len.
Qed.

Lemma modify_robust f : (forall c, shape c -> shape (f c)) -> robust (modify f).
Proof. intros Hf. by apply keeps_modify. Qed.

#[local] Hint Extern 1 (keeps failure _ (reg _) _) => apply reg_robust; lia : keeps.
#[local] Hint Extern 1 (keeps failure _ (csr _) _) => apply csr_robust; lia : keeps.
#[local] Hint Extern 1 (keeps failure _ (set_reg _ _) _) => apply set_reg_robust; lia : keeps.
#[local] Hint Extern 1 (keeps failure _ (set_csr _ _) _) => apply set_csr_robust; lia : keeps.
#[local] Hint Extern 2 (keeps failure shape (modify _) _) =>
  apply modify_robust; by intros ? [] : keeps.
#[local] Hint Extern 2 (keeps failure _ (raise _) _) => apply keeps_raise; left; reflexivity : keeps.
#[local] Hint Extern 2 (keeps failure _ (ret _) _) => apply keeps_ret; exact I : keeps.

Lemma trap_robust cause mtval sync : robust (trap cause mtval sync).
Proof. unfold trap. keep. Qed.

Lemma illegal_robust inst : robust (illegal inst).
Proof. apply trap_robust. Qed.

#[local] Hint Resolve trap_robust illegal_robust : keeps.

Lemma quotient_robust (o : option Z) : robust (of_option OverflowError o).
Proof. apply keeps_of_option; [done|]. intros _. right. by left. Qed.

#[local] Hint Resolve quotient_robust : keeps.

Lemma exec_Rtype_robust inst rd f3 rs1 rs2 f7 :
  0 <= rd < 32 -> 0 <= rs1 < 32 -> 0 <= rs2 < 32 -> robust (exec_Rtype inst rd f3 rs1 rs2 f7).
Proof. intros. unfold exec_Rtype. keep. Qed.

Lemma exec_Itype_robust inst rd f3 rs1 f7 : 0 <= rd < 32 -> 0 <= rs1 < 32 ->
  robust (exec_Itype inst rd f3 rs1 f7).
Proof. intros. unfold exec_Itype. keep. Qed.

Lemma exec_branches_robust inst f3 rs1 rs2 : 0 <= rs1 < 32 -> 0 <= rs2 < 32 ->
  robust (exec_branches inst f3 rs1 rs2).
Proof. intros. unfold exec_branches, check_target. keep. Qed.

Lemma exec_LUI_robust inst rd : 0 <= rd < 32 -> robust (exec_LUI inst rd).
Proof. intros. unfold exec_LUI. keep. Qed.

Lemma exec_AUIPC_robust inst rd : 0 <= rd < 32 -> robust (exec_AUIPC inst rd).
Proof. intros. unfold exec_AUIPC. keep. Qed.

Lemma exec_JAL_robust inst len rd : 0 <= rd < 32 -> robust (exec_JAL inst len rd).
Proof. intros. unfold exec_JAL, check_target, link_and_jump. keep. Qed.

Lemma exec_JALR_robust inst len rd f3 rs1 : 0 <= rd < 32 -> 0 <= rs1 < 32 ->
  robust (exec_JALR inst len rd f3 rs1).
Proof. intros. unfold exec_JALR, check_target, link_and_jump. keep. Qed.

Lemma exec_MISCMEM_robust inst f3 : robust (exec_MISCMEM inst f3).
Proof. unfold exec_MISCMEM. keep. Qed.

Lemma bypassed_robust cause mtval : robust (bypassed_trap_return cause mtval).
Proof. unfold bypassed_trap_return. keep. Qed.

Lemma exec_MRET_robust : robust exec_MRET.
Proof. unfold exec_MRET, check_target. keep. Qed.

Lemma update_mtime_robust n : robust (update_mtime n).
Proof. unfold update_mtime. keep. Qed.

Lemma update_mtimecmp_robust n : robust (update_mtimecmp n).
Proof. unfold update_mtimecmp. keep. Qed.

#[local] Hint Resolve update_mtime_robust update_mtimecmp_robust : keeps.

Lemma exec_CSR_robust inst rd f3 rs1 : 0 <= rd < 32 -> 0 <= rs1 < 32 ->
  robust (exec_CSR inst rd f3 rs1).
Proof.
  intros Hrd Hrs. unfold exec_CSR, csr_result. set (n := Z.land (Z.shiftr inst 20) 0xFFF).
  assert (0 <= n < 4096) by (unfold n; rewrite land_fff; apply Z.mod_pos_bound; lia).
  clearbody n. keep.
Qed.

Lemma timer_update_robust : robust timer_update.
Proof. unfold timer_update. keep. Qed.

(** ** What a memory promises *)

(** The operations of a memory keep an invariant [I] of the world that includes the shape of
    the processor; a binary transfer moves bytes.  Nothing is said of the words it loads. *)
Class RamKeeps {W : Type} `{HC : Has cpu W} `{R : RamOps W} (I : W -> Prop) : Prop := {
  rk_view : forall w, I w -> shape (view w);
  rk_put : forall w c, I w -> shape c -> I (put c w);
  rk_load_byte : forall a s, keeps failure I (load_byte a s) (fun _ => True);
  rk_load_half : forall a s, keeps failure I (load_half a s) (fun _ => True);
  rk_load_word : forall a, keeps failure I (load_word a) (fun _ => True);
  rk_store_byte : forall a v, keeps failure I (store_byte a v) (fun _ => True);
  rk_store_half : forall a v, keeps failure I (store_half a v) (fun _ => True);
  rk_store_word : forall a v, keeps failure I (store_word a v) (fun _ => True);
  rk_load_cstring : forall a n, keeps failure I (load_cstring a n) (fun _ => True);
  rk_load_binary : forall a n, keeps failure I (load_binary a n) (Forall u8);
  rk_store_binary : forall a b, Forall u8 b -> keeps failure I (store_binary a b) (fun _ => True)
}.

(** ** Instructions *)

Section Instructions.
Context {W : Type} `{HC : Has cpu W} `{R : RamOps W} (I : W -> Prop) `{HK : !RamKeeps I}.

Abbreviation rsafe m := (keeps failure I m (fun _ => True)).

Lemma zoom_robust {A} (m : ST cpu A) Q : keeps failure shape m Q -> keeps failure I (zoom m) Q.
Proof.
  intros Hm. eapply keeps_zoom; [exact Hm|apply rk_view|intros; by apply rk_put].
Qed.

#[local] Hint Resolve rk_load_byte rk_load_half rk_load_word rk_store_byte rk_store_half
  rk_store_word rk_load_cstring bypassed_robust exec_MRET_robust : keeps.
#[local] Hint Extern 1 (keeps failure _ (zoom _) _) =>
  apply zoom_robust; solve [eauto 4 with keeps] : keeps.

Lemma exec_loads_robust inst rd f3 rs1 : 0 <= rd < 32 -> 0 <= rs1 < 32 ->
  rsafe (exec_loads inst rd f3 rs1).
Proof. intros. unfold exec_loads. keep. Qed.

Lemma exec_stores_robust inst f3 rs1 rs2 : 0 <= rs1 < 32 -> 0 <= rs2 < 32 ->
  rsafe (exec_stores inst f3 rs1 rs2).
Proof. intros. unfold exec_stores, clear_reservation. keep. Qed.

Lemma exec_EBREAK_robust : rsafe exec_EBREAK.
Proof. unfold exec_EBREAK. keep. Qed.

Lemma amo_rmw_robust addr rd rs2 op : 0 <= rd < 32 -> 0 <= rs2 < 32 -> rsafe (amo_rmw addr rd rs2 op).
Proof. intros. unfold amo_rmw, clear_reservation. keep. Qed.

Lemma amo_rmw_unsigned_robust addr rd rs2 op : 0 <= rd < 32 -> 0 <= rs2 < 32 ->
  rsafe (amo_rmw_unsigned addr rd rs2 op).
Proof. intros. unfold amo_rmw_unsigned, clear_reservation. keep. Qed.

#[local] Hint Resolve exec_EBREAK_robust amo_rmw_robust amo_rmw_unsigned_robust : keeps.

Lemma exec_AMO_robust inst rd f3 rs1 rs2 : 0 <= rd < 32 -> 0 <= rs1 < 32 -> 0 <= rs2 < 32 ->
  rsafe (exec_AMO inst rd f3 rs1 rs2).
Proof. intros. unfold exec_AMO, exec_LR, exec_SC, clear_reservation. keep. Qed.

Context (handle_ecall : option (ST W unit)).
Hypothesis Hecall : forall h, handle_ecall = Some h -> rsafe h.

Lemma exec_ECALL_robust : rsafe (exec_ECALL handle_ecall).
Proof.
  unfold exec_ECALL. eapply keeps_bind; [keep|]. intros mtvec _.
  destruct handle_ecall as [h|]; keep.
Qed.

#[local] Hint Resolve exec_ECALL_robust : keeps.

Lemma exec_SYSTEM_robust inst rd f3 rs1 : 0 <= rd < 32 -> 0 <= rs1 < 32 ->
  rsafe (exec_SYSTEM handle_ecall inst rd f3 rs1).
Proof. intros. unfold exec_SYSTEM. keep. by apply zoom_robust, exec_CSR_robust. Qed.

Lemma dispatch_robust inst len d : fields_ok d -> rsafe (dispatch handle_ecall inst len d).
Proof.
  destruct d as [op rd f3 rs1 rs2 f7]. intros (Hrd & Hrs1 & Hrs2 & Hf3).
  simpl in *. unfold dispatch.
  repeat match goal with |- keeps _ _ (if _ then _ else _) _ => apply keeps_if; intros _ end;
    try match goal with |- keeps _ _ (zoom _) _ => apply zoom_robust end;
    eauto using exec_Rtype_robust, exec_Itype_robust, exec_branches_robust, exec_LUI_robust,
      exec_AUIPC_robust, exec_JAL_robust, exec_JALR_robust, exec_MISCMEM_robust, illegal_robust,
      exec_loads_robust, exec_stores_robust, exec_SYSTEM_robust, exec_AMO_robust.
Qed.

Lemma execute_decoded_robust inst len d : fields_ok d ->
  rsafe (execute_decoded handle_ecall inst len d).
Proof.
  intros Hd. unfold execute_decoded. eapply keeps_bind; [keep|]. intros _ _.
  eapply keeps_bind; [by apply dispatch_robust|]. intros _ _. keep.
Qed.

Lemma execute_32_robust inst : rsafe (execute_32 handle_ecall inst).
Proof.
  unfold execute_32. pose proof (decode_fields_ok inst) as Hi.
  apply keeps_bind with (R := fun hit => forall d, hit = Some d -> fields_ok d).
  - apply keeps_gets. intros w Hw d. eapply sh_cache, rk_view, Hw.
  - intros [d|] Hd; [by apply execute_decoded_robust, Hd|].
    eapply keeps_bind; [|intros; by apply execute_decoded_robust].
    apply zoom_robust, modify_robust. intros c []. split; simpl; try done.
    intros k d. rewrite lookup_insert_Some. intros [[_ <-]|[_ ?]]; eauto.
Qed.

Lemma execute_16_robust inst : rsafe (execute_16 handle_ecall inst).
Proof.
  unfold execute_16.
  apply keeps_bind with (R := fun hit => forall d e, hit = Some (d, e) -> fields_ok d).
  - apply keeps_gets. intros w Hw d e. eapply sh_cache_c, rk_view, Hw.
  - intros [[d e]|] Hd; [by eapply execute_decoded_robust, Hd|].
    destruct (expand_compressed inst) as [e []]; cbn [negb]; [|keep].
    pose proof (decode_fields_ok e) as He.
    eapply keeps_bind; [|intros; by apply execute_decoded_robust].
    apply zoom_robust, modify_robust. intros c []. split; simpl; try done.
    intros k d e'. rewrite lookup_insert_Some. intros [[_ [= <- _]]|[_ ?]]; eauto.
Qed.

#[local] Hint Resolve execute_32_robust execute_16_robust : keeps.

Lemma execute_robust inst : rsafe (execute handle_ecall inst).
Proof. unfold execute. keep. Qed.

(** ** The loops *)

Context `{HR : Has ram W} `{HM : Has machine W}.
Hypothesis Hcheck : forall w b, I w -> I (put (set_check_enable b (view w)) w).
Hypothesis Hstart : forall w, I w -> start_checks (view (A := machine) w) <> None.

#[local] Instance robust_loop : LoopSafe failure (fun _ => True) I handle_ecall.
Proof.
  split; intros; try solve [auto with keeps].
  - by apply machine_failure.
  - apply rk_load_word.
  - unfold fetch_word. keep.
  - unfold fetch_halves. keep.
  - apply execute_robust.
  - unfold execute_by_length. keep.
  - unfold advance. keep.
  - apply zoom_robust, timer_update_robust.
  - intros w Hw. unfold mset, zoom, modify. split; [|done]. by apply Hcheck.
Qed.

Lemma run_robust runner n : (forall p, rsafe (runner p)) -> rsafe (run handle_ecall runner n).
Proof. intros Hr. by apply (run_safe failure (fun _ => True) I handle_ecall). Qed.
End Instructions.
End Robust.
