(* ===== verification/SyscallSafe.v ===== *)
(** * The system calls keep the emulator going

    Every call of syscalls.py, on registers that hold any integers, keeps the shape of the
    processor, the memory and the handler's own table, and raises only [failure]s, for a
    host that behaves: [HostSafe] says that its calls return, with bytes where bytes are
    due; that a line read from the terminal can be encoded, or else the ValueError of its
    encoding is one of the [Lapses]; and that the raw terminal is not at its end, or else
    the TypeError of [ord] is. *)

From Stdlib Require Import ZArith Lia Bool String.
From stdpp Require Import base numbers list option gmap strings.
From S2P Require Import Prelude PyStr Isa Ram Cpu Rvc CpuSem Exec ExecSem ExecSafe RamSafe Core.
From S2P Require Import Machine Syscalls MachineThms Robust.

Local Open Scope Z_scope.
Local Open Scope py_scope.

(** ** Encoding *)

(** A code point that can be encoded. *)
Definition scalar (c : Z) : Prop := 0 <= c < 0x110000 /\ (c < 0xD800 \/ 0xDFFF < c).

Lemma lead_byte p v : u8 p -> u8 v -> u8 (Z.lor p v).
Proof. intros. apply uN_lor; done || lia. Qed.

Lemma utf8_char_bytes c : scalar c -> exists b, utf8_char c = Some b /\ Forall u8 b.
Proof.
  intros [Hc Hs]. unfold utf8_char.
  assert (forall v, u8 (Z.lor 0x80 (Z.land v 0x3F))) as Hcont.
  { intros v. apply lead_byte; [by split|]. change 0x3F with (Z.ones 6). rewrite Z.land_ones by lia.
    pose proof (Z.mod_pos_bound v (2 ^ 6)). unfold uN. lia. }
  assert (forall p k, u8 p -> 0 <= k -> c < 2 ^ (8 + k) -> u8 (Z.lor p (Z.shiftr c k))) as Hlead.
  { intros p k Hp Hk Hlt. apply lead_byte; [done|]. rewrite Z.shiftr_div_pow2 by done.
    rewrite Z.pow_add_r in Hlt by lia. split; [apply Z.div_pos; lia|].
    apply Z.div_lt_upper_bound; lia. }
  repeat case_match; try lia; eexists; (split; [reflexivity|]); repeat (constructor; auto);
    try (apply Hlead; [by split|lia|lia]); lia.
Qed.

Lemma utf8_bytes s : Forall scalar s -> exists b, utf8_encode s = Some b /\ Forall u8 b.
Proof.
  induction 1 as [|c s Hc _ (b & E & Hb)]; simpl; [by exists []|].
  destruct (utf8_char_bytes c Hc) as (x & -> & Hx). rewrite E. eauto using Forall_app_2.
Qed.

Section Lapsing.
Context {LX : Lapses}.

(** Any text that is encoded gives bytes. *)
Definition code_point (c : Z) : Prop := 0 <= c < 0x110000.

Lemma encoded_scalar s b : Forall code_point s -> utf8_encode s = Some b -> Forall scalar s.
Proof.
  intros Hs. revert b. induction Hs as [|c s Hc _ IH]; intros b; [constructor|]. simpl.
  destruct (utf8_char c) as [x|] eqn:Ex; [|done]. destruct (utf8_encode s) as [y|]; [|done].
  intros _. constructor; [|by eapply IH]. split; [done|]. unfold utf8_char in Ex.
  repeat case_match; try done; lia.
Qed.

(** A text that is encoded, or whose ValueError is allowed for. *)
Definition encodable (s : list Z) : Prop :=
  Forall code_point s /\ (Forall scalar s \/ lapse ValueError).

Lemma encoding_keeps {W} (I : W -> Prop) s : encodable s ->
  keeps failure I (of_option ValueError (utf8_encode s)) (Forall u8).
Proof.
  intros [Hc Ht]. apply keeps_of_option.
  - intros b Eb. destruct (utf8_bytes s (encoded_scalar s b Hc Eb)) as (b' & E' & Hb). congruence.
  - intros En. destruct Ht as [Ht|Hl]; [|by right; right; right].
    destruct (utf8_bytes s Ht) as (b & Eb & _). congruence.
Qed.

(** ** A host that behaves *)

Definition bytes_or_error (r : os_result (list Z)) : Prop :=
  match r with Done data => Forall u8 data | Fail _ => True end.

Class HostSafe {W : Type} `{HO : Host W} (I : W -> Prop) : Prop := {
  hs_print : forall data, keeps failure I (host_print data) (fun _ => True);
  hs_input : keeps failure I host_input
               (from_option encodable True);
  hs_read_char : keeps failure I host_read_char (fun ch => ch <> None \/ lapse TypeError);
  hs_write : forall fd data, keeps failure I (os_write fd data) (fun _ => True);
  hs_read : forall fd n, keeps failure I (os_read fd n) bytes_or_error;
  hs_open : forall path flags mode, keeps failure I (os_open path flags mode) (fun _ => True);
  hs_close : forall fd, keeps failure I (os_close fd) (fun _ => True);
  hs_lseek : forall fd off whence, keeps failure I (os_lseek fd off whence) (fun _ => True);
  hs_fstat : forall fd, keeps failure I (os_fstat fd) (fun _ => True);
  hs_umask : forall m, keeps failure I (os_umask m) (fun _ => True);
  hs_mkdir : forall path mode, keeps failure I (os_mkdir path mode) (fun _ => True);
  hs_rmdir : forall path, keeps failure I (os_rmdir path) (fun _ => True);
  hs_unlink : forall path, keeps failure I (os_unlink path) (fun _ => True)
}.

(** ** The calls *)

(** The heap has an end wherever the stack has a bottom, unless the TypeError of an addition
    without it is one of the [Lapses]. *)
Definition heap_defined (m : machine) : Prop :=
  stack_bottom m <> None -> heap_end m <> None \/ lapse TypeError.

Section Calls.
Context {W : Type} `{HC : Has cpu W} `{HR : Has ram W} `{HM : Has machine W} `{R : RamOps W}.
Context `{HS : Has syscalls W} `{HO : Host W}.
Context (I : W -> Prop) `{HK : !RamKeeps I} `{HH : !HostSafe I}.
Hypothesis Hlog : forall w, I w -> sys_logger (view (A := syscalls) w) = true.
Hypothesis Hsys : forall w (s : syscalls), I w -> sys_logger s = true -> I (put s w).
Hypothesis Hheap : forall w, I w -> heap_defined (view w).
Hypothesis Hend : forall w v, I w -> I (put (set_heap_end (Some v) (view w)) w).

Abbreviation call m := (keeps failure I m (fun _ => True)).

Lemma arg_call i : 0 <= i < 8 -> call (arg i).
Proof. intros Hi. apply zoom_robust; [done|]. apply reg_robust. lia. Qed.

Lemma result_call v : call (result v).
Proof. apply zoom_robust; [done|]. apply set_reg_robust. lia. Qed.

Lemma warning_call : call warning.
Proof.
  intros w Hw. unfold warning, yget, bind, gets. by rewrite (Hlog w Hw).
Qed.

Lemma yget_call {A} (f : syscalls -> A) : call (yget f).
Proof. apply keeps_any. Qed.

Lemma yset_call f : (forall s, sys_logger s = true -> sys_logger (f s) = true) -> call (yset f).
Proof.
  intros Hf w Hw. unfold yset, zoom, modify. split; [|done]. apply Hsys; [done|]. by apply Hf, Hlog.
Qed.

#[local] Hint Extern 1 (keeps failure _ (arg _) _) => apply arg_call; lia : keeps.
#[local] Hint Extern 1 (keeps failure _ (yset _) _) => apply yset_call; by intros [] : keeps.
#[local] Hint Extern 2 (keeps failure _ (ret _) _) => by apply keeps_ret : keeps.
#[local] Hint Extern 2 (keeps failure _ (raise _) _) =>
  apply keeps_raise; solve [left; reflexivity|right; right; left; reflexivity] : keeps.
#[local] Hint Resolve result_call warning_call yget_call hs_print hs_write hs_open hs_close
  hs_lseek hs_fstat hs_umask hs_mkdir hs_rmdir hs_unlink rk_load_cstring rk_store_byte : keeps.

(** The cases of an answer. *)
Ltac answer := repeat (match goal with |- keeps _ _ (match ?x with _ => _ end) _ => destruct x end; keep).

Lemma exit_call : call handle_exit.
Proof.
  unfold handle_exit. eapply keeps_bind; [|intros _ _; keep].
  apply zoom_robust; [done|]. apply modify_robust. by intros c [].
Qed.

Lemma sbrk_call : call handle_sbrk.
Proof.
  intros w Hw. unfold handle_sbrk, mget, bind at 1, gets.
  destruct (stack_bottom (view w)) as [bottom|] eqn:Eb; [|split; [done|by left]].
  assert (heap_end (view (A := machine) w) <> None \/ lapse TypeError) as He by (apply (Hheap w Hw); congruence).
  unfold bind at 1. pose proof (arg_call 0 ltac:(lia) w Hw) as Ha.
  assert (snd (arg 0 w) = w) as Es.
  { unfold arg, zoom. rewrite reg_eq by (lia || by apply sh_regs, rk_view). simpl. by rewrite put_view. }
  destruct (arg 0 w) as [[increment|e] w1]; [|done]. simpl in Es. subst w1.
  unfold bind at 1. destruct (heap_end (view w)) as [h|];
    [|destruct He as [|Hl]; [done|]; split; [done|by right; right; right]].
  unfold bind at 1. cbn [of_option ret]. destruct (bottom <=? h + increment); [by apply result_call|].
  unfold bind, mset, zoom at 1, modify. by apply result_call, Hend.
Qed.

Lemma write_call : call handle_write.
Proof.
  unfold handle_write. do 3 (eapply keeps_bind; [keep|intros ? _]).
  eapply keeps_bind; [apply rk_load_binary|]. intros data _. unfold lookup_fd. keep; answer.
Qed.

Lemma read_call : call handle_read.
Proof.
  unfold handle_read. do 3 (eapply keeps_bind; [keep|intros ? _]). apply keeps_if; intros _.
  - eapply keeps_bind; [keep|]. intros raw _. apply keeps_if; intros _.
    + eapply keeps_bind; [apply hs_input|]. intros text Ht.
      eapply (keeps_bind _ _ _ _ (Forall u8)).
      * destruct text as [text|]; simpl in Ht; [|by apply keeps_ret].
        eapply keeps_bind with (R := Forall u8);
          [|intros b Hb; apply keeps_ret; by apply py_slice_Forall].
        apply encoding_keeps. destruct Ht as [Hc Ht].
        split; [by apply Forall_app_2; repeat constructor|].
        destruct Ht as [Ht|]; [left; by apply Forall_app_2; repeat constructor|by right].
      * intros data Hd. eapply keeps_bind; [by apply rk_store_binary|]. intros _ _. keep.
    + eapply keeps_bind; [apply hs_read_char|].
      intros [ch|] Hch; [|destruct Hch as [|Hl]; [done|by intros w Hw; split; [|right; right; right]]].
      eapply (keeps_bind _ _ _ _ (fun _ => True)); [by apply keeps_ret|]. intros ch' _. keep.
  - unfold lookup_fd. eapply keeps_bind; [keep|]. intros [h|] _; [|keep].
    eapply keeps_bind; [apply hs_read|]. intros [data|e] Hd; simpl in Hd; [|keep].
    eapply keeps_bind; [by apply rk_store_binary|]. intros _ _. keep.
Qed.

Lemma at_cwd_call body : call body -> call (at_cwd body).
Proof. intros Hb. unfold at_cwd. keep. Qed.

Lemma openat_call : call handle_openat.
Proof. apply at_cwd_call. keep; answer. Qed.

Lemma close_call : call handle_close.
Proof. unfold handle_close, lookup_fd. keep; answer. Qed.

Lemma lseek_call : call handle_lseek.
Proof. unfold handle_lseek, lookup_fd. keep; answer. Qed.

Lemma stat_bytes mode size : Forall u8 (stat_buf mode size).
Proof.
  unfold stat_buf. repeat apply Forall_app_2; try (by apply Forall_replicate);
    repeat constructor; apply u8_byte_of.
Qed.

Lemma fstat_call : call handle_fstat.
Proof.
  assert (forall p mode size, call (store_stat p mode size)) as Hst.
  { intros. unfold store_stat. eapply keeps_bind; [apply rk_store_binary, stat_bytes|]. intros _ _. keep. }
  unfold handle_fstat, lookup_fd. keep; answer.
Qed.

Lemma isatty_call : call handle_isatty.
Proof. unfold handle_isatty, lookup_fd. keep; answer. Qed.

Lemma umask_call : call handle_umask.
Proof. unfold handle_umask. keep. Qed.

Lemma mkdirat_call : call handle_mkdirat.
Proof. apply at_cwd_call. keep; answer. Qed.

Lemma unlinkat_call : call handle_unlinkat.
Proof. apply at_cwd_call. keep; answer. Qed.

Lemma handle_call : call handle.
Proof.
  unfold handle. eapply keeps_bind; [apply zoom_robust; [done|apply reg_robust; lia]|].
  intros id _. assert (forall h, syscall_handler id = Some h -> call h) as Hh.
  { intros h. unfold syscall_handler, handle_kill, handle_getpid.
    repeat case_match; intros [= <-]; eauto using exit_call, sbrk_call, write_call, read_call,
      openat_call, close_call, lseek_call, fstat_call, isatty_call, umask_call, mkdirat_call,
      unlinkat_call, result_call. }
  destruct (syscall_handler id) as [h|]; [by apply Hh|keep].
Qed.
End Calls.
End Lapsing.
