(* ===== verification/Log.v ===== *)
(** * Texts and log handlers

    What the emulator writes to its log: the formatters and the handler of riscv-emu.py,
    which keep the lines intact on a terminal in raw mode, the register dump of cpu.py,
    and the logger of the web application.  A text is a list of code points. *)

From Stdlib Require Import ZArith Lia Bool Ascii String.
From stdpp Require Import base numbers list option gmap strings.
From S2P Require Import Prelude PyFloat PyStr Isa Ram Cpu Machine.

Local Open Scope Z_scope.

(** ** Number formats *)

Definition HEX_DIGITS : pystr := codes "0123456789ABCDEF".

Fixpoint hex_digits (fuel : nat) (n : Z) (acc : pystr) : pystr :=
  match fuel with
  | O => acc
  | S f => let acc' := nth (Z.to_nat (n mod 16)) HEX_DIGITS 0 :: acc in
           if n <? 16 then acc' else hex_digits f (n / 16) acc'
  end.

(** [f"{z:X}"] of a number that is not negative. *)
Definition py_hex (z : Z) : pystr := hex_digits (S (Z.to_nat (Z.log2 z))) z [].

(** [str(z)] *)
Definition py_dec (z : Z) : pystr := codes (py_str z).

(** Zeros in front, up to a width; a sign comes first. *)
Definition pad_zeros (width : nat) (l : pystr) : pystr := repeat 48 (width - length l) ++ l.

Definition zero_pad (width : nat) (z : Z) (digits : Z -> pystr) : pystr :=
  if z <? 0 then 45 :: pad_zeros (width - 1) (digits (- z)) else pad_zeros width (digits z).

(** [f"{z:08X}"] *)
Definition hex08 (z : Z) : pystr := zero_pad 8 z py_hex.

(** [f"{s:<width}"] *)
Definition ljust (width : nat) (s : pystr) : pystr := s ++ repeat 32 (width - length s).

(** [f"{x:0<width>.3f}"] of the number m / 2^e: rounded to thousandths, ties to even. *)
Definition fixed3 (n : Z) : pystr :=
  py_dec (n / 1000) ++ codes "." ++ pad_zeros 3 (py_dec (n mod 1000)).

Definition float_3f (width : nat) (m e : Z) : pystr :=
  let n := round_half_even (Z.abs m * 1000) (2 ^ e) in
  if m <? 0 then 45 :: pad_zeros (width - 1) (fixed3 n) else pad_zeros width (fixed3 n).

Example hex08_ex : map hex08 [0; 0x2A; 0xDEADBEEF; 0x123456789; -1] =
  map codes ["00000000"; "0000002A"; "DEADBEEF"; "123456789"; "-0000001"]%string.
Proof. reflexivity. Qed.

Example float_3f_ex : float_3f 7 5 2 = codes "001.250" /\ float_3f 7 1 4 = codes "000.062" /\
  float_3f 7 (-3) 1 = codes "-01.500" /\ float_3f 7 123456 0 = codes "123456.000".
Proof. vm_compute. done. Qed.

(** ** Log records and formatters (riscv-emu.py) *)

(** Levels of the logging module. *)
Definition DEBUG : Z := 10.
Definition INFO : Z := 20.
Definition WARNING : Z := 30.
Definition ERROR : Z := 40.

Definition levelname (levelno : Z) : pystr :=
  if levelno =? DEBUG then codes "DEBUG" else if levelno =? INFO then codes "INFO"
  else if levelno =? WARNING then codes "WARNING" else codes "ERROR".

Definition ESC : pystr := [27].

Definition LOG_COLORS (levelno : Z) : option pystr :=
  if levelno =? DEBUG then Some (ESC ++ codes "[36m")
  else if levelno =? INFO then Some (ESC ++ codes "[32m")
  else if levelno =? WARNING then Some (ESC ++ codes "[33m")
  else if levelno =? ERROR then Some (ESC ++ codes "[31m")
  else None.

Definition RESET_COLOR : pystr := ESC ++ codes "[0m".

(** A record; the time since the start of the log is the number m / 2^e of seconds. *)
Record log_record := mkRecord {
  levelno : Z;
  message : pystr;
  elapsed : Z * Z
}.

(** [RelativeTimeFormatter.formatTime] *)
Definition formatTime (r : log_record) : pystr :=
  float_3f 7 (fst (elapsed r)) (snd (elapsed r)) ++ codes "s".

(** '%(asctime)s [%(levelname)s] %(message)s' *)
Definition RelativeTimeFormatter_format (r : log_record) : pystr :=
  formatTime r ++ codes " [" ++ levelname (levelno r) ++ codes "] " ++ message r.

(** [ColorFormatter.format] *)
Definition ColorFormatter_format (use_color : bool) (r : log_record) : pystr :=
  let text := RelativeTimeFormatter_format r in
  match (if use_color then LOG_COLORS (levelno r) else None) with
  | Some color => color ++ text ++ RESET_COLOR
  | None => text
  end.

(** [msg.replace('\n', '\r\n')] *)
Definition crlf (msg : pystr) : pystr := flat_map (fun c => if c =? 10 then [13; 10] else [c]) msg.

(** [RawTTYStreamHandler.emit]: what is written to the stream. *)
Definition RawTTYStreamHandler_emit (raw_tty : bool) (format : log_record -> pystr) (r : log_record)
    : pystr :=
  let msg := format r in
  let msg := if raw_tty then crlf msg else msg in
  msg ++ (if raw_tty then [13; 10] else [10]).

(** [getattr(logging, args.log_level.upper(), logging.DEBUG)] and setLevel: the upper-case
    names of the module are its levels and the string BASIC_FORMAT, which is no level. *)
Definition upper_char (c : Z) : Z := if (97 <=? c) && (c <=? 122) then c - 32 else c.

Definition file_level (log_level : pystr) : res Z :=
  let name := map upper_char log_level in
  if bool_decide (name = codes "DEBUG") then Ok DEBUG
  else if bool_decide (name = codes "INFO") then Ok INFO
  else if bool_decide (name = codes "WARNING") || bool_decide (name = codes "WARN") then Ok WARNING
  else if bool_decide (name = codes "ERROR") then Ok ERROR
  else if bool_decide (name = codes "CRITICAL") || bool_decide (name = codes "FATAL") then Ok 50
  else if bool_decide (name = codes "NOTSET") then Ok 0
  else if bool_decide (name = codes "BASIC_FORMAT") then Exn ValueError
  else Ok DEBUG.

(** Where the log goes: a file with a level, or the terminal.  [emit_log] is what a record
    adds to it. *)
Inductive log_handler :=
| FileHandler (level : Z)
| ConsoleHandler (raw_tty use_color : bool).

Definition emit_log (h : log_handler) (r : log_record) : pystr :=
  match h with
  | FileHandler level =>
      if level <=? levelno r then RelativeTimeFormatter_format r ++ [10] else []
  | ConsoleHandler raw_tty use_color =>
      if DEBUG <=? levelno r
      then RawTTYStreamHandler_emit raw_tty (ColorFormatter_format use_color) r else []
  end.

(** ** The register dump of cpu.py *)

Definition CSR_NAMES : list (string * Z) :=
  [("mstatus", 0x300); ("misa", 0x301); ("mie", 0x304); ("mtvec", 0x305); ("mscratch", 0x340);
   ("mepc", 0x341); ("mcause", 0x342); ("mtval", 0x343); ("mip", 0x344)]%string.

(** [f"{value:08X} ({value})"] *)
Definition hex_and_dec (v : Z) : pystr := hex08 v ++ codes " (" ++ py_dec v ++ codes ")".

Definition reg_line (c : cpu) (i : nat) (name : string) : pystr :=
  ljust 12 (codes name) ++ codes " (x" ++ pad_zeros 2 (py_dec (Z.of_nat i)) ++ codes "): " ++
  hex_and_dec (rv c (Z.of_nat i)).

Definition csr_line (c : cpu) (e : string * Z) : pystr :=
  ljust 12 (codes (fst e)) ++ codes " (" ++ pad_zeros 3 (py_hex (snd e)) ++ codes "): " ++
  hex_and_dec (cv c (snd e)).

Definition time_line (name : string) (v : Z) : pystr :=
  ljust 18 (codes name) ++ codes ": " ++ hex_and_dec v.

(** [print_registers()]: the messages, at level INFO. *)
Definition print_registers (c : cpu) : list pystr :=
  if negb (has_logger c) then []
  else
    codes "REGISTER STATE:" ::
    (ljust 12 (codes "pc") ++ codes "        " ++ hex_and_dec (pc c)) ::
    imap (reg_line c) REG_NAMES ++
    map (csr_line c) CSR_NAMES ++
    [time_line "mtime_lo" (Z.land (mtime c) 0xFFFFFFFF);
     time_line "mtime_hi" (Z.shiftr (mtime c) 32);
     time_line "mtimecmp_lo" (Z.land (mtimecmp c) 0xFFFFFFFF);
     time_line "mtimecmp_hi" (Z.shiftr (mtimecmp c) 32)].

(** ** The logger of the web application (browser_logger.py) *)

Module BrowserLogger.

Inductive level := Debug | Info | Warning | Error.

Definition name_of (l : level) : pystr :=
  match l with
  | Debug => codes "DEBUG" | Info => codes "INFO" | Warning => codes "WARNING"
  | Error => codes "ERROR"
  end.

Definition Browser_LOG_COLORS (l : level) : pystr :=
  ESC ++ match l with
         | Debug => codes "[35m" | Info => codes "[32m" | Warning => codes "[33m"
         | Error => codes "[31m"
         end.

(** The method of the console a message goes to, with the message, and what is written to
    the terminal. *)
Inductive js_call := ConsoleLog (s : pystr) | ConsoleInfo (s : pystr) | ConsoleWarn (s : pystr)
| ConsoleError (s : pystr) | TerminalWrite (s : pystr).

(** [_terminal_write(level, msg)]; [has_terminal] is hasattr(js.window, 'emulatorTerminal'). *)
Definition Browser_terminal_write (write_to_terminal has_terminal : bool) (l : level) (msg : pystr)
    : list js_call :=
  if write_to_terminal && has_terminal
  then [TerminalWrite (Browser_LOG_COLORS l ++ codes "[" ++ name_of l ++ codes "] " ++ msg ++
                       RESET_COLOR ++ [13; 10])]
  else [].

(** [debug], [info], [warning] and [error]. *)
Definition Browser_log (name : pystr) (write_to_terminal has_terminal : bool) (l : level) (msg : pystr)
    : list js_call :=
  let line := codes "[" ++ name ++ codes "] " ++ name_of l ++ codes ": " ++ msg in
  (match l with
   | Debug => ConsoleLog line | Info => ConsoleInfo line | Warning => ConsoleWarn line
   | Error => ConsoleError line
   end) :: Browser_terminal_write write_to_terminal has_terminal l msg.
End BrowserLogger.

(** ** The lines survive raw mode *)

(** A carriage return in front of every line feed; [prev] is the previous character. *)
Fixpoint no_bare_lf (prev : Z) (l : pystr) : bool :=
  match l with
  | [] => true
  | c :: l' => (negb (c =? 10) || (prev =? 13)) && no_bare_lf c l'
  end.

(** What a terminal shows: CR LF is a line end. *)
Fixpoint cooked (l : pystr) : pystr :=
  match l with
  | [] => []
  | c :: l' => match l' with
               | d :: _ => if (c =? 13) && (d =? 10) then cooked l' else c :: cooked l'
               | [] => [c]
               end
  end.

Lemma no_bare_lf_crlf prev l : no_bare_lf prev (crlf l) = true.
Proof.
  revert prev. induction l as [|c l IH]; intros prev; simpl; [done|].
  destruct (Z.eqb_spec c 10) as [->|Hc]; simpl; [by rewrite IH|].
  by rewrite (proj2 (Z.eqb_neq c 10)), IH by done.
Qed.

Lemma crlf_snoc l : crlf (l ++ [10]) = crlf l ++ [13; 10].
Proof. unfold crlf. by rewrite flat_map_app. Qed.

Lemma crlf_head l d l' : crlf l = d :: l' -> d = 10 -> False.
Proof.
  destruct l as [|c l]; simpl; [done|]. destruct (Z.eqb_spec c 10); simpl; intros; simplify_eq.
Qed.

Lemma cooked_crlf l : cooked (crlf l) = l.
Proof.
  induction l as [|c l IH]; [done|]. simpl.
  destruct (Z.eqb_spec c 10) as [->|Hc].
  - cbn [app]. change (13 :: 10 :: crlf l) with ([13; 10] ++ crlf l).
    transitivity (cooked (10 :: crlf l)); [done|].
    destruct (crlf l) as [|d l'] eqn:E; [by rewrite <- IH|]. rewrite <- IH. done.
  - cbn [app]. destruct (crlf l) as [|d l'] eqn:E; [by rewrite <- IH|].
    rewrite <- IH. transitivity (if (c =? 13) && (d =? 10) then cooked (d :: l') else c :: cooked (d :: l'));
      [done|]. destruct (Z.eqb_spec d 10); [|by rewrite andb_false_r].
    by destruct (crlf_head _ _ _ E).
Qed.

(** On a terminal in raw mode a log record is written with a carriage return in front of
    every line feed, the ones inside the message included, and shows exactly the text that
    is written in the normal mode. *)
Theorem raw_log_lines (format : log_record -> pystr) (r : log_record) :
  no_bare_lf 0 (RawTTYStreamHandler_emit true format r) = true /\
  cooked (RawTTYStreamHandler_emit true format r) = RawTTYStreamHandler_emit false format r.
Proof.
  unfold RawTTYStreamHandler_emit. rewrite <- crlf_snoc.
  split; [apply no_bare_lf_crlf|apply cooked_crlf].
Qed.
