(* ===== verification/ArgParse.v ===== *)
(** * The options of the command line (parse_args of riscv-emu.py)

    [OPTIONS] is the list of the add_argument calls, as data.  [parse_optional], [consume]
    and [parse_emulator_args] are what argparse does with such a list (as in CPython 3.8
    to 3.11): it first classifies every argument, then goes through them from left to
    right.  Arguments are ASCII strings.  An error ends the process with status 2, the
    help text with status 0; the texts are not modelled. *)

From Stdlib Require Import ZArith Lia Bool Ascii String.
From stdpp Require Import base numbers list option gmap strings.
From S2P Require Import Prelude PyStr.

Local Open Scope Z_scope.

(** ** Declarations *)

(** [action=], [type=], [choices=] and [default=] of an argument that starts with a dash. *)
Inductive kind :=
| StoreTrue
| StoreFalse
| StoreStr (default : option string)
| StoreInt (default : Z)
| StoreChoice (choices : list string).

Definition OPTIONS : list (string * kind) :=
  [("--regs", StoreStr None); ("--trace", StoreTrue); ("--syscalls", StoreTrue);
   ("--traps", StoreTrue); ("--check-inv", StoreTrue); ("--check-ram", StoreTrue);
   ("--check-text", StoreTrue); ("--check-all", StoreTrue);
   ("--start-checks", StoreStr (Some "auto")); ("--init-regs", StoreStr (Some "zero"));
   ("--init-ram", StoreStr (Some "zero")); ("--ram-size", StoreInt 1024); ("--rvc", StoreTrue);
   ("--timer", StoreChoice ["csr"; "mmio"]); ("--uart", StoreTrue); ("--blkdev", StoreStr None);
   ("--blkdev-size", StoreInt 1024); ("--raw-tty", StoreTrue); ("--no-color", StoreFalse);
   ("--log", StoreStr None); ("--log-level", StoreStr (Some "DEBUG")); ("--gdb", StoreTrue);
   ("--gdb-port", StoreInt 1234); ("--gdb-host", StoreStr (Some "localhost"));
   ("--gdb-debug", StoreTrue)]%string.

(** ** The namespace *)

Inductive value := VNone | VBool (b : bool) | VStr (s : string) | VInt (z : Z).

#[export] Instance value_eq_dec : EqDecision value.
Proof. solve_decision. Defined.

(** The attributes, by option string, and the positional argument "executable". *)
Record namespace := mkNamespace {
  ns_options : gmap string value;
  ns_executable : string
}.

Definition default_value (k : kind) : value :=
  match k with
  | StoreTrue => VBool false
  | StoreFalse => VBool true
  | StoreStr None | StoreChoice _ => VNone
  | StoreStr (Some s) => VStr s
  | StoreInt z => VInt z
  end.

Definition defaults (table : list (string * kind)) : gmap string value :=
  list_to_map (map (fun '(name, k) => (name, default_value k)) table).

Inductive parsed := Parsed (ns : namespace) | SystemExit (status : Z).

(** ** Classification *)

Inductive arg_class :=
| Positional
| Option_ (name : string) (explicit_arg : option string)
| Unknown
| Ambiguous.

Definition is_help (s : string) : bool := String.eqb s "-h" || String.eqb s "--help".

(** [s.startswith(prefix)] *)
Fixpoint starts (p l : list ascii) : bool :=
  match p, l with
  | [], _ => true
  | c :: p', d :: l' => Ascii.eqb c d && starts p' l'
  | _ :: _, [] => false
  end.

Definition startswith (prefix s : string) : bool :=
  starts (list_ascii_of_string prefix) (list_ascii_of_string s).

Section Parser.
Variable table : list (string * kind).

(** What happens to "-h" with something attached to it, which is not the same in all versions
    of argparse. *)
Variable attached_help : string -> parsed.

(** The option strings, those of the help option included. *)
Definition option_strings : list string := "-h"%string :: "--help"%string :: map fst table.

Definition known (s : string) : bool := bool_decide (s ∈ option_strings).

(** [s.split('=', 1)]: None without an equals sign. *)
Fixpoint split_eq (acc l : list ascii) : option (list ascii * list ascii) :=
  match l with
  | [] => None
  | c :: l' => if Ascii.eqb c "=" then Some (rev acc, l') else split_eq (c :: acc) l'
  end.

Definition partition_eq (s : string) : option (string * string) :=
  (fun '(a, b) => (string_of_list_ascii a, string_of_list_ascii b)) <$>
    split_eq [] (list_ascii_of_string s).

(** [_get_option_tuples]: the options an abbreviation can stand for.  With one dash only the
    help option is meant, with the rest as its argument. *)
Definition get_option_tuples (s : string) : list (string * option string) :=
  if startswith "--" s then
    let '(prefix, explicit_arg) := match partition_eq s with
                                   | Some (a, b) => (a, Some b) | None => (s, None) end in
    map (fun o => (o, explicit_arg)) (List.filter (startswith prefix) option_strings)
  else if startswith "-h" s then [("-h"%string, Some (String.substring 2 (String.length s - 2) s))]
  else [].

(** '^-\d+$|^-\d*\.\d+$'; [$] also matches before a newline at the end. *)
Definition digit (c : ascii) : bool := (48 <=? ord c) && (ord c <=? 57).

Fixpoint skip_digits (l : list ascii) : list ascii :=
  match l with c :: l' => if digit c then skip_digits l' else l | [] => [] end.

Definition all_digits (l : list ascii) : bool :=
  match l with [] => false | _ => forallb digit l end.

Definition chop_newline (l : list ascii) : list ascii :=
  match rev l with c :: l' => if ord c =? 10 then rev l' else l | [] => [] end.

Definition is_negative_number (s : string) : bool :=
  match chop_newline (list_ascii_of_string s) with
  | c :: l => Ascii.eqb c "-" &&
              (all_digits l ||
               match skip_digits l with d :: l' => Ascii.eqb d "." && all_digits l' | [] => false end)
  | [] => false
  end.

Definition has_space (s : string) : bool := existsb (Ascii.eqb " ") (list_ascii_of_string s).

(** An abbreviation, or something that only looks like an option. *)
Definition parse_abbreviation (s : string) : arg_class :=
  match get_option_tuples s with
  | [(o, e)] => Option_ o e
  | [] => if is_negative_number s then Positional
          else if has_space s then Positional else Unknown
  | _ => Ambiguous
  end.

Definition parse_optional (s : string) : arg_class :=
  if negb (startswith "-" s) then Positional
  else if known s then Option_ s None
  else if (String.length s =? 1)%nat then Positional
  else
    match partition_eq s with
    | Some (o, explicit_arg) =>
        if known o then Option_ o (Some explicit_arg) else parse_abbreviation s
    | None => parse_abbreviation s
    end.

(** ** Consumption *)

(** The action of an option, and the value it stores: None is an error. *)
Fixpoint kind_of (name : string) (t : list (string * kind)) : option kind :=
  match t with
  | [] => None
  | (n, k) :: t' => if String.eqb n name then Some k else kind_of name t'
  end.

Definition get_value (k : kind) (s : string) : option value :=
  match k with
  | StoreStr _ => Some (VStr s)
  | StoreInt _ => VInt <$> py_int 10 s
  | StoreChoice choices => if bool_decide (s ∈ choices) then Some (VStr s) else None
  | StoreTrue | StoreFalse => None
  end.

Definition takes_argument (k : kind) : bool :=
  match k with StoreTrue | StoreFalse => false | _ => true end.

Definition flag_value (k : kind) : value :=
  match k with StoreFalse => VBool false | _ => VBool true end.

Definition usage_error : parsed := SystemExit 2.

(** The arguments with their classes, from left to right.  [executable] is the positional
    argument, [extras] that there is one too many. *)
Fixpoint consume (opts : gmap string value) (executable : option string) (extras : bool)
    (l : list (string * arg_class)) : parsed :=
  match l with
  | [] =>
      match executable with
      | Some e => if extras then usage_error else Parsed (mkNamespace opts e)
      | None => usage_error
      end
  | (s, Positional) :: l' =>
      match executable with
      | None => consume opts (Some s) extras l'
      | Some _ => consume opts executable true l'
      end
  | (_, Option_ name explicit_arg) :: l' =>
      if is_help name then
        match explicit_arg with
        | None => SystemExit 0
        | Some v => if String.eqb name "-h" then attached_help v else usage_error
        end
      else
        match kind_of name table with
        | None => usage_error
        | Some k =>
            if takes_argument k then
              match explicit_arg, l' with
              | Some v, _ =>
                  match get_value k v with
                  | Some x => consume (<[name := x]> opts) executable extras l'
                  | None => usage_error
                  end
              | None, (v, Positional) :: l'' =>
                  match get_value k v with
                  | Some x => consume (<[name := x]> opts) executable extras l''
                  | None => usage_error
                  end
              | None, _ => usage_error
              end
            else
              match explicit_arg with
              | Some _ => usage_error
              | None => consume (<[name := flag_value k]> opts) executable extras l'
              end
        end
  | (_, Unknown) :: l' => consume opts executable true l'
  | (_, Ambiguous) :: _ => usage_error
  end.

(** [parser.parse_args(args)]: an ambiguous abbreviation anywhere is an error before
    anything is done. *)
Definition parse_list (args : list string) : parsed :=
  let l := map (fun s => (s, parse_optional s)) args in
  if existsb (fun '(_, c) => match c with Ambiguous => true | _ => false end) l then usage_error
  else consume (defaults table) None false l.
End Parser.

Definition parse_emulator_args (attached_help : string -> parsed) (args : list string) : parsed :=
  parse_list OPTIONS attached_help args.

Example parse_readme :
  match parse_emulator_args (fun _ => usage_error) ["--raw-tty"; "--ram-size=4096"; "prebuilt/micropython.elf"]%string with
  | Parsed ns => ns_options ns !! "--ram-size"%string = Some (VInt 4096) /\
                 ns_options ns !! "--raw-tty"%string = Some (VBool true) /\
                 ns_options ns !! "--no-color"%string = Some (VBool true) /\
                 ns_executable ns = "prebuilt/micropython.elf"%string
  | SystemExit _ => False
  end.
Proof. vm_compute. done. Qed.

Example parse_errors :
  map (parse_emulator_args (fun _ => usage_error))
    [["--help"]; ["--check"; "a.elf"]; ["--ram-size"; "1k"; "a.elf"]; ["a.elf"; "b.elf"]; [];
     ["--timer=rtc"; "a.elf"]; ["--trace=1"; "a.elf"]; ["a.elf"; "--log"]]%string =
  [SystemExit 0; SystemExit 2; SystemExit 2; SystemExit 2; SystemExit 2; SystemExit 2; SystemExit 2;
   SystemExit 2].
Proof. vm_compute. done. Qed.

Example parse_abbreviated :
  match parse_emulator_args (fun _ => usage_error) ["--ram"; "-1"; "--sta=early"; "a.elf"]%string with
  | Parsed ns => ns_options ns !! "--ram-size"%string = Some (VInt (-1)) /\
                 ns_options ns !! "--start-checks"%string = Some (VStr "early")
  | SystemExit _ => False
  end.
Proof. vm_compute. done. Qed.

(** ** Types *)

Definition well_typed (k : kind) (v : value) : Prop :=
  match k, v with
  | (StoreTrue | StoreFalse), VBool _ => True
  | StoreStr None, (VNone | VStr _) => True
  | StoreStr (Some _), VStr _ => True
  | StoreInt _, VInt _ => True
  | StoreChoice _, VNone => True
  | StoreChoice choices, VStr s => s ∈ choices
  | _, _ => False
  end.

(** Every option has a value of its type, and there is nothing else. *)
Definition typed (table : list (string * kind)) (opts : gmap string value) : Prop :=
  forall name, match kind_of name table with
               | Some k => exists v, opts !! name = Some v /\ well_typed k v
               | None => opts !! name = None
               end.

Lemma default_typed k : well_typed k (default_value k).
Proof. by destruct k as [| |[]| |]. Qed.

Lemma get_value_typed k s v : get_value k s = Some v -> well_typed k v.
Proof.
  destruct k as [| |[]| |]; simpl; try done; try (by intros [= <-]).
  - destruct (py_int 10 s); simpl; by intros [= <-].
  - case_bool_decide; [|done]. by intros [= <-].
Qed.

Lemma flag_typed k : takes_argument k = false -> well_typed k (flag_value k).
Proof. by destruct k. Qed.

Lemma typed_insert table opts name k v : typed table opts -> kind_of name table = Some k ->
  well_typed k v -> typed table (<[name := v]> opts).
Proof.
  intros Ht Hk Hv n. rewrite lookup_insert. case_decide as E; [|apply Ht].
  subst n. rewrite Hk. eauto.
Qed.

Lemma defaults_typed table : typed table (defaults table).
Proof.
  intros name. unfold defaults. induction table as [|[n k] t IH]; simpl; [done|].
  rewrite lookup_insert. destruct (String.eqb_spec n name) as [->|Hne].
  - rewrite decide_True by done. eauto using default_typed.
  - by rewrite decide_False by done.
Qed.

(** [consume], along its own recursion: two arguments can be consumed at a time. *)
Lemma consume_typed table ah opts e x l ns : typed table opts ->
  (forall v, match ah v with Parsed _ => False | SystemExit _ => True end) ->
  consume table ah opts e x l = Parsed ns -> typed table (ns_options ns).
Proof.
  intros Ht Hah. revert opts e x Ht. remember (length l) as n eqn:Hn.
  assert (length l <= n)%nat as Hl by lia. clear Hn. revert l Hl.
  induction n as [|n IH]; intros [|[s c] l] Hl opts e x Ht; simpl in *; try lia.
  1, 2: destruct e, x; try done; by intros [= <-].
  assert (forall opts e x, typed table opts -> consume table ah opts e x l = Parsed ns ->
    typed table (ns_options ns)) as IH1 by (intros; eapply IH; [|done..]; lia).
  destruct c as [|name explicit| |]; [destruct e; by apply IH1| |by apply IH1|done].
  destruct (is_help name).
  { destruct explicit as [v|]; [|done]. specialize (Hah v).
    destruct (String.eqb name "-h"); [|done]. by destruct (ah v). }
  destruct (kind_of name table) as [k|] eqn:Hk; [|done]. destruct (takes_argument k) eqn:Hta.
  - destruct explicit as [v|].
    + destruct (get_value k v) eqn:Hv; [|done]. apply IH1. eauto using typed_insert, get_value_typed.
    + destruct l as [|[v []] l']; try done. destruct (get_value k v) eqn:Hv; [|done].
      apply IH; [simpl in *; lia|]. eauto using typed_insert, get_value_typed.
  - destruct explicit; [done|]. apply IH1. eauto using typed_insert, flag_typed.
Qed.

(** ** Classification of what is written *)

Definition option_value (opts : gmap string value) (name : string) : value :=
  default VNone (opts !! name).

(** A name that argparse can tell from its value: it starts with a dash, has no equals
    sign and is not the help option. *)
Definition good_name (name : string) : bool :=
  startswith "-" name && negb (is_help name) && negb (String.length name =? 1)%nat &&
  negb (existsb (Ascii.eqb "=") (list_ascii_of_string name)).

Lemma list_ascii_app s t :
  list_ascii_of_string (s +:+ t) = (list_ascii_of_string s ++ list_ascii_of_string t)%list.
Proof. induction s; simpl; [done|by f_equal]. Qed.

Lemma split_eq_app acc l l' : existsb (Ascii.eqb "=") l = false ->
  split_eq acc (l ++ "="%char :: l') = Some (rev acc ++ l, l')%list.
Proof.
  revert acc. induction l as [|c l IH]; intros acc; cbn [app split_eq existsb].
  - intros _. by rewrite app_nil_r.
  - rewrite orb_false_iff, Ascii.eqb_sym. intros [-> Hl]. rewrite IH by done. simpl.
    by rewrite <- app_assoc.
Qed.

Lemma partition_eq_app name v : existsb (Ascii.eqb "=") (list_ascii_of_string name) = false ->
  partition_eq (name +:+ "=" +:+ v) = Some (name, v).
Proof.
  intros Hn. unfold partition_eq. rewrite list_ascii_app. simpl. rewrite split_eq_app by done.
  simpl. by rewrite !string_of_list_ascii_of_string.
Qed.

Lemma starts_app p l l' : starts p l = true -> starts p (l ++ l') = true.
Proof.
  revert l. induction p as [|c p IH]; intros [|d l]; simpl; try done.
  rewrite !andb_true_iff. intros [? ?]. auto.
Qed.

Lemma startswith_app p s t : startswith p s = true -> startswith p (s +:+ t) = true.
Proof. unfold startswith. rewrite list_ascii_app. apply starts_app. Qed.

Section Classify.
Variable table : list (string * kind).
Hypothesis Hgood : forallb (fun '(name, _) => good_name name) table = true.

Lemma good_names name : name ∈ map fst table -> good_name name = true.
Proof.
  intros Hin. apply list_elem_of_In, in_map_iff in Hin as ([n k] & <- & Hin).
  rewrite forallb_forall in Hgood. by apply (Hgood (n, k)).
Qed.

Lemma known_in name : name ∈ map fst table -> known table name = true.
Proof.
  intros Hin. apply bool_decide_eq_true_2. unfold option_strings. rewrite !elem_of_cons. auto.
Qed.

(** No option string contains an equals sign. *)
Lemma known_no_eq s : known table s = true ->
  existsb (Ascii.eqb "=") (list_ascii_of_string s) = false.
Proof.
  unfold known, option_strings. rewrite bool_decide_eq_true.
  rewrite !elem_of_cons. intros [->|[->|Hin]]; [done..|].
  apply good_names in Hin. unfold good_name in Hin. rewrite !andb_true_iff in Hin.
  destruct Hin as [_ He]. by apply negb_true_iff.
Qed.

Lemma classify_flag name : name ∈ map fst table -> parse_optional table name = Option_ name None.
Proof.
  intros Hin. pose proof (good_names _ Hin) as Hg. unfold good_name in Hg.
  rewrite !andb_true_iff in Hg. destruct Hg as [[[Hp _] _] _].
  unfold parse_optional. by rewrite Hp, (known_in _ Hin).
Qed.

Lemma classify_value name v : name ∈ map fst table ->
  parse_optional table (name +:+ "=" +:+ v) = Option_ name (Some v).
Proof.
  intros Hin. pose proof (good_names _ Hin) as Hg. unfold good_name in Hg.
  rewrite !andb_true_iff in Hg. destruct Hg as [[[Hp _] Hl] He%negb_true_iff].
  unfold parse_optional. rewrite startswith_app by done. cbn [negb].
  assert (known table (name +:+ "=" +:+ v) = false) as ->.
  { destruct (known table _) eqn:Hk; [|done]. apply known_no_eq in Hk.
    rewrite list_ascii_app, existsb_app, orb_false_iff in Hk. by destruct Hk. }
  assert ((String.length (name +:+ "=" +:+ v) =? 1)%nat = false) as ->.
  { apply Nat.eqb_neq. destruct name as [|c [|c' name]]; simpl in *; done. }
  by rewrite partition_eq_app, (known_in _ Hin).
Qed.
End Classify.

(** ** The options of the emulator *)

(** Whatever is parsed is typed. *)
Theorem parse_args_typed (ah : string -> parsed) (l : list string) (ns : namespace)
  (Hah : forall v, match ah v with Parsed _ => False | SystemExit _ => True end)
  (Hp : parse_emulator_args ah l = Parsed ns) : typed OPTIONS (ns_options ns).
Proof.
  unfold parse_emulator_args, parse_list in Hp. destruct (existsb _ _); [done|].
  by eapply consume_typed; [apply defaults_typed|..].
Qed.
