(* ===== verification/Emu.v ===== *)
(** * The command-line emulator (riscv-emu.py)

    [split_argv] and [program_args] are the part of parse_args around argparse, whose
    result is the record [args].  [build] creates and wires the objects, [load] loads
    the executable, and [main] runs the machine and gives the exit status of the
    process.  A Python string is the list of its code points.  The host is an
    argument: the files (content of a flat binary, parsed ELF file, image of the block
    device), the random bytes and words, the pseudo-terminal and the operating system
    calls of [Host]. *)

From Stdlib Require Import ZArith Lia Bool String.
From stdpp Require Import base numbers list option gmap strings.
From S2P Require Import Prelude PyStr Isa Ram Cpu Rvc CpuSem Exec ExecSem ExecSafe RamSafe Core.
From S2P Require Import Machine Peripherals World Syscalls MemClass GdbPacket Gdb.

Local Open Scope Z_scope.
Local Open Scope py_scope.

(** ** The arguments *)

Definition dashes : pystr := [45; 45].

(** [sys.argv.index("--")] *)
Fixpoint index_dashes (argv : list pystr) : option nat :=
  match argv with
  | [] => None
  | a :: l => if bool_decide (a = dashes) then Some O else S <$> index_dashes l
  end.

(** The arguments of the emulator and those of the program. *)
Definition split_argv (argv : list pystr) : list pystr * list pystr :=
  match index_dashes argv with
  | Some split_index => (drop 1 (take split_index argv), drop (split_index + 1) argv)
  | None => (drop 1 argv, [])
  end.

(** [os.path.basename(path)]: what follows the last slash. *)
Fixpoint basename_acc (acc path : pystr) : pystr :=
  match path with
  | [] => rev acc
  | c :: l => if c =? 47 then basename_acc [] l else basename_acc (c :: acc) l
  end.

Definition basename (path : pystr) : pystr := basename_acc [] path.

(** [s.endswith(suffix)] *)
Definition endswith (suffix s : pystr) : bool :=
  (length suffix <=? length s)%nat && bool_decide (drop (length s - length suffix) s = suffix).

Inductive timer_kind := TimerCsr | TimerMmio.

#[export] Instance timer_kind_eq_dec : EqDecision timer_kind.
Proof. solve_decision. Defined.

Record args := mkArgs {
  executable : pystr;
  a_regs : option string;
  a_trace : bool;
  a_check_inv : bool;
  a_check_ram : bool;
  a_check_text : bool;
  a_check_all : bool;
  a_start_checks : string;
  a_init_regs : string;
  a_init_ram : string;
  a_ram_size : Z;
  a_rvc : bool;
  a_timer : option timer_kind;
  a_uart : bool;
  a_blkdev : option pystr;
  a_blkdev_size : Z;
  a_raw_tty : bool;
  a_gdb : bool;
  rest_args : list pystr
}.

(** [args.program_args]: argv[] of the guest. *)
Definition program_args (a : args) : list pystr := basename (executable a) :: rest_args a.

(** What [--check-all] switches on. *)
Definition check_inv_on (a : args) : bool := a_check_all a || a_check_inv a.
Definition check_ram_on (a : args) : bool := a_check_all a || a_check_ram a.
Definition check_text_on (a : args) : bool := a_check_all a || a_check_text a.

(** A path option that is present and not empty. *)
Definition path_on (p : option pystr) : bool := match p with Some (_ :: _) => true | _ => false end.

Definition timer_mmio (a : args) : bool := bool_decide (a_timer a = Some TimerMmio).

Definition use_mmio (a : args) : bool := a_uart a || path_on (a_blkdev a) || timer_mmio a.

Definition select_ram_class (use_mmio check_ram : bool) : ram_class :=
  if negb use_mmio && negb check_ram then Class_RAM
  else if use_mmio && negb check_ram then Class_RAM_MMIO
  else if negb use_mmio && check_ram then Class_SafeRAM
  else Class_SafeRAM_MMIO.

(** ** The world of a process *)

(** The emulator's objects, the system-call handler, the debugger's stub and connection,
    and the operating system. *)
Record process (H : Type) := mkProcess {
  p_world : world;
  p_sys : syscalls;
  p_stub : stub;
  p_conn : conn;
  p_host : H
}.
Arguments mkProcess {H} _ _ _ _ _.
Arguments p_world {H} _.
Arguments p_sys {H} _.
Arguments p_stub {H} _.
Arguments p_conn {H} _.
Arguments p_host {H} _.

Section Emu.
Context {H : Type} (os : Host H).
Context (getrandbits8 getrandbits32 : nat -> Z).
Context (pty_events : list (option rx_event)) (pty_accepts : list tx_event) (disk_io : list disk_event).
Context (disk_image : pystr -> option (list Z)).
Context (open_binary : pystr -> res (list Z)) (open_elf : pystr -> res elf_file).
Context (exn_text : exn -> str -> str).

#[export] Instance process_world : Has world (process H).
Proof.
  refine {| view := p_world;
            put w p := mkProcess w (p_sys p) (p_stub p) (p_conn p) (p_host p) |};
    by intros; destruct w.
Defined.

#[export] Instance process_part {A} `{Has A world} : Has A (process H).
Proof.
  refine {| view p := view (p_world p);
            put a p := mkProcess (put a (p_world p)) (p_sys p) (p_stub p) (p_conn p) (p_host p) |}.
  - intros a p. apply view_put.
  - intros []. simpl. by rewrite put_view.
  - intros a b []. simpl. by rewrite put_put.
Defined.

#[export] Instance process_sys : Has syscalls (process H).
Proof.
  refine {| view := p_sys;
            put s p := mkProcess (p_world p) s (p_stub p) (p_conn p) (p_host p) |};
    by intros; destruct w.
Defined.

#[export] Instance process_stub : Has stub (process H).
Proof.
  refine {| view := p_stub;
            put s p := mkProcess (p_world p) (p_sys p) s (p_conn p) (p_host p) |};
    by intros; destruct w.
Defined.

#[export] Instance process_conn : Has conn (process H).
Proof.
  refine {| view := p_conn;
            put c p := mkProcess (p_world p) (p_sys p) (p_stub p) c (p_host p) |};
    by intros; destruct w.
Defined.

Definition process_os : Has H (process H).
Proof.
  refine {| view := p_host;
            put h p := mkProcess (p_world p) (p_sys p) (p_stub p) (p_conn p) h |};
    by intros; destruct w.
Defined.

(** A call of the operating system. *)
Definition sys {A} (m : ST H A) : ST (process H) A := zoom (H := process_os) m.

#[export] Instance process_Host : Host (process H) := {|
  host_print data := sys (host_print data);
  host_input := sys host_input;
  host_read_char := sys host_read_char;
  os_write fd data := sys (os_write fd data);
  os_read fd n := sys (os_read fd n);
  os_open path flags mode := sys (os_open path flags mode);
  os_close fd := sys (os_close fd);
  os_lseek fd off whence := sys (os_lseek fd off whence);
  os_fstat fd := sys (os_fstat fd);
  os_umask m := sys (os_umask m);
  os_mkdir path mode := sys (os_mkdir path mode);
  os_rmdir path := sys (os_rmdir path);
  os_unlink path := sys (os_unlink path)
|}.

(** The memory of the process: the class the arguments select. *)
Definition process_ops (k : ram_class) : RamOps (process H) :=
  let R := class_ops world_read32 world_write32 k in {|
    load_byte a s := zoom (load_byte (RamOps := R) a s);
    load_half a s := zoom (load_half (RamOps := R) a s);
    load_word a := zoom (load_word (RamOps := R) a);
    store_byte a v := zoom (store_byte (RamOps := R) a v);
    store_half a v := zoom (store_half (RamOps := R) a v);
    store_word a v := zoom (store_word (RamOps := R) a v);
    load_binary a n := zoom (load_binary (RamOps := R) a n);
    store_binary a b := zoom (store_binary (RamOps := R) a b);
    load_cstring a n := zoom (load_cstring (RamOps := R) a n)
  |}.

Definition process_runner (p : periph) : ST (process H) unit := zoom (world_runner p).

(** ** Construction *)

Definition UART_BASE : Z := 0x10000000.
Definition BLKDEV_BASE : Z := 0x10010000.

(** [ram.register_peripheral(p); machine.register_peripheral(p)] *)
Definition register (on : bool) (base end_ : Z) (p : periph) (w : world) : world :=
  if on then snd ((zoom (register_mmio base end_ p) ;;; register_peripheral p) w) else w.

(** The place of a block device that is not asked for. *)
Definition no_blkdev : blkdev := MMIOBlockDevice_init BLKDEV_BASE 512 0 None [].

(** The RAM, the CPU, the machine and the peripherals in the order of the source; an
    exception here is not caught.  A peripheral that is not registered cannot be reached. *)
Definition build (a : args) : res world :=
  match RAM_init getrandbits8 (1024 * a_ram_size a) 0 (Some (a_init_ram a)) with
  | Exn e => Exn e
  | Ok r =>
      match CPU_init getrandbits32 (a_rvc a) (Some (a_init_regs a)) true with
      | Exn e => Exn e
      | Ok c =>
          match Machine_init (bool_decide (a_timer a <> None)) (use_mmio a) (a_rvc a) true
                  (a_trace a) (a_regs a) (check_inv_on a) (Some (a_start_checks a)) with
          | Exn e => Exn e
          | Ok m =>
              let u := PtyUART_init UART_BASE pty_events pty_accepts in
              let d := if path_on (a_blkdev a)
                       then MMIOBlockDevice_init BLKDEV_BASE 512 (a_blkdev_size a)
                              (disk_image (default [] (a_blkdev a))) disk_io
                       else no_blkdev in
              let w := mkWorld c r m MMIOTimer_init u d in
              let w := register (a_uart a) UART_BASE (UART_BASE + 8) PtyUART w in
              let w := register (path_on (a_blkdev a)) BLKDEV_BASE (BLKDEV_BASE + 0x14)
                         MMIOBlockDevice w in
              Ok (register (timer_mmio a) REG_MTIMECMP_LO TIMER_REG_END MMIOTimer w)
          end
      end
  end.

(** The whole process: the system-call handler with the descriptors of the terminal. *)
Definition create (a : args) (stdin stdout stderr : Z) (c : conn) (h : H) : res (process H) :=
  match build a with
  | Exn e => Exn e
  | Ok w => Ok (mkProcess w (SyscallHandler_init true (a_raw_tty a) stdin stdout stderr)
                  GDBStub_init c h)
  end.

(** ** Loading and running *)

(** How the process ends: with a status, with the traceback of an exception, or not yet. *)
Inductive ending := ExitStatus (n : Z) | Traceback (e : exn) | Running.

(** The value of an expression that can raise. *)
Definition open_file {A} (r : res A) : ST (process H) A := fun s => (r, s).

(** The body of the [try] around loading; false is the unsupported format. *)
Definition load (a : args) : ST (process H) bool :=
  let R := process_ops (select_ram_class (use_mmio a) (check_ram_on a)) in
  if endswith (codes ".bin") (executable a) then
    binary <- open_file (open_binary (executable a)) ;;
    load_flatbinary (R := R) binary ;;;
    ret true
  else if endswith (codes ".elf") (executable a) then
    elf <- open_file (open_elf (executable a)) ;;
    load_elf (R := R) elf (a_trace a) (check_text_on a) ;;;
    h <- mget heap_end ;;
    (if bool_decide (h <> None) then setup_argv (R := R) (program_args a) else ret tt) ;;;
    ret true
  else ret false.

(** [machine.run()] for [n] rounds, or the session of the debugger for [n] packets with [n]
    rounds each; true when it has returned. *)
Definition execute_program (a : args) (n : nat) : ST (process H) bool :=
  let R := process_ops (select_ram_class (use_mmio a) (check_ram_on a)) in
  let ecall := Some (handle (R := R)) in
  if negb (a_gdb a) then run (R := R) ecall process_runner n ;;; ret false
  else
    s <- run_gdbstub (R := R) ecall process_runner exn_text n n ;;
    ret (match s with Closed => true | _ => false end).

(** The [except] clauses: a MachineError ends the process with a status. *)
Definition status_of (e : exn) : ending :=
  match e with
  | ExecutionTerminated _ => ExitStatus 0
  | _ => if is_machine_error e then ExitStatus 1 else Traceback e
  end.

Definition setup_status (e : exn) : ending :=
  if is_machine_error e then ExitStatus 1 else Traceback e.

Definition main (a : args) (stdin stdout stderr : Z) (c : conn) (h : H) (n : nat)
    : ending * option (process H) :=
  match create a stdin stdout stderr c h with
  | Exn e => (Traceback e, None)
  | Ok p =>
      match load a p with
      | (Exn e, p') => (setup_status e, Some p')
      | (Ok false, p') => (ExitStatus 1, Some p')
      | (Ok true, p') =>
          match execute_program a n p' with
          | (Exn e, p'') => (status_of e, Some p'')
          | (Ok true, p'') => (ExitStatus 0, Some p'')
          | (Ok false, p'') => (Running, Some p'')
          end
      end
  end.
End Emu.
