(* ===== verification/EmuThms.v ===== *)
(** * Theorems about the command-line emulator

    The wiring: every configuration gives a well-formed machine whose ranges are the
    peripherals asked for and do not overlap; the split of the command line; the
    status of the process. *)

From Stdlib Require Import ZArith Lia Bool String.
From stdpp Require Import base numbers list option gmap strings.
From S2P Require Import Prelude PyStr Isa Ram Cpu Rvc CpuSem Exec ExecSem ExecSafe RamSafe Core.
From S2P Require Import Machine Peripherals World Syscalls MemClass MmioSafe GdbPacket Gdb Emu.

Local Open Scope Z_scope.
Local Open Scope py_scope.

(** ** The memory a constructor makes *)

Lemma fill_bytes (f : nat -> Z) sz (l : list Z) : (forall i, u8 (f i)) -> Forall u8 l ->
  Forall u8 (imap (fun i b => if Z.of_nat i <? sz then f i else b) l).
Proof.
  intros Hf Hl. apply Forall_lookup. intros i x Hx. rewrite list_lookup_imap in Hx.
  apply fmap_Some in Hx as (b & Hb & ->). case_match; [apply Hf|]. by eapply Forall_lookup_1.
Qed.

Lemma RAM_init_wf (rnd : nat -> Z) sz base init r : (forall i, u8 (rnd i)) -> 0 <= sz ->
  RAM_init rnd sz base init = Ok r ->
  wf_ram r /\ size r = sz /\ base_addr r = base /\ mmio_ranges r = [].
Proof.
  intros Hrnd Hsz. unfold RAM_init.
  destruct (sz + 4 <? 0) eqn:E1; [lia|]. destruct (negb ((sz + 4) mod 4 =? 0)) eqn:E2; [done|].
  set (r0 := mkRam (replicate (Z.to_nat (sz + 4)) 0) sz base []).
  assert (sz mod 4 = 0) as Hal.
  { apply negb_false_iff, Z.eqb_eq in E2. rewrite <- E2. by rewrite <- (Z_mod_plus_full sz 1 4). }
  assert (wf_ram r0) as H0.
  { split; simpl; [by apply Forall_replicate|done| |done]. unfold py_len. rewrite length_replicate. lia. }
  assert (forall f r', (forall i, u8 (f i)) ->
    Ok (set_memory (imap (fun i b => if Z.of_nat i <? size r0 then f i else b) (memory r0)) r0) = Ok r' ->
    wf_ram r' /\ size r' = sz /\ base_addr r' = base /\ mmio_ranges r' = []) as Hfill.
  { intros f r' Hf [= <-]. split; [|done]. destruct H0 as [Hb Hs Hl Ha].
    split; [by apply fill_bytes|done| |done]. unfold py_len in *. simpl. rewrite length_imap. exact Hl. }
  destruct init as [fill|]; [|intros [= <-]; done].
  destruct (String.eqb fill "zero"); [intros [= <-]; done|]. unfold initialize_ram.
  destruct (String.eqb fill "random"); [by apply Hfill|].
  destruct (String.eqb fill "addr"); [apply Hfill; intros; apply u8_mask|].
  destruct (py_int 0 fill) as [v|]; [|done]. apply Hfill. intros. apply u8_mask.
Qed.

(** ** The command line *)

Lemma index_dashes_app pre rest : dashes ∉ pre -> index_dashes (pre ++ dashes :: rest) = Some (length pre).
Proof.
  induction pre as [|a l IH]; simpl; intros Hn; [done|].
  rewrite not_elem_of_cons in Hn. destruct Hn as [Ha Hl].
  rewrite bool_decide_false by done. by rewrite IH.
Qed.

Lemma index_dashes_none l : dashes ∉ l -> index_dashes l = None.
Proof.
  induction l as [|a l IH]; simpl; [done|]. rewrite not_elem_of_cons. intros [Ha Hl].
  rewrite bool_decide_false by done. by rewrite IH.
Qed.

(** The first double dash splits the command line; a later one belongs to the program. *)
Lemma split_argv_app prog emu rest : dashes ∉ prog :: emu ->
  split_argv (prog :: emu ++ dashes :: rest) = (emu, rest).
Proof.
  intros Hn. unfold split_argv. change (prog :: emu ++ dashes :: rest) with ((prog :: emu) ++ dashes :: rest).
  rewrite index_dashes_app by done. f_equal.
  - by rewrite take_app_length.
  - rewrite drop_app, drop_ge by lia. simpl length. replace (S (length emu) + 1 - S (length emu))%nat with 1%nat by lia. done.
Qed.

Lemma split_argv_none prog emu : dashes ∉ prog :: emu -> split_argv (prog :: emu) = (emu, []).
Proof. intros Hn. unfold split_argv. by rewrite index_dashes_none. Qed.

(** A base name has no slash, and is the end of the path. *)
Lemma basename_acc_spec acc path : (47 ∉ acc) ->
  (47 ∉ basename_acc acc path) /\ exists dir, (rev acc ++ path = dir ++ basename_acc acc path) /\
    (dir = [] \/ exists d, dir = d ++ [47]).
Proof.
  revert acc. induction path as [|c l IH]; intros acc Ha; simpl.
  - split; [rewrite list_elem_of_In, <- in_rev, <- list_elem_of_In; done|]. exists []. rewrite app_nil_r. auto.
  - destruct (Z.eqb_spec c 47) as [->|Hc].
    + destruct (IH [] (not_elem_of_nil 47)) as (H1 & d & H2 & H3). split; [done|].
      exists (rev acc ++ 47 :: d). simpl in H2. rewrite <- app_assoc. split; [simpl; by rewrite <- H2|].
      right. destruct H3 as [->|[d' ->]].
      * by exists (rev acc).
      * exists (rev acc ++ 47 :: d'). by rewrite <- app_assoc.
    + destruct (IH (c :: acc)) as (H1 & d & H2 & H3); [rewrite not_elem_of_cons; auto|]. split; [done|].
      exists d. split; [|done]. rewrite <- H2. simpl. by rewrite <- app_assoc.
Qed.

Section Emu.
Context {H : Type} (os : Host H).
Context (getrandbits8 getrandbits32 : nat -> Z).
Context (pty_events : list (option rx_event)) (pty_accepts : list tx_event) (disk_io : list disk_event).
Context (disk_image : pystr -> option (list Z)).

Abbreviation build := (build getrandbits8 getrandbits32 pty_events pty_accepts disk_io disk_image).

(** The ranges of the peripherals that are asked for. *)
Definition ranges_of (a : args) : list (Z * Z * periph) :=
  (if a_uart a then [(UART_BASE, UART_BASE + 8, PtyUART)] else []) ++
  (if path_on (a_blkdev a) then [(BLKDEV_BASE, BLKDEV_BASE + 0x14, MMIOBlockDevice)] else []) ++
  (if timer_mmio a then [(REG_MTIMECMP_LO, TIMER_REG_END, MMIOTimer)] else []).

(** No address belongs to two of the ranges. *)
Definition disjoint_ranges (l : list (Z * Z * periph)) : Prop :=
  forall i j x y a, l !! i = Some x -> l !! j = Some y ->
    fst (fst x) <= a < snd (fst x) -> fst (fst y) <= a < snd (fst y) -> i = j.

Lemma ranges_disjoint a : disjoint_ranges (ranges_of a).
Proof.
  unfold disjoint_ranges, ranges_of. intros i j x y p.
  destruct (a_uart a), (path_on (a_blkdev a)), (timer_mmio a); simpl;
    destruct i as [|[|[|i]]]; simpl; try done; destruct j as [|[|[|j]]]; simpl; try done;
    intros; simplify_eq; simpl in *;
    unfold UART_BASE, BLKDEV_BASE, TIMER_REG_END, REG_MTIME_HI, REG_MTIME_LO, REG_MTIMECMP_LO in *; lia.
Qed.

(** Without the timer the ranges belong to typed devices. *)
Lemma ranges_typed a : timer_mmio a = false ->
  Forall (fun x => not_timer (snd x)) (ranges_of a).
Proof.
  intros Ht. unfold ranges_of. rewrite Ht. destruct (a_uart a), (path_on _); repeat constructor; done.
Qed.

(** The block device of the emulator. *)
Lemma blk_init_typed E a : (forall p img, disk_image p = Some img -> Forall u8 img) ->
  Forall (io_ok E) disk_io ->
  blk_typed E (if path_on (a_blkdev a)
             then MMIOBlockDevice_init BLKDEV_BASE 512 (a_blkdev_size a)
                    (disk_image (default [] (a_blkdev a))) disk_io
             else no_blkdev).
Proof.
  intros Hd Hio. destruct (path_on _); split; simpl; try done.
  unfold open_or_create_image. destruct (disk_image _) as [img|] eqn:Ei; [by eapply Hd|].
  by apply Forall_replicate.
Qed.

Lemma register_eq on base end_ p w :
  w_cpu (register on base end_ p w) = w_cpu w /\
  memory (w_ram (register on base end_ p w)) = memory (w_ram w) /\
  size (w_ram (register on base end_ p w)) = size (w_ram w) /\
  mmio_ranges (w_ram (register on base end_ p w)) =
    mmio_ranges (w_ram w) ++ (if on then [(base, end_, p)] else []) /\
  start_checks (w_machine (register on base end_ p w)) = start_checks (w_machine w) /\
  peripheral_runners (w_machine (register on base end_ p w)) =
    peripheral_runners (w_machine w) ++ (if on && bool_decide (p = PtyUART) then [PtyUART] else []) /\
  w_uart (register on base end_ p w) = w_uart w /\ w_blk (register on base end_ p w) = w_blk w /\
  stack_bottom (w_machine (register on base end_ p w)) = stack_bottom (w_machine w).
Proof.
  unfold register. destruct on; [|by rewrite !app_nil_r].
  destruct p; cbn; by rewrite ?app_nil_r.
Qed.

(** The wiring, for the theorem below and for what starts from it. *)
Lemma build_ok (E : exn -> Prop) (a : args) (w : world) (H8 : forall i, u8 (getrandbits8 i))
  (H32 : forall i, u32 (getrandbits32 i)) (Hsize : 0 <= a_ram_size a)
  (Hpty : Forall (event_ok E) pty_events) (Htx : Forall (tx_ok E) pty_accepts)
  (Hio : Forall (io_ok E) disk_io) (Hdisk : forall p img, disk_image p = Some img -> Forall u8 img)
  (Hb : build a = Ok w) :
  world_inv wf_cpu w /\ x0_zero (w_cpu w) /\ size (w_ram w) = 1024 * a_ram_size a /\
  mmio_ranges (w_ram w) = ranges_of a /\ disjoint_ranges (mmio_ranges (w_ram w)) /\
  peripheral_runners (w_machine w) = (if a_uart a then [PtyUART] else []) /\
  (timer_mmio a = false -> mmio_inv E w) /\
  devices_inv E wf_cpu started (fun _ => True) w /\ stack_bottom (w_machine w) = None.
Proof.
  revert Hb. unfold Emu.build.
  destruct (RAM_init _ _ _ _) as [r|e] eqn:Er; [|done].
  destruct (CPU_init _ _ _ _) as [c|e] eqn:Ec; [|done].
  destruct (Machine_init _ _ _ _ _ _ _ _) as [m|e] eqn:Em; [|done].
  apply RAM_init_wf in Er as (Hr & Hs & _ & Hm); [|done|lia].
  apply CPU_init_ready in Ec as (Hc & Hx & _); [|done].
  unfold Machine_init in Em. destruct ((_ || _) && _); [done|]. injection Em as <-.
  set (d := if path_on _ then _ else _). set (u := PtyUART_init _ _ _). cbv zeta.
  match goal with |- Ok (register ?b3 ?x3 ?y3 _ (register ?b2 ?x2 ?y2 _ (register ?b1 ?x1 ?y1 _ ?w0))) = _ -> _ =>
    destruct (register_eq b1 x1 y1 PtyUART w0) as (A1 & A2 & A3 & A4 & A5 & A6 & A7 & A8 & A9);
    set (w1 := register b1 x1 y1 PtyUART w0) in *;
    destruct (register_eq b2 x2 y2 MMIOBlockDevice w1) as (B1 & B2 & B3 & B4 & B5 & B6 & B7 & B8 & B9);
    set (w2 := register b2 x2 y2 MMIOBlockDevice w1) in *;
    destruct (register_eq b3 x3 y3 MMIOTimer w2) as (C1 & C2 & C3 & C4 & C5 & C6 & C7 & C8 & C9);
    set (w3 := register b3 x3 y3 MMIOTimer w2) in *
  end.
  intros [= <-]. simpl in A1, A2, A3, A4, A5, A6. rewrite Hm in A4.
  assert (mmio_ranges (w_ram w3) = ranges_of a) as Hranges
    by (rewrite C4, B4, A4; unfold ranges_of; by rewrite app_assoc).
  assert (wf_cpu (w_cpu w3) /\ wf_ram (w_ram w3) /\ start_checks (w_machine w3) <> None) as Hinv.
  { rewrite C1, B1, A1, C5, B5, A5. split_and!; [done| |done].
    destruct Hr as [Hr1 Hr2 Hr3 Hr4]. split; rewrite ?C2, ?C3, ?B2, ?B3, ?A2, ?A3; done. }
  assert (devices_inv E wf_cpu started (fun _ => True) w3) as Hdev.
  { destruct Hinv as (I1 & I2 & I3). split; try done.
    - rewrite C7, B7, A7. by split.
    - rewrite C8, B8, A8. by apply blk_init_typed.
    - by apply Forall_forall. }
  split_and!; [exact Hinv|..].
  - rewrite C1, B1, A1. done.
  - rewrite C3, B3, A3. done.
  - done.
  - rewrite Hranges. apply ranges_disjoint.
  - rewrite C6, B6, A6. rewrite !bool_decide_false by done. rewrite !andb_false_r, !app_nil_r.
    by rewrite andb_true_r.
  - intros Ht. destruct Hdev as [I1 I2 I3 I4 I5 _]. split; try done.
    rewrite Hranges. by apply ranges_typed.
  - done.
  - by rewrite C9, B9, A9.
Qed.

(** C21: every configuration the command line can ask for starts well: the processor and the
    memory are well formed, x0 is zero, the memory has the size asked for, the memory-mapped
    ranges are exactly those of the peripherals asked for, they do not overlap, and only the
    UART is polled.  Without the memory-mapped timer the devices are well typed too, which is
    what the safety of the loops starts from; [E] says whether their host calls may fail. *)
Theorem build_well_formed (E : exn -> Prop) (a : args) (w : world) (H8 : forall i, u8 (getrandbits8 i))
  (H32 : forall i, u32 (getrandbits32 i)) (Hsize : 0 <= a_ram_size a)
  (Hpty : Forall (event_ok E) pty_events) (Htx : Forall (tx_ok E) pty_accepts)
  (Hio : Forall (io_ok E) disk_io) (Hdisk : forall p img, disk_image p = Some img -> Forall u8 img)
  (Hb : build a = Ok w) :
  world_inv wf_cpu w /\ x0_zero (w_cpu w) /\ size (w_ram w) = 1024 * a_ram_size a /\
  mmio_ranges (w_ram w) = ranges_of a /\ disjoint_ranges (mmio_ranges (w_ram w)) /\
  peripheral_runners (w_machine w) = (if a_uart a then [PtyUART] else []) /\
  (timer_mmio a = false -> mmio_inv E w).
Proof.
  destruct (build_ok E a w H8 H32 Hsize Hpty Htx Hio Hdisk Hb) as (? & ? & ? & ? & ? & ? & ? & _). auto 10.
Qed.
End Emu.
