(* ===== verification/GdbSafe.v ===== *)
(** * An untrusted debugger

    A client of the GDB stub can send anything: whatever packets arrive, however they are
    cut and however malformed, whatever program is being debugged, the emulator keeps its
    shape, and the exceptions that leave the command loop are those that can end a run
    without a debugger, the ValueError of a byte that is not ASCII and the IndexError of a
    negative register number. *)

From Stdlib Require Import ZArith Lia Bool String.
From stdpp Require Import base numbers list option gmap strings.
From S2P Require Import Prelude PyStr Isa Ram Cpu Rvc CpuSem Exec ExecSem ExecSafe RamSafe Core.
From S2P Require Import Machine MachineThms Robust GdbPacket Gdb.

Local Open Scope Z_scope.
Local Open Scope py_scope.

Section Lapsing.
Context {LX : Lapses}.

(** The exceptions that can end a session. *)
Definition gdb_failure (e : exn) : Prop := failure e \/ e = ValueError \/ e = IndexError.

Lemma keeps_gdb {S A} (I : S -> Prop) (m : ST S A) Q :
  keeps failure I m Q -> keeps gdb_failure I m Q.
Proof. intros Hm. eapply triple_conseq; [exact Hm|done|done|]. intros e s []. split; [done|by left]. Qed.

#[local] Hint Extern 2 (keeps gdb_failure _ (raise ValueError) _) =>
  apply keeps_raise; right; left; reflexivity : keeps.
#[local] Hint Extern 2 (keeps gdb_failure _ (raise IndexError) _) =>
  apply keeps_raise; right; right; reflexivity : keeps.
#[local] Hint Extern 3 (keeps gdb_failure _ (raise _) _) =>
  apply keeps_raise; left; left; reflexivity : keeps.
#[local] Hint Extern 2 (keeps gdb_failure _ (ret _) _) => apply keeps_ret; exact I : keeps.

(** ** The processor with any index *)

Abbreviation gcpu m := (keeps gdb_failure shape m (fun _ => True)).

Lemma reg_any i : gcpu (reg i).
Proof. intros c Hc. unfold reg, of_option. by destruct (py_get _ i); split; auto; right; right. Qed.

Lemma csr_any i : gcpu (csr i).
Proof. intros c Hc. unfold csr, of_option. by destruct (py_get _ i); split; auto; right; right. Qed.

Lemma set_reg_any i v : gcpu (set_reg i v).
Proof.
  intros c Hc. unfold set_reg. destruct (py_set (registers c) i v) as [l|] eqn:E; [|split; [done|by right; right]].
  split; [|done]. destruct Hc. split; try done. simpl. by rewrite (py_set_len _ _ _ _ E).
Qed.

Lemma set_csr_any i v : gcpu (set_csr i v).
Proof.
  intros c Hc. unfold set_csr. destruct (py_set (csrs c) i v) as [l|] eqn:E; [|split; [done|by right; right]].
  split; [|done]. destruct Hc. split; try done. simpl. by rewrite (py_set_len _ _ _ _ E).
Qed.

(** ** The connection *)

Abbreviation gconn m := (keeps gdb_failure (fun _ : conn => True) m (fun _ => True)).

Lemma sendall_safe s : gconn (sendall s).
Proof. unfold sendall. apply keeps_if; intros _; [by apply keeps_modify|auto with keeps]. Qed.

Lemma recv_ascii_safe n : gconn (recv_ascii n).
Proof.
  unfold recv_ascii. apply (keeps_catch _ gdb_failure).
  - eapply (keeps_bind _ _ _ _ (fun _ => True)); [|intros s _].
    + intros c _. unfold recv.
      destruct (take_piece n (rx c)) as [[] l]; [destruct (rx_reset c)|]; split; try done.
      left. right. right. by left.
    + eapply keeps_bind; [unfold decode_ascii; keep|intros; keep].
  - intros e He. destruct e; keep; by apply keeps_raise.
Qed.

Lemma recv_loop_safe fuel b p : gconn (recv_loop fuel b p).
Proof.
  revert b p. induction fuel as [|fuel IH]; intros b p; simpl; [keep|].
  eapply keeps_bind; [apply recv_ascii_safe|]. intros [[|c s]|] _; [keep| |keep].
  cbv zeta. repeat (apply keeps_if; intros _); try apply IH; [keep|].
  eapply keeps_bind; [apply recv_ascii_safe|]. intros [cs|] _; [|keep].
  destruct (decode _); (eapply keeps_bind; [apply sendall_safe|intros _ _]); [keep|apply IH].
Qed.

Lemma recv_packet_safe : gconn recv_packet.
Proof. intros c Hc. unfold recv_packet. by apply recv_loop_safe. Qed.

Lemma check_for_interrupt_safe : gconn check_for_interrupt.
Proof.
  intros c _. unfold check_for_interrupt.
  destruct (rx c) as [|[|b s] l]; [done|done|]. by destruct (ord b =? 3).
Qed.

(** ** Commands *)

Section Commands.
Context {W : Type} `{HC : Has cpu W} `{HR : Has ram W} `{HM : Has machine W} `{R : RamOps W}.
Context `{HG : Has stub W} `{HN : Has conn W}.
Context (handle_ecall : option (ST W unit)) (runner : periph -> ST W unit).
Context (exn_text : exn -> str -> str).
Context (I : W -> Prop) `{HK : !RamKeeps I}.
Hypothesis Hstub : forall w (s : stub), I w -> I (put s w).
Hypothesis Hconn : forall w (c : conn), I w -> I (put c w).

Abbreviation gsafe m := (keeps gdb_failure I m (fun _ => True)).

Lemma on_cpu {A} (m : ST cpu A) : gcpu m -> gsafe (zoom m).
Proof. intros Hm. eapply keeps_zoom; [exact Hm|apply rk_view|intros; by apply rk_put]. Qed.

Lemma on_conn {A} (m : ST conn A) : gconn m -> gsafe (zoom m).
Proof. intros Hm. eapply keeps_zoom; [exact Hm|done|intros; by apply Hconn]. Qed.

Lemma sset_safe f : gsafe (sset f).
Proof. intros w Hw. split; [by apply Hstub|done]. Qed.

Lemma on_memory {A} (m : ST W A) Q : keeps failure I m Q -> gsafe m.
Proof. intros Hm. apply keeps_gdb. by eapply keeps_weaken. Qed.

Lemma option_safe {A} (o : option A) : gsafe (of_option ValueError o).
Proof. apply keeps_of_option; [done|]. intros _. by right; left. Qed.

#[local] Hint Resolve on_cpu on_conn sset_safe option_safe reg_any csr_any set_reg_any set_csr_any
  sendall_safe recv_packet_safe check_for_interrupt_safe : keeps.
#[local] Hint Extern 1 (keeps gdb_failure _ (load_byte _ _) _) => eapply on_memory, rk_load_byte : keeps.
#[local] Hint Extern 1 (keeps gdb_failure _ (load_half _ _) _) => eapply on_memory, rk_load_half : keeps.
#[local] Hint Extern 1 (keeps gdb_failure _ (store_byte _ _) _) => eapply on_memory, rk_store_byte : keeps.

(** Handlers that answer E01. *)
Lemma catch_safe {A} (m : ST W A) h : gsafe m -> (forall e, gdb_failure e -> gsafe (h e)) -> gsafe (catch m h).
Proof. by apply keeps_catch. Qed.

Lemma or_E01_safe m : gsafe m -> gsafe (or_E01 m).
Proof. intros Hm. apply catch_safe; [done|]. intros e He. destruct e; keep; by apply keeps_raise. Qed.

Lemma or_E01_value_safe m : gsafe m -> gsafe (or_E01_value m).
Proof. intros Hm. apply catch_safe; [done|]. intros e He. destruct e; keep; by apply keeps_raise. Qed.

Lemma or_E01_any_safe m : gsafe m -> gsafe (or_E01_any m).
Proof. intros Hm. apply catch_safe; [done|]. intros e He. keep. Qed.

Lemma split2_safe sep s : gsafe (split2 sep s).
Proof. unfold split2. repeat case_match; keep. Qed.

Lemma int16_safe s : gsafe (int16 s).
Proof. apply option_safe. Qed.

#[local] Hint Resolve split2_safe int16_safe or_E01_safe or_E01_value_safe or_E01_any_safe : keeps.

Lemma parse_le_safe hex o : gsafe (parse_le hex o).
Proof. unfold parse_le. keep. Qed.

Lemma set_both_pc_safe v : gsafe (set_both_pc v).
Proof. apply on_cpu. apply keeps_modify; [by intros c []|done]. Qed.

#[local] Hint Resolve parse_le_safe set_both_pc_safe : keeps.
#[local] Hint Extern 3 (keeps _ _ (for_each _ _) _) => apply keeps_for_each; intros ? ? : keeps.

Lemma read_gprs_safe l : gsafe (read_gprs l).
Proof. induction l; simpl; keep. Qed.

#[local] Hint Resolve read_gprs_safe : keeps.

Lemma cmd_read_registers_safe : gsafe cmd_read_registers.
Proof. unfold cmd_read_registers, cget. keep. Qed.

Lemma cmd_write_registers_safe hex : gsafe (cmd_write_registers hex).
Proof.
  apply or_E01_safe. eapply keeps_bind; [|intros _ _; keep].
  apply keeps_for_each. intros i _. unfold write_gpr. keep.
Qed.

Lemma cmd_read_register_safe s : gsafe (cmd_read_register s).
Proof. apply or_E01_value_safe. unfold cget. keep. Qed.

Lemma cmd_write_register_safe s : gsafe (cmd_write_register s).
Proof.
  apply or_E01_safe. eapply keeps_bind; [keep|]. intros [a b] _. keep.
Qed.

Lemma read_bytes_safe addr l : gsafe (read_bytes addr l).
Proof. induction l; simpl; keep. Qed.

#[local] Hint Resolve read_bytes_safe : keeps.

Lemma cmd_read_memory_safe s : gsafe (cmd_read_memory s).
Proof. apply or_E01_any_safe. eapply keeps_bind; [keep|]. intros [a b] _. keep. Qed.

Lemma cmd_write_memory_safe s : gsafe (cmd_write_memory s).
Proof.
  apply or_E01_any_safe. eapply keeps_bind; [keep|]. intros [a b] _.
  eapply keeps_bind; [keep|]. intros [c d] _. keep. apply keeps_for_each. intros i _.
  unfold write_one. keep.
Qed.

Lemma resume_safe step s : gsafe (resume step s).
Proof. unfold resume. repeat case_match; keep. Qed.

Lemma break_addr_safe s : gsafe (break_addr s).
Proof. unfold break_addr. case_match; keep. Qed.

#[local] Hint Resolve break_addr_safe : keeps.

Lemma cmd_insert_breakpoint_safe s : gsafe (cmd_insert_breakpoint s).
Proof. apply or_E01_safe. keep. Qed.

Lemma cmd_remove_breakpoint_safe s : gsafe (cmd_remove_breakpoint s).
Proof. apply or_E01_safe. keep. Qed.

Lemma encode_hex_safe s : gsafe (encode_hex s).
Proof. unfold encode_hex. keep. Qed.

#[local] Hint Resolve encode_hex_safe : keeps.

Lemma monitor_csr_safe l : gsafe (monitor_csr l).
Proof.
  unfold monitor_csr. destruct l as [|a args]; [keep|].
  eapply (keeps_bind _ _ _ _ (fun _ => True)); [case_match; keep|]. intros [n|] _; [|keep].
  apply keeps_if; intros _; [keep|]. destruct args; keep.
Qed.

Lemma cmd_monitor_safe s : gsafe (cmd_monitor exn_text s).
Proof.
  apply catch_safe; [|intros; keep]. eapply keeps_bind; [keep|]. intros b _.
  apply keeps_if; intros _; [|keep]. case_match; [keep|].
  repeat (apply keeps_if; intros _); [apply monitor_csr_safe|keep..].
Qed.

#[local] Hint Resolve cmd_read_registers_safe cmd_write_registers_safe cmd_read_register_safe
  cmd_write_register_safe cmd_read_memory_safe cmd_write_memory_safe resume_safe
  cmd_insert_breakpoint_safe cmd_remove_breakpoint_safe cmd_monitor_safe : keeps.

Lemma handle_query_safe cmd : gsafe (handle_query exn_text cmd).
Proof.
  unfold handle_query, cmd_continue, cmd_step. case_match; [keep|].
  repeat (apply keeps_if; intros _; [keep|]). case_match; [keep|].
  repeat (apply keeps_if; intros _; [keep|]). keep.
Qed.

Lemma cmd_halt_reason_safe : gsafe cmd_halt_reason.
Proof. unfold cmd_halt_reason, sget. keep. Qed.

#[local] Hint Resolve cmd_halt_reason_safe : keeps.

Lemma handle_command_safe cmd : gsafe (handle_command exn_text cmd).
Proof.
  unfold handle_command, cmd_continue, cmd_step.
  repeat (apply keeps_if; intros _; [keep|]).
  repeat (case_match; [keep|]). apply handle_query_safe.
Qed.

(** ** Execution *)

Hypothesis Hecall : forall h, handle_ecall = Some h -> keeps failure I h (fun _ => True).
Hypothesis Hrunner : forall p, keeps failure I (runner p) (fun _ => True).

Lemma instruction_safe tm : gsafe (gdb_instruction handle_ecall tm).
Proof.
  unfold gdb_instruction, cget. eapply keeps_bind; [keep|intros p _].
  eapply keeps_bind; [keep|intros low _].
  eapply (keeps_bind _ _ _ _ (fun _ => True)); [|intros _ _].
  - apply keeps_if; intros _; [|by eapply on_memory, execute_16_robust].
    eapply keeps_bind; [keep|intros q _]. eapply keeps_bind; [keep|intros high _].
    by eapply on_memory, execute_32_robust.
  - eapply keeps_bind; [unfold tick; apply keeps_if; intros _; [|keep]|intros _ _].
    + apply on_cpu, keeps_gdb, timer_update_robust.
    + apply on_cpu, keeps_modify; [by intros c []|done].
Qed.

Lemma poll_gdb div : gsafe (poll runner div).
Proof.
  unfold poll, peripherals_run, mget. apply keeps_if; intros _; [|keep].
  eapply keeps_bind; [|intros _ _; keep]. eapply keeps_bind; [apply keeps_any|intros l _].
  apply keeps_for_each. intros q _. by eapply on_memory.
Qed.

Lemma gdb_round_safe tm mm vars : gsafe (gdb_round handle_ecall runner tm mm vars).
Proof.
  destruct vars as [cc div]. unfold gdb_round, cget, is_breakpoint, sget.
  eapply keeps_bind; [keep|intros p _]. eapply keeps_bind; [keep|intros hit _].
  apply keeps_if; intros _; [keep|]. cbv zeta.
  eapply (keeps_bind _ _ _ _ (fun _ => True)); [keep|intros _ _].
  eapply keeps_bind; [apply instruction_safe|intros _ _].
  eapply (keeps_bind _ _ _ _ (fun _ => True)); [apply keeps_if; intros _; [apply poll_gdb|keep]|].
  intros; keep.
Qed.

Lemma gdb_while_safe tm mm n vars : gsafe (gdb_while handle_ecall runner tm mm n vars).
Proof.
  revert vars. induction n as [|n IH]; intros vars; simpl; unfold sget;
    (eapply keeps_bind; [keep|intros on _]); (apply keeps_if; intros _; [|keep]); [keep|].
  eapply keeps_bind; [apply gdb_round_safe|]. intros; apply IH.
Qed.

Lemma run_with_gdb_safe n : gsafe (run_with_gdb handle_ecall runner n).
Proof.
  unfold run_with_gdb, mget, sget, peripherals_run.
  do 3 (eapply keeps_bind; [keep|intros ? _]). apply keeps_if; intros _; [|apply gdb_while_safe].
  eapply keeps_bind; [apply instruction_safe|intros _ _].
  eapply (keeps_bind _ _ _ _ (fun _ => True)); [|intros _ _; keep].
  apply keeps_if; intros _; [|keep]. eapply keeps_bind; [apply keeps_any|intros l _].
  apply keeps_for_each. intros q _. by eapply on_memory.
Qed.

Lemma report_safe signal : gsafe (report signal).
Proof.
  unfold report, stop_reply, send_packet. eapply (keeps_bind _ _ _ _ (fun _ => True)); [keep|].
  intros; apply on_conn, sendall_safe.
Qed.

#[local] Hint Resolve report_safe handle_command_safe : keeps.

Lemma gdb_run_safe n : gsafe (gdb_run handle_ecall runner n).
Proof.
  unfold gdb_run. eapply (keeps_bind _ _ _ _ (fun _ => True)); [|intros; keep].
  apply catch_safe.
  - eapply keeps_bind; [apply run_with_gdb_safe|intros; keep].
  - intros e He. unfold on_stop.
    destruct e; keep; by apply keeps_raise.
Qed.

Lemma gdb_command_safe n : gsafe (gdb_command handle_ecall runner exn_text n).
Proof.
  unfold gdb_command, sget, send_packet. eapply keeps_bind; [keep|]. intros [cmd|] _; [|keep].
  apply keeps_if; intros _; [keep|].
  eapply keeps_bind; [apply handle_command_safe|intros r _]. eapply keeps_bind; [keep|intros on _].
  apply keeps_if; intros _; [apply gdb_run_safe|]. destruct r; keep.
Qed.

(** A session of [n] packets, with at most [rounds] rounds of the program after each. *)
Lemma run_gdbstub_safe n rounds : gsafe (run_gdbstub handle_ecall runner exn_text n rounds).
Proof.
  induction n as [|n IH]; simpl; [keep|].
  eapply keeps_bind; [apply gdb_command_safe|]. intros [] _; [keep|keep|apply IH].
Qed.
End Commands.
End Lapsing.
