(* ===== verification/EmuSafe.v ===== *)
(** * The emulator as riscv-emu.py runs it

    The whole composition: any configuration of the command line, all peripherals with the
    memory-mapped timer, any program, the system calls of syscalls.py as the handler of
    ECALL, and any client of the debugger.  Loading and running keep the process in shape,
    and a traceback can only be the OverflowError of a division, the OSError of a host call
    or, with the debugger, an error of the client's making. *)

From Stdlib Require Import ZArith Lia Bool String.
From stdpp Require Import base numbers list option gmap strings.
From S2P Require Import Prelude PyStr Isa Ram Cpu Rvc CpuSem Exec ExecSem ExecSafe RamSafe Core.
From S2P Require Import Machine Peripherals World MachineThms Syscalls MemClass MmioSafe.
From S2P Require Import Robust SyscallSafe GdbPacket Gdb GdbSafe Emu EmuThms.

Local Open Scope Z_scope.
Local Open Scope py_scope.

#[export] Instance allows_failure `{LX : Lapses} : Allows failure.
Proof. by left. Qed.

Section Lapsing.
Context {LX : Lapses}.

(** ** The memory of the emulator, with every peripheral *)

Section World.
Context (Im : machine -> Prop).

Abbreviation emu_inv := (devices_inv failure shape Im (fun _ => True)).
Abbreviation esafe m Q := (keeps failure emu_inv m Q).

Lemma emu_cpu f : (forall c, shape c -> shape (f c)) -> esafe (zoom (modify f)) (fun _ => True).
Proof.
  intros Hf. eapply (keeps_zoom (A := cpu) _ shape); [by apply keeps_modify|by intros ? []|].
  intros w c [] Hc. by split.
Qed.

Lemma emu_timer (f : mmio_timer -> mmio_timer) : esafe (zoom (modify f)) (fun _ => True).
Proof. intros w []. split; [by split|done]. Qed.

Lemma timer_read_safe addr : esafe (MMIOTimer_read32 addr) (fun _ => True).
Proof.
  unfold MMIOTimer_read32. eapply keeps_bind; [apply keeps_any|]. intros c _.
  repeat (apply keeps_if; intros _); first [by apply keeps_ret|by apply keeps_raise, allows].
Qed.

Lemma timer_write_safe addr v : esafe (MMIOTimer_write32 addr v) (fun _ => True).
Proof.
  unfold MMIOTimer_write32, timer_commit.
  repeat lazymatch goal with
  | |- keeps _ _ (bind _ _) _ => eapply keeps_bind; [|intros ? _]
  | |- keeps _ _ (if _ then _ else _) _ => apply keeps_if; intros _
  | |- keeps _ _ (gets _) _ => apply keeps_any
  | |- keeps _ _ (ret tt) _ => apply keeps_skip
  | |- keeps _ _ (raise _) _ => by apply keeps_raise, allows
  | |- keeps _ _ (zoom _) _ => first [apply emu_timer | apply emu_cpu; by intros ? []]
  end.
Qed.

Lemma emu_read32 p addr : esafe (world_read32 p addr) (fun _ => True).
Proof.
  destruct p; simpl; [| |apply timer_read_safe];
    (eapply keeps_weaken; [|by intros]); [apply uart_lift, uart_read_safe|apply blk_read_safe].
Qed.

Lemma emu_write32 (Rb : RamOps world) p addr v :
  (forall a n, esafe (load_binary (RamOps := Rb) a n) (Forall u8)) ->
  (forall a b, Forall u8 b -> esafe (store_binary (RamOps := Rb) a b) (fun _ => True)) ->
  u32 v -> esafe (world_write32 Rb p addr v) (fun _ => True).
Proof.
  intros Hl Hs Hv. destruct p; simpl;
    [apply uart_lift, uart_write_safe|by apply blk_write_safe|apply timer_write_safe].
Qed.

Lemma u32_land v : u32 (Z.land v 0xFFFFFFFF).
Proof. rewrite land_ffffffff. by apply Z.mod_pos_bound. Qed.

(** A memory class without ranges. *)
Lemma plain_keeps (R : RamOps world) : RamSafe (R := R) failure shape emu_inv ->
  (forall a n, esafe (load_binary (RamOps := R) a n) (Forall u8)) ->
  (forall a b, Forall u8 b -> esafe (store_binary (RamOps := R) a b) (fun _ => True)) ->
  RamKeeps (R := R) emu_inv.
Proof.
  intros HS Hl Hs. split; [by intros w []|intros w c [] Hc; by split|..]; intros;
    first [apply HS | by apply Hl | by apply Hs | eapply keeps_weaken; [apply HS|done]].
Qed.

Lemma RAM_keeps : RamKeeps (R := RAM_ops) emu_inv.
Proof. apply plain_keeps; [exact _|apply RAM_load_binary_safe|apply RAM_store_binary_safe]. Qed.

Lemma SafeRAM_keeps : RamKeeps (R := SafeRAM_ops) emu_inv.
Proof. apply plain_keeps; [exact _|apply SafeRAM_load_binary_safe|apply SafeRAM_store_binary_safe]. Qed.

(** An access routed to a peripheral or to the memory. *)
Lemma emu_routed {A} addr (access : periph -> ST world A) (mem : ST world A) :
  (forall p, esafe (access p) (fun _ => True)) -> keeps failure emu_inv mem (fun _ => True) ->
  keeps failure emu_inv (fun w => match mmio_find addr (mmio_ranges (view w)) with
                                  | Some p => access p w | None => mem w end) (fun _ => True).
Proof.
  intros Ha Hm w Hw. destruct (mmio_find _ _) as [p|]; [|by apply Hm].
  by apply (Ha p).
Qed.

Lemma class_keeps (k : ram_class) :
  RamKeeps (R := class_ops world_read32 world_write32 k) emu_inv.
Proof.
  pose proof RAM_keeps as HR. pose proof SafeRAM_keeps as HS.
  destruct k; [exact HR|exact HS|split; intros; try by apply HR|split; intros; try by apply HS].
  - apply (emu_routed a (fun p => world_read32 p a)); [intros; apply emu_read32|apply HR].
  - apply (emu_routed a (fun p => world_write32 RAM_ops p a (Z.land v 0xFFFFFFFF))); [|apply HR].
    intros. apply emu_write32; [apply RAM_load_binary_safe|apply RAM_store_binary_safe|apply u32_land].
  - apply (emu_routed a (fun p => world_read32 p a)); [intros; apply emu_read32|apply HS].
  - apply (emu_routed a (fun p => world_write32 SafeRAM_ops p a (Z.land v 0xFFFFFFFF))); [|apply HS].
    intros. apply emu_write32; [apply SafeRAM_load_binary_safe|apply SafeRAM_store_binary_safe|apply u32_land].
Qed.
End World.

(** ** The process *)

(** The trigger of the checks is set, and the heap has an end where sbrk needs one. *)
Definition machine_ok (m : machine) : Prop := started m /\ heap_defined m.

(** The same, with the end of the heap known. *)
Definition heap_set (m : machine) : Prop := started m /\ heap_end m <> None.

Section Process.
Context {H : Type} (os : Host H).
#[local] Existing Instance process_Host.

Definition process_ok (Im : machine -> Prop) (p : process H) : Prop :=
  devices_inv failure shape Im (fun _ => True) (p_world p) /\ sys_logger (p_sys p) = true.

Abbreviation psafe Im m := (keeps failure (process_ok Im) m (fun _ => True)).

Lemma lift_world Im {A} (m : ST world A) Q :
  keeps failure (devices_inv failure shape Im (fun _ => True)) m Q ->
  keeps failure (process_ok Im) (zoom m) Q.
Proof. intros Hm. eapply keeps_zoom; [exact Hm|by intros ? []|]. by intros ? ? []. Qed.

#[export] Instance process_keeps Im k : RamKeeps (R := process_ops k) (process_ok Im).
Proof.
  pose proof (class_keeps Im k) as HK.
  split; [by intros p [[] _]|intros p c [[] ?] Hc; split; [by split|done]|..]; intros; apply lift_world;
    by apply HK.
Qed.

Lemma process_mset Im f : (forall m, Im m -> Im (f m)) -> psafe Im (mset f).
Proof.
  intros Hf p [[] Hl]. unfold mset, zoom, modify. split; [|done]. split; [|done].
  split; try done. by apply Hf.
Qed.

Lemma process_cpu Im {A} (m : ST cpu A) Q :
  keeps failure shape m Q -> keeps failure (process_ok Im) (zoom m) Q.
Proof. apply (zoom_robust (R := process_ops Class_RAM)). apply _. Qed.

Lemma process_runner_safe Im q : psafe Im (process_runner q).
Proof.
  apply lift_world. destruct q; simpl; [apply uart_lift, uart_run_safe|by apply keeps_ret..].
Qed.

(** A host whose calls return is one for the process: they do not touch the emulator. *)
Context `{HH : !HostSafe (HO := os) (fun _ : H => True)}.

Lemma process_sys Im {A} (m : ST H A) Q :
  keeps failure (fun _ => True) m Q -> keeps failure (process_ok Im) (sys m) Q.
Proof. intros Hm. eapply keeps_zoom; [exact Hm|done|]. by intros [] ? []. Qed.

#[local] Instance process_host Im : HostSafe (HO := process_Host os) (process_ok Im).
Proof. split; intros; apply process_sys; apply HH. Qed.

(** ** Running *)

Lemma process_handle k :
  psafe machine_ok (handle (R := process_ops k)).
Proof.
  apply handle_call; try apply _.
  - by intros p [].
  - intros p s [] Hs. by split.
  - by intros p [[? ? [? ?]] _].
  - intros p v [[] Hl]. split; [|done]. split; try done. destruct mi_machine.
    split; [done|by left].
Qed.

Lemma process_run k n :
  psafe machine_ok (run (R := process_ops k) (Some (handle (R := process_ops k))) process_runner n).
Proof.
  apply run_robust; [apply _| | | |apply process_runner_safe].
  - intros h [= <-]. apply process_handle.
  - intros p b [[] Hl]. split; [|done]. split; try done.
  - by intros p [[? ? [? ?]] _].
Qed.

(** A session with any client. *)
Lemma process_gdbstub k exn_text n rounds :
  keeps gdb_failure (process_ok machine_ok)
    (run_gdbstub (R := process_ops k) (Some (handle (R := process_ops k))) process_runner exn_text
       n rounds) (fun _ => True).
Proof.
  apply run_gdbstub_safe; [apply _|by intros [] ? []|by intros [] ? []| |apply process_runner_safe].
  intros h [= <-]. apply process_handle.
Qed.

(** ** Loading *)

Definition defines (name : string) (syms : list elf_symbol) : bool :=
  existsb (fun s => String.eqb (sym_name s) name) syms.

(** The segments hold bytes; a program that says where its stack ends says where its heap
    starts, unless the TypeError of its sbrk is allowed for. *)
Definition elf_ok (elf : elf_file) : Prop :=
  Forall (fun s => Forall u8 (snd s)) (pt_load elf) /\
  forall syms, symtab elf = Some syms ->
    defines "__stack_bottom" syms = true ->
    defines "__heap_start" syms = true \/ lapse TypeError.

Lemma note_symbol_started m s : started m -> started (note_symbol m s).
Proof. unfold note_symbol. by repeat case_match. Qed.

Lemma note_symbol_heap m s :
  heap_end (note_symbol m s) <> None <->
  heap_end m <> None \/ String.eqb (sym_name s) "__heap_start" = true.
Proof. unfold note_symbol. repeat case_match; simpl; intuition discriminate. Qed.

Lemma note_symbol_bottom m s : stack_bottom (note_symbol m s) <> None ->
  stack_bottom m <> None \/ String.eqb (sym_name s) "__stack_bottom" = true.
Proof. unfold note_symbol. repeat case_match; simpl; auto. Qed.

Lemma note_symbols m syms :
  (started m -> started (fold_left note_symbol syms m)) /\
  (heap_end (fold_left note_symbol syms m) <> None <->
     heap_end m <> None \/ defines "__heap_start" syms = true) /\
  (stack_bottom (fold_left note_symbol syms m) <> None ->
     stack_bottom m <> None \/ defines "__stack_bottom" syms = true).
Proof.
  revert m. induction syms as [|s syms IH]; intros m; simpl; [intuition discriminate|].
  destruct (IH (note_symbol m s)) as (H1 & H2 & H3).
  rewrite !orb_true_iff. split_and!.
  - intros Hm. by apply H1, note_symbol_started.
  - rewrite H2, note_symbol_heap. symmetry. apply or_assoc.
  - intros [Hb%note_symbol_bottom|Hb]%H3; [destruct Hb|]; auto.
Qed.

Lemma symbols_ok m syms :
  (defines "__stack_bottom" syms = true -> defines "__heap_start" syms = true \/ lapse TypeError) ->
  machine_ok m -> machine_ok (fold_left note_symbol syms m).
Proof.
  intros Hs [H1 H2]. destruct (note_symbols m syms) as (N1 & N2 & N3).
  split; [auto|]. intros [Hb|Hb]%N3; [destruct (H2 Hb)|destruct (Hs Hb)]; auto; left; apply N2; auto.
Qed.

#[local] Hint Extern 2 (keeps failure _ (mset _) _) =>
  apply process_mset; by intros ? [] : keeps.
#[local] Hint Extern 2 (keeps failure _ (ret _) _) => by apply keeps_ret : keeps.
#[local] Hint Extern 2 (keeps failure _ (raise _) _) => apply keeps_raise; left; reflexivity : keeps.
#[local] Hint Extern 2 (keeps failure _ (zoom (set_reg _ _)) _) =>
  apply process_cpu, set_reg_robust; lia : keeps.

Lemma set_pc_process Im v : psafe Im (zoom (modify (set_pc v))).
Proof. apply process_cpu, modify_robust. by intros c []. Qed.

#[local] Hint Resolve set_pc_process : keeps.

Lemma load_flatbinary_safe k binary : Forall u8 binary ->
  psafe machine_ok (load_flatbinary (R := process_ops k) binary).
Proof.
  intros Hb. unfold load_flatbinary. eapply keeps_bind; [by apply rk_store_binary|]. intros _ _.
  unfold mget. keep.
Qed.

Lemma load_elf_safe k elf sy ct : elf_ok elf ->
  psafe machine_ok (load_elf (R := process_ops k) elf sy ct).
Proof.
  intros [Hseg Hsym]. unfold load_elf, mget.
  eapply keeps_bind; [|intros _ _].
  { apply keeps_for_each. intros s Hs. apply rk_store_binary.
    rewrite Forall_forall in Hseg. by apply Hseg. }
  eapply keeps_bind; [keep|intros _ _]. eapply (keeps_bind _ _ _ _ (fun _ => True)); [|intros _ _].
  { destruct (symtab elf) as [syms|]; [|keep]. eapply keeps_bind; [|intros _ _; keep].
    apply process_mset. intros m. by apply symbols_ok, Hsym. }
  eapply (keeps_bind _ _ _ _ (fun _ => True)); [|intros _ _; keep].
  destruct (text_section elf) as [[]|]; keep.
Qed.

(** ** The arguments of the program *)

Lemma heap_safe : psafe heap_set heap.
Proof.
  intros p Hp. unfold heap, mget, bind, gets. destruct (mi_machine _ (proj1 Hp)) as [_ Hh].
  simpl. by destruct (heap_end (w_machine (p_world p))).
Qed.

Lemma store_arg_safe k arg : encodable arg -> psafe heap_set (store_arg (R := process_ops k) arg).
Proof.
  intros Ha. unfold store_arg.
  eapply (keeps_bind _ _ _ _ (fun h => h <> None)).
  { apply keeps_gets. intros p [[? ? [? ?]] _]. done. }
  intros [h|] Hh; [|done]. eapply keeps_bind; [by apply encoding_keeps|].
  intros bs Hbs. eapply (keeps_bind _ _ _ _ (fun _ => True)); [by apply keeps_ret|]. intros a _.
  eapply keeps_bind; [apply rk_store_binary; apply Forall_app_2; [done|by repeat constructor]|].
  intros _ _. keep.
Qed.

Lemma store_args_safe k argv : Forall encodable argv ->
  psafe heap_set (store_args (R := process_ops k) argv).
Proof.
  induction 1 as [|a l Ha _ IH]; simpl; [keep|].
  eapply keeps_bind; [by apply store_arg_safe|]. intros q _. eapply keeps_bind; [exact IH|]. keep.
Qed.

Lemma setup_argv_safe k argv : Forall encodable argv ->
  psafe heap_set (setup_argv (R := process_ops k) argv).
Proof.
  intros Ha. unfold setup_argv. eapply keeps_bind; [by apply store_args_safe|]. intros ptrs _.
  eapply (keeps_bind _ _ _ _ (fun h => h <> None)).
  { apply keeps_gets. intros p [[? ? [? ?]] _]. done. }
  intros [table|] Ht; [|done]. eapply keeps_bind; [|intros _ _].
  { apply keeps_for_each. intros ptr _. unfold store_pointer.
    eapply keeps_bind; [apply heap_safe|]. intros h _.
    eapply keeps_bind; [apply rk_store_word|]. intros _ _. keep. }
  eapply keeps_bind; [apply heap_safe|]. intros h _.
  do 2 (eapply keeps_bind; [keep|intros _ _]).
  eapply (keeps_bind _ _ _ _ (fun _ => True)); [by apply keeps_ret|]. intros a _. keep.
Qed.

Lemma heap_set_ok p : process_ok heap_set p -> process_ok machine_ok p.
Proof. intros [[? ? [? ?]] ?]. split; [|done]. split; try done. split; [done|by intros _; left]. Qed.

(** The two lines of main() after load_elf. *)
Lemma load_args_safe k argv : Forall encodable argv ->
  psafe machine_ok (h <- mget heap_end ;;
                    if bool_decide (h <> None) then setup_argv (R := process_ops k) argv else ret tt).
Proof.
  intros Ha p Hp. unfold mget, bind, gets. case_bool_decide as Hh; [|done].
  assert (process_ok heap_set p) as Hp'.
  { destruct Hp as [[? ? [? ?]] ?]. split; [|done]. by split. }
  pose proof (setup_argv_safe k argv Ha p Hp') as Hs.
  destruct (setup_argv argv p) as [[]]; destruct Hs; auto using heap_set_ok.
Qed.
End Process.

(** ** The whole program *)

Section Main.
Context {H : Type} (os : Host H).
Context (getrandbits8 getrandbits32 : nat -> Z).
Context (pty_events : list (option rx_event)) (pty_accepts : list tx_event) (disk_io : list disk_event).
Context (disk_image : pystr -> option (list Z)).
Context (open_binary : pystr -> res (list Z)) (open_elf : pystr -> res elf_file).
Context (exn_text : exn -> str -> str).

(** What surrounds the emulator behaves: the random generators, the terminal and the image
    give values of their width, the host calls return, and a file that is opened holds bytes
    or an ELF file; opening it can fail with an OSError. *)
Record surroundings : Prop := {
  sur_random8 : forall i, u8 (getrandbits8 i);
  sur_random32 : forall i, u32 (getrandbits32 i);
  sur_pty : Forall (event_ok failure) pty_events;
  sur_disk : forall path img, disk_image path = Some img -> Forall u8 img;
  sur_binary : forall path, match open_binary path with Ok b => Forall u8 b | Exn e => failure e end;
  sur_elf : forall path, match open_elf path with Ok elf => elf_ok elf | Exn e => failure e end;
  sur_host : HostSafe (HO := os) (fun _ : H => True)
}.

Abbreviation create := (create getrandbits8 getrandbits32 pty_events pty_accepts disk_io disk_image).
Abbreviation load := (load open_binary open_elf).
Abbreviation main :=
  (main os getrandbits8 getrandbits32 pty_events pty_accepts disk_io disk_image open_binary open_elf exn_text).

Lemma create_ok (Hs : surroundings) a stdin stdout stderr c (h : H) p : 0 <= a_ram_size a ->
  create a stdin stdout stderr c h = Ok p -> process_ok machine_ok p.
Proof.
  intros Hsize. unfold Emu.create. destruct (Emu.build _ _ _ _ _ _ a) as [w|] eqn:Eb; [|done].
  intros [= <-]. split; [|done]. simpl.
  assert (failure OSError) as Hos by by right; right; left.
  destruct (build_ok _ _ _ _ _ _ failure a w (sur_random8 Hs) (sur_random32 Hs) Hsize (sur_pty Hs)
    ltac:(by apply Forall_forall; intros []) ltac:(by apply Forall_forall; intros [])
    (sur_disk Hs) Eb) as (_ & _ & _ & _ & _ & _ & _ & [] & Hb).
  split; try done; [by apply wf_shape|]. split; [done|]. unfold heap_defined. by rewrite Hb.
Qed.

Lemma load_safe (Hs : surroundings) (a : args) : Forall encodable (program_args a) ->
  keeps failure (process_ok (H := H) machine_ok) (load a) (fun _ => True).
Proof.
  intros Ha. unfold Emu.load. set (k := select_ram_class _ _). apply keeps_if; intros _.
  - eapply (keeps_bind _ _ _ _ (Forall u8)).
    + pose proof (sur_binary Hs (executable a)) as Hb. intros p Hp. unfold open_file.
      by destruct (open_binary _).
    + intros binary Hb. eapply keeps_bind; [by apply load_flatbinary_safe|]. intros _ _.
      by apply keeps_ret.
  - apply keeps_if; intros _; [|by apply keeps_ret].
    eapply (keeps_bind _ _ _ _ elf_ok).
    + pose proof (sur_elf Hs (executable a)) as Hb. intros p Hp. unfold open_file.
      by destruct (open_elf _).
    + intros elf He. eapply keeps_bind; [by apply load_elf_safe|]. intros _ _.
      intros p Hp. pose proof (load_args_safe k (program_args a) Ha p Hp) as Hl.
      unfold mget, bind, gets in Hl |- *. case_bool_decide; [|done].
      by destruct (setup_argv _ p) as [[]].
Qed.

(** The exceptions a traceback can show, without and with the debugger. *)
Definition traceback_ok (gdb : bool) (e : exn) : Prop :=
  e = OverflowError \/ e = OSError \/ lapse e \/ gdb = true /\ (e = ValueError \/ e = IndexError).

Definition ending_ok (gdb : bool) (out : ending) : Prop :=
  match out with Traceback e => traceback_ok gdb e | _ => True end.

Lemma failure_status gdb e : failure e ->
  ending_ok gdb (status_of e) /\ ending_ok gdb (setup_status e).
Proof.
  unfold ending_ok, traceback_ok, status_of, setup_status, failure, machine_error.
  intros [He|Hf]; [rewrite He; by destruct e|].
  destruct (is_machine_error e) eqn:He; [by destruct e|]. split; destruct e; tauto || done.
Qed.

Lemma gdb_failure_status e : gdb_failure e -> ending_ok true (status_of e).
Proof.
  intros [He|[-> | ->]]; [by apply failure_status|..]; unfold ending_ok, traceback_ok; simpl; auto 6.
Qed.

(** From the arguments on: the process is in shape at any time, and the tracebacks are those
    of [traceback_ok]. *)
Lemma main_safe (Hs : surroundings) (a : args) (stdin stdout stderr : Z) (c : conn) (h : H)
  (n : nat) (p0 : process H) (Hsize : 0 <= a_ram_size a)
  (Hargs : Forall encodable (program_args a))
  (Hc : create a stdin stdout stderr c h = Ok p0) :
  let '(out, p) := main a stdin stdout stderr c h n in
  (exists p', p = Some p' /\ process_ok machine_ok p') /\ ending_ok (a_gdb a) out.
Proof.
  pose proof (create_ok Hs a _ _ _ _ _ _ Hsize Hc) as Hp. pose proof (sur_host Hs) as HH.
  unfold Emu.main. rewrite Hc. pose proof (load_safe Hs a Hargs p0 Hp) as Hl.
  destruct (load a p0) as [[[]|e] p1]; destruct Hl as [Hp1 He].
  - unfold execute_program. set (k := select_ram_class _ _). destruct (a_gdb a); cbn [negb]; unfold bind.
    + pose proof (process_gdbstub os k exn_text n n p1 Hp1) as Hr.
      destruct (run_gdbstub _ _ _ n n p1) as [[[]|e] p2]; destruct Hr as [Hp2 Hr];
        (split; [by exists p2|]); [done..|]. by apply gdb_failure_status.
    + pose proof (process_run os k n p1 Hp1) as Hr.
      destruct (run _ _ n p1) as [[[]|e] p2]; destruct Hr as [Hp2 Hr]; (split; [by exists p2|]); [done|].
      by apply failure_status.
  - split; [by exists p1|done].
  - split; [by exists p1|by apply failure_status].
Qed.
End Main.
End Lapsing.
