(* ===== verification/EmuBoot.v ===== *)
(** * The process after loading

    riscv-emu.py from the options and the file to the start of the run: the machine that is
    constructed and loaded is the reference machine of IsaMachine.v after a reset, with the
    segments of the file at their addresses, the pc at the entry point and, for a program
    with a heap, the arguments of the program as a C program expects them. *)

From Stdlib Require Import ZArith Lia Bool String.
From stdpp Require Import base numbers list option gmap strings.
From S2P Require Import Prelude PyStr Isa Ram Cpu Rvc CpuSem Exec ExecSem ExecSafe RamSafe Core.
From S2P Require Import MemInstr IsaMachine Board IsaRefine Machine Peripherals World Lift IsaRun Argv.
From S2P Require Import Syscalls MemClass MmioSafe BoardRefine GdbPacket Gdb Emu EmuThms EmuSafe.

Local Open Scope Z_scope.
Local Open Scope py_scope.

(** ** The process as a world *)

Section Process.
Context {H : Type}.

#[export] Instance process_Separate : Separate (process H).
Proof.
  split; intros; [apply (sep_ram (W := world))|apply (sep_cpu (W := world))|].
  destruct w as [[] ? ? ? ?]. reflexivity.
Qed.

#[export] Instance process_InWorld : InWorld (process H).
Proof. split; by intros; destruct w. Qed.

#[export] Instance process_Safe_LiftMem X : LiftMem any_ram X (process_ops (H := H) Class_SafeRAM).
Proof. apply (in_world_LiftMem any_ram X SafeRAM_ops), _. Qed.

#[export] Instance process_RAM_LiftMem : LiftMem any_ram ends (process_ops (H := H) Class_RAM).
Proof. apply (in_world_LiftMem any_ram ends RAM_ops), _. Qed.
End Process.

(** ** Reset *)

(** What a program starts with: bytes in the memory, the entry point, the number and the
    table of its arguments, and the end of the heap and its limit. *)
Record image := mkImage {
  im_segments : list (Z * list Z);
  im_entry : Z;
  im_args : option (Z * Z);
  im_break : option Z;
  im_limit : option Z
}.

(** The memory after the segments have been stored one after the other. *)
Definition image_byte (segs : list (Z * list Z)) (m : Z -> Z) : Z -> Z :=
  fold_left (fun m s => overlay m (fst s) (snd s)) segs m.

(** A hart after a reset, with an image in a memory of zeros. *)
Definition boot (rvc : bool) (im : image) : hart :=
  let h := mkHart (fun _ => 0) (im_entry im) (fun i => default 0 (py_get (initial_csrs rvc) i))
             (image_byte (im_segments im) (fun _ => 0)) None 0 0xFFFFFFFFFFFFFFFF in
  match im_args im with
  | Some (argc, argv) => set_x 11 argv (set_x 10 argc h)
  | None => h
  end.

(** A segment that fits into [sz] bytes. *)
Definition segment_ok (sz : Z) (s : Z * list Z) : Prop :=
  0 <= fst s /\ fst s + py_len (snd s) <= sz /\ Forall u8 (snd s).

(** An image that fits, with an entry point that is aligned. *)
Record image_ok (sz align : Z) (im : image) : Prop := {
  io_segments : Forall (segment_ok sz) (im_segments im);
  io_entry : u32 (im_entry im);
  io_aligned : im_entry im mod align = 0;
  io_args : match im_args im with Some (n, t) => u32 n /\ u32 t | None => True end
}.

(** *** The arguments of the program *)

Definition word_bytes (v : Z) : list Z := [byte_of v 0; byte_of v 1; byte_of v 2; byte_of v 3].

(** A table of words at [t]. *)
Fixpoint table_segments (t : Z) (ps : list Z) : list (Z * list Z) :=
  match ps with [] => [] | q :: l => (t, word_bytes q) :: table_segments (t + 4) l end.

(** The strings from the start of the heap on. *)
Fixpoint string_segments (h : Z) (argv : list (list Z)) : list (Z * list Z) :=
  match argv with
  | [] => []
  | s :: rest => (h, s ++ [0]) :: string_segments (align_up (h + (py_len s + 1)) 4) rest
  end.

(** The strings, then the table of their addresses with a null pointer at its end. *)
Definition argument_segments (h : Z) (argv : list (list Z)) : list (Z * list Z) :=
  string_segments h argv ++ table_segments (args_end h argv) (arg_pointers h argv ++ [0]).

(** The heap after the table. *)
Definition arguments_end (h : Z) (argv : list (list Z)) : Z :=
  align_up (args_end h argv + 4 * (py_len argv + 1)) 8.

(** A command line for the bare machine: no debugger, no logging and no checks but those of
    the memory and of the text segment. *)
Record plain_args (a : args) : Prop := {
  pa_gdb : a_gdb a = false;
  pa_regs : truthy (a_regs a) = false;
  pa_trace : a_trace a = false;
  pa_check : check_inv_on a = false;
  pa_init_regs : a_init_regs a = "zero"%string;
  pa_init_ram : a_init_ram a = "zero"%string;
  pa_size : 0 <= a_ram_size a
}.

Definition boot_cpu (rvc : bool) : cpu :=
  mkCpu (replicate 32 0) 0 0 (initial_csrs rvc) 0 0xFFFFFFFFFFFFFFFF
    false false false false None false false 0 rvc (if rvc then 0x1 else 0x3) true ∅ ∅.

Definition boot_ram (sz : Z) (rs : list (Z * Z * periph)) : ram :=
  mkRam (replicate (Z.to_nat (sz + 4)) 0) sz 0 rs.

Definition boot_machine (a : args) : machine :=
  mkMachine (bool_decide (a_timer a <> None)) (use_mmio a) (a_rvc a) true false (a_regs a) false
    (Some (a_start_checks a)) false (if a_uart a then [PtyUART] else [])
    None None None None None None ∅ None.

Lemma boot_RAM_init rnd sz : 0 <= sz -> sz mod 4 = 0 ->
  RAM_init rnd sz 0 (Some "zero"%string) = Ok (boot_ram sz []).
Proof.
  intros H1 H2. unfold RAM_init. rewrite (proj2 (Z.ltb_ge (sz + 4) 0)) by lia.
  rewrite <- Z.add_mod_idemp_r by done. change (4 mod 4) with 0. by rewrite Z.add_0_r, H2.
Qed.

Lemma boot_ram_wf sz rs : 0 <= sz -> sz mod 4 = 0 ->
  wf_ram (boot_ram sz rs) /\ size (boot_ram sz rs) = sz.
Proof.
  intros H1 H2. destruct (RAM_init_wf (fun _ => 0) sz 0 (Some "zero"%string) (boot_ram sz []))
    as ([] & ? & _); [by split|done|by apply boot_RAM_init|]. by split; [split|].
Qed.

Lemma py_get_zeros n i : default 0 (py_get (replicate n 0) i) = 0.
Proof.
  unfold py_get. destruct (py_index _ i) as [k|]; [|done]. simpl.
  destruct (replicate n 0 !! Z.to_nat k) as [z|] eqn:E; [|done]. by apply lookup_replicate in E as [-> _].
Qed.

Lemma boot_ram_byte sz rs a : mem_byte (boot_ram sz rs) a = 0.
Proof. apply py_get_zeros. Qed.

Lemma boot_cpu_ready rvc : ready (boot_cpu rvc).
Proof. by apply (CPU_init_ready (fun _ => 0) rvc (Some "zero"%string) true); [split|]. Qed.

Lemma boot_mtip rvc : Z.testbit (default 0 (py_get (initial_csrs rvc) MIP)) 7 = false.
Proof. destruct rvc; vm_compute; reflexivity. Qed.

(** The memory holds an image: its bytes, its ranges and its size. *)
Record holds (rs : list (Z * Z * periph)) (sz : Z) (segs : list (Z * list Z)) (r : ram) : Prop := {
  ho_wf : wf_ram r;
  ho_layout : layout r = (rs, sz);
  ho_bytes : forall x, 0 <= x -> image_byte segs (fun _ => 0) x = mem_byte r x
}.

Lemma holds_boot rs sz : 0 <= sz -> sz mod 4 = 0 -> holds rs sz [] (boot_ram sz rs).
Proof.
  intros H1 H2. split; [by apply boot_ram_wf|done|]. intros x _. by rewrite boot_ram_byte.
Qed.

Lemma holds_bytes rs sz segs r a b : holds rs sz segs r -> segment_ok sz (a, b) ->
  holds rs sz (segs ++ [(a, b)]) (with_bytes r a b).
Proof.
  intros [Hr Hl Hb] (H1 & H2 & H3). pose proof (wf_len r Hr) as Hn.
  pose proof (f_equal snd Hl) as Hs. simpl in *.
  split; [by apply with_bytes_wf; [..|lia]|done|]. intros x Hx. unfold image_byte.
  rewrite fold_left_app, with_bytes_byte by lia. simpl. unfold overlay. by rewrite <- Hb.
Qed.

Lemma holds_word rs sz segs r a v r' : holds rs sz segs r -> stored r a 4 v r' ->
  holds rs sz (segs ++ [(a, word_bytes v)]) r'.
Proof.
  intros [Hr Hl Hb] [H1 H2 _ H4 H5]. split; [done|by unfold layout in *; rewrite H2, H4|].
  intros x Hx. unfold image_byte. rewrite fold_left_app, H5 by done. simpl. unfold overlay.
  change (py_len (word_bytes v)) with 4. fold (image_byte segs (fun _ => 0)). rewrite Hb by done.
  destruct ((a <=? x) && (x <? a + 4)) eqn:E; [|done].
  assert (x = a \/ x = a + 1 \/ x = a + 2 \/ x = a + 3) as [-> | [-> | [-> | ->]]] by lia;
    [replace (a - a) with 0 by lia|replace (a + 1 - a) with 1 by lia
    |replace (a + 2 - a) with 2 by lia|replace (a + 3 - a) with 3 by lia]; done.
Qed.

(** The processor at the entry point. *)
Definition start_cpu (rvc : bool) (im : image) : cpu :=
  let c := set_pc (im_entry im) (boot_cpu rvc) in
  match im_args im with Some (argc, argv) => wr 11 argv (wr 10 argc c) | None => c end.

(** The loaded memory and the reset processor are the hart after the reset. *)
Lemma boot_agrees p rvc sz rs im align r : image_ok sz align im -> p_size p = sz -> p_rvc p = rvc ->
  holds rs sz (im_segments im) r -> agrees p (boot rvc im) (start_cpu rvc im) r.
Proof.
  intros [Hseg He _ Hargs] Hs Hr [Hw Hl Hb]. apply (f_equal snd) in Hl. simpl in Hl.
  destruct (boot_cpu_ready rvc) as (Hc & H0 & [Hk1 Hk2]).
  assert (agrees p (boot rvc (mkImage (im_segments im) (im_entry im) None None None))
    (set_pc (im_entry im) (boot_cpu rvc)) r) as Ha.
  { split; [|done|by rewrite Hl, Hs|done|by rewrite Hr|..].
    - split_and!; [by destruct Hc; split|exact H0|by split].
    - intros i Hi. symmetry. apply py_get_zeros.
    - done.
    - intros x Hx. apply Hb. lia.
    - done.
    - done.
    - done.
    - symmetry. apply boot_mtip. }
  unfold boot, start_cpu in *. destruct (im_args im) as [[n t]|]; [|done]. destruct Hargs as [Hn Ht].
  apply (agrees_retire p _ _ _ 11 t); [|done..]. by apply (agrees_retire p _ _ _ 10 n).
Qed.

Lemma start_cpu_pc rvc im : pc (start_cpu rvc im) = im_entry im.
Proof. unfold start_cpu. by destruct (im_args im) as [[]|]. Qed.

Lemma boot_pc rvc im : hpc (boot rvc im) = im_entry im.
Proof. unfold boot. by destruct (im_args im) as [[]|]. Qed.

(** Memory below the first device. *)
Lemma ranges_above a x : 0 <= x -> x + 4 <= 0x02004000 -> mmio_find x (ranges_of a) = None.
Proof.
  intros H1 H2. unfold ranges_of, UART_BASE, BLKDEV_BASE, REG_MTIMECMP_LO.
  destruct (a_uart a), (path_on (a_blkdev a)), (timer_mmio a); cbn [app mmio_find];
    repeat (rewrite (proj2 (Z.leb_gt _ x)) by lia; cbn [andb]); done.
Qed.

(** ** The process *)

Section Main.
Context {H : Type} (os : Host H).
Context (getrandbits8 getrandbits32 : nat -> Z).
Context (pty_events : list (option rx_event)) (pty_accepts : list tx_event) (disk_io : list disk_event).
Context (disk_image : pystr -> option (list Z)).
Context (open_binary : pystr -> res (list Z)) (open_elf : pystr -> res elf_file).
Context (exn_text : exn -> str -> str).

Abbreviation create := (create getrandbits8 getrandbits32 pty_events pty_accepts disk_io disk_image).

Variable a : args.
Hypothesis Hplain : plain_args a.
Variables (stdin stdout stderr : Z) (cn : conn) (hs : H).

(** The block device. *)
Definition boot_disk : blkdev :=
  if path_on (a_blkdev a)
  then MMIOBlockDevice_init BLKDEV_BASE 512 (a_blkdev_size a) (disk_image (default [] (a_blkdev a)))
         disk_io
  else no_blkdev.

(** The objects of the process around a processor, a memory and a machine. *)
Definition boot_process (c : cpu) (r : ram) (m : machine) : process H :=
  mkProcess (mkWorld c r m MMIOTimer_init (PtyUART_init UART_BASE pty_events pty_accepts) boot_disk)
    (SyscallHandler_init true (a_raw_tty a) stdin stdout stderr) GDBStub_init cn hs.

Abbreviation boot_ops := (process_ops (H := H) (select_ram_class (use_mmio a) (check_ram_on a))).
Abbreviation boot_sz := (1024 * a_ram_size a).
Abbreviation boot_holds := (holds (ranges_of a) boot_sz).

Lemma boot_size : 0 <= boot_sz /\ boot_sz mod 4 = 0.
Proof using Hplain.
  split; [pose proof (pa_size a Hplain); lia|]. by replace (1024 * a_ram_size a) with (256 * a_ram_size a * 4)
    by lia; rewrite Z.mod_mul.
Qed.

Lemma create_plain : create a stdin stdout stderr cn hs =
  Ok (boot_process (boot_cpu (a_rvc a)) (boot_ram boot_sz (ranges_of a)) (boot_machine a)).
Proof using Hplain.
  destruct boot_size. destruct Hplain as [_ Hr Ht Hc Hir Him _].
  unfold Emu.create, build. rewrite Him, Hir, boot_RAM_init by done.
  unfold CPU_init. cbn [String.eqb Ascii.eqb Bool.eqb].
  unfold Machine_init. rewrite Ht, Hr, Hc. cbn [orb andb].
  unfold boot_process, boot_machine, boot_disk, ranges_of, use_mmio.
  by destruct (a_uart a), (path_on (a_blkdev a)), (timer_mmio a).
Qed.

(** *** Stores, by all memory classes *)

Lemma store_plain segs c r m addr data : boot_holds segs r -> segment_ok boot_sz (addr, data) ->
  store_binary (RamOps := boot_ops) addr data (boot_process c r m) =
    (Ok tt, boot_process c (with_bytes r addr data) m).
Proof using.
  intros [Hr Hlay _] (H0 & H1 & _). pose proof (wf_len r Hr) as Hl.
  apply (f_equal snd) in Hlay. simpl in *.
  assert (RAM_store_binary addr data r = (Ok tt, with_bytes r addr data)) as E1.
  { unfold RAM_store_binary, catch, body_store_binary. by rewrite py_slice_set_in by lia. }
  assert (SafeRAM_store_binary addr data r = (Ok tt, with_bytes r addr data)) as E2.
  { rewrite SafeRAM_store_binary_eq by done. rewrite (proj2 (in_bounds_spec r addr _)); [done|lia]. }
  unfold boot_process, process_ops, zoom. cbn [store_binary view process_world p_world].
  by destruct (use_mmio a), (check_ram_on a);
    cbn [select_ram_class negb andb class_ops SafeRAM_ops RAM_ops SafeRAM_MMIO_ops RAM_MMIO_ops store_binary];
    unfold zoom; cbn [view world_ram w_ram]; rewrite ?E1, ?E2.
Qed.

Lemma store_segments_plain segs : forall before c r m, boot_holds before r ->
  Forall (segment_ok boot_sz) segs ->
  exists r', for_each (fun s => store_binary (RamOps := boot_ops) (fst s) (snd s)) segs (boot_process c r m) =
      (Ok tt, boot_process c r' m) /\ boot_holds (before ++ segs) r'.
Proof using.
  induction segs as [|[ad b] l IH]; intros dn c r m Hr Hs; [exists r; by rewrite app_nil_r|].
  apply Forall_cons in Hs as [Hs Hl]. cbn [for_each fst snd]. unfold bind.
  rewrite (store_plain dn) by done.
  destruct (IH (dn ++ [(ad, b)]) c (with_bytes r ad b) m) as (r' & E & Hr'); [by apply holds_bytes|done|].
  exists r'. split; [done|]. by rewrite <- app_assoc in Hr'.
Qed.

(** The peripherals are above the memory. *)
Hypothesis Hbelow : use_mmio a = true -> boot_sz <= 0x02004000.

(** The memory class agrees with the checked one. *)
Lemma boot_LiftMem : exists (P : ram -> Prop) X, LiftMem P X boot_ops /\
  forall r, layout r = (ranges_of a, boot_sz) -> P r.
Proof using Hbelow.
  destruct (use_mmio a).
  - exists (laid_out (ranges_of a) boot_sz), (bus_stops (check_ram_on a) (ranges_of a)). split; [|done].
    assert (process_ops (H := H) (select_ram_class true (check_ram_on a)) =
      in_world_ops (mmio_ops (check_ram_on a))) as -> by by destruct (check_ram_on a).
    apply in_world_LiftMem, mmio_LiftMem. intros x H1 H2. apply ranges_above; [done|].
    specialize (Hbelow eq_refl). lia.
  - exists any_ram, ends. split; [|done]. destruct (check_ram_on a); apply _.
Qed.

Lemma store_word_plain segs c r m t v : boot_holds segs r -> 0 <= t -> t + 4 <= boot_sz ->
  exists r', store_word (RamOps := boot_ops) t v (boot_process c r m) = (Ok tt, boot_process c r' m) /\
    boot_holds (segs ++ [(t, word_bytes v)]) r'.
Proof using Hbelow.
  intros Hh H0 H1. pose proof Hh as [Hr Hl _]. destruct boot_LiftMem as (P & X & HL & HP).
  pose proof (SafeRAM_store_word_ok r t v Hr) as Hst. unfold store_ok in Hst.
  pose proof (f_equal snd Hl) as Hs. simpl in Hs.
  rewrite (proj2 (in_bounds_spec r t 4)) in Hst by lia. destruct Hst as (r' & E & Hst).
  exists r'. split; [|by eapply holds_word].
  pose proof (lift_store_word (LiftMem := HL) t v (boot_process c r m) (HP r Hl)) as Hlift.
  change (node_of (boot_process c r m)) with (c, r) in Hlift.
  assert (store_word (RamOps := SafeRAM_ops) t v (c, r) = (Ok tt, (c, r'))) as E'
    by (unfold store_word, SafeRAM_ops, zoom; simpl; by rewrite E).
  rewrite E' in Hlift. by rewrite (proj2 (Hlift I)).
Qed.

Lemma mset_boot f c r m : mset f (boot_process c r m) = (Ok tt, boot_process c r (f m)).
Proof using. reflexivity. Qed.

Lemma set_pc_boot v c r m :
  zoom (modify (set_pc v)) (boot_process c r m) = (Ok tt, boot_process (set_pc v c) r m).
Proof using. reflexivity. Qed.

Lemma set_reg_boot i v c r m : py_len (registers c) = 32 -> 0 <= i < 32 ->
  zoom (set_reg i v) (boot_process c r m) = (Ok tt, boot_process (wr i v c) r m).
Proof using.
  intros Hc Hi. unfold zoom. cbn [view process_part boot_process p_world world_cpu w_cpu].
  by rewrite set_reg_eq by done.
Qed.

(** *** The arguments of the program *)

Lemma store_args_plain argv : forall segs c r m t, boot_holds segs r -> Forall ascii_string argv ->
  Forall (segment_ok boot_sz) (string_segments t argv) ->
  exists r', store_args (R := boot_ops) argv (boot_process c r (set_heap_end (Some t) m)) =
      (Ok (arg_pointers t argv), boot_process c r' (set_heap_end (Some (args_end t argv)) m)) /\
    boot_holds (segs ++ string_segments t argv) r'.
Proof using.
  induction argv as [|s rest IH]; intros segs c r m t Hr Hasc Hseg; [exists r; by rewrite app_nil_r|].
  apply Forall_cons in Hasc as [Ha Hrest]. apply Forall_cons in Hseg as [Hs Hseg].
  destruct (IH (segs ++ [(t, s ++ [0])]) c (with_bytes r t (s ++ [0])) m
    (align_up (t + (py_len s + 1)) 4)) as (r' & E & Hr'); [by apply holds_bytes|done..|].
  exists r'. rewrite <- app_assoc in Hr'. split; [|done].
  cbn [store_args arg_pointers args_end]. unfold bind at 1, store_arg.
  unfold mget, gets, bind at 1. cbn [view process_part boot_process p_world world_machine w_machine heap_end
    set_heap_end]. unfold bind at 1. rewrite utf8_ascii by done. unfold of_option, ret.
  unfold bind at 1. unfold bind at 1.
  rewrite (store_plain segs) by done. unfold bind at 1. rewrite mset_boot.
  change (set_heap_end ?x (set_heap_end (Some t) m)) with (set_heap_end x m).
  unfold bind. by rewrite E.
Qed.

Lemma store_pointers_plain ps : forall segs c r m t, boot_holds segs r ->
  Forall (segment_ok boot_sz) (table_segments t ps) ->
  exists r', for_each (store_pointer (R := boot_ops)) ps (boot_process c r (set_heap_end (Some t) m)) =
      (Ok tt, boot_process c r' (set_heap_end (Some (t + 4 * py_len ps)) m)) /\
    boot_holds (segs ++ table_segments t ps) r'.
Proof using Hbelow.
  induction ps as [|q l IH]; intros segs c r m t Hr Hseg.
  { exists r. rewrite app_nil_r. cbn. by rewrite Z.add_0_r. }
  apply Forall_cons in Hseg as [(H0 & H1 & _) Hseg]. change (py_len (snd (t, word_bytes q))) with 4 in H1.
  destruct (store_word_plain segs c r (set_heap_end (Some t) m) t q Hr H0 H1) as (r1 & E1 & Hr1).
  destruct (IH (segs ++ [(t, word_bytes q)]) c r1 m (t + 4) Hr1 Hseg) as (r' & E & Hr').
  exists r'. rewrite <- app_assoc in Hr'. split; [|done].
  replace (t + 4 * py_len (q :: l)) with (t + 4 + 4 * py_len l) by (unfold py_len; simpl; lia).
  cbn [for_each]. unfold bind at 1, store_pointer at 1, heap, mget, gets. unfold bind at 1 2.
  cbn [view process_part boot_process p_world world_machine w_machine heap_end set_heap_end].
  unfold of_option, ret. unfold bind at 1. rewrite E1, mset_boot. done.
Qed.

Lemma setup_argv_plain argv segs c r m t : boot_holds segs r -> py_len (registers c) = 32 ->
  heap_end m = Some t ->
  Forall ascii_string argv -> Forall (segment_ok boot_sz) (argument_segments t argv) ->
  exists r', setup_argv (R := boot_ops) argv (boot_process c r m) =
      (Ok tt, boot_process (wr 11 (args_end t argv) (wr 10 (py_len argv) c)) r'
                (set_heap_end (Some (arguments_end t argv)) m)) /\
    boot_holds (segs ++ argument_segments t argv) r'.
Proof using Hbelow.
  intros Hr Hc Hm Hasc Hseg. apply Forall_app in Hseg as [Hs1 Hs2].
  assert (m = set_heap_end (Some t) m) as -> by (destruct m; simpl in *; by subst).
  destruct (store_args_plain argv segs c r m t Hr Hasc Hs1) as (r1 & E1 & Hr1).
  destruct (store_pointers_plain _ _ c r1 m _ Hr1 Hs2) as (r2 & E2 & Hr2).
  rewrite <- app_assoc in Hr2. exists r2. split; [|exact Hr2].
  unfold setup_argv. unfold bind at 1. rewrite E1. unfold mget at 1. unfold bind at 1, gets at 1.
  unfold bind at 1. rewrite E2. unfold bind at 1, heap, mget, bind at 1, gets at 1.
  cbn [view process_part boot_process p_world world_machine w_machine heap_end set_heap_end].
  unfold of_option at 1, ret at 1. unfold bind at 1. rewrite mset_boot. unfold bind at 1.
  rewrite set_reg_boot by (done || lia). unfold bind, of_option, ret.
  rewrite set_reg_boot by (rewrite ?wr_len; done || lia). unfold arguments_end.
  by replace (py_len (arg_pointers t argv ++ [0])) with (py_len argv + 1)
    by (unfold py_len; rewrite length_app, arg_pointers_len; simpl; lia).
Qed.

(** *** Loading *)

(** The value that the symbols give a name; a later symbol overrides. *)
Definition symbol_value (name : string) (syms : list elf_symbol) : option Z :=
  fold_left (fun o s => if String.eqb (sym_name s) name then Some (st_value s) else o) syms None.

Definition heap_start (syms : list elf_symbol) : option Z := symbol_value "__heap_start" syms.
Definition stack_limit (syms : list elf_symbol) : option Z := symbol_value "__stack_bottom" syms.

Definition ascii_arguments : bool :=
  forallb (forallb (fun ch => (0 <? ch) && (ch <? 128))) (program_args a).

(** What the program starts with: a flat binary at address 0 (which cannot be started at
    main), or the segments of an ELF file and, if it has a heap, the arguments there. *)
Definition program_image : option image :=
  if endswith (codes ".bin") (executable a) then
    match open_binary (executable a) with
    | Ok binary => if String.eqb (a_start_checks a) "main" then None
                   else Some (mkImage [(0, binary)] 0 None None None)
    | Exn _ => None
    end
  else if endswith (codes ".elf") (executable a) then
    match open_elf (executable a) with
    | Ok elf =>
        match heap_start (default [] (symtab elf)) with
        | None => Some (mkImage (pt_load elf) (e_entry elf) None None (stack_limit (default [] (symtab elf))))
        | Some t =>
            if ascii_arguments
            then Some (mkImage (pt_load elf ++ argument_segments t (program_args a)) (e_entry elf)
                         (Some (py_len (program_args a), args_end t (program_args a)))
                         (Some (arguments_end t (program_args a))) (stack_limit (default [] (symtab elf))))
            else None
        end
    | Exn _ => None
    end
  else None.

(** The machine object of a plain run. *)
Record plain_machine (m : machine) : Prop := {
  pm_regs : truthy (regs_opt m) = false;
  pm_check : check_inv m = false;
  pm_trace : trace m = false;
  pm_mmio : mmio m = use_mmio a;
  pm_rvc : m_rvc m = a_rvc a;
  pm_timer : timer m = bool_decide (a_timer a <> None);
  pm_runners : peripheral_runners m = if a_uart a then [PtyUART] else []
}.

Lemma boot_plain : plain_machine (boot_machine a).
Proof using Hplain. split; try done. apply (pa_regs a Hplain). Qed.

(** An update of the machine object that leaves the choice of the loop alone. *)
Lemma plain_update f m : plain_machine m ->
  (regs_opt (f m), check_inv (f m), trace (f m), mmio (f m), m_rvc (f m), timer (f m),
   peripheral_runners (f m)) =
  (regs_opt m, check_inv m, trace m, mmio m, m_rvc m, timer m, peripheral_runners m) ->
  plain_machine (f m).
Proof using. intros [] [= E1 E2 E3 E4 E5 E6 E7]. split; congruence. Qed.

Lemma symbols_plain syms m : plain_machine m -> plain_machine (fold_left note_symbol syms m).
Proof using.
  revert m. induction syms as [|s l IH]; intros m Hm; simpl in *; [done|]. apply IH.
  apply (plain_update (fun m => note_symbol m s)); [done|]. unfold note_symbol. by repeat case_match.
Qed.

Lemma symbols_noted name (f : machine -> option Z) syms m :
  (forall m s, f (note_symbol m s) = if String.eqb (sym_name s) name then Some (st_value s) else f m) ->
  f m = None -> f (fold_left note_symbol syms m) = symbol_value name syms.
Proof using.
  intros Hf. unfold symbol_value. generalize (@None Z). revert m.
  induction syms as [|s l IH]; intros m o Hm; simpl; [done|]. apply IH. rewrite Hf. by case_match.
Qed.

(** The heap and the limit of an image are those of the machine object. *)
Definition break_at (brk limit : option Z) (m : machine) : Prop :=
  heap_end m = brk /\ stack_bottom m = limit.

Lemma symbols_break syms m : break_at None None m ->
  break_at (heap_start syms) (stack_limit syms) (fold_left note_symbol syms m).
Proof using.
  intros [H1 H2]. split; apply symbols_noted; try done; intros m' s; unfold note_symbol;
    repeat match goal with |- context [String.eqb ?n ?k] => destruct (String.eqb_spec n k) end; reflexivity || congruence.
Qed.

Lemma load_elf_plain elf c r m ct : boot_holds [] r -> Forall (segment_ok boot_sz) (pt_load elf) ->
  plain_machine m -> break_at None None m ->
  exists r' m', boot_holds (pt_load elf) r' /\ plain_machine m' /\
    break_at (heap_start (default [] (symtab elf))) (stack_limit (default [] (symtab elf))) m' /\
    load_elf (R := boot_ops) elf false ct (boot_process c r m) =
    (Ok tt, boot_process (set_pc (e_entry elf) c) r' m').
Proof using.
  intros Hr Hs Hm Hh. set (m1 := fold_left note_symbol (default [] (symtab elf)) m).
  assert (plain_machine m1) as Hm1 by by apply symbols_plain.
  pose proof (symbols_break (default [] (symtab elf)) m Hh) as Hh1. fold m1 in Hh1.
  destruct (store_segments_plain (pt_load elf) [] c r m Hr Hs) as (r1 & E1 & Hr1).
  set (m2 := match text_section elf with
             | Some (sa, sz) => set_text (Some sa) (Some (sa + sz))
                 (if ct then Some (py_slice (memory r1) sa (sa + sz)) else text_snapshot m1) m1
             | None => m1
             end).
  assert (plain_machine m2 /\ break_at (heap_end m1) (stack_bottom m1) m2) as [Hm2 Hh2].
  { unfold m2. destruct (text_section elf) as [[sa sz]|]; [|done].
    split; [by apply (plain_update (set_text _ _ _))|done]. }
  exists r1, (if checks_auto (start_checks m2) then set_start_checks (Some "main"%string) m2 else m2).
  split; [done|]. split; [destruct (checks_auto _); [by apply (plain_update (set_start_checks _))|done]|].
  split; [destruct Hh1 as [<- <-]; by destruct (checks_auto _)|].
  unfold load_elf. unfold bind at 1. rewrite E1. unfold bind at 1. rewrite set_pc_boot.
  unfold m2, m1. destruct (symtab elf) as [syms|], (text_section elf) as [[sa sz]|];
    unfold bind, mget, gets, id; rewrite ?mset_boot; unfold ret;
    rewrite ?mset_boot; cbn [default id fold_left boot_process view process_part p_world world_machine w_machine
      world_ram w_ram];
    lazymatch goal with |- context [checks_auto ?x] => by destruct (checks_auto x) end.
Qed.

Lemma load_flat_plain b c r m : boot_holds [] r -> segment_ok boot_sz (0, b) -> plain_machine m ->
  break_at None None m -> start_checks m <> Some "main"%string ->
  exists r' m', boot_holds [(0, b)] r' /\ plain_machine m' /\ break_at None None m' /\
    load_flatbinary (R := boot_ops) b (boot_process c r m) = (Ok tt, boot_process (set_pc 0 c) r' m').
Proof using.
  intros Hr Hs Hm Hb Hne. exists (with_bytes r 0 b),
    (if checks_auto (start_checks m) then set_start_checks (Some "first-call"%string) m else m).
  split; [by apply (holds_bytes _ _ [])|].
  split; [destruct (checks_auto _); [by apply (plain_update (set_start_checks _))|done]|].
  split; [by destruct (checks_auto _)|].
  unfold load_flatbinary. unfold bind at 1. rewrite (store_plain []) by done.
  unfold bind, mget, gets. rewrite set_pc_boot.
  cbn [boot_process view process_part p_world world_machine w_machine].
  rewrite bool_decide_false by done. by destruct (checks_auto _).
Qed.

Lemma ascii_program : ascii_arguments = true -> Forall ascii_string (program_args a).
Proof using.
  unfold ascii_arguments. rewrite List.forallb_forall, <- List.Forall_forall. intros Hall.
  eapply Forall_impl; [exact Hall|]. intros s. simpl. rewrite List.forallb_forall, <- List.Forall_forall.
  intros Hs. eapply Forall_impl; [exact Hs|]. simpl. lia.
Qed.

(** The process after loading, and where the reference machine starts. *)
Lemma load_image im align : program_image = Some im -> image_ok boot_sz align im ->
  exists r m, boot_holds (im_segments im) r /\ plain_machine m /\ break_at (im_break im) (im_limit im) m /\
    load open_binary open_elf a
      (boot_process (boot_cpu (a_rvc a)) (boot_ram boot_sz (ranges_of a)) (boot_machine a)) =
    (Ok true, boot_process (start_cpu (a_rvc a) im) r m).
Proof using Hplain Hbelow.
  destruct boot_size as [H1 H2]. pose proof (holds_boot (ranges_of a) _ H1 H2) as Hr.
  unfold program_image, load. intros Him [Hseg _ _ _].
  destruct (endswith (codes ".bin") (executable a)).
  - destruct (open_binary (executable a)) as [b|]; [|done].
    destruct (String.eqb_spec (a_start_checks a) "main") as [|Hne]; simplify_eq.
    destruct (load_flat_plain b (boot_cpu (a_rvc a)) _ _ Hr (Forall_inv Hseg) boot_plain)
      as (r & m & Hr' & Hm & Hb & E); [done|by intros [= ?]|].
    exists r, m. split_and!; [done..|]. unfold bind, open_file. by rewrite E.
  - destruct (endswith (codes ".elf") (executable a)); [|done].
    destruct (open_elf (executable a)) as [elf|]; [|done].
    assert (Forall (segment_ok boot_sz) (pt_load elf)) as Hpt.
    { destruct (heap_start _); [destruct ascii_arguments; [|done]|]; simplify_eq; [|done].
      by apply Forall_app in Hseg as [? _]. }
    destruct (load_elf_plain elf (boot_cpu (a_rvc a)) _ _ (check_text_on a) Hr Hpt boot_plain (conj eq_refl eq_refl))
      as (r & m & Hr' & Hm & [Hh Hl] & E).
    unfold bind, open_file. rewrite (pa_trace a Hplain), E. unfold mget, gets.
    cbn [boot_process view process_part p_world world_machine w_machine]. rewrite Hh.
    destruct (heap_start (default [] (symtab elf))) as [t|] eqn:Et; simplify_eq.
    2: by exists r, m.
    destruct ascii_arguments eqn:Hasc; simplify_eq. cbn [im_segments im_args im_entry im_break im_limit start_cpu] in *.
    apply Forall_app in Hseg as [_ Hargs].
    destruct (setup_argv_plain (program_args a) _ (set_pc (e_entry elf) (boot_cpu (a_rvc a))) r m t Hr' eq_refl Hh
      (ascii_program Hasc) Hargs) as (r2 & E2 & Hr2).
    exists r2, (set_heap_end (Some (arguments_end t (program_args a))) m).
    split; [done|]. split; [by apply (plain_update (set_heap_end _))|]. split; [by split|].
    replace (bool_decide (Some t <> None)) with true by done. by rewrite E2.
Qed.
End Main.

