(* ===== verification/Unix.v ===== *)
(** * The system calls of a program

    The environment that syscalls.py gives a program, as its programmer knows it: the
    terminal, files, the break of the heap and the end of the program ([unix_call], a
    specification, for the machine of Hosted.v).  A call is left open where the operating
    system of the host reports an error (the handler then writes a negative number into a
    register, or raises), and for calls and descriptors that do not exist.  The handler of a
    process implements this environment, with and without checked memory
    ([unix_implemented]). *)

From Stdlib Require Import ZArith Lia Bool String.
From stdpp Require Import base numbers list option gmap strings.
From S2P Require Import Prelude PyStr Isa Ram Cpu Rvc CpuSem Exec ExecSem ExecSafe RamSafe Core.
From S2P Require Import MemInstr IsaMachine Board IsaRefine Machine Peripherals World Lift IsaRun Hosted.
From S2P Require Import Syscalls MemClass MmioSafe BoardRefine GdbPacket Gdb Emu EmuBoot.

Local Open Scope Z_scope.
Local Open Scope py_scope.

(** ** The environment *)

(** The host, the open files with their descriptors on the host, the next descriptor, the
    umask, and the break and its limit. *)
Record unix (H : Type) := mkUnix {
  ux_host : H;
  ux_files : gmap Z Z;
  ux_next : Z;
  ux_umask : Z;
  ux_break : option Z;
  ux_limit : option Z
}.
Arguments mkUnix {H}.
Arguments ux_host {H}.
Arguments ux_files {H}.
Arguments ux_next {H}.
Arguments ux_umask {H}.
Arguments ux_break {H}.
Arguments ux_limit {H}.

Section Environment.
Context {H : Type} (os : Host H) (p : platform) (raw : bool).
Implicit Types (h : hart) (e : unix H).

Abbreviation answer := (call_result (unix H)).

Definition with_host (hs : H) e : unix H :=
  mkUnix hs (ux_files e) (ux_next e) (ux_umask e) (ux_break e) (ux_limit e).
Definition with_files (fs : gmap Z Z) (next : Z) e : unix H :=
  mkUnix (ux_host e) fs next (ux_umask e) (ux_break e) (ux_limit e).
Definition with_umask (m : Z) e : unix H :=
  mkUnix (ux_host e) (ux_files e) (ux_next e) m (ux_break e) (ux_limit e).
Definition with_break (t : Z) e : unix H :=
  mkUnix (ux_host e) (ux_files e) (ux_next e) (ux_umask e) (Some t) (ux_limit e).

(** A result that a register can hold. *)
Definition gives (v : Z) h e : answer := if bool_decide (u32 v) then Returned (set_x 10 v h) e else Refused.

(** A question to the host. *)
Definition ask {A} (q : ST H A) e (k : A -> unix H -> answer) : answer :=
  match q (ux_host e) with (Ok v, hs) => k v (with_host hs e) | (Exn _, _) => Refused end.

Definition ask_done {A} (q : ST H (os_result A)) e (k : A -> unix H -> answer) : answer :=
  ask q e (fun r e => match r with Done v => k v e | Fail _ => Refused end).

Definition if_open (fd : Z) e (k : Z -> answer) : answer :=
  match ux_files e !! fd with Some host => k host | None => Refused end.

(** Data into the memory of the program. *)
Definition deliver (a : Z) (data : list Z) (v : Z) h e : answer :=
  if in_mem p a (py_len data) && bool_decide (Forall u8 data)
  then gives v (set_hmem (overlay (hmem h) a data) h) e else Refused.

(** A string of at most 1023 bytes in the memory of the program. *)
Definition string_at h (a : Z) : option (list Z) :=
  if in_mem p a 1 then
    let s := bytes_of (hmem h) a (Z.min 1024 (p_size p - a)) in (fun n => take n s) <$> py_find 0 s
  else None.

Definition with_path h (a : Z) (k : list Z -> answer) : answer :=
  match string_at h a with Some path => k path | None => Refused end.

Definition is_terminal (fd : Z) : bool := (fd =? 0) || (fd =? 1) || (fd =? 2).

(** The current directory. *)
Definition from_cwd h (k : answer) : answer := if sint (x h 10) =? -100 then k else Refused.

(** A line from the terminal, cut at the size of the buffer; no bytes at the end of the
    input. *)
Definition line_bytes (text : option (list Z)) (n : Z) : option (list Z) :=
  match text with
  | Some text => (take (Z.to_nat n)) <$> utf8_encode (text ++ [10])
  | None => Some []
  end.

Definition unix_read h e : answer :=
  if x h 10 =? 0 then
    if raw then
      ask host_read_char e (fun ch e =>
        match ch with
        | Some ch => deliver (x h 11) [ch] 1 h e
        | None => Refused
        end)
    else
      ask host_input e (fun text e =>
        match line_bytes text (x h 12) with
        | Some data => deliver (x h 11) data (py_len data) h e
        | None => Refused
        end)
  else if_open (x h 10) e (fun host =>
    ask_done (os_read host (x h 12)) e (fun data e => deliver (x h 11) data (py_len data) h e)).

Definition unix_write h e : answer :=
  if in_mem p (x h 11) (x h 12) then
    let data := bytes_of (hmem h) (x h 11) (x h 12) in
    if (x h 10 =? 1) || (x h 10 =? 2) then ask (host_print data) e (fun _ e => gives (x h 12) h e)
    else if_open (x h 10) e (fun host => ask_done (os_write host data) e (fun n e => gives n h e))
  else Refused.

(** The umask of the host is cleared while the file is opened. *)
Definition unix_openat h e : answer :=
  from_cwd h (with_path h (x h 11) (fun path =>
    ask (os_umask 0) e (fun old e =>
    ask_done (os_open path (x h 12) (Z.land (x h 13) (Z.lnot (ux_umask e)))) e (fun host e =>
    ask (os_umask old) e (fun _ e =>
    gives (ux_next e) h (with_files (<[ux_next e := host]> (ux_files e)) (ux_next e + 1) e)))))).

Definition unix_close h e : answer :=
  if_open (x h 10) e (fun host =>
    ask_done (os_close host) e (fun _ e =>
      gives 0 h (with_files (delete (x h 10) (ux_files e)) (ux_next e) e))).

Definition unix_lseek h e : answer :=
  if_open (x h 10) e (fun host =>
    ask_done (os_lseek host (x h 11) (x h 12)) e (fun pos e => gives pos h e)).

Definition unix_fstat h e : answer :=
  if is_terminal (x h 10) then deliver (x h 11) (stat_buf (Z.lor S_IFCHR 438) 0) 0 h e
  else if_open (x h 10) e (fun host =>
    ask_done (os_fstat host) e (fun st e => deliver (x h 11) (stat_buf (fst st) (snd st)) 0 h e)).

Definition unix_isatty h e : answer :=
  if is_terminal (x h 10) then gives 1 h e else if_open (x h 10) e (fun _ => gives 0 h e).

(** The heap grows up to the limit. *)
Definition unix_sbrk h e : answer :=
  match ux_limit e, ux_break e with
  | Some limit, Some t =>
      if t + x h 10 <? limit then gives t h (with_break (t + x h 10) e) else gives 0xFFFFFFFF h e
  | _, _ => Refused
  end.

Definition unix_umask h e : answer := gives (ux_umask e) h (with_umask (x h 10 mod 512) e).

Definition unix_mkdirat h e : answer :=
  from_cwd h (with_path h (x h 11) (fun path =>
    ask_done (os_mkdir path (Z.land (x h 12) (Z.lnot (ux_umask e)))) e (fun _ e => gives 0 h e))).

Definition unix_unlinkat h e : answer :=
  from_cwd h (with_path h (x h 11) (fun path =>
    ask_done (if Z.testbit (x h 12) 9 then os_rmdir path else os_unlink path) e (fun _ e => gives 0 h e))).

(** The calls by their numbers. *)
Definition unix_call h e : answer :=
  let nr := x h 17 in
  if nr =? 93 then Ended (sint (x h 10)) e
  else if nr =? 214 then unix_sbrk h e
  else if nr =? 64 then unix_write h e
  else if nr =? 63 then unix_read h e
  else if nr =? 1024 then unix_openat h e
  else if nr =? 57 then unix_close h e
  else if nr =? 62 then unix_lseek h e
  else if nr =? 80 then unix_fstat h e
  else if nr =? 89 then unix_isatty h e
  else if nr =? 172 then gives 1 h e
  else if nr =? 60 then unix_umask h e
  else if nr =? 34 then unix_mkdirat h e
  else if nr =? 35 then unix_unlinkat h e
  else Refused.
End Environment.

(** ** The handler implements the environment *)

Lemma as_signed_sint v : u32 v -> as_signed v = sint v.
Proof. intros Hv. rewrite sint_u32 by done. unfold as_signed. repeat case_match; lia. Qed.

Lemma py_slice_prefix {A} (l : list A) n : 0 <= n -> py_slice l 0 n = take (Z.to_nat n) l.
Proof.
  intros Hn. unfold py_slice, py_clamp, py_len. cbn [Z.ltb Z.compare].
  rewrite (proj2 (Z.ltb_ge n 0)), (Z.min_l 0), Z.sub_0_r, drop_0 by lia.
  destruct (Z.min_spec n (Z.of_nat (length l))) as [[? ->]|[? ->]]; [done|].
  rewrite Nat2Z.id, take_ge, take_ge by lia. done.
Qed.

Lemma land_bit_9 v : negb (Z.land v 0x200 =? 0) = Z.testbit v 9.
Proof.
  change 0x200 with (2 ^ 9). destruct (Z.testbit v 9) eqn:E.
  - apply negb_true_iff, Z.eqb_neq. intros E0. apply (f_equal (fun z => Z.testbit z 9)) in E0.
    by rewrite Z.land_spec, E in E0.
  - apply negb_false_iff, Z.eqb_eq. apply Z.bits_inj'. intros n Hn. rewrite Z.land_spec, Z.bits_0.
    destruct (Z.eq_dec n 9) as [->|]; [by rewrite E|]. by rewrite Z.pow2_bits_false, andb_false_r by lia.
Qed.

Section Handler.
Context {H : Type} (os : Host H) (p : platform) (raw mapped checked : bool).
Implicit Types (h : hart) (e : unix H) (w : process H).

(** The memory, with peripherals or without. *)
#[local] Instance unix_ops : RamOps (process H) := process_ops (select_ram_class mapped checked).
#[local] Existing Instance process_Host.

Definition unix_at e w : Prop :=
  (p_host w, fd_map (p_sys w), next_fd (p_sys w), umask (p_sys w), raw_tty (p_sys w),
   heap_end (view w), stack_bottom (view w)) =
  (ux_host e, ux_files e, ux_next e, ux_umask e, raw, ux_break e, ux_limit e).

(** The rest: the devices, the ranges of the memory, and the machine object but for the heap. *)
Definition unix_rest w :=
  (w_timer (p_world w), w_uart (p_world w), w_blk (p_world w), layout (w_ram (p_world w)),
   set_heap_end None (w_machine (p_world w))).

Section Call.
(** The hart and the pc at the ECALL, and the rest. *)
Variables (h0 : hart) (pc0 next0 : Z) (w0 : process H).

Record during h e w : Prop := {
  du_agrees : agrees p h (view w) (view w);
  du_hpc : hpc h = hpc h0;
  du_pc : pc (view w) = pc0;
  du_next : next_pc (view w) = next0;
  du_rest : unix_rest w = unix_rest w0;
  du_unix : unix_at e w
}.

Definition served (r : call_result (unix H)) (out : res unit * process H) : Prop :=
  match r with
  | Returned h e => exists w, out = (Ok tt, w) /\ during h e w
  | Ended code e => exists w, out = (Exn (ExecutionTerminated (ExitCode code)), w) /\
      agrees p h0 (view w) (view w) /\ unix_rest w = unix_rest w0 /\ unix_at e w
  | Refused => True
  end.

Lemma served_arg h e w i r (K : Z -> ST (process H) unit) : during h e w -> 0 <= i < 8 ->
  served r (K (x h (10 + i)) w) -> served r ((v <- arg i ;; K v) w).
Proof using.
  intros Hw Hi Hs. destruct (ag_ready (du_agrees _ _ _ Hw)) as (Hwf & _).
  unfold bind, arg, zoom. rewrite reg_eq, put_view by (apply Hwf || lia).
  by rewrite <- (ag_x (du_agrees _ _ _ Hw)) by lia.
Qed.

Lemma x_u32 h e w i : during h e w -> 0 <= i < 32 -> u32 (x h i).
Proof using.
  intros Hw Hi. destruct (ag_ready (du_agrees _ _ _ Hw)) as (Hwf & _).
  rewrite (ag_x (du_agrees _ _ _ Hw)) by done. by apply rv_u32.
Qed.

Lemma served_gives h e w v : during h e w -> served (gives v h e) (result v w).
Proof using.
  intros [Ha H1 H2 H3 Hrest He]. unfold gives. case_bool_decide as Hv; [|done].
  destruct (ag_ready Ha) as (Hwf & _).
  exists (put (wr 10 v (view w)) w). split.
  { unfold result, zoom. by rewrite set_reg_eq by (apply Hwf || lia). }
  split; rewrite ?view_put; try done. by apply (agrees_retire p _ _ _ 10 v).
Qed.

(** *** The host *)

Lemma served_ask {A} h e w (q : ST H A) k (K : A -> ST (process H) unit) : during h e w ->
  (forall v hs, during h (with_host hs e) (put (Has := process_os) hs w) ->
     served (k v (with_host hs e)) (K v (put (Has := process_os) hs w))) ->
  served (ask q e k) ((v <- sys q ;; K v) w).
Proof using.
  intros [Ha H1 H2 H3 Hrest He] Hk. unfold ask, bind, sys, zoom. simpl.
  assert (p_host w = ux_host e) as -> by by injection He.
  destruct (q (ux_host e)) as [[v|?] hs]; [|done]. apply Hk.
  split; try done. unfold unix_at in *. simpl in *. congruence.
Qed.

Lemma served_ask_done {A} h e w (q : ST H (os_result A)) k (K : A -> ST (process H) unit) K' : during h e w ->
  (forall v hs, during h (with_host hs e) (put (Has := process_os) hs w) ->
     served (k v (with_host hs e)) (K v (put (Has := process_os) hs w))) ->
  served (ask_done q e k) ((r <- sys q ;; match r with Done v => K v | Fail n => K' n end) w).
Proof using.
  intros Hw Hk. apply (served_ask h); [done|]. intros [v|n] hs Hw'; [by apply Hk|done].
Qed.

Lemma served_open h e w fd k (K : Z -> ST (process H) unit) K' : during h e w ->
  (forall host, served (k host) (K host w)) ->
  served (if_open fd e k) ((host <- lookup_fd fd ;; match host with Some v => K v | None => K' end) w).
Proof using.
  intros [_ _ _ _ _ He] Hk. unfold if_open, bind, lookup_fd, yget, gets. simpl.
  assert (fd_map (p_sys w) = ux_files e) as -> by by injection He. by destruct (ux_files e !! fd).
Qed.

(** *** Memory *)

Lemma during_bytes h e w a data : during h e w -> in_mem p a (py_len data) = true -> Forall u8 data ->
  store_binary a data w = (Ok tt, put (with_bytes (view w) a data) w) /\
  during (set_hmem (overlay (hmem h) a data) h) e (put (with_bytes (view w) a data) w).
Proof using.
  intros [Ha H1 H2 H3 Hrest He] Hb Hd. split.
  - rewrite (in_mem_bounds _ _ _ _ _ _ Ha) in Hb.
    pose proof (store_binary_in checked a data (p_world w) (ag_ram Ha) Hb) as E.
    transitivity (zoom (H := process_world) (store_binary (RamOps := bin_ops checked) a data) w);
      [unfold unix_ops; by destruct mapped, checked|].
    unfold zoom. cbn [view process_world]. by rewrite E.
  - split; try done. by apply agrees_overlay.
Qed.

Lemma served_deliver h e w a data v : during h e w ->
  served (deliver p a data v h e) ((store_binary a data ;;; result v) w).
Proof using.
  intros Hw. unfold deliver. destruct (in_mem p a (py_len data)) eqn:Hb; [|done].
  cbn [andb]. case_bool_decide as Hd; [|done].
  destruct (during_bytes h e w a data Hw Hb Hd) as [E Hw']. unfold bind. rewrite E. by apply served_gives.
Qed.

(** One byte. *)
Lemma overlay_byte m a v y : u8 v -> overlay m a [v] y = write_le m a 1 v y.
Proof using.
  intros Hv. unfold overlay, write_le. change (py_len [v]) with 1.
  destruct ((a <=? y) && (y <? a + 1)) eqn:E; [|done]. replace (y - a) with 0 by lia.
  simpl. rewrite Z.div_1_r. by rewrite Z.mod_small.
Qed.

Lemma served_byte h e w a v : during h e w ->
  served (deliver p a [v] 1 h e) ((store_byte a v ;;; result 1) w).
Proof using.
  intros [Ha H1 H2 H3 Hrest He]. unfold deliver. change (py_len [v]) with 1.
  destruct (in_mem p a 1) eqn:Hb; [|done]. cbn [andb]. case_bool_decide as Hd; [|done].
  apply Forall_inv in Hd. rewrite (in_mem_bounds _ _ _ _ _ _ Ha) in Hb.
  pose proof (SafeRAM_store_byte_ok (view w) a v (ag_ram Ha)) as Hst. unfold store_ok in Hst.
  rewrite Hb in Hst. destruct Hst as (r & E & Hst).
  assert (store_byte a v w = (Ok tt, put r w)) as Es.
  { set (R := process_ops (H := H) (select_ram_class false checked)).
    transitivity (store_byte (RamOps := R) a v w); [unfold unix_ops; by destruct mapped, checked|].
    assert (LiftMem any_ram ends R) as HL by (unfold R; destruct checked; apply _).
    pose proof (lift_store_byte (LiftMem := HL) a v w I) as Hl.
    assert (store_byte (RamOps := SafeRAM_ops) a v (node_of w) = (Ok tt, (view w, r))) as E'
      by (unfold store_byte, SafeRAM_ops, zoom; cbn in E |- *; by rewrite E).
    rewrite E' in Hl. rewrite (proj2 (Hl I)). by destruct w as [[]]. }
  unfold bind. rewrite Es. apply served_gives. split; try done.
  - eapply agrees_ext; [by eapply (agrees_stored p h)|done|done| |done..].
    intros y _. simpl. by apply overlay_byte.
  - rewrite <- Hrest. destruct Hst as [_ E2 _ E4 _]. unfold unix_rest, layout. simpl. by rewrite E2, E4.
Qed.

Lemma served_path h e w a k (K : list Z -> ST (process H) unit) : during h e w ->
  (forall path, served (k path) (K path w)) ->
  served (with_path p h a k) ((path <- load_cstring a 1024 ;; K path) w).
Proof using.
  intros [Ha H1 H2 H3 Hrest He] Hk. unfold with_path, string_at. destruct (in_mem p a 1) eqn:Hb; [|done].
  unfold in_mem in Hb. apply andb_true_iff in Hb as [Hb1 Hb2].
  pose proof (ag_size Ha) as Hsz. pose proof (wf_len _ (ag_ram Ha)) as Hl.
  rewrite (bytes_of_agrees p h _ _ _ _ Ha) by (unfold in_mem; lia).
  assert (bytes_at (view w) a (Z.min 1024 (p_size p - a)) =
    py_slice (memory (view w)) a (Z.min (a + 1024) (size (view (A := ram) w)))) as ->.
  { unfold bytes_at. rewrite <- py_slice_in by lia. f_equal. lia. }
  destruct (py_find 0 _) as [n|] eqn:En; [|done].
  assert (load_cstring a 1024 w = (Ok (take n (py_slice (memory (view w)) a
    (Z.min (a + 1024) (size (view (A := ram) w))))), w)) as E; [|unfold bind; rewrite E; apply Hk].
  assert (body_load_cstring a 1024 (view w) = (Ok (take n (py_slice (memory (view w)) a
    (Z.min (a + 1024) (size (view (A := ram) w))))), view w)) as E
    by (unfold body_load_cstring; by rewrite En).
  unfold load_cstring, unix_ops, process_ops, zoom. destruct w as [w1]. cbn in *.
  destruct mapped, checked; cbn; unfold zoom, RAM_load_cstring, SafeRAM_load_cstring; cbn.
  all: rewrite ?(proj2 (Z.ltb_ge a 0)), ?(proj2 (Z.leb_gt _ a)) by lia; cbn [orb]; rewrite E; by destruct w1.
Qed.

Lemma served_cwd h e w k body : during h e w -> served k (body w) -> served (from_cwd h k) (at_cwd body w).
Proof using.
  intros Hw Hk. unfold at_cwd. apply (served_arg h e w 0); [done|lia|]. unfold from_cwd.
  change (10 + 0) with 10. rewrite as_signed_sint by by apply (x_u32 h e w). by destruct (sint (x h 10) =? -100).
Qed.

(** *** The calls *)

Create HintDb served.
#[local] Hint Resolve served_gives served_deliver served_byte : served.

(** The arguments of a call, and the questions it asks. *)
Ltac serve :=
  match goal with
  | Hw : during ?h ?e ?w |- served _ ((_ <- arg ?i ;; _) ?w) =>
      apply (served_arg h e w i); [exact Hw|lia|]; let j := eval vm_compute in (10 + i) in change (10 + i) with j
  | Hw : during ?h ?e ?w |- served (if_open _ _ _) _ => apply (served_open h e w); [exact Hw|intros]
  | Hw : during ?h ?e ?w |- served (ask_done _ _ _) _ =>
      apply (served_ask_done h e w); [exact Hw|]; clear Hw; intros ? ? Hw
  | Hw : during ?h ?e ?w |- served (ask _ _ _) _ =>
      apply (served_ask h e w); [exact Hw|]; clear Hw; intros ? ? Hw
  | Hw : during ?h ?e ?w |- served (with_path _ _ _ _) _ => apply (served_path h e w); [exact Hw|intros]
  | Hw : during ?h ?e ?w |- served (from_cwd _ _) _ => apply (served_cwd h e w); [exact Hw|]
  | |- served _ _ => eauto with served nocore
  end.

Lemma exit_served e w : during h0 e w -> served (Ended (sint (x h0 10)) e) (handle_exit w).
Proof using.
  intros [Ha H1 H2 H3 Hrest He]. unfold handle_exit, bind at 1, zoom, modify at 1.
  set (c := set_pc (next_pc (view w)) (view w)).
  assert (agrees p h0 c (view w)) as Hc.
  { destruct (ag_ready Ha) as (Hwf & H0 & Hcoh). eapply agrees_cpu; [exact Ha| |done..].
    split_and!; [by destruct Hwf; split|exact H0|by destruct Hcoh; split]. }
  destruct (ag_ready Hc) as (Hwf & _).
  exists (put c w). split; [|by split; [rewrite view_put|split]].
  unfold bind, arg, zoom. rewrite view_put, reg_eq, put_put by (apply Hwf || lia).
  rewrite as_signed_sint by by apply rv_u32. by rewrite (ag_x Hc) by lia.
Qed.

Lemma sbrk_served h e w : during h e w -> served (unix_sbrk h e) (handle_sbrk w).
Proof using.
  intros Hw. pose proof (du_unix _ _ _ Hw) as He. unfold handle_sbrk, unix_sbrk, mget, bind at 1, gets.
  assert (stack_bottom (view w) = ux_limit e) as -> by by injection He.
  destruct (ux_limit e) as [limit|] eqn:El; [|done]. destruct (ux_break e) as [t|] eqn:Et; [|done].
  apply (served_arg h e w 0); [done|lia|]. change (10 + 0) with 10. unfold bind at 1.
  assert (heap_end (view w) = Some t) as -> by (rewrite <- Et; by injection He).
  cbn [of_option bind ret]. unfold bind at 1. cbn.
  rewrite Z.leb_antisym. destruct (t + x h 10 <? limit); cbn [negb]; [|by serve].
  unfold bind, mset, zoom, modify. apply served_gives. destruct Hw. split; try done.
  unfold unix_at in *. cbn in *. congruence.
Qed.

Lemma write_served h e w : during h e w -> served (unix_write os p h e) (handle_write w).
Proof using.
  intros Hw. unfold handle_write, unix_write. do 3 serve.
  destruct (in_mem p (x h 11) (x h 12)) eqn:Hb; [|done].
  pose proof (du_agrees _ _ _ Hw) as Ha. pose proof (x_u32 h e w 12 Hw ltac:(lia)) as [Hn _].
  rewrite (bytes_of_agrees p h _ _ _ _ Ha) by done.
  rewrite (in_mem_bounds _ _ _ _ _ _ Ha) in Hb.
  assert (load_binary (x h 11) (x h 12) w = (Ok (bytes_at (view w) (x h 11) (x h 12)), w)) as E.
  { pose proof (load_binary_in checked (x h 11) (x h 12) (p_world w) (ag_ram Ha) Hn Hb) as E.
    transitivity (zoom (H := process_world) (load_binary (RamOps := bin_ops checked) (x h 11) (x h 12)) w);
      [unfold unix_ops; by destruct mapped, checked|]. unfold zoom. cbn [view process_world]. rewrite E. by destruct w. }
  unfold bind at 1. rewrite E. destruct ((x h 10 =? 1) || (x h 10 =? 2)); repeat serve.
Qed.

Lemma read_served h e w : during h e w -> served (unix_read os p raw h e) (handle_read w).
Proof using.
  intros Hw. unfold handle_read, unix_read. do 3 serve. destruct (x h 10 =? 0); [|by repeat serve].
  unfold bind at 1, yget, gets.
  assert (raw_tty (view w) = raw) as -> by by pose proof (du_unix _ _ _ Hw) as He; injection He.
  destruct raw; cbn [negb]; serve.
  - destruct v as [ch|]; [|done]. unfold bind at 1. by apply served_byte.
  - destruct v as [text|]; cbn [line_bytes]; [|by apply served_deliver].
    destruct (utf8_encode (text ++ [10])) as [b|]; [|done]. cbn [fmap option_fmap option_map].
    unfold bind at 1, of_option, ret. cbn.
    rewrite py_slice_prefix by by apply (x_u32 _ _ _ 12 Hw). by apply served_deliver.
Qed.

Lemma close_served h e w : during h e w -> served (unix_close os h e) (handle_close w).
Proof using.
  intros Hw. unfold handle_close, unix_close. do 3 serve.
  unfold bind, yset, zoom, modify. apply served_gives. destruct Hw. split; try done.
  unfold unix_at in *. cbn in *. congruence.
Qed.

Lemma lseek_served h e w : during h e w -> served (unix_lseek os h e) (handle_lseek w).
Proof using.
  intros Hw. unfold handle_lseek, unix_lseek. do 3 serve.
  unfold bind at 1, lookup_fd, yget, gets, if_open.
  assert (fd_map (view w) = ux_files e) as -> by by pose proof (du_unix _ _ _ Hw) as He; injection He.
  destruct (ux_files e !! x h 10); [|done]. repeat serve.
Qed.

Lemma fstat_served h e w : during h e w -> served (unix_fstat os p h e) (handle_fstat w).
Proof using.
  intros Hw. unfold handle_fstat, unix_fstat, is_terminal, store_stat. do 2 serve.
  destruct ((x h 10 =? 0) || (x h 10 =? 1) || (x h 10 =? 2)); [by serve|]. do 2 serve.
  destruct v as [mode sz]. by serve.
Qed.

Lemma isatty_served h e w : during h e w -> served (unix_isatty h e) (handle_isatty w).
Proof using.
  intros Hw. unfold handle_isatty, unix_isatty, is_terminal. serve.
  destruct ((x h 10 =? 0) || (x h 10 =? 1) || (x h 10 =? 2)); repeat serve.
Qed.

Lemma umask_served h e w : during h e w -> served (unix_umask h e) (handle_umask w).
Proof using.
  intros Hw. unfold handle_umask, unix_umask. serve. unfold bind at 1, yget, gets.
  assert (umask (view w) = ux_umask e) as -> by by pose proof (du_unix _ _ _ Hw) as He; injection He.
  unfold bind, yset, zoom, modify. rewrite (land_ones_mod _ 511 9) by done. change (2 ^ 9) with 512.
  apply served_gives.
  destruct Hw. split; try done. unfold unix_at in *. cbn -[Z.modulo] in *. congruence.
Qed.

Lemma mkdirat_served h e w : during h e w -> served (unix_mkdirat os p h e) (handle_mkdirat w).
Proof using.
  intros Hw. unfold handle_mkdirat, unix_mkdirat. do 4 serve. unfold bind at 1, yget, gets.
  assert (umask (view w) = ux_umask e) as -> by by pose proof (du_unix _ _ _ Hw) as He; injection He.
  repeat serve.
Qed.

Lemma unlinkat_served h e w : during h e w -> served (unix_unlinkat os p h e) (handle_unlinkat w).
Proof using.
  intros Hw. unfold handle_unlinkat, unix_unlinkat. do 4 serve.
  rewrite land_bit_9. destruct (Z.testbit (x h 12) 9); cbn [negb]; repeat serve.
Qed.

(** The end of an open: the descriptor, and the umask of the host restored. *)
Lemma opened_served h e w host old : during h e w ->
  served (ask (os_umask old) e (fun _ e =>
      gives (ux_next e) h (with_files (<[ux_next e := host]> (ux_files e)) (ux_next e + 1) e)))
    (((emu_fd <- yget next_fd ;;
       yset (fun s => set_fd_map (<[emu_fd := host]> (fd_map s)) s) ;;;
       yset (fun s => set_next_fd (next_fd s + 1) s) ;;;
       result emu_fd) ;;; os_umask old ;;; ret tt) w).
Proof using.
  intros Hw. set (e1 := with_files (<[ux_next e := host]> (ux_files e)) (ux_next e + 1) e).
  set (w1 := put (set_next_fd (ux_next e + 1) (set_fd_map (<[ux_next e := host]> (ux_files e)) (p_sys w))) w).
  assert (during h e1 w1) as Hw1.
  { destruct Hw. split; try done. unfold unix_at in *. cbn in *. congruence. }
  pose proof (served_gives h e1 w1 (ux_next e) Hw1) as Hg.
  assert ((emu_fd <- yget next_fd ;; yset (fun s => set_fd_map (<[emu_fd := host]> (fd_map s)) s) ;;;
    yset (fun s => set_next_fd (next_fd s + 1) s) ;;; result emu_fd) w = result (ux_next e) w1) as E.
  { pose proof (du_unix _ _ _ Hw) as He. injection He as _ Hf Hn _ _ _ _.
    unfold bind, yget, yset, zoom, modify, gets, w1. cbn. by rewrite Hn, Hf. }
  unfold bind at 1. rewrite E. unfold gives in *. destruct (bool_decide (u32 (ux_next e))) eqn:Hu.
  2: { unfold ask. destruct (os_umask old (ux_host e)) as [[]]; [|done]. by cbn; rewrite Hu. }
  destruct Hg as (w2 & -> & Hw2).
  pose proof (served_ask (set_x 10 (ux_next e) h) e1 w2 (os_umask old)
    (fun _ e => Returned (set_x 10 (ux_next e1 - 1) h) e) (fun _ => ret tt) Hw2) as Ha.
  unfold ask in *. cbn in *. destruct (os_umask old (ux_host e)) as [[v|] hs]; [|done]. cbn in *. rewrite Hu.
  rewrite Z.add_simpl_r in Ha. apply Ha. intros _ hs' Hw3. eauto.
Qed.

Lemma openat_served h e w : during h e w -> served (unix_openat os p h e) (handle_openat w).
Proof using.
  intros Hw. unfold handle_openat, unix_openat. do 6 serve. unfold bind at 1, yget at 1, gets at 1.
  match goal with |- context [umask (view ?w)] => assert (umask (view w) = ux_umask e) as -> end.
  { pose proof (du_unix _ _ _ Hw) as He. by injection He. }
  apply (served_ask h (with_host hs e)); [done|]. intros [host|] hs' Hw'; [|done].
  by apply opened_served.
Qed.

Lemma handle_served e w : during h0 e w -> served (unix_call os p raw h0 e) (handle w).
Proof using.
  intros Hw. unfold handle, bind, zoom. destruct (ag_ready (du_agrees _ _ _ Hw)) as (Hwf & _).
  rewrite reg_eq, put_view by (apply Hwf || lia).
  rewrite <- (ag_x (du_agrees _ _ _ Hw)) by lia. unfold unix_call. cbv zeta.
  repeat lazymatch goal with |- served (if ?a =? ?b then _ else _) _ =>
    destruct (Z.eqb_spec a b) as [->|_] end; [..|done]; cbn [syscall_handler]; unfold handle_getpid;
    auto using exit_served, sbrk_served, write_served, read_served, openat_served, close_served,
      lseek_served, fstat_served, isatty_served, umask_served, mkdirat_served, unlinkat_served, served_gives.
Qed.
End Call.

#[export] Instance unix_implemented : Implements p (unix_call os p raw) unix_at unix_rest handle.
Proof using.
  split; [done|]. intros h e w Ha Hpc He.
  pose proof (handle_served h (pc (view w)) (next_pc (view w)) w e w) as Hs.
  specialize (Hs ltac:(by split)). unfold served in Hs.
  destruct (unix_call os p raw h e) as [h' e'|code e'|]; [..|done].
  - destruct Hs as (w' & E & []). eauto 10.
  - destruct Hs as (w' & E & ? & ? & ?). eauto.
Qed.
End Handler.

(** ** At the start of a program

    The terminal, descriptors from 3 on, the umask 0o022, and the heap of the image. *)

Definition boot_unix {H : Type} (stdin stdout stderr : Z) (im : image) (hs : H) : unix H :=
  mkUnix hs (<[0 := stdin]> (<[1 := stdout]> (<[2 := stderr]> ∅))) 3 18 (im_break im) (im_limit im).

Lemma boot_unix_at {H : Type} events accepts io img a stdin stdout stderr cn (hs : H) c r m im :
  break_at (im_break im) (im_limit im) m ->
  unix_at (a_raw_tty a) (boot_unix stdin stdout stderr im hs)
    (boot_process events accepts io img a stdin stdout stderr cn hs c r m).
Proof. intros [H1 H2]. unfold unix_at. simpl. by rewrite H1, H2. Qed.
