(* ===== verification/EmuIsa.v ===== *)
(** * The emulator runs the instruction set

    riscv-emu.py on a flat binary or an ELF file, from the file to the state of the process:
    the process after loading (EmuBoot.v) is the reference machine after a reset, and every
    number of rounds of the run is the same number of steps of that machine, with the system
    calls (Hosted.v, Unix.v) of the program. *)

From Stdlib Require Import ZArith Lia Bool String.
From stdpp Require Import base numbers list option gmap strings.
From S2P Require Import Prelude PyStr Isa Ram Cpu Rvc CpuSem Exec ExecSem ExecSafe RamSafe Core.
From S2P Require Import IsaMachine IsaRefine Machine Peripherals World Lift IsaRun Hosted.
From S2P Require Import Syscalls MemClass GdbPacket Gdb Emu EmuThms EmuSafe EmuBoot Unix.

Local Open Scope Z_scope.
Local Open Scope py_scope.

Section Main.
Context {H : Type} (os : Host H).
Context (getrandbits8 getrandbits32 : nat -> Z).
Context (pty_events : list (option rx_event)) (pty_accepts : list tx_event) (disk_io : list disk_event).
Context (disk_image : pystr -> option (list Z)).
Context (open_binary : pystr -> res (list Z)) (open_elf : pystr -> res elf_file).
Context (exn_text : exn -> str -> str).

Abbreviation main :=
  (main os getrandbits8 getrandbits32 pty_events pty_accepts disk_io disk_image open_binary open_elf exn_text).
Abbreviation boot_process := (boot_process pty_events pty_accepts disk_io disk_image).

Variable a : args.
Hypothesis Hplain : plain_args a.

(** The exit status of a process whose machine has stopped. *)
Definition stop_status (s : stop_cause) : Z := match s with AccessFault _ => 1 | _ => 0 end.

Abbreviation boot_platform :=
  (mkPlatform (1024 * a_ram_size a) (a_rvc a) true (bool_decide (a_timer a <> None))).

Abbreviation calls := (unix_call os boot_platform (a_raw_tty a)).

(** The run of a loaded process, for a memory class that agrees with the checked one up to
    [X]. *)
Lemma execute_follows (X : exn -> Prop) (n : nat) im r m stdin stdout stderr cn hs
    `{!LiftMem any_ram X (process_ops (H := H) (select_ram_class false (check_ram_on a)))} :
  use_mmio a = false -> (forall msg, ~ X (MachineError msg)) ->
  image_ok (1024 * a_ram_size a) (if a_rvc a then 2 else 4) im ->
  holds (ranges_of a) (1024 * a_ram_size a) (im_segments im) r -> plain_machine a m ->
  break_at (im_break im) (im_limit im) m ->
  let p1 := boot_process a stdin stdout stderr cn hs (start_cpu (a_rvc a) im) r m in
  exists out : Prelude.res unit * process H, execute_program os exn_text a n p1 =
      (let (r, p') := out in (match r with Ok _ => Ok false | Exn e => Exn e end, p')) /\
    hosted_outcome X boot_platform (unix_at (a_raw_tty a))
      (hosted_run boot_platform calls n (boot (a_rvc a) im) (boot_unix stdin stdout stderr im hs)) out.
Proof using Hplain.
  intros Hmmio HX Him Hr Hm Hb p1.
  set (R := process_ops (H := H) (select_ram_class false (check_ram_on a))) in *.
  assert (agrees boot_platform (boot (a_rvc a) im) (start_cpu (a_rvc a) im) r) as Ha by by eapply boot_agrees.
  assert (in_step boot_platform (boot (a_rvc a) im) (node_of p1)) as Hin.
  { split; [done|]. change (fst (node_of p1)) with (start_cpu (a_rvc a) im).
    by rewrite start_cpu_pc, boot_pc. }
  assert (plain_run (view p1) (view p1)) as Hpr.
  { pose proof (ag_rvc Ha) as Hv. simpl in Hv. destruct Hm. split; simpl; congruence. }
  assert (unix_at (a_raw_tty a) (boot_unix stdin stdout stderr im hs) p1) as Hu by by apply boot_unix_at.
  exists (run (R := R) (Some (handle (R := R) (HO := process_Host os))) process_runner n p1). split.
  - unfold execute_program. rewrite (pa_gdb a Hplain), Hmmio. cbn [negb]. fold R. unfold bind.
    by destruct (run _ _ _ _) as [[]].
  - apply (run_hosted X R HX boot_platform calls (unix_at (a_raw_tty a)) unix_rest); try done.
    + by apply unix_implemented.
    + simpl. by rewrite (pm_timer a m Hm).
    + rewrite boot_pc. apply (io_aligned _ _ _ Him).
Qed.

(** C1: the emulator runs the instruction set, with its system calls. riscv-emu.py on a flat
    binary or an ELF file, from the file on: the segments of the file are at their addresses
    in a hart after a reset, with the pc at the entry point and, for a program with a heap,
    its arguments as strings and a table in the heap and in a0 and a1; and after [n] rounds
    the process is exactly where the reference machine of the ISA is after [n] steps, in
    registers, pc, CSRs, memory, reservation and timer. It holds for every program whose
    segments and arguments fit into the memory, with an aligned entry point and ASCII
    arguments, for every memory size and every setting of --rvc, --timer=csr, --raw-tty,
    --check-ram and --check-text, without peripherals, logging, checks and debugger and with
    registers and memory cleared. The machine is the hart in a Unix environment: what the
    program prints, reads and does with files is what the host is asked, and its descriptors
    and its heap are those of the process. When the machine stops, the process ends with
    status 0 (a trap or a breakpoint without a handler, and a program that has called exit,
    whatever its code) or 1 (an access outside the memory, with --check-ram; without it
    nothing is said from there on). Nothing is said of a program from a step on that the
    reference machine leaves open (IsaMachine.v lists them) or from a
    system call on that the host answers with an error, that names no open file or bytes
    outside the memory, or that does not exist. *)
Theorem emulator_runs_isa (im : image) (stdin stdout stderr : Z) (cn : conn) (hs : H) (n : nat)
  (Hmmio : use_mmio a = false) (Him : program_image open_binary open_elf a = Some im)
  (Hok : image_ok (1024 * a_ram_size a) (if a_rvc a then 2 else 4) im) :
  let p := mkPlatform (1024 * a_ram_size a) (a_rvc a) true (bool_decide (a_timer a <> None)) in
  let unix_holds := unix_at (a_raw_tty a) in
  match hosted_run p (unix_call os p (a_raw_tty a)) n (boot (a_rvc a) im)
          (boot_unix stdin stdout stderr im hs) with
  | Hosted h e => exists p',
      main a stdin stdout stderr cn hs n = (Running, Some p') /\
      in_step p h (node_of p') /\ unix_holds e p'
  | HostedStop s h e => (check_ram_on a = false -> ends (stop_exn s)) -> exists p',
      main a stdin stdout stderr cn hs n = (ExitStatus (stop_status s), Some p') /\
      agrees p h (view p') (view p') /\ unix_holds e p'
  | HostedExit code h e => exists p',
      main a stdin stdout stderr cn hs n = (ExitStatus 0, Some p') /\
      agrees p h (view p') (view p') /\ unix_holds e p'
  | HostedOpen => True
  end.
Proof using Hplain.
  intros p unix_holds.
  destruct (load_image pty_events pty_accepts disk_io disk_image open_binary open_elf a Hplain stdin stdout
    stderr cn hs (fun E => ltac:(congruence)) im _ Him Hok) as (r & m & Hr & Hm & Hb & El).
  unfold Emu.main. rewrite create_plain, El by done.
  assert (exists X : exn -> Prop,
    LiftMem any_ram X (process_ops (H := H) (select_ram_class false (check_ram_on a))) /\
    (forall msg, ~ X (MachineError msg)) /\
    forall s, (check_ram_on a = false -> ends (stop_exn s)) -> X (stop_exn s)) as (X & HL & HX & Himp).
  { destruct (check_ram_on a); [exists stops|exists ends]; (split_and!; [apply _|by intros ? []|]);
      [by intros []|auto]. }
  destruct (execute_follows X n im r m stdin stdout stderr cn hs Hmmio HX Hok Hr Hm Hb) as (out & -> & Ho).
  fold p in Ho. fold unix_holds in Ho.
  destruct (hosted_run p _ n _ _) as [h e|s h e|code h e|]; [|intros Hs; specialize (Ho (Himp s Hs))|..|done];
    destruct Ho as (p' & -> & Ha); exists p'; try done.
  by destruct s.
Qed.
End Main.
