(* ===== verification/EmuBoard.v ===== *)
(** * The emulator runs the reference board

    riscv-emu.py with its peripherals, from the command line's options and the file on: the
    process that is constructed and loaded is the board of Board.v after a reset, with the
    devices that were asked for, the bytes the pseudo-terminal will deliver and the blocks of
    the disk image, and every number of rounds of the run is the same number of steps of the
    board, with the system calls of the program (HostedBoard.v, Unix.v). *)

From Stdlib Require Import ZArith Lia Bool String.
From stdpp Require Import base numbers list option gmap strings.
From S2P Require Import Prelude PyStr Isa Ram Cpu Rvc CpuSem Exec ExecSem ExecSafe RamSafe Core.
From S2P Require Import IsaMachine Board IsaRefine Machine Peripherals World Lift PeriphThms IsaRun Hosted.
From S2P Require Import Syscalls MemClass MmioSafe BoardRefine HostedBoard GdbPacket Gdb Emu EmuThms EmuSafe EmuBoot Unix.

Local Open Scope Z_scope.
Local Open Scope py_scope.

Section Main.
Context {H : Type} (os : Host H).
Context (getrandbits8 getrandbits32 : nat -> Z).
Context (pty_events : list (option rx_event)) (pty_accepts : list tx_event) (disk_io : list disk_event).
Context (disk_image : pystr -> option (list Z)).
Context (open_binary : pystr -> res (list Z)) (open_elf : pystr -> res elf_file).
Context (exn_text : exn -> str -> str).

Abbreviation main :=
  (main os getrandbits8 getrandbits32 pty_events pty_accepts disk_io disk_image open_binary open_elf exn_text).

Variable a : args.
Hypothesis Hplain : plain_args a.

Abbreviation boot_platform :=
  (mkPlatform (1024 * a_ram_size a) (a_rvc a) true (bool_decide (a_timer a <> None))).

(** The board that was asked for: blocks of 512 bytes, only the line is looked at. *)
Definition board_of : board :=
  mkBoard (fun x => mmio_find x (ranges_of a)) 0x10000000 0x10010000 512
    (if path_on (a_blkdev a) then a_blkdev_size a else 0) (if a_uart a then [PtyUART] else []).

(** The content of the disk: the file, or a new one filled with 0xFF. *)
Definition disk_content : list Z :=
  if path_on (a_blkdev a) then
    match disk_image (default [] (a_blkdev a)) with
    | Some content => content
    | None => replicate (Z.to_nat (a_blkdev_size a * 512)) 0xFF
    end
  else [].

(** A file has as many blocks as were asked for. *)
Definition disk_ok : Prop :=
  path_on (a_blkdev a) = true -> 0 <= a_blkdev_size a /\
    forall content, disk_image (default [] (a_blkdev a)) = Some content ->
      py_len content = a_blkdev_size a * 512 /\ Forall u8 content.

(** The board after a reset. *)
Definition board_boot (im : image) : soc :=
  mkSoc (boot (a_rvc a) im) (mkSerial [] (host_chunk <$> pty_events) (host_sends <$> pty_accepts) [])
    (mkDrive 0 0 0 (fun k => take 512 (drop (Z.to_nat (k * 512)) disk_content))
       (if path_on (a_blkdev a) then host_moves <$> disk_io else []))
    (mkHalves None None) 0.

Lemma boot_disk_agrees : disk_ok ->
  disk_agrees board_of (disk (board_boot (mkImage [] 0 None None None))) (boot_disk disk_io disk_image a).
Proof using.
  unfold disk_ok, boot_disk, board_of, board_boot, disk_content. destruct (path_on (a_blkdev a)).
  - intros Hd. destruct (Hd eq_refl) as [Hn Hc]. cbn [MMIOBlockDevice_init].
    split; cbn; try done; unfold open_or_create_image.
    + destruct (disk_image _) as [content|]; [by destruct (Hc content eq_refl)|].
      unfold py_len. rewrite length_replicate. lia.
    + destruct (disk_image _) as [content|]; [by destruct (Hc content eq_refl)|].
      by apply Forall_replicate.
  - intros _. by split; cbn.
Qed.

(** How the process ends when the board stops. *)
Definition halt_ending (c : board_stop) : ending :=
  match c with
  | CoreStop (AccessFault _) | BadRegister _ => ExitStatus 1
  | CoreStop _ => ExitStatus 0
  | LineFailure | DriveFailure => Traceback OSError
  end.

Lemma boot_on_board im r m stdin stdout stderr cn (hs : H) align :
  disk_ok -> image_ok (1024 * a_ram_size a) align im ->
  holds (ranges_of a) (1024 * a_ram_size a) (im_segments im) r -> plain_machine a m ->
  on_board boot_platform board_of (ranges_of a) (board_boot im)
    (view (boot_process pty_events pty_accepts disk_io disk_image a stdin stdout stderr cn hs
             (start_cpu (a_rvc a) im) r m)).
Proof using.
  intros Hd Him Hr []. split; [split|simpl|split]; try done.
  - by eapply boot_agrees.
  - by apply boot_disk_agrees.
  - by rewrite start_cpu_pc, boot_pc.
  - apply Hr.
Qed.

(** C2: the emulator runs the board, with its system calls. riscv-emu.py with any of --uart,
    --blkdev and --timer=mmio, on a flat binary or an ELF file, from the file on, with the
    arguments of the program: after [n] rounds the process is exactly where the reference
    board in a Unix environment is after [n] steps, the hart and its environment as well as
    the devices: the bytes received, sent and lost on the line, the registers and every
    block of the disk, the halves of the timer; loads and stores of words reach the device
    of the address, the line is looked at every 256 instructions. When the board stops, the
    process ends with status 0 (a trap or a breakpoint without a handler, or exit), 1 (an
    access outside the memory, with --check-ram, or to an address without a register) or
    with the OSError of a line or a drive that fails. It holds under the conditions of
    EmuIsa.v on the file and the options, for a memory that ends below the registers of the
    devices (at most 0x02004000 bytes) and an image file of exactly the size asked for;
    nothing is said from a step on that the reference machine leaves open, or from a system
    call on that EmuIsa.v excludes. *)
Theorem emulator_runs_board (im : image) (stdin stdout stderr : Z) (cn : conn) (hs : H) (n : nat)
  (Hmmio : use_mmio a = true) (Hbelow : 1024 * a_ram_size a <= 0x02004000) (Hdisk : disk_ok)
  (Him : program_image open_binary open_elf a = Some im)
  (Hok : image_ok (1024 * a_ram_size a) (if a_rvc a then 2 else 4) im) :
  let p := mkPlatform (1024 * a_ram_size a) (a_rvc a) true (bool_decide (a_timer a <> None)) in
  let unix_holds := unix_at (a_raw_tty a) in
  match hosted_board_run p board_of (unix_call os p (a_raw_tty a)) n (board_boot im)
          (boot_unix stdin stdout stderr im hs) with
  | Station s e => exists p',
      main a stdin stdout stderr cn hs n = (Running, Some p') /\
      on_board p board_of (ranges_of a) s (view p') /\ unix_holds e p'
  | StationStop c s e => seen (check_ram_on a) c -> exists p',
      main a stdin stdout stderr cn hs n = (halt_ending c, Some p') /\
      board_agrees p board_of s (view p') /\ unix_holds e p'
  | StationExit code s e => exists p',
      main a stdin stdout stderr cn hs n = (ExitStatus 0, Some p') /\
      board_agrees p board_of s (view p') /\ unix_holds e p'
  | StationOpen => True
  end.
Proof using Hplain.
  intros p unix_holds.
  destruct (load_image pty_events pty_accepts disk_io disk_image open_binary open_elf a Hplain stdin stdout
    stderr cn hs (fun _ => Hbelow) im _ Him Hok) as (r & m & Hr & Hm & Hb & El).
  unfold Emu.main. rewrite create_plain, El by done. unfold execute_program.
  rewrite (pa_gdb a Hplain), Hmmio. cbn [negb].
  pose proof (boot_on_board im r m stdin stdout stderr cn hs _ Hdisk Hok Hr Hm) as Hon. fold p in Hon.
  pose proof (boot_unix_at pty_events pty_accepts disk_io disk_image a stdin stdout stderr cn hs
    (start_cpu (a_rvc a) im) r m im Hb) as Hu.
  set (p1 := boot_process _ _ _ _ _ _ _ _ _ _ (start_cpu _ _) _ _) in *.
  set (R := process_ops (H := H) (select_ram_class true (check_ram_on a))).
  assert (let m1 := w_machine (view p1) in
    truthy (regs_opt m1) || check_inv m1 || trace m1 = false /\ mmio m1 = true /\ m_rvc m1 = p_rvc p) as Hq.
  { destruct Hm as [E1 E2 E3 E4 E5 _ _]. simpl. by rewrite E1, E2, E3, E4, Hmmio, E5. }
  assert (station_outcome (check_ram_on a) p board_of (ranges_of a) unix_holds (fun _ => tt)
    (hosted_board_run p board_of (unix_call os p (a_raw_tty a)) n (board_boot im)
      (boot_unix stdin stdout stderr im hs))
    (run (R := R) (Some (handle (R := R) (HO := process_Host os))) process_runner n p1)) as Hrun.
  { pose proof (unix_implemented os p (a_raw_tty a) true (check_ram_on a)) as HI. fold R in HI.
    change (unix_ops true (check_ram_on a)) with R in HI.
    assert (R = in_world_ops (mmio_ops (check_ram_on a))) as ER by (unfold R; by destruct (check_ram_on a)).
    rewrite ER in *.
    apply (run_on_board (check_ram_on a) p board_of (ranges_of a) eq_refl eq_refl (fun _ => eq_refl)
      (fun x H1 H2 => ranges_above a x H1 (Z.le_trans _ _ _ H2 Hbelow)) _ unix_holds unix_rest _);
      try done.
    - intros e w1 w Hw. unfold unix_holds, unix_at. simpl. by rewrite Hw.
    - intros w w' Hrest. exact (f_equal (fun '(t, u, d, l, m) =>
        (t, u, d, l, timer m, peripheral_runners m)) Hrest).
    - change (hpc (boot (a_rvc a) im) mod isa_align p = 0). rewrite boot_pc. apply (io_aligned _ _ _ Hok). }
  unfold bind.
  destruct (hosted_board_run _ _ _ _ _ _) as [s e|c s e|code s e|];
    [|intros Hc; specialize (Hrun Hc)|..|done]; destruct Hrun as (p' & -> & Ha); exists p'; try done.
  by destruct c as [[]| | |].
Qed.
End Main.
