(* ===== verification/Script.v ===== *)
(** * riscv-emu.py as a script

    What surrounds the machine in riscv-emu.py: [parse_args] from the command line to the
    arguments of Emu.v, the set-up of the log, the terminal in raw mode, and the clauses of
    the [try] around the run, with Ctrl-C and the [finally].  [script] is the whole file,
    from sys.argv to the end of the process.  The settings of the terminal are of any type;
    [setraw] is what tty.setraw does to them. *)

From Stdlib Require Import ZArith Lia Bool String.
From stdpp Require Import base numbers list option gmap strings.
From S2P Require Import Prelude PyStr Isa Ram Cpu Rvc CpuSem Exec ExecSem ExecSafe RamSafe Core.
From S2P Require Import Machine Peripherals World Syscalls MemClass GdbPacket Gdb Log ArgParse Emu.

Local Open Scope Z_scope.
Local Open Scope py_scope.

(** ** The arguments *)

Section Attributes.
Variable ns : namespace.

Definition attr_bool (name : string) : bool :=
  match option_value (ns_options ns) name with VBool b => b | _ => false end.
Definition attr_str (name : string) : option string :=
  match option_value (ns_options ns) name with VStr s => Some s | _ => None end.
Definition attr_int (name : string) : Z :=
  match option_value (ns_options ns) name with VInt z => z | _ => 0 end.

(** [args.timer] *)
Definition attr_timer : option timer_kind :=
  match attr_str "--timer" with
  | Some s => if String.eqb s "mmio" then Some TimerMmio else Some TimerCsr
  | None => None
  end.

(** The attributes Emu.v uses, with the arguments of the program. *)
Definition args_of (program : list pystr) : args :=
  mkArgs (codes (ns_executable ns)) (attr_str "--regs") (attr_bool "--trace")
    (attr_bool "--check-inv") (attr_bool "--check-ram") (attr_bool "--check-text")
    (attr_bool "--check-all") (default "" (attr_str "--start-checks"))%string
    (default "" (attr_str "--init-regs"))%string (default "" (attr_str "--init-ram"))%string
    (attr_int "--ram-size") (attr_bool "--rvc") attr_timer (attr_bool "--uart")
    (codes <$> attr_str "--blkdev") (attr_int "--blkdev-size") (attr_bool "--raw-tty")
    (attr_bool "--gdb") program.

(** The attributes of the log: the file, its level and whether colours are wanted. *)
Definition attr_log : option pystr := codes <$> attr_str "--log".
Definition attr_log_level : pystr := codes (default "" (attr_str "--log-level"))%string.
Definition attr_color : bool := attr_bool "--no-color".
End Attributes.

(** [parse_args()]: the namespace and the arguments of the program, or the status with which
    argparse ends the process. *)
Definition parse_args (attached_help : string -> parsed) (argv : list pystr)
    : namespace * list pystr + Z :=
  let '(emulator_args, program_args) := split_argv argv in
  match parse_emulator_args attached_help (map uncodes emulator_args) with
  | Parsed ns => inl (ns, program_args)
  | SystemExit status => inr status
  end.

(** ** The terminal *)

(** The settings of the terminal and what the script itself has written: new lines to the
    standard output and records to the log. *)
Inductive output := NewLine | Logged (levelno : Z) (message : pystr).

Record terminal (S : Type) := mkTerminal {
  settings : S;
  written : list output
}.
Arguments mkTerminal {S} _ _.
Arguments settings {S} _.
Arguments written {S} _.

(** How the run has ended: machine.run() has returned, has raised, or Ctrl-C. *)
Inductive run_outcome := Returned | Raised (e : exn) | Interrupted.

(** [type(e).__name__] of the exceptions of the emulator. *)
Definition type_name (e : exn) : pystr :=
  codes match e with
        | SetupError _ => "SetupError"
        | InvariantViolationError _ => "InvariantViolationError"
        | ExecutionTerminated _ => "ExecutionTerminated"
        | DebugBreak _ _ => "DebugBreak"
        | MemoryAccessError _ _ => "MemoryAccessError"
        | InvalidSyscallError _ => "InvalidSyscallError"
        | _ => "MachineError"
        end.

Section Terminal.
Context {S : Type} (setraw : S -> option S) (exn_str : exn -> pystr).

Definition write (o : output) : ST (terminal S) unit :=
  modify (fun t => mkTerminal (settings t) (written t ++ [o])).

Definition println : ST (terminal S) unit := write NewLine.
Definition log_info (msg : pystr) : ST (terminal S) unit := write (Logged INFO msg).
Definition log_error (msg : pystr) : ST (terminal S) unit := write (Logged ERROR msg).

(** [restore_terminal(fd, settings)] *)
Definition restore_terminal (old : S) : ST (terminal S) unit :=
  modify (fun t => mkTerminal old (written t)).

Definition when (b : bool) (m : ST (terminal S) unit) : ST (terminal S) unit :=
  if b then m else ret tt.

(** Raw mode: the old settings are kept.  [termios.tcgetattr] and [tty.setraw] fail with
    termios.error when stdin is not a terminal ([setraw] gives [None]). *)
Definition enter_raw (raw_tty : bool) : ST (terminal S) S :=
  old <- gets settings ;;
  when raw_tty
    (fun t => match setraw (settings t) with
              | Some s => (Ok tt, mkTerminal s (written t))
              | None => (Exn TermiosError, t)
              end) ;;;
  ret old.

Definition at_pc (c : cpu) : pystr := codes " at PC=0x" ++ hex08 (pc c).

(** The [except] clauses around the run. *)
Definition except_clauses (raw_tty : bool) (old : S) (c : cpu) (o : run_outcome)
    : ST (terminal S) ending :=
  match o with
  | Returned => ret (ExitStatus 0)
  | Interrupted =>
      when raw_tty (restore_terminal old) ;;;
      println ;;;
      log_info (codes "Execution interrupted by user" ++ at_pc c) ;;;
      ret (ExitStatus 0)
  | Raised e =>
      if is_machine_error e then
        when raw_tty (restore_terminal old ;;; println) ;;;
        match e with
        | ExecutionTerminated _ =>
            log_info (codes "Execution terminated: " ++ exn_str e) ;;; ret (ExitStatus 0)
        | _ =>
            log_error (codes "EMULATOR ERROR (" ++ type_name e ++ codes ")" ++ at_pc c ++
                       codes ": " ++ exn_str e) ;;;
            (match e with
             | SetupError _ => ret tt
             | _ => for_each log_info (print_registers c)
             end) ;;;
            ret (ExitStatus 1)
        end
      else
        when raw_tty (restore_terminal old) ;;; println ;;; ret (Traceback e)
  end.

(** The clauses with the [finally]. *)
Definition run_clauses (raw_tty : bool) (old : S) (c : cpu) (o : run_outcome)
    : ST (terminal S) ending :=
  out <- except_clauses raw_tty old c o ;;
  when raw_tty (restore_terminal old) ;;;
  println ;;;
  ret out.

(** The handler of a failure while the executable is loaded. *)
Definition setup_error (e : exn) : ST (terminal S) ending :=
  if is_machine_error e then
    log_error (codes "EMULATOR ERROR (" ++ type_name e ++ codes ") during setup: " ++ exn_str e) ;;;
    ret (ExitStatus 1)
  else ret (Traceback e).

(** The handler of the log; [open_log] is the opening of the file. *)
Definition log_setup (open_log : pystr -> res unit) (isatty : bool) (ns : namespace)
    : res log_handler :=
  let a := args_of ns [] in
  match attr_log ns with
  | Some ((_ :: _) as path) =>
      match open_log path with
      | Exn e => Exn e
      | Ok _ => match file_level (attr_log_level ns) with
                | Exn e => Exn e
                | Ok level => Ok (FileHandler level)
                end
      end
  | _ => Ok (ConsoleHandler (a_raw_tty a) (isatty && attr_color ns))
  end.
End Terminal.

(** ** The script *)

Section Script.
Context {H : Type} (os : Host H).
Context (getrandbits8 getrandbits32 : nat -> Z).
Context (pty_events : list (option rx_event)) (pty_accepts : list tx_event) (disk_io : list disk_event).
Context (disk_image : pystr -> option (list Z)).
Context (open_binary : pystr -> res (list Z)) (open_elf : pystr -> res elf_file).
Context (exn_text : exn -> str -> str).
Context {S : Type} (setraw : S -> option S) (exn_str : exn -> pystr).
Context (attached_help : string -> parsed) (open_log : pystr -> res unit) (isatty : bool).

(** What [n] rounds of the run amount to, with a Ctrl-C after them. *)
Definition outcome_of (interrupt : bool) (r : res bool) : option run_outcome :=
  match r with
  | Exn e => Some (Raised e)
  | Ok true => Some Returned
  | Ok false => if interrupt then Some Interrupted else None
  end.

(** From the objects on: loading, raw mode, the run and its clauses. *)
Definition script_process (a : args) (p : process H) (n : nat) (interrupt : bool) (t : terminal S)
    : ending * process H * terminal S :=
  match load open_binary open_elf a p with
  | (Exn e, p') => let '(r, t') := setup_error exn_str e t in (from_ok Running r, p', t')
  | (Ok false, p') =>
      let '(_, t') := log_error
        (codes "Unsupported file format. Please provide a .bin or .elf file") t in
      (ExitStatus 1, p', t')
  | (Ok true, p') =>
      match enter_raw setraw (a_raw_tty a) t with
      | (Exn e, t1) => (Traceback e, p', t1)
      | (Ok old, t1) =>
          let '(r, p'') := execute_program os exn_text a n p' in
          match outcome_of interrupt r with
          | None => (Running, p'', t1)
          | Some o =>
              let '(r, t2) := run_clauses exn_str (a_raw_tty a) old (view p'') o t1 in
              (from_ok Running r, p'', t2)
          end
      end
  end.

Definition script (argv : list pystr) (stdin stdout stderr : Z) (c : conn) (h : H) (n : nat)
    (interrupt : bool) (t : terminal S) : ending * option (process H) * terminal S :=
  match parse_args attached_help argv with
  | inr status => (ExitStatus status, None, t)
  | inl (ns, program) =>
      match log_setup open_log isatty ns with
      | Exn e => (Traceback e, None, t)
      | Ok _ =>
          let a := args_of ns program in
          match create getrandbits8 getrandbits32 pty_events pty_accepts disk_io disk_image a
                  stdin stdout stderr c h with
          | Exn e => (Traceback e, None, t)
          | Ok p =>
              let '(out, p', t') := script_process a p n interrupt t in (out, Some p', t')
          end
      end
  end.
End Script.
