(* ===== verification/ScriptThms.v ===== *)
(** * Theorems about riscv-emu.py as a script

    The script does with a command line what [main] of Emu.v does with its arguments, ends
    with a status whatever the program does, and leaves the terminal as it found it. *)

From Stdlib Require Import ZArith Lia Bool String.
From stdpp Require Import base numbers list option gmap strings.
From S2P Require Import Prelude PyStr Isa Ram Cpu Rvc CpuSem Exec ExecSem ExecSafe RamSafe Core.
From S2P Require Import Machine Peripherals World MachineThms Syscalls MemClass MmioSafe.
From S2P Require Import Robust SyscallSafe GdbPacket Gdb Log ArgParse Emu EmuThms EmuSafe Script.

Local Open Scope Z_scope.
Local Open Scope py_scope.

(** ** The clauses around the run *)

Section Clauses.
Context {S : Type} (exn_str : exn -> pystr).
Implicit Types (t : terminal S) (o : run_outcome).

(** [m] returns [a] and does [f] to the settings. *)
Definition yields {A} (m : ST (terminal S) A) (a : A) (f : S -> S) : Prop :=
  forall t, exists t', m t = (Ok a, t') /\ settings t' = f (settings t).

Lemma yields_ret {A} (a : A) : yields (ret a) a id.
Proof. intros t. by exists t. Qed.

Lemma yields_write out : yields (write out) tt id.
Proof. intros t. by eexists. Qed.

Lemma yields_bind {A B} (m : ST (terminal S) A) (k : A -> ST (terminal S) B) a b f g h :
  yields m a f -> yields (k a) b g -> (forall s, h s = g (f s)) -> yields (bind m k) b h.
Proof.
  intros Hm Hk Hh t. destruct (Hm t) as (t1 & E1 & S1). destruct (Hk t1) as (t2 & E2 & S2).
  exists t2. unfold bind. rewrite E1. split; [done|]. by rewrite S2, S1, Hh.
Qed.

(** Output does nothing to the settings. *)
Lemma yields_then {A B} (m : ST (terminal S) A) (k : A -> ST (terminal S) B) a b f :
  yields m a f -> yields (k a) b id -> yields (bind m k) b f.
Proof. intros Hm Hk. by eapply yields_bind. Qed.

Lemma yields_output {B} out (k : unit -> ST (terminal S) B) b f :
  yields (k tt) b f -> yields (bind (write out) k) b f.
Proof. intros Hk. by eapply yields_bind; [apply yields_write|exact Hk|]. Qed.

Lemma yields_for_each (l : list pystr) : yields (for_each log_info l) tt id.
Proof.
  induction l as [|x l IH]; simpl; [apply yields_ret|].
  by apply yields_output.
Qed.

Definition restored (raw : bool) (old s : S) : S := if raw then old else s.

Lemma yields_restore raw old : yields (when raw (restore_terminal old)) tt (restored raw old).
Proof. intros t. destruct raw; by eexists. Qed.

Lemma yields_restore_print raw old :
  yields (when raw (restore_terminal old ;;; println)) tt (restored raw old).
Proof. intros t. destruct raw; by eexists. Qed.

Lemma restored_twice raw old s : restored raw old (restored raw old s) = restored raw old s.
Proof. by destruct raw. Qed.

(** The ending is the one [main] computes. *)
Definition ending_of (o : run_outcome) : ending :=
  match o with Returned | Interrupted => ExitStatus 0 | Raised e => status_of e end.

(** The report of a MachineError. *)
Lemma report_yields raw old c e : is_machine_error e = true ->
  yields (except_clauses exn_str raw old c (Raised e)) (status_of e) (restored raw old).
Proof.
  intros He. unfold except_clauses. rewrite He.
  eapply yields_then; [apply yields_restore_print|].
  assert (forall msg (m : ST (terminal S) unit), yields m tt id ->
    yields (log_error msg ;;; m ;;; ret (ExitStatus 1)) (ExitStatus 1) id) as Herr.
  { intros msg m Hm. apply yields_output. eapply yields_then; [exact Hm|apply yields_ret]. }
  destruct e; try done; unfold status_of; try rewrite He;
    try (apply Herr; apply yields_for_each || apply yields_ret).
  apply yields_output, yields_ret.
Qed.

Lemma run_clauses_yields raw old c o :
  yields (run_clauses exn_str raw old c o) (ending_of o) (restored raw old).
Proof.
  assert (exists f, yields (except_clauses exn_str raw old c o) (ending_of o) f /\
    forall s, f s = s \/ f s = restored raw old s) as (f & Hf & Hs).
  { destruct o as [|e|].
    - exists id. split; [apply yields_ret|auto].
    - exists (restored raw old). split; [|auto].
      destruct (is_machine_error e) eqn:He; [by apply report_yields|].
      assert (status_of e = Traceback e) as Es by (unfold status_of; rewrite He; by destruct e).
      unfold except_clauses, ending_of. rewrite He, Es.
      eapply yields_then; [apply yields_restore|]. apply yields_output, yields_ret.
    - exists (restored raw old). split; [|auto]. simpl.
      eapply yields_then; [apply yields_restore|]. apply yields_output, yields_output, yields_ret. }
  unfold run_clauses. eapply yields_bind; [exact Hf| |].
  - eapply yields_then; [apply yields_restore|]. apply yields_output, yields_ret.
  - intros s. destruct (Hs s) as [E|E]; rewrite E; [done|]. by rewrite restored_twice.
Qed.
End Clauses.

(** ** The script *)

Section Script.
Context {H : Type} (os : Host H).
Context (getrandbits8 getrandbits32 : nat -> Z).
Context (pty_events : list (option rx_event)) (pty_accepts : list tx_event) (disk_io : list disk_event).
Context (disk_image : pystr -> option (list Z)).
Context (open_binary : pystr -> res (list Z)) (open_elf : pystr -> res elf_file).
Context (exn_text : exn -> str -> str).
Context {S : Type} (setraw : S -> option S) (exn_str : exn -> pystr).
Context (attached_help : string -> parsed) (open_log : pystr -> res unit) (isatty : bool).

Abbreviation create := (create getrandbits8 getrandbits32 pty_events pty_accepts disk_io disk_image).
Abbreviation main :=
  (main os getrandbits8 getrandbits32 pty_events pty_accepts disk_io disk_image open_binary open_elf exn_text).
Abbreviation script :=
  (script os getrandbits8 getrandbits32 pty_events pty_accepts disk_io disk_image open_binary open_elf
     exn_text setraw exn_str attached_help open_log isatty).
Abbreviation script_process :=
  (script_process os open_binary open_elf exn_text setraw exn_str).

(** The ending with a Ctrl-C: a program that is still running is stopped with status 0. *)
Definition after_interrupt (interrupt : bool) (out : ending) : ending :=
  match out with Running => if interrupt then ExitStatus 0 else Running | _ => out end.

(** The settings while the program runs; [None]: they could not be made. *)
Definition mode (raw : bool) (s : S) : option S := if raw then setraw s else Some s.

Lemma enter_raw_eq raw (t : terminal S) : enter_raw setraw raw t =
  match mode raw (settings t) with
  | Some s => (Ok (settings t), mkTerminal s (written t))
  | None => (Exn TermiosError, t)
  end.
Proof.
  unfold enter_raw, when, mode, bind, gets. destruct raw; [by destruct (setraw _)|by destruct t].
Qed.

(** From the objects on, where the terminal can be put into its mode, the script ends the
    way [main] does and the terminal has its old settings at the end. *)
Lemma script_process_spec (a : args) stdin stdout stderr c h p n interrupt (t : terminal S) s :
  create a stdin stdout stderr c h = Ok p -> mode (a_raw_tty a) (settings t) = Some s ->
  let '(out, p', t') := script_process a p n interrupt t in
  out = after_interrupt interrupt (fst (main a stdin stdout stderr c h n)) /\
  Some p' = snd (main a stdin stdout stderr c h n) /\
  settings t' = match out with
                | Running => s
                | _ => settings t
                end.
Proof.
  intros Hc Hmode. unfold Script.script_process, Emu.main. rewrite Hc, enter_raw_eq, Hmode.
  destruct (Emu.load open_binary open_elf a p) as [[[]|e] p1].
  - set (t1 := mkTerminal s (written t)).
    destruct (execute_program os exn_text a n p1) as [r p2].
    assert (a_raw_tty a = false -> settings t1 = settings t) as Es
      by (intros Er; unfold mode in Hmode; rewrite Er in Hmode; by injection Hmode as <-).
    assert (forall o, let '(r, t2) := run_clauses exn_str (a_raw_tty a) (settings t) (view p2) o t1 in
      from_ok Running r = ending_of o /\ settings t2 = settings t) as Hrun.
    { intros o. destruct (run_clauses_yields exn_str (a_raw_tty a) (settings t) (view p2) o t1)
        as (t2 & -> & ->). split; [done|]. unfold restored. destruct (a_raw_tty a); auto. }
    assert (forall o, ending_of o <> Running) as Hne.
    { intros [|e|]; simpl; try done. unfold status_of. by destruct e; repeat case_match. }
    destruct r as [[]|e]; cbn [outcome_of].
    + specialize (Hrun Returned). destruct (run_clauses _ _ _ _ _ _) as [r t2].
      destruct Hrun as [-> ->]. done.
    + destruct interrupt; [|done]. specialize (Hrun Interrupted).
      destruct (run_clauses _ _ _ _ _ _) as [r t2]. by destruct Hrun as [-> ->].
    + specialize (Hrun (Raised e)). specialize (Hne (Raised e)). simpl in Hne.
      destruct (run_clauses _ _ _ _ _ _) as [r t2]. destruct Hrun as [-> ->]. simpl.
      by destruct (status_of e).
  - done.
  - unfold setup_error, setup_status, bind. by destruct (is_machine_error e).
Qed.

(** ** What the arguments are *)

Lemma codes_scalar s : Forall scalar (codes s).
Proof.
  apply Forall_forall. intros z Hz. apply list_elem_of_In, in_map_iff in Hz as (ch & <- & _).
  pose proof (ord_range ch). unfold scalar. lia.
Qed.

Lemma basename_scalar path : Forall scalar path -> Forall scalar (basename path).
Proof.
  intros Hp. destruct (basename_acc_spec [] path (not_elem_of_nil 47)) as (_ & d & E & _).
  simpl in E. rewrite E in Hp. by apply Forall_app in Hp as [_ ?].
Qed.

Lemma program_encodable `{LX : Lapses} argv : Forall encodable argv -> Forall encodable (snd (split_argv argv)).
Proof. intros Ha. unfold split_argv. destruct (index_dashes argv); simpl; [by apply Forall_drop|done]. Qed.

(** A machine that could be built has a memory of a sensible size. *)
Lemma create_size a stdin stdout stderr c (h : H) p :
  create a stdin stdout stderr c h = Ok p -> 0 <= a_ram_size a.
Proof.
  unfold Emu.create, Emu.build, RAM_init. destruct (Z.ltb_spec (1024 * a_ram_size a + 4) 0); [done|].
  intros _. lia.
Qed.

(** The ending of the script: the one of a program, or the termios.error of raw mode on a
    standard input that is no terminal. *)
Definition script_ending_ok `{LX : Lapses} (ns : namespace) (t : terminal S) (out : ending) : Prop :=
  ending_ok (attr_bool ns "--gdb") out \/
  out = Traceback TermiosError /\ mode (attr_bool ns "--raw-tty") (settings t) = None.

End Script.
