(* ===== verification/CommandLine.v ===== *)
(** * What the command line of riscv-emu.py means

    The options are described here once more, independently of the add_argument calls of
    ArgParse.v: [switch] are the options with their arguments, [spelling] is how they are
    written, and [described] is the configuration that a list of them stands for: a flag is
    set when it is given, a value is the last one given or its default.  parse_args gives
    exactly that configuration to the emulator. *)

From Stdlib Require Import ZArith Lia Bool Ascii String.
From stdpp Require Import base numbers list option gmap strings.
From S2P Require Import Prelude PyStr ArgParse Emu EmuThms Script.

Local Open Scope Z_scope.

(** ** The options *)

Inductive switch :=
| Trace | Syscalls | Traps | CheckInv | CheckRam | CheckText | CheckAll | Rvc | Uart | RawTty
| NoColor | Gdb | GdbDebug
| Regs (names : string) | StartChecks (when : string) | InitRegs (v : string)
| InitRam (pattern : string) | RamSize (kb : Z) | Timer (k : timer_kind)
| Blkdev (path : string) | BlkdevSize (blocks : Z)
| Log (path : string) | LogLevel (level : string) | GdbPort (port : Z) | GdbHost (host : string).

Definition timer_name (k : timer_kind) : string :=
  match k with TimerCsr => "csr" | TimerMmio => "mmio" end.

(** The option string and the text of the argument. *)
Definition spelling (sw : switch) : string * option string :=
  match sw with
  | Trace => ("--trace", None)
  | Syscalls => ("--syscalls", None)
  | Traps => ("--traps", None)
  | CheckInv => ("--check-inv", None)
  | CheckRam => ("--check-ram", None)
  | CheckText => ("--check-text", None)
  | CheckAll => ("--check-all", None)
  | Rvc => ("--rvc", None)
  | Uart => ("--uart", None)
  | RawTty => ("--raw-tty", None)
  | NoColor => ("--no-color", None)
  | Gdb => ("--gdb", None)
  | GdbDebug => ("--gdb-debug", None)
  | Regs s => ("--regs", Some s)
  | StartChecks s => ("--start-checks", Some s)
  | InitRegs s => ("--init-regs", Some s)
  | InitRam s => ("--init-ram", Some s)
  | RamSize z => ("--ram-size", Some (py_str z))
  | Timer k => ("--timer", Some (timer_name k))
  | Blkdev s => ("--blkdev", Some s)
  | BlkdevSize z => ("--blkdev-size", Some (py_str z))
  | Log s => ("--log", Some s)
  | LogLevel s => ("--log-level", Some s)
  | GdbPort z => ("--gdb-port", Some (py_str z))
  | GdbHost s => ("--gdb-host", Some s)
  end%string.

(** The argument of an option is joined with an equals sign or the next word; a word that
    starts with a dash has to be joined. *)
Definition words (x : bool * switch) : list string :=
  match spelling (snd x) with
  | (name, None) => [name]
  | (name, Some v) => if fst x then [(name +:+ "=" +:+ v)%string] else [name; v]
  end.

Definition readable (x : bool * switch) : Prop :=
  fst x = true \/ match snd (spelling (snd x)) with
                  | Some v => startswith "-" v = false
                  | None => True
                  end.

(** ** The configuration *)

(** The last value given for an option. *)
Definition last_of {A} (f : switch -> option A) (default : A) (l : list switch) : A :=
  foldl (fun acc sw => match f sw with Some a => a | None => acc end) default l.

(** A flag is given. *)
Definition given (f : switch -> bool) (l : list switch) : bool := existsb f l.

Definition described (l : list switch) (exe : string) (program : list pystr) : args := {|
  executable := codes exe;
  a_regs := last_of (fun sw => match sw with Regs s => Some (Some s) | _ => None end) None l;
  a_trace := given (fun sw => match sw with Trace => true | _ => false end) l;
  a_check_inv := given (fun sw => match sw with CheckInv => true | _ => false end) l;
  a_check_ram := given (fun sw => match sw with CheckRam => true | _ => false end) l;
  a_check_text := given (fun sw => match sw with CheckText => true | _ => false end) l;
  a_check_all := given (fun sw => match sw with CheckAll => true | _ => false end) l;
  a_start_checks :=
    last_of (fun sw => match sw with StartChecks s => Some s | _ => None end) "auto"%string l;
  a_init_regs := last_of (fun sw => match sw with InitRegs s => Some s | _ => None end) "zero"%string l;
  a_init_ram := last_of (fun sw => match sw with InitRam s => Some s | _ => None end) "zero"%string l;
  a_ram_size := last_of (fun sw => match sw with RamSize z => Some z | _ => None end) 1024 l;
  a_rvc := given (fun sw => match sw with Rvc => true | _ => false end) l;
  a_timer := last_of (fun sw => match sw with Timer k => Some (Some k) | _ => None end) None l;
  a_uart := given (fun sw => match sw with Uart => true | _ => false end) l;
  a_blkdev := last_of (fun sw => match sw with Blkdev s => Some (Some (codes s)) | _ => None end) None l;
  a_blkdev_size := last_of (fun sw => match sw with BlkdevSize z => Some z | _ => None end) 1024 l;
  a_raw_tty := given (fun sw => match sw with RawTty => true | _ => false end) l;
  a_gdb := given (fun sw => match sw with Gdb => true | _ => false end) l;
  rest_args := program
|}.

(** The file of the log, its level, and whether the terminal is coloured. *)
Definition described_log (l : list switch) : option pystr * pystr * bool :=
  (last_of (fun sw => match sw with Log s => Some (Some (codes s)) | _ => None end) None l,
   last_of (fun sw => match sw with LogLevel s => Some (codes s) | _ => None end) (codes "DEBUG") l,
   negb (given (fun sw => match sw with NoColor => true | _ => false end) l)).

(** ** What argparse stores for an option *)

Definition stored (sw : switch) : value :=
  match sw with
  | NoColor => VBool false
  | Regs s | StartChecks s | InitRegs s | InitRam s | Blkdev s | Log s | LogLevel s | GdbHost s => VStr s
  | RamSize z | BlkdevSize z | GdbPort z => VInt z
  | Timer k => VStr (timer_name k)
  | _ => VBool true
  end.

Definition store (opts : gmap string value) (sw : switch) : gmap string value :=
  <[fst (spelling sw) := stored sw]> opts.

Lemma switch_kind sw : exists k, kind_of (fst (spelling sw)) OPTIONS = Some k /\
  is_help (fst (spelling sw)) = false /\ fst (spelling sw) ∈ map fst OPTIONS /\
  match snd (spelling sw) with
  | None => takes_argument k = false /\ flag_value k = stored sw
  | Some v => takes_argument k = true /\ get_value k v = Some (stored sw)
  end.
Proof.
  destruct sw; eexists; (split; [reflexivity|]); (split; [reflexivity|]);
    (split; [apply (bool_decide_unpack _); vm_compute; exact I|]); simpl;
    rewrite ?py_int_str; try done.
  by destruct k.
Qed.

Lemma OPTIONS_good : forallb (fun '(name, _) => good_name name) OPTIONS = true.
Proof. by vm_compute. Qed.

Definition classify (s : string) : string * arg_class := (s, parse_optional OPTIONS s).

Lemma dash_positional s : startswith "-" s = false -> parse_optional OPTIONS s = Positional.
Proof. intros Hs. unfold parse_optional. by rewrite Hs. Qed.

(** One option is consumed. *)
Lemma consume_switch ah opts e x sw l : readable sw ->
  consume OPTIONS ah opts e x (map classify (words sw) ++ l) =
  consume OPTIONS ah (store opts (snd sw)) e x l.
Proof.
  intros Hr. destruct (switch_kind (snd sw)) as (k & Hk & Hh & Hin & Hv).
  destruct sw as [joined sw]. unfold words, store, readable, classify in *. cbn [fst snd] in *.
  destruct (spelling sw) as [name [v|]]; cbn [fst snd] in *; destruct Hv as [Ht Hg].
  - destruct joined; cbn [map app].
    + rewrite (classify_value OPTIONS OPTIONS_good) by done. cbn [consume]. by rewrite Hh, Hk, Ht, Hg.
    + destruct Hr as [|Hr]; [done|].
      rewrite (classify_flag OPTIONS OPTIONS_good) by done. rewrite dash_positional by done.
      cbn [consume]. by rewrite Hh, Hk, Ht, Hg.
  - cbn [map app]. rewrite (classify_flag OPTIONS OPTIONS_good) by done.
    cbn [consume]. by rewrite Hh, Hk, Ht, Hg.
Qed.

Lemma consume_switches ah sws : Forall readable sws -> forall opts e x l,
  consume OPTIONS ah opts e x (map classify (flat_map words sws) ++ l) =
  consume OPTIONS ah (foldl store opts (map snd sws)) e x l.
Proof.
  induction 1 as [|sw sws Hr _ IH]; intros opts e x l; simpl; [done|].
  by rewrite map_app, <- app_assoc, consume_switch, IH.
Qed.

(** Nothing that is written is ambiguous or the separator. *)
Lemma words_class sws s : Forall readable sws -> s ∈ flat_map words sws ->
  match parse_optional OPTIONS s with Ambiguous => False | _ => True end /\ s <> "--"%string.
Proof.
  intros Hr Hin. apply list_elem_of_In, in_flat_map in Hin as (sw & Hin & Hs).
  rewrite Forall_forall in Hr. specialize (Hr sw (proj2 (list_elem_of_In _ _) Hin)).
  destruct (switch_kind (snd sw)) as (k & _ & _ & Hk & _). unfold words, readable in *.
  assert (forall n, n ∈ map fst OPTIONS -> n <> "--"%string) as Hne.
  { intros n Hn ->. revert Hn. apply (bool_decide_unpack (_ ∉ _)). by vm_compute. }
  destruct (spelling (snd sw)) as [name [v|]]; cbn [fst snd] in *.
  - destruct (fst sw); cbn [In] in Hs.
    + destruct Hs as [<-|[]]. rewrite (classify_value OPTIONS OPTIONS_good) by done. split; [done|].
      intros E. apply (f_equal list_ascii_of_string) in E. rewrite list_ascii_app in E.
      apply (f_equal (existsb (Ascii.eqb "="%char))) in E. rewrite existsb_app in E. cbn in E.
      by rewrite orb_true_r in E.
    + destruct Hr as [|Hr]; [done|]. destruct Hs as [<-|[<-|[]]].
      * rewrite (classify_flag OPTIONS OPTIONS_good) by done. auto.
      * rewrite dash_positional by done. split; [done|]. by intros ->.
  - destruct Hs as [<-|[]]. rewrite (classify_flag OPTIONS OPTIONS_good) by done. auto.
Qed.

(** ** What is read from the namespace *)

Lemma lookup_store l opts n :
  foldl store opts l !! n =
  foldl (fun acc sw => if String.eqb (fst (spelling sw)) n then Some (stored sw) else acc) (opts !! n) l.
Proof.
  revert opts. induction l as [|sw l IH]; intros opts; simpl; [done|]. rewrite IH. f_equal.
  unfold store. destruct (String.eqb_spec (fst (spelling sw)) n) as [<-|Hne];
    [apply lookup_insert_eq|by apply lookup_insert_ne].
Qed.

(** A value of an option is read by [read]: [f] picks it out of a switch. *)
Lemma read_last {A} (read : value -> A) (f : switch -> option A) n d l opts :
  (forall sw, f sw = if String.eqb (fst (spelling sw)) n then Some (read (stored sw)) else None) ->
  read (default VNone (opts !! n)) = d ->
  read (option_value (foldl store opts l) n) = last_of f d l.
Proof.
  intros Hf. unfold option_value. rewrite lookup_store. unfold last_of.
  generalize (opts !! n). intros o <-. revert o.
  induction l as [|sw l IH]; intros o; simpl; [done|]. rewrite IH, Hf.
  by destruct (String.eqb _ _).
Qed.

(** A flag stores [b], the opposite of its default. *)
Lemma read_flag (read : value -> bool) (f : switch -> bool) n b l opts :
  (forall sw, f sw = String.eqb (fst (spelling sw)) n) ->
  (forall sw, f sw = true -> read (stored sw) = b) ->
  read (default VNone (opts !! n)) = negb b ->
  read (option_value (foldl store opts l) n) = if given f l then b else negb b.
Proof.
  intros Hf Hb Hd.
  rewrite (read_last read (fun sw => if f sw then Some b else None) n (negb b)); [|..|done].
  - unfold last_of, given. generalize (negb b) as d.
    assert (forall l, foldl (fun acc sw => match (if f sw then Some b else None) with
              | Some a => a | None => acc end) b l = b) as Hsame.
    { clear. induction l as [|sw l IH]; simpl; [done|]. by destruct (f sw). }
    induction l as [|sw l IH]; intros d; simpl; [done|]. destruct (f sw); simpl; [apply Hsame|apply IH].
  - intros sw. specialize (Hb sw). rewrite <- Hf. destruct (f sw); [by rewrite Hb|done].
Qed.

Definition read_bool (v : value) : bool := match v with VBool b => b | _ => false end.
Definition read_str (v : value) : option string := match v with VStr s => Some s | _ => None end.
Definition read_int (v : value) : Z := match v with VInt z => z | _ => 0 end.
Definition read_timer (v : value) : option timer_kind :=
  match read_str v with
  | Some s => if String.eqb s "mmio" then Some TimerMmio else Some TimerCsr
  | None => None
  end.

Ltac by_switch := intros []; try reflexivity; try discriminate; by intros [].

(** The namespace of some options over the defaults. *)
Definition read_namespace (l : list switch) (exe : string) : namespace :=
  mkNamespace (foldl store (defaults OPTIONS) l) exe.

Lemma described_args l exe program :
  args_of (read_namespace l exe) program = described l exe program.
Proof.
  unfold args_of, described, attr_timer.
  assert (forall f n b, (forall sw, f sw = String.eqb (fst (spelling sw)) n) ->
    (forall sw, f sw = true -> read_bool (stored sw) = true) ->
    read_bool (default VNone (defaults OPTIONS !! n)) = false ->
    b = given f l -> attr_bool (read_namespace l exe) n = b) as Hflag.
  { intros f n b H1 H2 H3 ->. unfold attr_bool.
    etransitivity; [apply (read_flag read_bool f n true l (defaults OPTIONS) H1 H2 H3)|].
    by destruct (given f l). }
  f_equal.
  1: apply (read_last read_str); [by_switch|reflexivity].
  all: try (eapply Hflag; [| | |reflexivity]; [by_switch|by_switch|reflexivity]).
  1-3: apply (read_last (fun v => default "" (read_str v))%string); [by_switch|reflexivity].
  1, 4: apply (read_last read_int); [by_switch|reflexivity].
  - apply (read_last read_timer); [|reflexivity]. intros []; try reflexivity. by destruct k.
  - apply (read_last (fun v => codes <$> read_str v)); [by_switch|reflexivity].
Qed.

Lemma described_logging l exe : let ns := read_namespace l exe in
  (attr_log ns, attr_log_level ns, attr_color ns) = described_log l.
Proof.
  intros ns. unfold described_log, attr_log, attr_log_level, attr_color. f_equal; [f_equal|].
  - apply (read_last (fun v => codes <$> read_str v)); [by_switch|reflexivity].
  - apply (read_last (fun v => codes (default "" (read_str v))%string)); [by_switch|reflexivity].
  - unfold attr_bool. etransitivity; [apply (read_flag read_bool
      (fun sw => match sw with NoColor => true | _ => false end) "--no-color" false l);
      [by_switch|by_switch|reflexivity]|].
    by destruct (given _ l).
Qed.

