(* ===== verification/UnitTests.v ===== *)
(** * The runner of the RISC-V unit tests (run_unit_tests.py)

    A test is an ELF file that reports its result by storing a number at the symbol
    tohost.  [test_round] is one round of the loop of the runner, [test_loop] a number
    of rounds, [unit_test] a whole test from the construction of the machine to the
    verdict, [run_tests] the whole runner with the lines it prints.  The loop is compared
    with the course of the program, [steps], which never looks at the result, and the
    states of the course with the word at tohost ([quiet], [reports], [breaks]).  The files in
    the directories ([glob]) and the parsed ELF files ([open_elf]) are parameters. *)

From Stdlib Require Import ZArith Lia Bool String.
From stdpp Require Import base numbers list option gmap strings.
From S2P Require Import Prelude PyStr Isa Ram Cpu Rvc CpuSem Exec ExecSem ExecSafe RamSafe Core.
From S2P Require Import Machine Peripherals World MachineThms MmioSafe Log Emu EmuThms.

Local Open Scope Z_scope.
Local Open Scope py_scope.

(** The first symbol with the name; [Exception] is a failure of the runner itself. *)
Fixpoint find_symbol (name : string) (syms : list elf_symbol) : option Z :=
  match syms with
  | [] => None
  | s :: l => if String.eqb (sym_name s) name then Some (st_value s) else find_symbol name l
  end.

(** [get_symbol_address(filename, symbol_name)], on the parsed file. *)
Definition get_symbol_address (elf : elf_file) (symbol_name : string) : res Z :=
  match symtab elf with
  | None => Exn RuntimeError
  | Some syms => match find_symbol symbol_name syms with
                 | Some a => Ok a
                 | None => Exn RuntimeError
                 end
  end.

Definition SENTINEL : Z := 0xFFFFFFFF.

(** The memory of the tests starts at 0x80000000. *)
#[local] Existing Instance SafeRAMOffset_ops.

(** [cpu.pc & 1]: a trap instead of an instruction, and no look at the result. *)
Definition test_round (tohost_addr : Z) : ST world bool :=
  p <- gets (fun w => pc (view w)) ;;
  if negb (Z.land p 0x1 =? 0) then
    zoom (trap 0 p true) ;;; advance ;;; ret false
  else
    inst <- fetch_halves ;;
    execute None inst ;;;
    advance ;;;
    v <- load_word tohost_addr ;;
    ret (negb (v =? SENTINEL)).

(** At most [n] rounds; true when the test is over. *)
Fixpoint test_loop (tohost_addr : Z) (n : nat) : ST world bool :=
  match n with
  | O => ret false
  | S n' => over <- test_round tohost_addr ;;
            if over : bool then ret true else test_loop tohost_addr n'
  end.

(** What is printed about the result. *)
Inductive verdict := PASS | FAIL (test : Z).

Definition verdict_of (test_result : Z) : verdict :=
  if test_result =? 1 then PASS else FAIL (Z.shiftr test_result 1).

(** The objects of a test. *)
Definition test_objects : res world :=
  match RAM_init (fun _ => 0) (1024 * 1024) 0x80000000 None with
  | Exn e => Exn e
  | Ok r =>
      match CPU_init (fun _ => 0) true None false with
      | Exn e => Exn e
      | Ok c =>
          match Machine_init false false true false false None false None with
          | Exn e => Exn e
          | Ok m => Ok (mkWorld c r m MMIOTimer_init (PtyUART_init 0 [] [])
                          (MMIOBlockDevice_init 0 0 0 None []))
          end
      end
  end.

(** Loading the test and storing the sentinel: the address of the result. *)
Definition test_setup (elf : elf_file) : ST world Z :=
  load_elf elf false false ;;;
  tohost_addr <- (fun w => (get_symbol_address elf "tohost", w)) ;;
  store_word tohost_addr SENTINEL ;;;
  ret tohost_addr.

(** The result of the test, or None when the rounds did not suffice. *)
Definition unit_test (elf : elf_file) (n : nat) : ST world (option Z) :=
  tohost_addr <- test_setup elf ;;
  over <- test_loop tohost_addr n ;;
  if over : bool then test_result <- load_word tohost_addr ;; ret (Some test_result)
  else ret None.

(** ** The report *)

Definition result_str (v : verdict) : pystr :=
  match v with
  | PASS => codes "PASS"
  | FAIL test => codes "FAIL (test #" ++ py_dec test ++ codes ")"
  end.

(** The lines that are printed about a test. *)
Definition test_report (test_fname : pystr) (test_result : Z) (c : cpu) : list pystr :=
  let line := codes "Test " ++ ljust 30 (basename test_fname) ++ codes ": " ++
              result_str (verdict_of test_result) in
  if negb (test_result =? 1) then
    [line;
     codes "  tohost value: 0x" ++ hex08 test_result;
     codes "  Final PC: 0x" ++ hex08 (pc c);
     codes "  mepc: 0x" ++ hex08 (cv c 0x341);
     codes "  mcause: 0x" ++ hex08 (cv c 0x342);
     codes "  mtval: 0x" ++ hex08 (cv c 0x343)]
  else [line].

(** ** The runner *)

(** [sub in s] *)
Fixpoint is_prefix (sub s : pystr) : bool :=
  match sub, s with
  | [], _ => true
  | c :: sub', d :: s' => (c =? d) && is_prefix sub' s'
  | _ :: _, [] => false
  end.

Fixpoint in_str (sub s : pystr) : bool :=
  is_prefix sub s || match s with [] => false | _ :: s' => in_str sub s' end.

Definition TEST_PATTERNS : list string :=
  ["riscv-tests/isa/rv32ui-p-*"; "riscv-tests/isa/rv32mi-p-*"; "riscv-tests/isa/rv32um-p-*";
   "riscv-tests/isa/rv32ua-p-*"; "riscv-tests/isa/rv32uc-p-*"]%string.

(** The files that are run: the one of the command line, or all tests. *)
Definition test_fname_list (glob : string -> list pystr) (executable : option pystr) : list pystr :=
  match executable with
  | None => flat_map (fun pattern =>
              List.filter (fun fname => negb (in_str (codes ".dump") fname)) (glob pattern))
              TEST_PATTERNS
  | Some fname => [fname]
  end.

(** How the runner ends: after the last test, within a test that still runs, or with a traceback. *)
Inductive runner_end := AllRun | StillRunning | Failed (e : exn).

Section Runner.
Variable open_elf : pystr -> res elf_file.

(** One test with fresh objects, for at most [n] rounds: what is printed. *)
Definition run_test (n : nat) (test_fname : pystr) : res (option (list pystr)) :=
  match test_objects with
  | Exn e => Exn e
  | Ok w =>
      match open_elf test_fname with
      | Exn e => Exn e
      | Ok elf =>
          match unit_test elf n w with
          | (Exn e, _) => Exn e
          | (Ok None, _) => Ok None
          | (Ok (Some test_result), w') => Ok (Some (test_report test_fname test_result (w_cpu w')))
          end
      end
  end.

(** The lines printed so far, and how it ended. *)
Fixpoint run_tests (n : nat) (fnames : list pystr) : list pystr * runner_end :=
  match fnames with
  | [] => ([], AllRun)
  | fname :: l =>
      match run_test n fname with
      | Exn e => ([], Failed e)
      | Ok None => ([], StillRunning)
      | Ok (Some lines) => let '(rest, e) := run_tests n l in (lines ++ rest, e)
      end
  end.
End Runner.

(** ** The memory of the tests *)

(** The processor and the memory are well formed; the memory has its size and its base. *)
Record test_inv (w : world) : Prop := {
  ti_cpu : wf_cpu (w_cpu w);
  ti_ram : wf_ram (w_ram w);
  ti_size : size (w_ram w) = 1024 * 1024;
  ti_base : base_addr (w_ram w) = 0x80000000
}.

(** A method of the memory does not change the size and the base. *)
Definition in_place {A} (m : ST ram A) : Prop := forall r, wf_ram r ->
  size (snd (m r)) = size r /\ base_addr (snd (m r)) = base_addr r.

Lemma offset_in_place {A} a n (m : Z -> ST ram A) :
  (forall r b, wf_ram r -> in_bounds r b n = true ->
     size (snd (m b r)) = size r /\ base_addr (snd (m b r)) = base_addr r) ->
  in_place (rebase a (fun b => SafeRAMOffset_check b n ;;; m b)).
Proof.
  intros Hm r Hr. unfold rebase, bind, SafeRAMOffset_check.
  destruct (_ || _) eqn:E; [done|]. apply Hm; [done|]. unfold in_bounds. lia.
Qed.

Ltac body_eq lem := intros; apply offset_in_place; intros r b Hr Hb;
  pose proof (in_bounds_len r b _ Hr Hb); rewrite lem by (done || lia); done.

Lemma in_place_load_byte a s : in_place (SafeRAMOffset_load_byte a s).
Proof. body_eq body_load_byte_eq. Qed.
Lemma in_place_load_half a s : in_place (SafeRAMOffset_load_half a s).
Proof. body_eq body_load_half_eq. Qed.
Lemma in_place_load_word a : in_place (SafeRAMOffset_load_word a).
Proof. body_eq body_load_word_eq. Qed.
Lemma in_place_store_byte a v : in_place (SafeRAMOffset_store_byte a v).
Proof. body_eq body_store_byte_eq. Qed.
Lemma in_place_store_half a v : in_place (SafeRAMOffset_store_half a v).
Proof. body_eq body_store_half_eq. Qed.
Lemma in_place_store_word a v : in_place (SafeRAMOffset_store_word a v).
Proof. body_eq body_store_word_eq. Qed.
Lemma in_place_cstring a n : in_place (SafeRAMOffset_load_cstring a n).
Proof.
  intros r Hr. unfold SafeRAMOffset_load_cstring, rebase, SafeRAM_load_cstring, body_load_cstring.
  destruct (_ || _); [done|]. by destruct (py_find _ _).
Qed.
#[local] Hint Resolve in_place_load_byte in_place_load_half in_place_load_word in_place_store_byte
  in_place_store_half in_place_store_word in_place_cstring : core.

Lemma test_zoom {A} (m : ST ram A) Q : ram_safe m Q -> in_place m ->
  keeps machine_error test_inv (zoom m) Q.
Proof.
  intros Hm Hp w [Hc Hr Hs Hb]. unfold zoom. specialize (Hm (w_ram w) Hr).
  destruct (Hp (w_ram w) Hr) as [H1 H2]. cbn [view world_ram].
  destruct (m (w_ram w)) as [[x|e] r]; destruct Hm as [? ?]; simpl in *; (split; [|done]);
    split; simpl; congruence.
Qed.

#[local] Instance test_ram_safe : @RamSafe world _ SafeRAMOffset_ops machine_error wf_cpu test_inv.
Proof.
  pose proof (SafeRAMOffset_RamSafe wf_cpu) as H.
  split; [by intros ? []|intros ? ? [] ?; by split|..]; intros;
    (apply test_zoom; [apply ram_of_node; apply H|auto]).
Qed.

(** ** The loop against the course of the program *)

(** One step of the program: an instruction, or the trap of an odd program counter. *)
Definition progress : ST world unit :=
  p <- gets (fun w => pc (view w)) ;;
  if p mod 2 =? 0 then inst <- fetch_halves ;; execute None inst ;;; advance
  else zoom (trap 0 p true) ;;; advance.

Fixpoint steps (k : nat) : ST world unit :=
  match k with O => ret tt | S k' => progress ;;; steps k' end.

(** The word at an address of the memory of the tests. *)
Definition tohost (a : Z) (w : world) : Z := mem_word (w_ram w) (a - 0x80000000).

(** The first [k] states of the course exist and hold the sentinel. *)
Definition quiet (a : Z) (w : world) (k : nat) : Prop :=
  forall j, (j < k)%nat -> exists w', steps j w = (Ok tt, w') /\ tohost a w' = 0xFFFFFFFF.

(** The [k]th state is the first one with another word, [v]. *)
Definition reports (a : Z) (w : world) (k : nat) (v : Z) (w' : world) : Prop :=
  quiet a w k /\ steps k w = (Ok tt, w') /\ tohost a w' = v /\ v <> 0xFFFFFFFF.

(** Before any report the [k]th step raises. *)
Definition breaks (a : Z) (w : world) (k : nat) (e : exn) : Prop :=
  quiet a w k /\ fst (steps k w) = Exn e.

Lemma quiet_cons a w k w1 : progress w = (Ok tt, w1) -> tohost a w = 0xFFFFFFFF ->
  quiet a w (S k) <-> quiet a w1 k.
Proof.
  intros E Ht. split.
  - intros Hq j Hj. destruct (Hq (S j) ltac:(lia)) as (w' & Hs & Hw). simpl in Hs. unfold bind in Hs.
    rewrite E in Hs. eauto.
  - intros Hq [|j] Hj; [by exists w|]. simpl. unfold bind. rewrite E. apply Hq. lia.
Qed.

Lemma steps_cons w w1 k : progress w = (Ok tt, w1) -> steps (S k) w = steps k w1.
Proof. intros E. simpl. unfold bind. by rewrite E. Qed.

Section Course.
Context (a : Z) (Ha : 0 <= a - 0x80000000) (Hb : a - 0x80000000 + 4 <= 1024 * 1024).

Lemma tohost_loads w : test_inv w -> load_word a w = (Ok (tohost a w), w).
Proof.
  intros [Hc Hr Hs Hbase]. cbn [load_word SafeRAMOffset_ops]. unfold zoom. cbn [view put world_ram].
  unfold SafeRAMOffset_load_word, rebase, bind, SafeRAMOffset_check. rewrite Hbase, Hs.
  destruct (_ || _) eqn:E; [lia|]. pose proof (wf_len _ Hr).
  rewrite body_load_word_eq by (done || lia). by destruct w.
Qed.

Lemma progress_keeps : keeps machine_error test_inv progress (fun _ => True).
Proof.
  unfold progress. eapply (keeps_bind _ _ _ _ u32).
  { apply keeps_gets. intros w [Hc _ _ _]. apply Hc. }
  intros p Hp.
  assert (keeps machine_error test_inv advance (fun _ => True)) as Hadv.
  { apply (zoom_cpu_safe test_inv), modify_safe; [exact _| |done|done]. by intros c []. }
  apply keeps_if; intros _.
  - eapply keeps_bind; [apply (fetch_halves_safe test_inv)|]. intros inst Hi.
    eapply keeps_bind; [apply (execute_msafe test_inv None); done|]. intros; exact Hadv.
  - eapply keeps_bind; [|intros; exact Hadv]. apply (zoom_cpu_safe test_inv).
    by apply (trap_safe wf_cpu).
Qed.

(** A round is a step and a look at the word; the trap of an odd program counter does not
    change the memory, so that the look the loop omits would find the sentinel. *)
Lemma test_round_eq w : test_inv w -> tohost a w = 0xFFFFFFFF ->
  test_round a w = match progress w with
                   | (Ok _, w') => (Ok (negb (tohost a w' =? 0xFFFFFFFF)), w')
                   | (Exn e, w') => (Exn e, w')
                   end.
Proof.
  intros Hw Ht. pose proof (progress_keeps w Hw) as Hk. revert Hk.
  set (p := pc (view w)).
  assert (Z.land p 0x1 = p mod 2) as Hp by (change 0x1 with (Z.ones 1); by rewrite Z.land_ones).
  assert (progress w = (if p mod 2 =? 0 then inst <- fetch_halves ;; execute None inst ;;; advance
    else zoom (trap 0 p true) ;;; advance) w) as -> by done.
  assert (test_round a w = (if negb (Z.land p 0x1 =? 0) then zoom (trap 0 p true) ;;; advance ;;; ret false
    else inst <- fetch_halves ;; execute None inst ;;; advance ;;;
      v <- load_word a ;; ret (negb (v =? SENTINEL))) w) as -> by done.
  rewrite Hp.
  destruct (p mod 2 =? 0); cbn [negb].
  - unfold bind. destruct (fetch_halves w) as [[inst|e] w1]; [|done].
    destruct (execute None inst w1) as [[[]|e] w2]; [|done].
    destruct (advance w2) as [[[]|e] w3]; [|done]. intros [Hw3 _]. by rewrite (tohost_loads w3 Hw3).
  - unfold bind. destruct (zoom (trap 0 p true) w) as [[[]|e] w1] eqn:E1; [|done].
    destruct (advance w1) as [[[]|e] w2] eqn:E2; [|done]. intros _. unfold ret.
    assert (tohost a w2 = tohost a w) as ->; [|by rewrite Ht].
    unfold zoom in E1. destruct (trap 0 p true (view w)) as [r1 c1]. injection E1 as _ <-.
    unfold advance, zoom, modify in E2. by injection E2 as <-.
Qed.

Lemma loop_course n w : test_inv w -> tohost a w = 0xFFFFFFFF ->
  (exists k v w', (k <= n)%nat /\ reports a w k v w' /\ test_loop a n w = (Ok true, w') /\ test_inv w') \/
  (quiet a w (S n) /\ fst (test_loop a n w) = Ok false) \/
  (exists k e, (k <= n)%nat /\ breaks a w k e /\ fst (test_loop a n w) = Exn e).
Proof.
  revert w. induction n as [|n IH]; intros w Hw Ht.
  { right; left. split; [|done]. intros [|j] Hj; [|lia]. by exists w. }
  cbn [test_loop]. unfold bind. rewrite test_round_eq by done.
  pose proof (progress_keeps w Hw) as Hk. destruct (progress w) as [[[]|e] w1] eqn:E.
  2: { right; right. exists 1%nat, e. split_and!; [lia| |done]. split.
       - intros [|j] Hj; [by exists w|lia].
       - simpl. unfold bind. by rewrite E. }
  destruct Hk as [Hw1 _]. destruct (Z.eqb_spec (tohost a w1) 0xFFFFFFFF) as [Ht1|Ht1]; cbn [negb].
  - destruct (IH w1 Hw1 Ht1) as [(k & v & w' & Hk & Hr & Hl & Hi)|[[Hq Hl]|(k & e & Hk & Hq & Hl)]].
    + left. exists (S k), v, w'. split_and!; [lia| |done|done]. destruct Hr as (Hq & Hs & Hv).
      split; [by apply (quiet_cons a w k w1)|]. by rewrite (steps_cons w w1).
    + right; left. split; [by apply (quiet_cons a w (S n) w1)|done].
    + right; right. exists (S k), e. split_and!; [lia| |done]. destruct Hq as [Hq Hs].
      split; [by apply (quiet_cons a w k w1)|]. by rewrite (steps_cons w w1).
  - left. exists 1%nat, (tohost a w1), w1. split_and!; [lia| |done|done].
    split; [intros [|j] Hj; [by exists w|lia]|]. split; [|done]. simpl. unfold bind. by rewrite E.
Qed.
End Course.

(** At most one of the outcomes. *)
Lemma quiet_le a w k n : (k <= n)%nat -> quiet a w n -> quiet a w k.
Proof. intros Hk Hq j Hj. apply Hq. lia. Qed.

Lemma reports_not_quiet a w k v w' n : reports a w k v w' -> quiet a w n -> (n <= k)%nat.
Proof.
  intros (_ & Hs & Hv & Hn) Hq. destruct (decide (n <= k)%nat) as [|Hlt]; [done|].
  destruct (Hq k ltac:(lia)) as (w1 & Hs1 & Ht). rewrite Hs in Hs1. simplify_eq.
Qed.

Lemma breaks_not_quiet a w k e n : breaks a w k e -> quiet a w n -> (n <= k)%nat.
Proof.
  intros (_ & Hs) Hq. destruct (decide (n <= k)%nat) as [|Hlt]; [done|].
  destruct (Hq k ltac:(lia)) as (w1 & Hs1 & _). by rewrite Hs1 in Hs.
Qed.

Lemma reports_unique a w k v w' k2 v2 w2 : reports a w k v w' -> reports a w k2 v2 w2 ->
  v = v2 /\ w' = w2.
Proof.
  intros H1 H2. pose proof (reports_not_quiet _ _ _ _ _ _ H1 (proj1 H2)).
  pose proof (reports_not_quiet _ _ _ _ _ _ H2 (proj1 H1)). replace k2 with k in * by lia.
  destruct H1 as (_ & Hs & Hv & _), H2 as (_ & Hs2 & Hv2 & _). rewrite Hs in Hs2. by simplify_eq.
Qed.

Lemma breaks_unique a w k e k2 e2 : breaks a w k e -> breaks a w k2 e2 -> e = e2.
Proof.
  intros H1 H2. pose proof (breaks_not_quiet _ _ _ _ _ H1 (proj1 H2)).
  pose proof (breaks_not_quiet _ _ _ _ _ H2 (proj1 H1)). replace k2 with k in * by lia.
  destruct H1 as (_ & Hs), H2 as (_ & Hs2). rewrite Hs in Hs2. by simplify_eq.
Qed.

Lemma reports_not_breaks a w k v w' k2 e : reports a w k v w' -> breaks a w k2 e -> False.
Proof.
  intros H1 H2. pose proof (reports_not_quiet _ _ _ _ _ _ H1 (proj1 H2)).
  pose proof (breaks_not_quiet _ _ _ _ _ H2 (proj1 H1)). replace k2 with k in * by lia.
  destruct H1 as (_ & Hs & _), H2 as (_ & Hs2). by rewrite Hs in Hs2.
Qed.

(** ** The setup *)

(** What the parser gives: bytes, and an entry point of 32 bits. *)
Definition elf_bytes (elf : elf_file) : Prop :=
  Forall (fun s => Forall u8 (snd s)) (pt_load elf) /\ u32 (e_entry elf).

Lemma test_objects_inv w : test_objects = Ok w -> test_inv w.
Proof.
  unfold test_objects.
  destruct (RAM_init _ _ _ _) as [r|] eqn:Er; [|done].
  destruct (CPU_init _ _ _ _) as [c|] eqn:Ec; [|done].
  destruct (Machine_init _ _ _ _ _ _ _ _) as [m|]; [|done]. intros [= <-].
  destruct (CPU_init_ready _ _ _ _ _ (fun _ => conj (Z.le_refl 0) eq_refl) Ec) as [Hc _].
  assert (0 <= 1024 * 1024) as H0 by lia.
  destruct (RAM_init_wf _ _ _ _ _ (fun _ => conj (Z.le_refl 0) eq_refl) H0 Er) as (Hr & Hs & Hb & _).
  by split.
Qed.

Lemma test_mset (f : machine -> machine) : keeps machine_error test_inv (mset f) (fun _ => True).
Proof. intros w []. split; [by split|done]. Qed.

Lemma offset_store_binary a b : Forall u8 b ->
  keeps machine_error test_inv (store_binary a b) (fun _ => True).
Proof.
  intros Hu. apply test_zoom.
  - intros r Hr. unfold SafeRAMOffset_store_binary, rebase, bind, SafeRAMOffset_check.
    destruct (_ || _) eqn:E; [done|].
    pose proof (wf_len r Hr). set (d := a - base_addr r) in *.
    unfold body_store_binary. rewrite py_slice_set_in by lia.
    split; [|done]. apply with_bytes_wf; [done..|lia|lia].
  - intros r Hr. unfold SafeRAMOffset_store_binary, rebase, bind, SafeRAMOffset_check.
    destruct (_ || _); [done|]. unfold body_store_binary. by destruct (py_slice_set _ _ _ _).
Qed.

Lemma load_test_keeps elf : elf_bytes elf ->
  keeps machine_error test_inv (load_elf elf false false) (fun _ => True).
Proof.
  intros [Hseg He]. unfold load_elf, mget. eapply keeps_bind; [|intros _ _].
  { apply keeps_for_each. intros s Hs. apply offset_store_binary.
    rewrite Forall_forall in Hseg. by apply Hseg. }
  eapply keeps_bind; [|intros _ _].
  { apply (zoom_cpu_safe test_inv), modify_safe; [exact _| |done|done]. intros c []. by split. }
  eapply (keeps_bind _ _ _ _ (fun _ => True)); [|intros _ _].
  { destruct (symtab elf); [|by apply keeps_ret].
    eapply keeps_bind; [apply test_mset|]. intros _ _. by apply keeps_ret. }
  eapply (keeps_bind _ _ _ _ (fun _ => True)); [|intros _ _].
  { destruct (text_section elf) as [[]|]; [|by apply keeps_ret].
    eapply keeps_bind; [apply keeps_any|]. intros mem _. apply test_mset. }
  eapply keeps_bind; [apply keeps_any|]. intros s _. apply keeps_if; intros _; [apply test_mset|by apply keeps_ret].
Qed.

(** A setup that succeeds leaves the sentinel at an address inside the memory. *)
Lemma test_setup_ok elf w a w' : elf_bytes elf -> test_inv w -> test_setup elf w = (Ok a, w') ->
  test_inv w' /\ 0 <= a - 0x80000000 /\ a - 0x80000000 + 4 <= 1024 * 1024 /\ tohost a w' = 0xFFFFFFFF.
Proof.
  intros He Hw. unfold test_setup, bind.
  pose proof (load_test_keeps elf He w Hw) as Hl.
  destruct (load_elf elf false false w) as [[[]|e] w1]; [|done]. destruct Hl as [Hw1 _].
  destruct (get_symbol_address elf "tohost") as [t|e]; [|done].
  pose proof (safe_store_word (RamSafe := test_ram_safe) t SENTINEL w1 Hw1) as Hst.
  destruct (store_word t SENTINEL w1) as [[[]|e] w2] eqn:Es; [|done]. destruct Hst as [Hw2 _].
  unfold ret. intros [= <- <-]. revert Es. cbn [store_word SafeRAMOffset_ops].
  unfold zoom, SafeRAMOffset_store_word, rebase, bind, SafeRAMOffset_check. cbn [view put world_ram].
  destruct Hw1 as [Hc Hr Hs Hb]. rewrite Hb, Hs. pose proof (wf_len _ Hr).
  destruct (_ || _) eqn:E; [done|]. rewrite body_store_word_eq by (done || lia). intros [= <-].
  split_and!; [done|lia..|]. unfold tohost. cbn [w_ram].
  rewrite (stored_word_same (w_ram w1) _ SENTINEL); [done| |lia].
  apply stored_four; [done|lia..].
Qed.

(** ** The whole runner *)

Section Report.
Variable open_elf : pystr -> res elf_file.

(** The lines about a test with the word [v] at tohost in the state [w']. *)
Definition report_lines (fname : pystr) (v : Z) (w' : world) : list pystr :=
  let line := codes "Test " ++ ljust 30 (basename fname) ++ codes ": " in
  if v =? 1 then [line ++ codes "PASS"]
  else [line ++ codes "FAIL (test #" ++ py_dec (v / 2) ++ codes ")";
        codes "  tohost value: 0x" ++ hex08 v;
        codes "  Final PC: 0x" ++ hex08 (pc (w_cpu w'));
        codes "  mepc: 0x" ++ hex08 (cv (w_cpu w') 0x341);
        codes "  mcause: 0x" ++ hex08 (cv (w_cpu w') 0x342);
        codes "  mtval: 0x" ++ hex08 (cv (w_cpu w') 0x343)].

Lemma test_report_eq fname v w' : test_report fname v (w_cpu w') = report_lines fname v w'.
Proof.
  unfold test_report, report_lines, verdict_of, result_str. destruct (v =? 1); cbn [negb]; [by rewrite <- !app_assoc|].
  rewrite Z.shiftr_div_pow2 by lia. change (2 ^ 1) with 2. by rewrite <- !app_assoc.
Qed.

(** The test in the file starts in [w] and reports at [a]. *)
Definition test_starts (fname : pystr) (a : Z) (w : world) : Prop :=
  exists w0 elf, test_objects = Ok w0 /\ open_elf fname = Ok elf /\ elf_bytes elf /\
    test_setup elf w0 = (Ok a, w).

Lemma run_test_course n fname a w : test_starts fname a w ->
  (exists k v w', (k <= n)%nat /\ reports a w k v w' /\
     run_test open_elf n fname = Ok (Some (report_lines fname v w'))) \/
  (quiet a w (S n) /\ run_test open_elf n fname = Ok None) \/
  (exists k e, (k <= n)%nat /\ breaks a w k e /\ run_test open_elf n fname = Exn e).
Proof.
  intros (w0 & elf & Ho & He & Hb & Hs). unfold run_test. rewrite Ho, He. unfold unit_test, bind.
  destruct (test_setup_ok elf w0 a w Hb (test_objects_inv w0 Ho) Hs) as (Hw & Ha & Hab & Ht).
  rewrite Hs.
  destruct (loop_course a Ha Hab n w Hw Ht) as
    [(k & v & w' & Hk & Hr & Hl & Hi)|[[Hq Hl]|(k & e & Hk & Hq & Hl)]].
  - left. exists k, v, w'. split_and!; [done..|]. rewrite Hl, (tohost_loads a Ha Hab w' Hi).
    unfold ret. rewrite test_report_eq. by destruct Hr as (_ & _ & -> & _).
  - right; left. split; [done|]. destruct (test_loop a n w) as [r w1]. simpl in Hl. by subst r.
  - right; right. exists k, e. split_and!; [done..|].
    destruct (test_loop a n w) as [r w1]. simpl in Hl. by subst r.
Qed.

(** C25: a test passes or fails by the first word other than the sentinel that its program
    leaves at tohost.  The course of the program is its instructions and the traps of odd
    program counters, without any look at the word.  For every test whose setup succeeds
    and every number [n] of rounds: lines are printed exactly when one of the first [n]
    steps is the first to leave another word there, and they are the single line with PASS
    if the word is 1, and otherwise the line with FAIL and the number of the test, half the
    word, and the five lines about the registers of that state; the runner is still within
    the test exactly when all these states hold the sentinel; and an exception leaves it
    exactly when a step raises it before any report. *)
Theorem unit_test_verdict (n : nat) (fname : pystr) (a : Z) (w : world)
  (Hs : test_starts fname a w) :
  (forall lines, run_test open_elf n fname = Ok (Some lines) <->
     exists k v w', (k <= n)%nat /\ reports a w k v w' /\ lines = report_lines fname v w') /\
  (run_test open_elf n fname = Ok None <-> quiet a w (S n)) /\
  (forall e, run_test open_elf n fname = Exn e <-> exists k, (k <= n)%nat /\ breaks a w k e).
Proof.
  destruct (run_test_course n fname a w Hs) as
    [(k & v & w' & Hk & Hr & Hl)|[[Hq Hl]|(k & e & Hk & Hq & Hl)]]; rewrite Hl; split_and!.
  - intros lines. split; [intros [= <-]; eauto 10|]. intros (k2 & v2 & w2 & Hk2 & Hr2 & ->).
    by destruct (reports_unique _ _ _ _ _ _ _ _ Hr Hr2) as [-> ->].
  - split; [done|]. intros Hq. pose proof (reports_not_quiet _ _ _ _ _ _ Hr Hq). lia.
  - intros e. split; [done|]. intros (k2 & _ & Hb). destruct (reports_not_breaks _ _ _ _ _ _ _ Hr Hb).
  - intros lines. split; [done|]. intros (k & v & w' & Hk & Hr & _).
    pose proof (reports_not_quiet _ _ _ _ _ _ Hr Hq). lia.
  - done.
  - intros e. split; [done|]. intros (k & Hk & Hb). pose proof (breaks_not_quiet _ _ _ _ _ Hb Hq). lia.
  - intros lines. split; [done|]. intros (k2 & v & w' & _ & Hr & _).
    destruct (reports_not_breaks _ _ _ _ _ _ _ Hr Hq).
  - split; [done|]. intros Hq2. pose proof (breaks_not_quiet _ _ _ _ _ Hq Hq2). lia.
  - intros e2. split; [intros [= <-]; eauto|]. intros (k2 & _ & Hb).
    by rewrite (breaks_unique _ _ _ _ _ _ Hq Hb).
Qed.

(** The test in the file reports the word [v] after [k] steps, in the state [w']. *)
Definition test_ends (fname : pystr) (k : nat) (v : Z) (w' : world) : Prop :=
  exists a w, test_starts fname a w /\ reports a w k v w'.

Lemma run_test_ends n fname k v w' : test_ends fname k v w' -> (k <= n)%nat ->
  run_test open_elf n fname = Ok (Some (report_lines fname v w')).
Proof.
  intros (a & w & Hs & Hr) Hn.
  destruct (run_test_course n fname a w Hs) as
    [(k2 & v2 & w2 & Hk & Hr2 & Hl)|[[Hq Hl]|(k2 & e & Hk & Hq & Hl)]].
  - by destruct (reports_unique _ _ _ _ _ _ _ _ Hr Hr2) as [-> ->].
  - pose proof (reports_not_quiet _ _ _ _ _ _ Hr Hq). lia.
  - destruct (reports_not_breaks _ _ _ _ _ _ _ Hr Hq).
Qed.

(** One report for every test, in the order of the files, each from a machine of its own. *)
Lemma run_tests_report n fnames ends :
  Forall2 (fun f '(k, v, w') => test_ends f k v w' /\ (k <= n)%nat) fnames ends ->
  run_tests open_elf n fnames =
    (concat (zip_with (fun f '(k, v, w') => report_lines f v w') fnames ends), AllRun).
Proof.
  induction 1 as [|f [[k v] w'] fs es [He Hk] _ IH]; simpl; [done|].
  rewrite (run_test_ends n f k v w' He Hk). by rewrite IH.
Qed.
End Report.
