(* ===== verification/Liveness.v ===== *)
(** * The timer interrupt is delivered

    A guest that has enabled the timer interrupt and waits in the loop "j ." runs in
    run_timer until mtime reaches mtimecmp, and the next round takes the interrupt: not
    earlier, and not later. *)

From Stdlib Require Import ZArith Lia Bool String.
From stdpp Require Import base numbers list option gmap strings.
From S2P Require Import Prelude PyStr Isa Ram Cpu Rvc CpuSem Exec ExecSem ExecSafe RamSafe Core.
From S2P Require Import MemInstr Trap Machine Peripherals World MachineThms.

Local Open Scope Z_scope.
Local Open Scope py_scope.

(** The word of "j .": JAL x0 with the offset 0. *)
Definition J_SELF : Z := 0x6F.

(** The part of the processor the waiting depends on. *)
Record waiting (p : Z) (c : cpu) : Prop := {
  wait_ready : ready c;
  wait_pc : pc c = p;
  wait_handler : cv c 0x305 <> 0;
  wait_mie : Z.testbit (cv c 0x300) 3 = true;
  wait_mtie : Z.testbit (cv c 0x304) 7 = true
}.

Section Waiting.
Context (handle_ecall : option (ST world unit)).
#[local] Existing Instance SafeRAM_ops.

(** The processor after the jump: the pc is the target, the decode cache is filled. *)
Definition jumped (c : cpu) : cpu := set_next_pc (pc c) (cache_32 J_SELF c).

Lemma jump_self (w : world) : ready (w_cpu w) -> pc (w_cpu w) mod 4 = 0 ->
  execute_by_length handle_ecall J_SELF w = (Ok tt, put (jumped (w_cpu w)) w).
Proof.
  intros (Hc & H0 & Hcoh) Hal. set (c := w_cpu w) in *. pose proof (wf_pc c Hc) as Hp.
  assert (wrap (pc c + 0) = pc c) as Hw by (rewrite Z.add_0_r; unfold wrap; by apply Z.mod_small).
  assert (pc c mod ialign c = 0) as Hi
    by (unfold ialign; destruct (wf_align_mask c Hc) as [->| ->];
        [change (1 + 1) with 2; Z.div_mod_to_equations; lia|exact Hal]).
  assert (isa_outcome (rv c) (pc c) 4 (ialign c) J_SELF =
          Some (Retire (Some (0, wrap (pc c + 4))) (pc c))) as Ho.
  { transitivity (Some (jump (ialign c) (Some (0, wrap (pc c + 4))) (wrap (pc c + 0)))); [done|].
    unfold jump. by rewrite Hw, Hi. }
  change (execute_by_length handle_ecall J_SELF w) with (execute_32 handle_ecall J_SELF w).
  by rewrite (execute_32_commit (HC := world_cpu) _ w J_SELF _ Hc H0 Hcoh ltac:(done) eq_refl ltac:(done) Ho).
Qed.
(** One round while the time has not come. *)
Lemma wait_round p (w : world) : waiting p (w_cpu w) -> wf_ram (w_ram w) -> p mod 4 = 0 ->
  in_bounds (w_ram w) p 4 = true -> mem_word (w_ram w) p = J_SELF ->
  step_timer handle_ecall tt w =
    let c := jumped (w_cpu w) in
    let c' := if timer_fires c then trapped 0x80000007 0 false (ticked c) else ticked c in
    (Ok tt, put (set_pc (next_pc c') c') w).
Proof.
  intros [Hr Hp Hv Hm Ht] Hram Hal Hb Hw. destruct Hr as (Hc & H0 & Hcoh).
  unfold step_timer. unfold bind at 1. rewrite fetch_word_eq by done. cbv zeta.
  change (@view cpu world world_cpu w) with (w_cpu w).
  change (@view ram world world_ram w) with (w_ram w). rewrite Hp, Hb, Hw. unfold bind at 1.
  rewrite jump_self by (done || congruence). set (c := jumped (w_cpu w)).
  assert (wf_cpu c) as Hc' by (pose proof (cache_32_wf _ J_SELF Hc) as []; by split).
  pose proof (ticked_wf c Hc') as Hct.
  assert (timer_update c = (Ok tt, if timer_fires c then trapped 0x80000007 0 false (ticked c)
                                   else ticked c)) as E.
  { rewrite timer_update_eq by done. destruct (timer_fires c); [|done].
    rewrite trap_eq, ticked_cv by (done || lia). change (cv c 0x305) with (cv (w_cpu w) 0x305).
    by rewrite (proj2 (Z.eqb_neq _ _) Hv). }
  unfold bind, zoom. cbn [view put world_cpu w_cpu]. rewrite E. done.
Qed.

(** What a round without interrupt keeps. *)
Lemma ticked_pc c : pc (ticked c) = pc c /\ next_pc (ticked c) = next_pc c /\
  registers (ticked c) = registers c /\ decode_cache (ticked c) = decode_cache c /\
  decode_cache_compressed (ticked c) = decode_cache_compressed c /\
  mtime (ticked c) = mtime c + 1 /\ mtimecmp (ticked c) = mtimecmp c.
Proof. unfold ticked. cbv zeta. by destruct (eqb _ _). Qed.

Lemma wait_tick p c : waiting p c ->
  let c' := ticked (jumped c) in
  waiting p (set_pc (next_pc c') c') /\ mtime c' = mtime c + 1 /\
  mtimecmp c' = mtimecmp c /\ cv c' 0x305 = cv c 0x305.
Proof.
  intros [(Hc & H0 & Hcoh) Hp Hv Hm Ht]. cbv zeta. set (c1 := jumped c).
  assert (wf_cpu c1) as Hc1 by (pose proof (cache_32_wf c J_SELF Hc) as []; by split).
  destruct (ticked_pc c1) as (E1 & E2 & E3 & E4 & E5 & E6 & E7).
  pose proof (ticked_wf c1 Hc1) as Hc2.
  assert (forall i, cv (set_pc (next_pc (ticked c1)) (ticked c1)) i = cv (ticked c1) i) as Hcv by done.
  split; [|by rewrite E6, E7, ticked_cv by (done || lia)]. split; rewrite ?Hcv, ?ticked_cv by (done || lia).
  - split_and!.
    + destruct Hc2. split; done.
    + unfold x0_zero, rv. cbn [registers set_pc]. rewrite E3. exact H0.
    + apply (cache_32_coherent c J_SELF) in Hcoh; [|done].
      destruct Hcoh. split; cbn [decode_cache decode_cache_compressed set_pc]; by rewrite ?E4, ?E5.
  - cbn [pc set_pc]. rewrite E2. exact Hp.
  - exact Hv.
  - exact Hm.
  - exact Ht.
Qed.

(** [k] rounds before the time comes. *)
Lemma wait_rounds p (w : world) (k : nat) : waiting p (w_cpu w) -> wf_ram (w_ram w) ->
  p mod 4 = 0 -> in_bounds (w_ram w) p 4 = true -> mem_word (w_ram w) p = J_SELF ->
  mtime (w_cpu w) + Z.of_nat k <= mtimecmp (w_cpu w) ->
  exists c, run_timer handle_ecall k w = (Ok tt, put c w) /\ waiting p c /\
    mtime c = mtime (w_cpu w) + Z.of_nat k /\ mtimecmp c = mtimecmp (w_cpu w) /\
    cv c 0x305 = cv (w_cpu w) 0x305.
Proof.
  unfold run_timer. revert w. induction k as [|k IH]; intros w Hwait Hr Hal Hb Hw Hk.
  - exists (w_cpu w). split_and!; [by destruct w|done|lia|done|done].
  - cbn [loop]. unfold bind at 1. rewrite (wait_round p) by done. cbv zeta.
    assert (timer_fires (jumped (w_cpu w)) = false) as ->.
    { unfold timer_fires. change (mtimecmp (jumped (w_cpu w))) with (mtimecmp (w_cpu w)).
      change (mtime (jumped (w_cpu w))) with (mtime (w_cpu w)).
      by rewrite (proj2 (Z.leb_gt _ _)) by lia. }
    destruct (wait_tick p (w_cpu w) Hwait) as (H1 & H2 & H3 & H4).
    set (c' := ticked (jumped (w_cpu w))) in *.
    edestruct (IH (put (set_pc (next_pc c') c') w)) as (c & E & Hc & Ht & Hm & Hv); try done.
    + cbn [w_cpu put world_cpu mtime mtimecmp set_pc]. lia.
    + exists c. split_and!; [exact E|done| | |by rewrite Hv].
      * rewrite Ht. cbn [w_cpu put world_cpu mtime set_pc]. lia.
      * rewrite Hm. cbn [w_cpu put world_cpu mtimecmp set_pc]. lia.
Qed.

(** C18: a guest that waits for the timer interrupt gets it, after exactly
    mtimecmp - mtime + 1 instructions: until then the pc stays at the waiting loop, and then
    the processor is at the handler, with the cause of the machine timer interrupt, the
    address of the loop in mepc and interrupts disabled. *)
Theorem timer_interrupt_delivered p (w : world) (Hwait : waiting p (w_cpu w))
  (Hr : wf_ram (w_ram w)) (Hal : p mod 4 = 0) (Hb : in_bounds (w_ram w) p 4 = true)
  (Hw : mem_word (w_ram w) p = J_SELF) (Ht : mtime (w_cpu w) <= mtimecmp (w_cpu w)) :
  let k := Z.to_nat (mtimecmp (w_cpu w) - mtime (w_cpu w)) in
  (forall i, (i <= k)%nat -> exists c, run_timer handle_ecall i w = (Ok tt, put c w) /\ pc c = p) /\
  exists c, run_timer handle_ecall (S k) w = (Ok tt, put c w) /\
    pc c = Z.land (cv (w_cpu w) 0x305) (Z.lnot 3) /\ cv c 0x341 = p /\
    cv c 0x342 = 0x80000007 /\ Z.testbit (cv c 0x300) 3 = false.
Proof.
  cbv zeta. set (k := Z.to_nat _). split.
  - intros i Hi. destruct (wait_rounds p w i) as (c & E & Hc & _); try done; [lia|].
    exists c. split; [done|apply Hc].
  - destruct (wait_rounds p w k) as (c & E & Hc & Htm & Hcmp & Hvec); try done; [lia|].
    unfold run_timer in *. rewrite <- Nat.add_1_r, loop_add, E. cbn [loop]. unfold bind at 1.
    rewrite (wait_round p) by done. cbv zeta. change (w_cpu (put c w)) with c.
    assert (timer_fires (jumped c) = true) as ->.
    { destruct Hc as [Hready Hp Hv Hm Hti]. unfold timer_fires.
      change (cv (jumped c)) with (cv c). rewrite Hm, Hti, !andb_true_r. apply Z.leb_le.
      change (mtimecmp c <= mtime c). lia. }
    destruct Hc as [(Hwf & _) Hp Hv Hm Hti]. set (c1 := jumped c).
    assert (wf_cpu c1) as Hc1 by (pose proof (cache_32_wf c J_SELF Hwf) as []; by split).
    pose proof (ticked_wf c1 Hc1) as Hc2. set (c2 := trapped 0x80000007 0 false (ticked c1)).
    assert (forall i, cv (set_pc (next_pc c2) c2) i = cv c2 i) as Hcv by done.
    exists (set_pc (next_pc c2) c2). rewrite !Hcv. unfold c2. rewrite !trapped_cv by (done || lia).
    cbn [Z.eqb Pos.eqb]. split_and!; [done| | |done|by rewrite mstatus_enter_bit].
    + change (Z.land (cv (ticked c1) 0x305) (Z.lnot 3) = Z.land (cv (w_cpu w) 0x305) (Z.lnot 3)).
      rewrite ticked_cv by (done || lia). change (cv c1 0x305) with (cv c 0x305). by rewrite Hvec.
    + rewrite (proj1 (proj2 (ticked_pc c1))). exact Hp.
Qed.
End Waiting.
