(* ===== verification/BrowserSyscalls.v ===== *)
(** * System calls in the browser (browser_syscalls.py)

    [BrowserSyscallHandler] offers the terminal only: descriptors 1 and 2 go to a
    callback of the page, descriptor 0 is the array of character codes the page
    fills at every key press, and the file operations answer -ENOSYS.  The page is
    an argument: its write callback, if there is one, and whether it has a read
    callback.  The stores of an exception handler survive the exception, so the
    characters taken from the array before a failure are gone.  Octal constants
    are in decimal: 18 is 0o022, 438 is 0o666. *)

From Stdlib Require Import ZArith Lia Bool String.
From stdpp Require Import base numbers list option gmap strings.
From S2P Require Import Prelude PyStr Isa Ram Cpu Machine Syscalls.

Local Open Scope Z_scope.
Local Open Scope py_scope.

Definition EAGAIN : Z := 11.

(** The handler object: what it keeps between calls. *)
Record browser_syscalls := mkBrowserSyscalls { b_umask : Z }.

Definition BrowserSyscallHandler_init : browser_syscalls := mkBrowserSyscalls 18.

(** The terminal of the page: window.emulatorTerminal. *)
Record terminal (J : Type) := mkTerminal { inputBuffer : list Z; js_state : J }.
Arguments mkTerminal {J} _ _.
Arguments inputBuffer {J} _.
Arguments js_state {J} _.

(** [for i in range(n): data_list.append(inputBuffer.shift())]; the value of an
    empty array is undefined, which [bytes] rejects. *)
Fixpoint shift_n {J} (n : nat) : ST (terminal J) (list (option Z)) :=
  match n with
  | O => ret []
  | S n' =>
      fun t => match inputBuffer t with
               | [] => (l <- shift_n n' ;; ret (None :: l)) t
               | b :: rest =>
                   (l <- shift_n n' ;; ret (Some b :: l)) (mkTerminal rest (js_state t))
               end
  end.

(** [bytes(data_list)] *)
Fixpoint py_bytes (l : list (option Z)) : res (list Z) :=
  match l with
  | [] => Ok []
  | None :: _ => Exn TypeError
  | Some b :: l' =>
      if (0 <=? b) && (b <? 256) then
        match py_bytes l' with Ok bs => Ok (b :: bs) | Exn e => Exn e end
      else Exn ValueError
  end.

Section Handlers.
Context {W : Type} `{HC : Has cpu W} `{HM : Has machine W} `{R : RamOps W}.
Context `{HS : Has browser_syscalls W} {J : Type} `{HT : Has (terminal J) W}.
Context (js_write_callback : option (list Z -> ST J unit)) (js_read_callback : bool).

(** A call of the page's write callback. *)
Definition call_js (m : ST J unit) : ST (terminal J) unit :=
  fun t => let '(r, j) := m (js_state t) in (r, mkTerminal (inputBuffer t) j).

Definition Browser_handle_exit : ST W unit :=
  zoom (modify (fun c => set_pc (next_pc c) c)) ;;;
  exit_code <- arg 0 ;;
  raise (ExecutionTerminated (ExitCode (as_signed exit_code))).

Definition Browser_handle_sbrk : ST W unit :=
  bottom <- mget stack_bottom ;;
  match bottom with
  | None => raise (InvalidSyscallError "SYSCALL sbrk: stack bottom not set")
  | Some bottom =>
      increment <- arg 0 ;;
      old_heap_end <- mget heap_end ;;
      old_heap_end <- of_option TypeError old_heap_end ;;
      let new_heap_end := old_heap_end + increment in
      if bottom <=? new_heap_end then result 0xFFFFFFFF
      else mset (set_heap_end (Some new_heap_end)) ;;; result old_heap_end
  end.

Definition Browser_handle_write : ST W unit :=
  fd <- arg 0 ;;
  addr <- arg 1 ;;
  count <- arg 2 ;;
  data <- load_binary addr count ;;
  if (fd =? 1) || (fd =? 2) then
    match js_write_callback with
    | Some callback =>
        catch (zoom (call_js (callback data)) ;;; result count) (fun _ => result (- EIO))
    | None => result count
    end
  else result (- EBADF).

(** The body of the [try] of handle_read. *)
Definition read_terminal (addr count : Z) : ST W unit :=
  available <- gets (fun w => py_len (inputBuffer (view w))) ;;
  if available =? 0 then result (- EAGAIN)
  else
    let bytes_to_read := Z.min count available in
    data_list <- zoom (shift_n (Z.to_nat bytes_to_read)) ;;
    data_bytes <- (fun w => (py_bytes data_list, w)) ;;
    store_binary addr data_bytes ;;;
    result (py_len data_bytes).

Definition Browser_handle_read : ST W unit :=
  fd <- arg 0 ;;
  addr <- arg 1 ;;
  count <- arg 2 ;;
  if fd =? 0 then
    if js_read_callback then catch (read_terminal addr count) (fun _ => result (- EIO))
    else result 0
  else result (- EBADF).

Definition Browser_handle_fstat : ST W unit :=
  fd <- arg 0 ;;
  buf_ptr <- arg 1 ;;
  if (fd =? 0) || (fd =? 1) || (fd =? 2) then
    store_binary buf_ptr (stat_buf (Z.lor 0x2000 438) 0) ;;; result 0
  else result (- EBADF).

Definition Browser_handle_isatty : ST W unit :=
  fd <- arg 0 ;;
  if (fd =? 0) || (fd =? 1) || (fd =? 2) then result 1 else result 0.

Definition Browser_handle_getpid : ST W unit := result 1.

Definition Browser_handle_umask : ST W unit :=
  new_mask <- arg 0 ;;
  old_mask <- gets (fun w => b_umask (view w)) ;;
  zoom (modify (fun _ => mkBrowserSyscalls new_mask)) ;;;
  result old_mask.

Definition Browser_handle_openat : ST W unit := result (- ENOSYS).
Definition Browser_handle_close : ST W unit := result (- ENOSYS).
Definition Browser_handle_lseek : ST W unit := result (- ENOSYS).
Definition Browser_handle_kill : ST W unit := result (- ENOSYS).
Definition Browser_handle_mkdirat : ST W unit := result (- ENOSYS).
Definition Browser_handle_unlinkat : ST W unit := result (- ENOSYS).

(** [self.syscall_handlers.get(syscall_id)] *)
Definition Browser_syscall_handlers (syscall_id : Z) : option (ST W unit) :=
  match syscall_id with
  | 93 => Some Browser_handle_exit
  | 214 => Some Browser_handle_sbrk
  | 64 => Some Browser_handle_write
  | 63 => Some Browser_handle_read
  | 1024 => Some Browser_handle_openat
  | 57 => Some Browser_handle_close
  | 62 => Some Browser_handle_lseek
  | 80 => Some Browser_handle_fstat
  | 89 => Some Browser_handle_isatty
  | 129 => Some Browser_handle_kill
  | 172 => Some Browser_handle_getpid
  | 60 => Some Browser_handle_umask
  | 34 => Some Browser_handle_mkdirat
  | 35 => Some Browser_handle_unlinkat
  | _ => None
  end.

(** [handle()]: an unknown call is not an error here. *)
Definition Browser_handle : ST W unit :=
  syscall_id <- zoom (reg 17) ;;
  match Browser_syscall_handlers syscall_id with
  | Some handler => handler
  | None => result (- ENOSYS)
  end.
End Handlers.
