(* ===== verification/Browser.v ===== *)
(** * The web application (browser_entry.py)

    [emulator] is the global EmulatorState: the objects initialize() creates, the
    options of the page, the flags of the session and what start() restores.  The
    functions the page calls are definitions named after them; a page drives the
    session by a sequence of [request]s, and [reachable] are the states it can
    reach.  The objects are made together (only the construction of the RAM can
    fail, before any of them is stored), so they are one optional record; machine.regs,
    a list here, is part of it.  The files of the virtual file system and the ELF
    library are arguments: the content of a flat binary and the parsed ELF file of a
    path, or the exception opening it raises. *)

From Stdlib Require Import ZArith Lia Bool String.
From stdpp Require Import base numbers list option gmap strings.
From S2P Require Import Prelude PyStr Isa Ram Cpu Rvc CpuSem Exec Machine Peripherals.
From S2P Require Import Syscalls MemClass BrowserSyscalls.

Local Open Scope Z_scope.
Local Open Scope py_scope.

(** ** Options *)

(** The dict of the page; a key may be missing. *)
Record options := mkOptions {
  opt_trace_functions : option bool;
  opt_check_inv : option bool;
  opt_check_ram : option bool;
  opt_check_text : option bool;
  opt_timer : option bool;
  opt_rvc : option bool;
  opt_regs : option (list string);
  opt_ram_size : option Z
}.

(** The empty dict. *)
Definition no_options : options := mkOptions None None None None None None None None.

(** [options.get(key, False)] *)
Definition get_flag (f : options -> option bool) (o : options) : bool := default false (f o).

(** ** Objects *)

Record objects := mkObjects {
  o_class : ram_class;
  o_cpu : cpu;
  o_ram : ram;
  o_machine : machine;
  o_timer : mmio_timer;
  o_sys : browser_syscalls
}.

#[export] Instance objects_cpu : Has cpu objects.
Proof.
  refine {| view := o_cpu;
            put c o := mkObjects (o_class o) c (o_ram o) (o_machine o) (o_timer o) (o_sys o) |};
    by intros; destruct w.
Defined.

#[export] Instance objects_ram : Has ram objects.
Proof.
  refine {| view := o_ram;
            put r o := mkObjects (o_class o) (o_cpu o) r (o_machine o) (o_timer o) (o_sys o) |};
    by intros; destruct w.
Defined.

#[export] Instance objects_machine : Has machine objects.
Proof.
  refine {| view := o_machine;
            put m o := mkObjects (o_class o) (o_cpu o) (o_ram o) m (o_timer o) (o_sys o) |};
    by intros; destruct w.
Defined.

#[export] Instance objects_timer : Has mmio_timer objects.
Proof.
  refine {| view := o_timer;
            put t o := mkObjects (o_class o) (o_cpu o) (o_ram o) (o_machine o) t (o_sys o) |};
    by intros; destruct w.
Defined.

#[export] Instance objects_sys : Has browser_syscalls objects.
Proof.
  refine {| view := o_sys;
            put s o := mkObjects (o_class o) (o_cpu o) (o_ram o) (o_machine o) (o_timer o) s |};
    by intros; destruct w.
Defined.

(** [filepath.lower().endswith(ext)] *)
Definition py_endswith (s suffix : string) : bool :=
  let n := String.length s in
  let k := String.length suffix in
  (k <=? n)%nat && String.eqb (String.substring (n - k) k s) suffix.

(** [','.join(l)] *)
Definition join_regs (l : list string) : string := String.concat "," l.

(** Why the emulation ended, [state.exit_info]. *)
Inductive exit_info :=
| NoExit
| Exited (e : exn)
| ErrorExit (e : exn)
| UnexpectedExit (e : exn).

Section Entry.
Context {J : Type}.
Context (js_write_callback : option (list Z -> ST J unit)) (js_read_callback : bool).
Context (open_binary : string -> res (list Z)) (open_elf : string -> res elf_file).

(** What a running instruction can reach: the objects and the terminal. *)
Definition bworld : Type := objects * terminal J.

#[export] Instance bworld_part {A} `{Has A objects} : Has A bworld.
Proof.
  refine {| view w := view (fst w); put a w := (put a (fst w), snd w) |}.
  - intros a [w x]. apply view_put.
  - intros [w x]. simpl. by rewrite put_view.
  - intros a b [w x]. simpl. by rewrite put_put.
Defined.

#[export] Instance bworld_terminal : Has (terminal J) bworld := Has_snd objects (terminal J).

(** The timer is the only peripheral of the browser. *)
Definition browser_read32 (p : periph) (addr : Z) : ST bworld Z :=
  match p with MMIOTimer => MMIOTimer_read32 addr | _ => raise AttributeError end.

Definition browser_write32 (R : RamOps bworld) (p : periph) (addr value : Z) : ST bworld unit :=
  match p with MMIOTimer => MMIOTimer_write32 addr value | _ => raise AttributeError end.

#[export] Instance browser_ram : RamOps bworld :=
  by_class browser_read32 browser_write32 (fun w => o_class (fst w)).

(** [state.cpu.set_ecall_handler(state.syscall_handler.handle)] *)
Definition browser_ecall : option (ST bworld unit) :=
  Some (Browser_handle js_write_callback js_read_callback).

(** ** The session *)

Record emulator := mkEmulator {
  es_objects : option (objects * list string);
  es_terminal : terminal J;
  es_logger : bool;
  es_options : options;
  running : bool;
  instruction_count : Z;
  es_exit_info : exit_info;
  initialized : bool;
  file_loaded : bool;
  loaded_filepath : option string;
  file_type : option string;
  initial_pc : Z;
  initial_heap_end : Z;
  should_reset_pc : bool
}.

(** [EmulatorState()] *)
Definition EmulatorState_init (t : terminal J) : emulator :=
  mkEmulator None t false no_options false 0 NoExit false false None None 0 0 true.

Definition set_objects (o : option (objects * list string)) (t : terminal J) (s : emulator)
    : emulator :=
  mkEmulator o t (es_logger s) (es_options s) (running s) (instruction_count s)
    (es_exit_info s) (initialized s) (file_loaded s) (loaded_filepath s) (file_type s)
    (initial_pc s) (initial_heap_end s) (should_reset_pc s).

Definition set_options (v : options) (s : emulator) : emulator :=
  mkEmulator (es_objects s) (es_terminal s) (es_logger s) v (running s)
    (instruction_count s) (es_exit_info s) (initialized s) (file_loaded s) (loaded_filepath s)
    (file_type s) (initial_pc s) (initial_heap_end s) (should_reset_pc s).

Definition set_logger (s : emulator) : emulator :=
  mkEmulator (es_objects s) (es_terminal s) true (es_options s) (running s)
    (instruction_count s) (es_exit_info s) (initialized s) (file_loaded s) (loaded_filepath s)
    (file_type s) (initial_pc s) (initial_heap_end s) (should_reset_pc s).

Definition set_running (v : bool) (s : emulator) : emulator :=
  mkEmulator (es_objects s) (es_terminal s) (es_logger s) (es_options s) v
    (instruction_count s) (es_exit_info s) (initialized s) (file_loaded s) (loaded_filepath s)
    (file_type s) (initial_pc s) (initial_heap_end s) (should_reset_pc s).

Definition set_count (v : Z) (s : emulator) : emulator :=
  mkEmulator (es_objects s) (es_terminal s) (es_logger s) (es_options s) (running s)
    v (es_exit_info s) (initialized s) (file_loaded s) (loaded_filepath s)
    (file_type s) (initial_pc s) (initial_heap_end s) (should_reset_pc s).

Definition set_exit_info (v : exit_info) (s : emulator) : emulator :=
  mkEmulator (es_objects s) (es_terminal s) (es_logger s) (es_options s) (running s)
    (instruction_count s) v (initialized s) (file_loaded s) (loaded_filepath s)
    (file_type s) (initial_pc s) (initial_heap_end s) (should_reset_pc s).

Definition set_flags (init loaded : bool) (s : emulator) : emulator :=
  mkEmulator (es_objects s) (es_terminal s) (es_logger s) (es_options s) (running s)
    (instruction_count s) (es_exit_info s) init loaded (loaded_filepath s)
    (file_type s) (initial_pc s) (initial_heap_end s) (should_reset_pc s).

Definition set_file_type (v : string) (s : emulator) : emulator :=
  mkEmulator (es_objects s) (es_terminal s) (es_logger s) (es_options s) (running s)
    (instruction_count s) (es_exit_info s) (initialized s) (file_loaded s) (loaded_filepath s)
    (Some v) (initial_pc s) (initial_heap_end s) (should_reset_pc s).

Definition set_filepath (v : string) (s : emulator) : emulator :=
  mkEmulator (es_objects s) (es_terminal s) (es_logger s) (es_options s) (running s)
    (instruction_count s) (es_exit_info s) (initialized s) (file_loaded s) (Some v)
    (file_type s) (initial_pc s) (initial_heap_end s) (should_reset_pc s).

Definition set_initial (p h : Z) (s : emulator) : emulator :=
  mkEmulator (es_objects s) (es_terminal s) (es_logger s) (es_options s) (running s)
    (instruction_count s) (es_exit_info s) (initialized s) (file_loaded s) (loaded_filepath s)
    (file_type s) p h (should_reset_pc s).

Definition set_should_reset (v : bool) (s : emulator) : emulator :=
  mkEmulator (es_objects s) (es_terminal s) (es_logger s) (es_options s) (running s)
    (instruction_count s) (es_exit_info s) (initialized s) (file_loaded s) (loaded_filepath s)
    (file_type s) (initial_pc s) (initial_heap_end s) v.

(** Run a method of the objects; an object that is still None has no attributes. *)
Definition with_objects {A} (m : ST bworld A) : ST emulator A :=
  fun s => match es_objects s with
           | None => (Exn AttributeError, s)
           | Some (o, regs) =>
               let '(r, (o', t')) := m (o, es_terminal s) in
               (r, set_objects (Some (o', regs)) t' s)
           end.

(** The value of an expression that can raise. *)
Definition of_res {S A} (r : res A) : ST S A := fun s => (r, s).

(** ** initialize *)

(** The choice of the memory class. *)
Definition browser_ram_class (use_mmio check_ram : bool) : ram_class :=
  if negb use_mmio && negb check_ram then Class_RAM
  else if use_mmio && negb check_ram then Class_RAM_MMIO
  else if negb use_mmio && check_ram then Class_SafeRAM
  else Class_SafeRAM_MMIO.

(** The objects for the options: RAM, CPU, machine, timer and system calls. *)
Definition make_objects (o : options) : res (objects * list string) :=
  let timer_enabled := get_flag opt_timer o in
  let use_mmio := timer_enabled in
  let ram_size := default (1024 * 1024) (opt_ram_size o) in
  let rvc := get_flag opt_rvc o in
  match RAM_init (fun _ => 0) ram_size 0 (Some "zero"%string) with
  | Exn e => Exn e
  | Ok r =>
      match CPU_init (fun _ => 0) rvc None true with
      | Exn e => Exn e
      | Ok c =>
          match Machine_init timer_enabled use_mmio rvc true (get_flag opt_trace_functions o)
                  None (get_flag opt_check_inv o) None with
          | Exn e => Exn e
          | Ok m =>
              let r := if timer_enabled
                       then snd (register_mmio REG_MTIMECMP_LO TIMER_REG_END MMIOTimer r)
                       else r in
              Ok (mkObjects (browser_ram_class use_mmio (get_flag opt_check_ram o)) c r m
                    MMIOTimer_init BrowserSyscallHandler_init,
                  default [] (opt_regs o))
          end
      end
  end.

Definition initialize (o : options) : ST emulator bool :=
  modify set_logger ;;;
  modify (set_options o) ;;;
  ob <- of_res (make_objects o) ;;
  modify (fun s => set_objects (Some ob) (es_terminal s) s) ;;;
  modify (fun s => set_flags true (file_loaded s) s) ;;;
  ret true.

(** ** load_file *)

(** [if x:] for an address that may be None. *)
Definition truthy_addr (a : option Z) : bool :=
  match a with Some a => negb (a =? 0) | None => false end.

(** The messages about the layout: the format of None fails. *)
Definition log_layout (m : machine) : ST emulator unit :=
  if truthy_addr (stack_top m) then of_option TypeError (stack_bottom m) ;;; ret tt else ret tt.

(** The RAM size the layout of the ELF file needs. *)
Definition required_size (m : machine) : Z :=
  let n := if truthy_addr (stack_top m) then Z.max 0 (default 0 (stack_top m)) else 0 in
  if truthy_addr (heap_end m) then Z.max n (default 0 (heap_end m)) else n.

(** The end of load_file: what start() restores. *)
Definition remember (filepath : string) : ST emulator bool :=
  p <- with_objects (gets (fun w => pc (view w))) ;;
  h <- with_objects (mget heap_end) ;;
  modify (set_initial p (default 0 h)) ;;;
  modify (set_filepath filepath) ;;;
  modify (fun s => set_flags (initialized s) true s) ;;;
  modify (set_count 0) ;;;
  modify (set_should_reset true) ;;;
  ret true.

(** The body of the [try] of load_file. *)
Definition load_body (filepath : string) : ST emulator bool :=
  if py_endswith (py_lower filepath) ".elf" then
    o <- gets es_options ;;
    elf <- of_res (open_elf filepath) ;;
    with_objects (load_elf elf (get_flag opt_trace_functions o) (get_flag opt_check_text o)) ;;;
    modify (set_file_type "elf") ;;;
    m <- with_objects (mget id) ;;
    log_layout m ;;;
    ram_size <- with_objects (gets (fun w => size (view w))) ;;
    if ram_size <? required_size m then ret false else remember filepath
  else if py_endswith (py_lower filepath) ".bin" then
    binary <- of_res (open_binary filepath) ;;
    with_objects (load_flatbinary binary) ;;;
    modify (set_file_type "bin") ;;;
    remember filepath
  else ret false.

Definition load_file (filepath : string) (opts : option options) : ST emulator bool :=
  init <- gets initialized ;;
  if negb init then ret false
  else
    loaded <- gets file_loaded ;;
    ok <- (if loaded : bool then
             cur <- gets es_options ;;
             modify (set_flags false false) ;;;
             catch (initialize (default cur opts)) (fun _ => ret false)
           else ret true) ;;
    if negb ok then ret false
    else catch (load_body filepath) (fun _ => ret false).

(** ** start, stop, reset *)

Definition start : ST emulator unit :=
  init <- gets initialized ;;
  loaded <- gets file_loaded ;;
  if negb init || negb loaded then raise RuntimeError
  else
    fresh <- gets should_reset_pc ;;
    (if fresh : bool then
       p <- gets initial_pc ;;
       with_objects (zoom (modify (set_pc p))) ;;;
       h <- gets initial_heap_end ;;
       with_objects (mset (set_heap_end (Some h))) ;;;
       modify (set_count 0)
     else ret tt) ;;;
    modify (set_running true) ;;;
    modify (set_exit_info NoExit) ;;;
    modify (set_should_reset false).

(** [state.logger.info(...)] *)
Definition need_logger : ST emulator unit :=
  on <- gets es_logger ;; if on : bool then ret tt else raise AttributeError.

Definition stop : ST emulator unit :=
  modify (set_running false) ;;; need_logger.

Definition reset : ST emulator bool :=
  loaded <- gets file_loaded ;;
  path <- gets loaded_filepath ;;
  if negb loaded || negb (truthy path) then ret false
  else
    o <- gets es_options ;;
    modify (set_flags false false) ;;;
    catch (initialize o ;;; load_file (default ""%string path) None) (fun _ => ret false).

(** ** run_chunk *)

(** One instruction of a chunk. *)
Definition chunk_step (getters : list getter) (timer_on : bool) : ST bworld unit :=
  log_regs getters ;;;
  on <- mget check_inv ;;
  (if on : bool then check_invariants else ret tt) ;;;
  inst <- fetch_word ;;
  execute browser_ecall inst ;;;
  tick timer_on ;;;
  advance.

Definition chunk_round (getters : list getter) (u : unit) : ST emulator unit :=
  timer_on <- gets (fun s => get_flag opt_timer (es_options s)) ;;
  with_objects (chunk_step getters timer_on) ;;;
  modify (fun s => set_count (instruction_count s + 1) s).

(** [if state.machine.regs: regformatter = ...] *)
Definition chunk_getters : ST emulator (list getter) :=
  fun s => match es_objects s with
           | None => (Exn AttributeError, s)
           | Some (_, []) => (Ok [], s)
           | Some (_, regs) => (make_regformatter_lambda (join_regs regs), s)
           end.

(** The [except] clauses. *)
Definition exit_of (e : exn) : exit_info :=
  match e with
  | ExecutionTerminated _ => Exited e
  | _ => if is_machine_error e then ErrorExit e else UnexpectedExit e
  end.

Definition chunk_failed (e : exn) : ST emulator bool :=
  modify (set_exit_info (exit_of e)) ;;;
  modify (set_running false) ;;;
  modify (set_should_reset true) ;;;
  ret false.

Definition run_chunk (n : nat) : ST emulator bool :=
  on <- gets running ;;
  if negb on then ret false
  else
    getters <- chunk_getters ;;
    catch (loop n (chunk_round getters) tt ;;; ret true) chunk_failed.

(** ** The other functions *)

Definition get_instruction_count : ST emulator Z := gets instruction_count.
Definition get_exit_info : ST emulator exit_info := gets es_exit_info.
Definition is_running : ST emulator bool := gets running.

Definition set_machine_flags (tr inv : bool) (m : machine) : machine :=
  mkMachine (timer m) (mmio m) (m_rvc m) (m_logger m) tr (regs_opt m) inv
    (start_checks m) (check_enable m) (peripheral_runners m) (stack_top m) (stack_bottom m)
    (heap_end m) (text_start m) (text_end m) (text_snapshot m) (symbol_dict m) (main_addr m).

(** The flags of the system-call and trap traces only change the log. *)
Definition update_options (o : options) : ST emulator bool :=
  init <- gets initialized ;;
  if negb init then ret false
  else
    modify (set_options o) ;;;
    modify (fun s =>
      match es_objects s with
      | None => s
      | Some (ob, _) =>
          set_objects
            (Some (put (set_machine_flags (get_flag opt_trace_functions o)
                          (get_flag opt_check_inv o) (o_machine ob)) ob,
                   default [] (opt_regs o))) (es_terminal s) s
      end) ;;;
    ret true.

(** ** The page *)

Inductive request :=
| Initialize (o : options)
| LoadFile (filepath : string) (o : option options)
| Start
| Stop
| Reset
| RunChunk (n : nat)
| UpdateOptions (o : options)
| Keys (codes : list Z).

(** A call of the page, its result dropped; a key press fills the input array. *)
Definition serve (q : request) : ST emulator unit :=
  match q with
  | Initialize o => initialize o ;;; ret tt
  | LoadFile p o => load_file p o ;;; ret tt
  | Start => start
  | Stop => stop
  | Reset => reset ;;; ret tt
  | RunChunk n => run_chunk n ;;; ret tt
  | UpdateOptions o => update_options o ;;; ret tt
  | Keys codes =>
      modify (fun s => set_objects (es_objects s)
        (mkTerminal (inputBuffer (es_terminal s) ++ codes) (js_state (es_terminal s))) s)
  end.

(** The states a page can bring the session into. *)
Inductive reachable : emulator -> Prop :=
| reach_boot t : reachable (EmulatorState_init t)
| reach_serve s q : reachable s -> reachable (snd (serve q s)).
End Entry.
