(* ===== verification/BrowserThms.v ===== *)
(** * Theorems about the web application

    Sessions: chunks compose, a pause is invisible, what a restart and a reset
    leave behind, which exceptions can reach the page.  A computation of the
    session reads some of its fields only: [same_machine] relates two states with
    the same objects, terminal and options, and the functions that load a file are
    proper for it.  Then the terminal as a queue. *)

From Stdlib Require Import ZArith Lia Bool String Morphisms.
From stdpp Require Import base numbers list option gmap strings.
From S2P Require Import Prelude PyStr Isa Ram Cpu Rvc CpuSem Exec ExecSem ExecSafe RamSafe Core.
From S2P Require Import Machine Peripherals Syscalls MemClass BrowserSyscalls Browser.

Local Open Scope Z_scope.
Local Open Scope py_scope.

Section Sessions.
Context {J : Type}.
Context (js_write_callback : option (list Z -> ST J unit)) (js_read_callback : bool).
Context (open_binary : string -> res (list Z)) (open_elf : string -> res elf_file).

Implicit Types (s : emulator (J := J)) (o : options).

Abbreviation run_chunk := (run_chunk js_write_callback js_read_callback).
Abbreviation chunk_round := (chunk_round js_write_callback js_read_callback).
Abbreviation load_file := (load_file open_binary open_elf).
Abbreviation load_body := (load_body open_binary open_elf).
Abbreviation reset := (reset open_binary open_elf).
Abbreviation serve := (serve js_write_callback js_read_callback open_binary open_elf).
Abbreviation reachable := (reachable js_write_callback js_read_callback open_binary open_elf).

(** ** What a method of the objects leaves alone *)

(** Everything but the objects, the terminal and the counter. *)
Definition session_part s :=
  (snd <$> es_objects s, es_logger s, es_options s, running s, es_exit_info s,
   (initialized s, file_loaded s, loaded_filepath s, file_type s),
   (initial_pc s, initial_heap_end s, should_reset_pc s)).

Lemma with_objects_frame {A} (m : ST bworld A) s :
  session_part (snd (with_objects m s)) = session_part s /\
  instruction_count (snd (with_objects m s)) = instruction_count s.
Proof.
  unfold with_objects. destruct (es_objects s) as [[ob regs]|] eqn:E; [|done].
  destruct (m _) as [r [ob' t']]. unfold session_part. simpl. by rewrite E.
Qed.

Lemma with_objects_ok {A} (m : ST bworld A) s e : es_objects s <> None ->
  fst (with_objects m s) = Exn e -> exists w, fst (m w) = Exn e.
Proof.
  unfold with_objects. destruct (es_objects s) as [[ob regs]|]; [|done]. intros _.
  destruct (m (ob, es_terminal s)) as [r [ob' t']] eqn:E. simpl. intros ->.
  exists (ob, es_terminal s). by rewrite E.
Qed.

Lemma chunk_round_frame g u s : session_part (snd (chunk_round g u s)) = session_part s.
Proof.
  unfold Browser.chunk_round, bind, gets.
  destruct (with_objects_frame
    (chunk_step js_write_callback js_read_callback g (get_flag opt_timer (es_options s))) s) as [H _].
  destruct (with_objects _ s) as [[[]|e] s']; exact H.
Qed.

Lemma chunk_loop_frame g n s : session_part (snd (loop n (chunk_round g) tt s)) = session_part s.
Proof.
  revert s. induction n as [|n IH]; intros s; simpl; [done|].
  unfold bind. pose proof (chunk_round_frame g tt s) as H.
  destruct (chunk_round g tt s) as [[[]|e] s']; [by rewrite IH|exact H].
Qed.

(** The frame, read field by field. *)
Lemma session_part_fields s s' : session_part s = session_part s' ->
  running s = running s' /\ initialized s = initialized s' /\ file_loaded s = file_loaded s' /\
  should_reset_pc s = should_reset_pc s' /\ es_exit_info s = es_exit_info s' /\
  es_logger s = es_logger s' /\ es_options s = es_options s' /\
  initial_pc s = initial_pc s' /\ initial_heap_end s = initial_heap_end s' /\
  loaded_filepath s = loaded_filepath s' /\ snd <$> es_objects s = snd <$> es_objects s'.
Proof. unfold session_part. intros H. by simplify_eq. Qed.

Lemma chunk_getters_same s s' : snd <$> es_objects s = snd <$> es_objects s' ->
  fst (chunk_getters s) = fst (chunk_getters s').
Proof.
  unfold chunk_getters. destruct (es_objects s) as [[ob l]|], (es_objects s') as [[ob' l']|];
    simpl; intros; simplify_eq; [|done]. by destruct l'.
Qed.

Lemma chunk_getters_state s : snd (chunk_getters s) = s.
Proof. unfold chunk_getters. repeat case_match; done. Qed.

(** The rounds of a chunk, with their outcome. *)
Definition chunk_outcome (r : res unit * emulator (J := J)) : res bool * emulator :=
  match r with
  | (Ok _, s') => (Ok true, s')
  | (Exn e, s') => chunk_failed e s'
  end.

Lemma run_chunk_eq n s : running s = true ->
  run_chunk n s =
  match fst (chunk_getters s) with
  | Ok g => chunk_outcome (loop n (chunk_round g) tt s)
  | Exn e => (Exn e, s)
  end.
Proof.
  intros Hr. unfold Browser.run_chunk, bind, gets. rewrite Hr. simpl.
  pose proof (chunk_getters_state s) as Hs.
  destruct (chunk_getters s) as [[g|e] s'] eqn:E; simpl in *; subst s'; [|done].
  unfold catch, chunk_outcome. by destruct (loop n (chunk_round g) tt s) as [[[]|e] s'].
Qed.

Lemma run_chunk_true n s s' : run_chunk n s = (Ok true, s') ->
  running s = true /\
  exists g, fst (chunk_getters s) = Ok g /\ loop n (chunk_round g) tt s = (Ok tt, s').
Proof.
  intros H. destruct (running s) eqn:Hr.
  - split; [done|]. rewrite run_chunk_eq in H by done.
    destruct (fst (chunk_getters s)) as [g|e]; [|done]. exists g. split; [done|].
    unfold chunk_outcome in H. destruct (loop _ _ _ _) as [[[]|e] s1]; [by simplify_eq|done].
  - unfold Browser.run_chunk, bind, gets in H. by rewrite Hr in H.
Qed.

(** A chunk that went well left the session alone. *)
Lemma run_chunk_true_frame n s s' : run_chunk n s = (Ok true, s') -> session_part s' = session_part s.
Proof.
  intros (Hr & g & Hg & Hl)%run_chunk_true. pose proof (chunk_loop_frame g n s) as H.
  by rewrite Hl in H.
Qed.

Lemma run_chunk_add a b s : running s = true ->
  run_chunk (a + b) s =
  match run_chunk a s with
  | (Ok true, s') => run_chunk b s'
  | r => r
  end.
Proof.
  intros Hr. rewrite !run_chunk_eq by done.
  destruct (fst (chunk_getters s)) as [g|e] eqn:Hg; [|done].
  rewrite loop_add. pose proof (chunk_loop_frame g a s) as Hf.
  destruct (loop a (chunk_round g) tt s) as [[[]|e] s1]; simpl in Hf; [|done].
  apply session_part_fields in Hf as (H1 & _ & _ & _ & _ & _ & _ & _ & _ & _ & H2).
  simpl. rewrite run_chunk_eq by congruence. by rewrite (chunk_getters_same s1 s H2), Hg.
Qed.

(** ** Chunks and pauses *)

(** The state after [start]: running, and not to be restarted. *)
Lemma start_ok s s' : start s = (Ok tt, s') ->
  initialized s' = true /\ file_loaded s' = true /\ running s' = true /\
  should_reset_pc s' = false /\ es_exit_info s' = NoExit /\ es_logger s' = es_logger s.
Proof.
  unfold start, bind, gets. destruct (initialized s) eqn:Hi, (file_loaded s) eqn:Hf; simpl; try done.
  destruct (should_reset_pc s).
  - pose proof (with_objects_frame (zoom (modify (set_pc (initial_pc s)))) s) as [H1 _].
    destruct (with_objects _ s) as [[[]|e] s1]; [|done]. simpl in H1.
    pose proof (with_objects_frame (mset (set_heap_end (Some (initial_heap_end s1)))) s1) as [H2 _].
    destruct (with_objects _ s1) as [[[]|e] s2]; [|done]. simpl in H2.
    apply session_part_fields in H1 as (_ & E1 & E2 & _ & _ & E5 & _).
    apply session_part_fields in H2 as (_ & E3 & E4 & _ & _ & E6 & _).
    intros [= <-]. simpl. rewrite E3, E1, E4, E2, E6, E5. done.
  - intros [= <-]. simpl. done.
Qed.

(** [stop] followed by [start] in a session that runs and is not to be restarted. *)
Lemma stop_start s : es_logger s = true -> initialized s = true -> file_loaded s = true ->
  running s = true -> should_reset_pc s = false -> es_exit_info s = NoExit ->
  (stop ;;; start) s = (Ok tt, s).
Proof. destruct s. simpl. intros. by subst. Qed.

(** What the page does with a started session: chunks of instructions until one says stop,
    with a click on Stop and on Run before some of them. *)
Fixpoint run_segments (l : list (bool * nat)) : ST emulator bool :=
  match l with
  | [] => ret true
  | (pause, n) :: l' =>
      (if pause : bool then stop ;;; start else ret tt) ;;;
      go <- run_chunk n ;;
      if go : bool then run_segments l' else ret false
  end.

(** A session that runs and is not to be restarted. *)
Definition started s : Prop :=
  es_logger s = true /\ initialized s = true /\ file_loaded s = true /\ running s = true /\
  should_reset_pc s = false /\ es_exit_info s = NoExit.

Lemma run_chunk_started n s s' : started s -> run_chunk n s = (Ok true, s') -> started s'.
Proof.
  intros (? & ? & ? & ? & ? & ?) Hframe%run_chunk_true_frame.
  apply session_part_fields in Hframe as (E1 & E2 & E3 & E4 & E5 & E6 & _).
  unfold started. split_and!; congruence.
Qed.

Lemma pause_started (pause : bool) s : started s ->
  (if pause then stop ;;; start else ret tt) s = (Ok tt, s).
Proof. intros (? & ? & ? & ? & ? & ?). destruct pause; [by apply stop_start|done]. Qed.

Lemma run_segments_eq l s : started s -> l <> [] ->
  run_segments l s = run_chunk (sum_list (map snd l)) s.
Proof.
  revert s. induction l as [|[pause n] l IH]; intros s Hs Hl; [done|].
  cbn [run_segments]. unfold bind at 1. rewrite pause_started by done. unfold bind.
  cbn [map snd]. change (sum_list (n :: map snd l)) with (n + sum_list (map snd l))%nat.
  destruct l as [|k l].
  - rewrite Nat.add_0_r. by destruct (run_chunk n s) as [[[]|e] s1].
  - rewrite run_chunk_add by apply Hs. destruct (run_chunk n s) as [[[]|e] s1] eqn:E; [|done..].
    apply IH; [by eapply run_chunk_started|done].
Qed.

(** C15: neither the cutting of the execution into chunks nor pauses change it: after a
    start(), any sequence of run_chunk calls, with stop() and start() between them wherever
    the user likes, ends with the same result in the same state as one call with the sum of
    the numbers of instructions. *)
Theorem chunks_and_pauses (l : list (bool * nat)) s0 s (Hlog : es_logger s0 = true)
  (Hstart : start s0 = (Ok tt, s)) (Hl : l <> []) :
  run_segments l s = run_chunk (sum_list (map snd l)) s.
Proof.
  pose proof (start_ok _ _ Hstart) as (Hi & Hf & Hr & Hp & He & Hg).
  apply run_segments_eq; [|done]. unfold started. split_and!; congruence.
Qed.

(** ** The invariant of a session *)

(** The objects exist when the flags say so, a loaded file has a path, and a session that
    runs has not ended. *)
Record session_ok s : Prop := {
  ok_initialized : initialized s = true -> es_objects s <> None;
  ok_running : running s = true -> es_objects s <> None /\ es_exit_info s = NoExit;
  ok_logger : es_objects s <> None -> es_logger s = true;
  ok_loaded : file_loaded s = true -> initialized s = true /\ truthy (loaded_filepath s) = true;
  ok_count : 0 <= instruction_count s
}.

Abbreviation session_keeps m := (keeps (fun _ => True) session_ok m (fun _ => True)).

(** Check the clauses for a state given by an update. *)
Ltac session :=
  match goal with H : session_ok _ |- session_ok _ =>
    let H1 := fresh in let H2 := fresh in let H3 := fresh in let H4 := fresh in
    let H5 := fresh in
    destruct H as [H1 H2 H3 H4 H5]; split; simpl in *; solve [done | lia | intuition congruence] end.

Lemma with_objects_keeps {A} (m : ST bworld A) : session_keeps (with_objects m).
Proof.
  intros s Hs. unfold with_objects. destruct (es_objects s) as [[ob regs]|] eqn:E; [|done].
  destruct (m _) as [[a|e] [ob' t']]; (split; [|done]);
    destruct Hs as [? ? ? ? ?]; rewrite E in *; split; simpl; intuition congruence.
Qed.

Lemma modify_keeps (f : emulator -> emulator) : (forall s, session_ok s -> session_ok (f s)) ->
  session_keeps (modify f).
Proof. intros. by apply keeps_modify. Qed.

Lemma of_res_keeps {A} (r : res A) : session_keeps (of_res r).
Proof. intros s Hs. by destruct r. Qed.

Lemma ret_keeps {A} (a : A) : session_keeps (ret a).
Proof. by apply keeps_ret. Qed.

Lemma raise_keeps {A} e : session_keeps (raise (A := A) e).
Proof. by apply keeps_raise. Qed.

Lemma option_keeps {A} e (x : option A) : session_keeps (of_option e x).
Proof. destruct x; [apply ret_keeps|apply raise_keeps]. Qed.

Lemma catch_keeps {A} (m : ST emulator A) h : session_keeps m ->
  (forall e, session_keeps (h e)) -> session_keeps (catch m h).
Proof. intros Hm Hh. eapply keeps_catch; eauto. Qed.

#[local] Hint Resolve with_objects_keeps of_res_keeps ret_keeps raise_keeps option_keeps : keeps.

Lemma initialize_keeps o : session_keeps (initialize o).
Proof.
  intros s Hs. unfold initialize, bind, modify, of_res. destruct (make_objects o) as [ob|e];
    (split; [|done]); session.
Qed.

(** Loading happens in an initialized session. *)
Definition loading s : Prop := session_ok s /\ initialized s = true.

Abbreviation loading_keeps m := (keeps (fun _ => True) loading m (fun _ => True)).

Lemma with_objects_loading {A} (m : ST bworld A) : loading_keeps (with_objects m).
Proof.
  intros s [Hs Hi]. pose proof (with_objects_keeps m s Hs) as H1.
  pose proof (with_objects_frame m s) as [F _]. apply session_part_fields in F as (_ & F & _).
  unfold loading. destruct (with_objects m s) as [[a|e] s1]; simpl in F; intuition congruence.
Qed.

Lemma of_res_loading {A} (r : res A) : loading_keeps (of_res r).
Proof. intros s Hs. by destruct r. Qed.

Lemma modify_loading (f : emulator -> emulator) :
  (forall s, loading s -> loading (f s)) -> loading_keeps (modify f).
Proof. intros. by apply keeps_modify. Qed.

Lemma ret_loading {A} (a : A) : loading_keeps (ret a).
Proof. by apply keeps_ret. Qed.

Lemma option_loading {A} e (x : option A) : loading_keeps (of_option e x).
Proof. destruct x; [apply ret_loading|by apply keeps_raise]. Qed.

#[local] Hint Resolve with_objects_loading of_res_loading ret_loading option_loading : keeps.

Lemma remember_loading path : path <> ""%string -> loading_keeps (remember path).
Proof.
  intros Hp. unfold remember. eapply keeps_bind; [apply with_objects_loading|]. intros p _.
  eapply keeps_bind; [apply with_objects_loading|]. intros h _ s [Hs Hi].
  assert (truthy (Some path) = true) by (simpl; by destruct (String.eqb_spec path "")).
  split; [|done]. split; [|done]. simpl. session.
Qed.

Lemma endswith_nonempty path ext : py_endswith (py_lower path) ext = true ->
  (0 < String.length ext)%nat -> path <> ""%string.
Proof.
  intros H Hn ->. unfold py_endswith in H. apply andb_prop in H as [H _].
  apply Nat.leb_le in H. simpl in H. lia.
Qed.

Lemma load_body_loading path : loading_keeps (load_body path).
Proof.
  unfold Browser.load_body, log_layout. keep.
  - apply modify_loading. intros s [Hs Hi]. split; [|done]. session.
  - apply remember_loading. eapply endswith_nonempty; [eassumption|simpl; lia].
  - apply modify_loading. intros s [Hs Hi]. split; [|done]. session.
  - apply remember_loading. eapply endswith_nonempty; [eassumption|simpl; lia].
Qed.

(** [set_flags false false] and a construction that succeeds. *)
Lemma initialize_ok o s : session_ok s ->
  match initialize o s with
  | (Ok b, s') => b = true /\ loading s'
  | (Exn _, s') => session_ok s'
  end.
Proof.
  intros Hs. unfold initialize, bind, modify, of_res, loading. destruct (make_objects o) as [ob|e];
    [split; [done|]; split; [|done]|]; session.
Qed.

Lemma unload_ok s : session_ok s -> session_ok (set_flags false false s).
Proof. intros Hs. session. Qed.

Lemma load_try_keeps path s : loading s ->
  session_ok (snd (catch (load_body path) (fun _ => ret false) s)).
Proof.
  intros Hs. pose proof (load_body_loading path s Hs) as H. unfold catch.
  destruct (load_body path s) as [[b|e] s1]; by destruct H as [[? ?] ?].
Qed.

Lemma load_file_keeps path opts s : session_ok s -> session_ok (snd (load_file path opts s)).
Proof.
  intros Hs. unfold Browser.load_file, bind, gets. destruct (initialized s) eqn:Hi; simpl; [|done].
  destruct (file_loaded s) eqn:Hf; [|by apply load_try_keeps].
  unfold modify, catch at 1.
  pose proof (initialize_ok (default (es_options s) opts) _ (unload_ok s Hs)) as H.
  destruct (initialize _ _) as [[b|e] s1]; [|done]. destruct H as [-> H]. by apply load_try_keeps.
Qed.

Lemma start_keeps s : session_ok s -> session_ok (snd (start s)).
Proof.
  intros Hs. unfold start, bind, gets. destruct (initialized s) eqn:Hi, (file_loaded s) eqn:Hf;
    simpl; try done.
  destruct (should_reset_pc s); [|simpl; session].
  pose proof (with_objects_loading (zoom (modify (set_pc (initial_pc s)))) s (conj Hs Hi)) as H1.
  destruct (with_objects _ s) as [[[]|e] s1]; destruct H1 as [H1 _]; [|apply H1].
  pose proof (with_objects_loading (mset (set_heap_end (Some (initial_heap_end s1)))) s1 H1) as H2.
  destruct (with_objects _ s1) as [[[]|e] s2]; destruct H2 as [[H2 Hi2] _]; [|apply H2].
  simpl. session.
Qed.

Lemma reset_keeps s : session_ok s -> session_ok (snd (reset s)).
Proof.
  intros Hs. unfold Browser.reset, bind, gets.
  destruct (negb (file_loaded s) || negb (truthy (loaded_filepath s))); [done|].
  unfold modify, catch. pose proof (initialize_ok (es_options s) _ (unload_ok s Hs)) as H.
  destruct (initialize _ _) as [[b|e] s1]; [|done]. destruct H as [_ [H _]].
  pose proof (load_file_keeps (default ""%string (loaded_filepath s)) None s1 H) as H'.
  by destruct (load_file _ None s1) as [[]].
Qed.

Lemma chunk_loop_keeps g n : session_keeps (loop n (chunk_round g) tt).
Proof.
  apply (keeps_loop _ _ _ (fun _ => True)); [|done]. intros [] _.
  unfold Browser.chunk_round. keep. apply modify_keeps. intros s Hs. session.
Qed.

Lemma run_chunk_keeps n s : session_ok s -> session_ok (snd (run_chunk n s)).
Proof.
  intros Hs. destruct (running s) eqn:Hr.
  - rewrite run_chunk_eq by done. destruct (fst (chunk_getters s)) as [g|e]; [|done].
    pose proof (chunk_loop_keeps g n s Hs) as H.
    destruct (loop n _ tt s) as [[[]|e] s1]; destruct H as [H _]; [done|]. simpl. session.
  - unfold Browser.run_chunk, bind, gets. by rewrite Hr.
Qed.

Lemma update_options_keeps o s : session_ok s -> session_ok (snd (update_options o s)).
Proof.
  intros Hs. unfold update_options, bind, gets, modify. destruct (initialized s) eqn:Hi; [|done].
  simpl. destruct (es_objects s) as [[ob l]|] eqn:E; simpl.
  - destruct Hs as [? ? ? ? ?]; rewrite E in *; split; simpl; intuition congruence.
  - destruct Hs as [? ? ? ? ?]; rewrite E in *; split; simpl; rewrite ?E; intuition congruence.
Qed.

Lemma serve_keeps q s : session_ok s -> session_ok (snd (serve q s)).
Proof.
  intros Hs. destruct q; simpl; unfold bind.
  - pose proof (initialize_keeps o s Hs) as H. by destruct (initialize o s) as [[]]; destruct H.
  - pose proof (load_file_keeps filepath o s Hs). by destruct (load_file _ _ _) as [[]].
  - by apply start_keeps.
  - unfold stop, need_logger, bind, modify, gets. simpl.
    destruct (es_logger s); simpl; session.
  - pose proof (reset_keeps s Hs). by destruct (reset s) as [[]].
  - pose proof (run_chunk_keeps n s Hs). by destruct (run_chunk n s) as [[]].
  - pose proof (update_options_keeps o s Hs). by destruct (update_options o s) as [[]].
  - unfold modify. simpl. session.
Qed.

Lemma reachable_ok s : reachable s -> session_ok s.
Proof. induction 1; [by split|by apply serve_keeps]. Qed.

(** C17: whatever the page does, in whatever order, and however the calls fail, the session
    stays consistent: an initialized or running session has its CPU, RAM and machine, a
    loaded file has its path, a running session has no exit information and the instruction
    count is not negative. *)
Theorem session_invariant s (Hs : reachable s) : session_ok s.
Proof. by apply reachable_ok. Qed.

(** ** What reaches the page *)

Lemma getter_of_setup name e : getter_of name = Exn e -> exists msg, e = SetupError msg.
Proof. unfold getter_of. repeat case_match; intros; simplify_eq; eauto. Qed.

Lemma getters_of_setup names e : getters_of names = Exn e -> exists msg, e = SetupError msg.
Proof.
  induction names as [|x l IH]; simpl; [done|].
  destruct (getter_of x) eqn:E; [|intros [= <-]; by eapply getter_of_setup].
  destruct (getters_of l); [done|]. intros [= <-]. by apply IH.
Qed.

Lemma chunk_getters_setup s e : es_objects s <> None -> fst (chunk_getters s) = Exn e ->
  exists msg, e = SetupError msg.
Proof.
  unfold chunk_getters. destruct (es_objects s) as [[ob [|r l]]|]; try done.
  intros _. apply getters_of_setup.
Qed.

(** The counter counts the rounds that went well. *)
Lemma chunk_loop_count g n s :
  match loop n (chunk_round g) tt s with
  | (Ok _, s') => instruction_count s' = instruction_count s + Z.of_nat n
  | (Exn _, s') => instruction_count s <= instruction_count s' < instruction_count s + Z.of_nat n
  end.
Proof.
  revert s. induction n as [|n IH]; intros s; [simpl; lia|]. cbn [loop]. unfold bind at 1.
  assert (match chunk_round g tt s with
          | (Ok _, s') => instruction_count s' = instruction_count s + 1
          | (Exn _, s') => instruction_count s' = instruction_count s end) as H.
  { unfold Browser.chunk_round, bind, gets, modify.
    pose proof (with_objects_frame (chunk_step js_write_callback js_read_callback g
      (get_flag opt_timer (es_options s))) s) as [_ H].
    destruct (with_objects _ s) as [[[]|e] s']; simpl in *; lia. }
  destruct (chunk_round g tt s) as [[[]|e] s1]; [|lia]. specialize (IH s1).
  destruct (loop n _ tt s1) as [[]]; lia.
Qed.

(** C16: no exception of the emulated program reaches the page: in every state a page can
    reach, run_chunk returns True after exactly n instructions, or False; a False from a
    running session stops it, records why, and makes the next start() begin at the entry
    point.  The only exception is the SetupError for an unknown register name, raised before
    anything has changed. *)
Theorem run_chunk_contained (n : nat) s (Hs : reachable s) :
  match run_chunk n s with
  | (Ok true, s') =>
      running s' = true /\ instruction_count s' = instruction_count s + Z.of_nat n
  | (Ok false, s') =>
      running s' = false /\
      (running s = true ->
       should_reset_pc s' = true /\ es_exit_info s' <> NoExit /\
       instruction_count s <= instruction_count s' < instruction_count s + Z.of_nat n)
  | (Exn e, s') => s' = s /\ running s = true /\ exists msg, e = SetupError msg
  end.
Proof.
  pose proof (reachable_ok s Hs) as Hok. destruct (running s) eqn:Hr.
  - rewrite run_chunk_eq by done. pose proof (proj1 (ok_running s Hok Hr)) as Ho.
    destruct (fst (chunk_getters s)) as [g|e] eqn:Hg;
      [|split_and!; [done|done|by eapply chunk_getters_setup]].
    pose proof (chunk_loop_count g n s) as Hc. pose proof (chunk_loop_frame g n s) as Hf.
    destruct (loop n _ tt s) as [[[]|e] s1]; simpl in Hf.
    + apply session_part_fields in Hf as (H1 & _). split; [simpl; congruence|done].
    + split; [done|]. intros _. split_and!; [done| |simpl; lia..].
      simpl. unfold exit_of. by repeat case_match.
  - unfold Browser.run_chunk, bind, gets. by rewrite Hr.
Qed.

(** ** Restart *)

(** The objects with the pc and the end of the heap of a fresh start; the registers, the
    CSRs and the memory are those the program left. *)
Definition restarted (p h : Z) (ob : objects) : objects :=
  let ob1 := put (set_pc p (o_cpu ob)) ob in
  put (set_heap_end (Some h) (o_machine ob1)) ob1.

(** After the program has ended, whatever ended it, start() succeeds and restarts it
    at the entry point with the initial end of the heap and a counter of zero; registers,
    CSRs and memory are kept as the program left them, only reset() reloads them. *)
Theorem restart_after_exit (n : nat) s s' (Hs : reachable s) (Hr : running s = true)
  (Hf : file_loaded s = true) (Hn : run_chunk n s = (Ok false, s')) :
  exists ob regs s'',
    es_objects s' = Some (ob, regs) /\ start s' = (Ok tt, s'') /\
    es_objects s'' = Some (restarted (initial_pc s) (initial_heap_end s) ob, regs) /\
    running s'' = true /\ instruction_count s'' = 0 /\ es_exit_info s'' = NoExit /\
    es_terminal s'' = es_terminal s'.
Proof.
  pose proof (reachable_ok s Hs) as Hok. pose proof (run_chunk_keeps n s Hok) as Hok'.
  rewrite Hn in Hok'. simpl in Hok'.
  rewrite run_chunk_eq in Hn by done. destruct (fst (chunk_getters s)) as [g|e]; [|done].
  pose proof (chunk_loop_frame g n s) as F. destruct (loop n _ tt s) as [[[]|e] s1]; [done|].
  simpl in F. apply session_part_fields in F as (_ & F1 & F2 & _ & _ & _ & _ & F3 & F4 & _ & _).
  destruct (ok_loaded s Hok Hf) as [Hi _]. cbn in Hn.
  injection Hn as <-. pose proof (ok_initialized _ Hok') as Ho. cbn in Ho.
  specialize (Ho (eq_trans F1 Hi)).
  destruct (es_objects s1) as [[ob regs]|] eqn:E; [|done].
  exists ob, regs. unfold start, bind, gets, with_objects, modify. simpl.
  rewrite F1, F2, Hi, Hf. simpl. rewrite E. simpl. rewrite F3, F4. eexists. split_and!; done.
Qed.
(** ** Reset *)

(** Two sessions with the same objects, terminal and options; what the session was before a
    file is loaded does not matter. *)
Definition same_machine s1 s2 : Prop :=
  (es_objects s1, es_terminal s1, es_options s1, es_logger s1, initialized s1, file_loaded s1) =
  (es_objects s2, es_terminal s2, es_options s2, es_logger s2, initialized s2, file_loaded s2) /\
  (file_loaded s1 = true ->
   (initial_pc s1, initial_heap_end s1, loaded_filepath s1, should_reset_pc s1, instruction_count s1) =
   (initial_pc s2, initial_heap_end s2, loaded_filepath s2, should_reset_pc s2, instruction_count s2)).

(** The same result and related states. *)
Abbreviation machine_proper m :=
  (Proper (same_machine ==> prod_relation eq same_machine) m).

#[local] Instance ret_proper {A} (a : A) : machine_proper (ret a).
Proof. intros s1 s2 H. by split. Qed.

#[local] Instance raise_proper {A} e : machine_proper (raise (A := A) e).
Proof. intros s1 s2 H. by split. Qed.

#[local] Instance of_res_proper {A} (r : res A) : machine_proper (of_res r).
Proof. intros s1 s2 H. by split. Qed.

#[local] Instance of_option_proper {A} e (x : option A) : machine_proper (of_option e x).
Proof. destruct x; apply _. Qed.

#[local] Instance bind_proper {A B} (m : ST emulator A) (f : A -> ST emulator B) :
  machine_proper m -> (forall a, machine_proper (f a)) -> machine_proper (bind m f).
Proof.
  intros Hm Hf s1 s2 H. unfold bind. destruct (Hm s1 s2 H) as [Hr Hs].
  destruct (m s1) as [[a|e] t1], (m s2) as [[a'|e'] t2]; simpl in Hr; simplify_eq; [by apply Hf|].
  by split.
Qed.

#[local] Instance catch_proper {A} (m : ST emulator A) h :
  machine_proper m -> (forall e, machine_proper (h e)) -> machine_proper (catch m h).
Proof.
  intros Hm Hh s1 s2 H. unfold catch. destruct (Hm s1 s2 H) as [Hr Hs].
  destruct (m s1) as [[a|e] t1], (m s2) as [[a'|e'] t2]; simpl in Hr; simplify_eq; [by split|].
  by apply Hh.
Qed.

#[local] Instance if_proper {A} (b : bool) (m1 m2 : ST emulator A) :
  machine_proper m1 -> machine_proper m2 -> machine_proper (if b then m1 else m2).
Proof. by destruct b. Qed.

#[local] Instance gets_proper {A} (f : emulator -> A) :
  Proper (same_machine ==> eq) f -> machine_proper (gets f).
Proof. intros Hf s1 s2 H. split; [simpl; by rewrite (Hf s1 s2 H)|done]. Qed.

#[local] Instance with_objects_proper {A} (m : ST bworld A) : machine_proper (with_objects m).
Proof.
  intros s1 s2 Hs. pose proof Hs as [[= E1 E2 E3 E4 E5 E6] H']. unfold with_objects.
  rewrite <- E1, <- E2. destruct (es_objects s1) as [[ob l]|]; [|by split].
  destruct (m _) as [r [ob' t']]. split; [done|]. split; simpl; [congruence|exact H'].
Qed.

(** An update that gives related states. *)
Ltac same_update := intros ? ? [? ?]; simplify_eq; split; [done|]; split; simpl; [congruence|auto].

Lemma modify_proper (f : emulator -> emulator) :
  Proper (same_machine ==> same_machine) f -> machine_proper (modify f).
Proof. intros Hf s1 s2 H. split; [done|]. by apply Hf. Qed.

#[local] Instance options_proper : Proper (same_machine ==> eq) (es_options (J := J)).
Proof. intros ? ? [? ?]. by simplify_eq. Qed.
#[local] Instance initialized_proper : Proper (same_machine ==> eq) (initialized (J := J)).
Proof. intros ? ? [? ?]. by simplify_eq. Qed.
#[local] Instance loaded_proper : Proper (same_machine ==> eq) (file_loaded (J := J)).
Proof. intros ? ? [? ?]. by simplify_eq. Qed.

#[local] Instance file_type_proper t : machine_proper (modify (set_file_type t)).
Proof. same_update. Qed.

#[local] Instance remember_proper path : machine_proper (remember path).
Proof.
  apply bind_proper; [apply _|]. intros p. apply bind_proper; [apply _|]. intros h s1 s2 [H _].
  simplify_eq. split; [done|]. split; simpl; congruence.
Qed.

#[local] Instance load_body_proper path : machine_proper (load_body path).
Proof. unfold Browser.load_body, log_layout. apply _. Qed.

(** Without a loaded file the objects are used as they are. *)
Lemma load_file_first path opts s : file_loaded s = false ->
  load_file path opts s =
  if initialized s then catch (load_body path) (fun _ => ret false) s else (Ok false, s).
Proof.
  intros Hf. unfold Browser.load_file, bind, gets. destruct (initialized s); simpl; [|done].
  by rewrite Hf.
Qed.

Lemma load_file_unloaded path opts s1 s2 : file_loaded s1 = false -> same_machine s1 s2 ->
  prod_relation eq same_machine (load_file path opts s1) (load_file path opts s2).
Proof.
  intros Hf H. pose proof (loaded_proper _ _ H) as E. pose proof (initialized_proper _ _ H) as E'.
  rewrite !load_file_first by congruence. rewrite <- E'. destruct (initialized s1); [|by split].
  by apply catch_proper; [apply _..|].
Qed.

(** The state initialize() leaves. *)
Definition after_init o ob s : emulator :=
  let s1 := set_options o (set_logger s) in
  set_flags true (file_loaded s) (set_objects (Some ob) (es_terminal s) s1).

Lemma initialize_eq o s : initialize o s =
  match make_objects o with
  | Ok ob => (Ok true, after_init o ob s)
  | Exn e => (Exn e, set_options o (set_logger s))
  end.
Proof. unfold initialize, bind, modify, of_res. by destruct (make_objects o). Qed.

(** C23: reset() forgets the past: whatever happened to the session, its result, the
    processor, the memory, the machine and what start() will restore are those of an
    emulator initialized with the current options and loaded with the current file for the
    first time.  When the construction fails it returns False. *)
Theorem reset_fresh (path : string) s (Hf : file_loaded s = true)
  (Hp : loaded_filepath s = Some path) (Hne : path <> ""%string) :
  let fresh := (initialize (es_options s) ;;; load_file path None)
                 (EmulatorState_init (es_terminal s)) in
  match fst fresh with
  | Ok b => fst (reset s) = Ok b /\ same_machine (snd (reset s)) (snd fresh)
  | Exn _ => fst (reset s) = Ok false
  end.
Proof.
  assert (truthy (Some path) = true) as Ht by (simpl; by destruct (String.eqb_spec path "")).
  cbv zeta. unfold Browser.reset, bind, gets. rewrite Hf, Hp, Ht. cbn [negb orb default id].
  unfold catch, modify. rewrite !initialize_eq.
  destruct (make_objects (es_options s)) as [ob|e]; [|done].
  set (s1 := after_init _ ob (set_flags false false s)). set (s2 := after_init _ ob _).
  assert (same_machine s1 s2) as H by (split; [done|intros H; discriminate H]).
  destruct (load_file_unloaded path None s1 s2 eq_refl H) as [Hr Hs].
  destruct (load_file path None s1) as [[b|e] t1], (load_file path None s2) as [[b'|e'] t2];
    simpl in *; simplify_eq; done.
Qed.
(** ** Loading without a fresh start *)

Lemma endswith_other p a b : py_endswith p a = true -> String.length a = String.length b ->
  a <> b -> py_endswith p b = false.
Proof.
  unfold py_endswith. intros [H1 H2]%andb_prop Hl Hne. apply String.eqb_eq in H2.
  rewrite <- Hl, H1, H2. simpl. by apply String.eqb_neq.
Qed.

(** The objects after the body of load_flatbinary, up to the machine's trigger. *)
Lemma flatbinary_ram (ob : objects) (t : terminal J) bin : wf_ram (o_ram ob) ->
  o_class ob = Class_SafeRAM -> in_bounds (o_ram ob) 0 (py_len bin) = true ->
  exists r m, load_flatbinary bin ((ob, t) : bworld) =
    (r, (mkObjects Class_SafeRAM (set_pc 0 (o_cpu ob)) (with_bytes (o_ram ob) 0 bin) m (o_timer ob) (o_sys ob), t)).
Proof.
  intros Hr Hk Hb. destruct ob as [k c r m tm sy]. simpl in *. subst k.
  unfold load_flatbinary. unfold bind at 1. cbn [store_binary browser_ram by_class fst o_class class_ops SafeRAM_ops].
  unfold zoom at 1. cbn [view put bworld_part fst snd objects_ram o_ram].
  rewrite SafeRAM_store_binary_eq, Hb by done.
  unfold bind, zoom, modify, mget, gets, raise, mset, ret. cbn.
  repeat case_match; simplify_eq; eauto.
Qed.

(** As long as no file is loaded, also after a load that failed, load_file() does not
    reinitialize: the options it is given are ignored, and the new program is laid over the
    memory that is there; every byte outside a flat binary keeps its value. *)
Theorem load_file_overlays (path : string) (opts : option options) s ob regs bin
  (Hi : initialized s = true) (Hf : file_loaded s = false)
  (Ho : es_objects s = Some (ob, regs)) (Hr : wf_ram (o_ram ob)) (Hk : o_class ob = Class_SafeRAM)
  (Hext : py_endswith (py_lower path) ".bin" = true) (Hbin : open_binary path = Ok bin)
  (Hfit : in_bounds (o_ram ob) 0 (py_len bin) = true) :
  let s' := snd (load_file path opts s) in
  es_options s' = es_options s /\
  exists ob', es_objects s' = Some (ob', regs) /\ o_class ob' = Class_SafeRAM /\
    o_ram ob' = with_bytes (o_ram ob) 0 bin.
Proof.
  cbv zeta. rewrite load_file_first, Hi by done. unfold catch, Browser.load_body.
  rewrite (endswith_other _ ".bin" ".elf" Hext) by done. rewrite Hext.
  destruct (flatbinary_ram ob (es_terminal s) bin Hr Hk Hfit) as (r & m & E).
  eassert (with_objects (load_flatbinary bin) s = (r, set_objects (Some (_, regs)) _ s)) as Hw
    by (unfold with_objects; rewrite Ho, E; reflexivity).
  unfold bind, of_res. rewrite Hbin. cbv beta iota. rewrite Hw.
  destruct r as [[]|e]; (split; [done|]); eexists; split_and!; reflexivity.
Qed.
End Sessions.

(** ** The terminal *)

Section Terminal.
Context {J : Type}.
Context (js_write_callback : option (list Z -> ST J unit)).

Implicit Types (ob : objects) (t : terminal J).

Definition is_byte (z : Z) : bool := (0 <=? z) && (z <? 256).

Lemma shift_n_eq n t : (n <= length (inputBuffer t))%nat ->
  shift_n n t = (Ok (map Some (take n (inputBuffer t))),
                 mkTerminal (drop n (inputBuffer t)) (js_state t)).
Proof.
  revert t. induction n as [|n IH]; intros [buf j] Hn; simpl in *; [done|].
  destruct buf as [|b buf]; simpl in *; [lia|]. unfold bind.
  by rewrite (IH (mkTerminal buf j)) by (simpl; lia).
Qed.

Lemma py_bytes_eq l :
  py_bytes (map Some l) = if forallb is_byte l then Ok l else Exn ValueError.
Proof.
  induction l as [|b l IH]; simpl; [done|]. unfold is_byte at 1.
  destruct ((0 <=? b) && (b <? 256)); simpl; [|done]. rewrite IH. by destruct (forallb _ _).
Qed.

(** The objects with a result in a0. *)
Definition with_a0 (v : Z) ob : objects := put (wr 10 v (o_cpu ob)) ob.

Lemma b_arg_eq ob t i : wf_cpu (o_cpu ob) -> 0 <= 10 + i < 32 ->
  arg i ((ob, t) : bworld) = (Ok (rv (o_cpu ob) (10 + i)), (ob, t)).
Proof.
  intros Hc Hi. unfold arg, zoom. cbn [view put bworld_part fst snd].
  rewrite reg_eq by (lia || apply Hc). by destruct ob.
Qed.

Lemma b_result_eq ob t v : wf_cpu (o_cpu ob) ->
  result v ((ob, t) : bworld) = (Ok tt, (with_a0 v ob, t)).
Proof.
  intros Hc. unfold result, zoom. cbn [view put bworld_part fst snd].
  by rewrite set_reg_eq by (lia || apply Hc).
Qed.

Lemma b_store_binary_eq ob t a b : wf_ram (o_ram ob) -> 0 <= a ->
  store_binary a b ((ob, t) : bworld) =
    if stores_at (o_class ob) (o_ram ob) a (py_len b)
    then (Ok tt, (put (with_bytes (o_ram ob) a b) ob, t))
    else (Exn (out_of_bounds a), (ob, t)).
Proof.
  intros Hr Ha. cbn [store_binary browser_ram by_class fst].
  rewrite (class_store_binary _ _ (o_class ob) a b ((ob, t) : bworld)) by done. done.
Qed.

(** C24: reading from the terminal.  An empty input array gives -EAGAIN and changes nothing
    else.  Otherwise the first min(count, available) codes leave the array, in the order of
    the keys, and are stored in the buffer; their number is the result.  When one of them is
    not a byte, or the buffer cannot be stored, the result is -EIO, the memory is unchanged,
    and the codes are lost all the same.  This is so for every memory class: with the checked
    ones a buffer can be stored inside the memory, with the unchecked ones also in the four
    bytes behind it. *)
Theorem terminal_read ob t (Hc : wf_cpu (o_cpu ob)) (Hr : wf_ram (o_ram ob))
  (Hfd : rv (o_cpu ob) 10 = 0) :
  let addr := rv (o_cpu ob) 11 in
  let n := Z.to_nat (Z.min (rv (o_cpu ob) 12) (py_len (inputBuffer t))) in
  let data := take n (inputBuffer t) in
  let t' := mkTerminal (drop n (inputBuffer t)) (js_state t) in
  Browser_handle_read true ((ob, t) : bworld) =
    (Ok tt,
     if py_len (inputBuffer t) =? 0 then (with_a0 (- EAGAIN) ob, t)
     else if forallb is_byte data && stores_at (o_class ob) (o_ram ob) addr (py_len data)
     then (with_a0 (py_len data) (put (with_bytes (o_ram ob) addr data) ob), t')
     else (with_a0 (- EIO) ob, t')).
Proof.
  intros addr n data t'. unfold Browser_handle_read.
  do 3 (unfold bind at 1; rewrite b_arg_eq by (done || lia)).
  change (10 + 0) with 10. change (10 + 1) with 11. change (10 + 2) with 12.
  rewrite Hfd. cbn [Z.eqb]. unfold catch, read_terminal. unfold bind at 1. unfold gets.
  change (view ((ob, t) : bworld)) with t.
  destruct (py_len (inputBuffer t) =? 0) eqn:E; [by rewrite b_result_eq|].
  unfold bind at 1. unfold zoom at 1. change (view ((ob, t) : bworld)) with t. fold n.
  rewrite shift_n_eq by (unfold n, py_len; lia). fold data t'.
  change (put t' ((ob, t) : bworld)) with ((ob, t') : bworld).
  unfold bind at 1. rewrite py_bytes_eq. destruct (forallb is_byte data); [|by rewrite b_result_eq].
  unfold bind at 1. rewrite b_store_binary_eq by (done || apply (rv_u32 _ 11 Hc); lia). fold addr.
  destruct (stores_at _ _ _ _); cbn [andb]; by rewrite b_result_eq.
Qed.
End Terminal.
