(* ===== verification/Witnesses.v ===== *)
(** * Concrete instances

    The theorems of the development applied to concrete machines: a new CPU, 16
    bytes of memory, a UART with buffered bytes, a two-block device, a debugging
    session.  Each instance discharges the hypotheses of its theorem by evaluation,
    so the theorems speak about states that exist. *)

From Stdlib Require Import ZArith Lia Bool Ascii String.
From stdpp Require Import base numbers list option gmap strings.
From S2P Require Import Prelude PyStr Isa Ram Cpu Rvc CpuSem Exec ExecSem ExecSafe RamSafe Core.
From S2P Require Import MemInstr Trap Machine Peripherals World PeriphThms MachineThms Argv.
From S2P Require Import Syscalls SyscallThms GdbPacket Gdb GdbThms.

Local Open Scope Z_scope.
Local Open Scope py_scope.

(** ** Memory *)

Lemma safe_memory_spec_witness :
  SafeRAM_load_word 2 new_ram = (Ok 0, new_ram) /\
  store_ok new_ram 2 4 0xDEADBEEF (SafeRAM_store_word 2 0xDEADBEEF new_ram) /\
  store_ok new_ram 13 4 1 (SafeRAM_store_word 13 1 new_ram).
Proof.
  split_and!.
  - apply (safe_memory_spec new_ram 2 0 true new_ram_wf).
  - apply (safe_memory_spec new_ram 2 0xDEADBEEF true new_ram_wf).
  - apply (safe_memory_spec new_ram 13 1 true new_ram_wf).
Defined.

Lemma safe_word_roundtrip_witness :
  exists r', SafeRAM_store_word 3 0xDEADBEEF new_ram = (Ok tt, r') /\
    SafeRAM_load_word 3 r' = (Ok (0xDEADBEEF mod 2 ^ 32), r') /\
    (forall b, b + 4 <= 3 \/ 3 + 4 <= b ->
       fst (SafeRAM_load_word b r') = fst (SafeRAM_load_word b new_ram)).
Proof. apply (safe_word_roundtrip new_ram 3 0xDEADBEEF new_ram_wf). reflexivity. Defined.

Lemma ram_refines_saferam_witness :
  RAM_load_word 5 new_ram = SafeRAM_load_word 5 new_ram /\
  RAM_store_word 5 7 new_ram = SafeRAM_store_word 5 7 new_ram.
Proof. apply (ram_refines_saferam new_ram 5 7 true new_ram_wf). reflexivity. Defined.

(** ** Instructions *)

(** addi x1, x0, 1 *)
Lemma execute_32_isa_witness : let c := new_cpu true in
  exists o, isa_outcome (rv c) (pc c) 4 (ialign c) 0x00100093 = Some o /\
    execute_32 (R := SafeRAM_ops) None 0x00100093 (c, new_ram) =
    zoom (fun c => commit (set_next_pc (wrap (pc c + 4)) (cache_32 0x00100093 c)) o) (c, new_ram).
Proof.
  intros c. destruct (new_cpu_ready true) as (H1 & H2 & H3). eexists. split.
  - vm_compute. reflexivity.
  - apply (execute_32_isa (R := SafeRAM_ops) None (c, new_ram) 0x00100093);
      [exact H1|exact H2|exact H3|by split|reflexivity|by vm_compute|vm_compute; reflexivity].
Defined.

(** c.li x1, 1 *)
Lemma execute_16_isa_witness : let c := new_cpu true in
  exists i o, rvc_spec 0x4085 = Some i /\ sem (rv c) (pc c) 2 (ialign c) i = Some o /\
    execute_16 (R := SafeRAM_ops) None 0x4085 (c, new_ram) =
    zoom (fun c => commit (set_next_pc (wrap (pc c + 2)) (cache_16 0x4085 c)) o) (c, new_ram).
Proof.
  intros c. destruct (new_cpu_ready true) as (H1 & H2 & H3). eexists _, _. split_and!.
  - vm_compute. reflexivity.
  - vm_compute. reflexivity.
  - exact (execute_16_isa (R := SafeRAM_ops) None (c, new_ram) 0x4085 H1 H2 H3).
Defined.

(** An illegal word. *)
Lemma execute_invariant_witness :
  after (node_inv wf_cpu) (x0_zero (new_cpu false))
    (execute (R := SafeRAM_ops) None 0xFFFFFFFF (new_cpu false, new_ram)).
Proof.
  assert (node_inv wf_cpu (new_cpu false, new_ram)) as Hw
    by (split; [apply new_cpu_ready|apply new_ram_wf]).
  exact (execute_invariant (W := node) (R := SafeRAM_ops) (node_inv wf_cpu) None
    (fun h E => match E with end) 0xFFFFFFFF (new_cpu false, new_ram) ltac:(by split) Hw).
Defined.

Lemma decode_cache_correct_witness :
  execute (R := SafeRAM_ops) None 0x00100093 (new_cpu true, new_ram) =
  execute_decoded (R := SafeRAM_ops) None 0x00100093 4 (decode_fields 0x00100093)
    (cache_32 0x00100093 (new_cpu true), new_ram).
Proof.
  destruct (new_cpu_ready true) as (H1 & H2 & H3).
  assert (node_inv coherent_inv (new_cpu true, new_ram)) as Hw
    by (split; [by split|apply new_ram_wf]).
  exact (proj1 (decode_cache_correct (W := node) (R := SafeRAM_ops) (node_inv coherent_inv) None
    (fun h E => match E with end) 0x00100093 (new_cpu true, new_ram) ltac:(by split) eq_refl Hw)).
Defined.

(** ** Loads, stores and atomics *)

(** lw x5, 4(x0) *)
Lemma load_isa_witness : let c := new_cpu false in
  execute_32 (R := SafeRAM_ops) None 0x00402283 (c, new_ram) =
    (Ok tt, (write_back (Some (5, lop_value LW new_ram 4)) (started 0x00402283 c), new_ram)).
Proof.
  intros c. apply (load_isa None c new_ram 0x00402283 LW 5 0 4);
    [apply new_cpu_ready|apply new_ram_wf|by split|reflexivity|vm_compute; reflexivity].
Defined.

(** sw x0, 4(x0) *)
Lemma store_isa_witness : let c := new_cpu false in
  store_done (started 0x00002223 c) new_ram (wrap (rv c 0 + 4)) 4 (rv c 0)
    (execute_32 (R := SafeRAM_ops) None 0x00002223 (c, new_ram)).
Proof.
  intros c. apply (store_isa None c new_ram 0x00002223 SW 0 0 4);
    [apply new_cpu_ready|apply new_ram_wf|by split|reflexivity|vm_compute; reflexivity].
Defined.

(** amoadd.w x5, x6, (x0) *)
Lemma amo_isa_witness : let c := new_cpu false in
  amo_done (write_back (Some (5, mem_word new_ram (rv c 0)))) (started 0x006022AF c) new_ram (rv c 0)
    (aop_sem AMOADD (mem_word new_ram (rv c 0)) (rv c 6))
    (execute_32 (R := SafeRAM_ops) None 0x006022AF (c, new_ram)).
Proof.
  intros c. apply (amo_isa None c new_ram 0x006022AF AMOADD 5 0 6);
    [apply new_cpu_ready|apply new_ram_wf|by split|reflexivity|vm_compute; reflexivity|done|done|].
  reflexivity.
Defined.

(** lr.w x5, (x0); sc.w x6, x7, (x0) *)
Lemma lr_sc_witness : let c := new_cpu false in
  exists c1, execute_32 (R := SafeRAM_ops) None 0x100022AF (c, new_ram) = (Ok tt, (c1, new_ram)) /\
    (rv c1 0 = rv c 0 ->
     amo_done (write_back (Some (6, 0))) (started 0x1870232F c1) new_ram (rv c 0) (rv c1 7)
       (execute_32 (R := SafeRAM_ops) None 0x1870232F (c1, new_ram))).
Proof.
  intros c. destruct (lr_sc None c new_ram 0x100022AF 0x1870232F 5 0 0 6 0 7) as (c1 & E & H & _);
    [apply new_cpu_ready|apply new_ram_wf|..].
  - split_and!; [by split..|reflexivity|vm_compute; reflexivity].
  - split_and!; [by split..|reflexivity|vm_compute; reflexivity].
  - reflexivity.
  - reflexivity.
  - exact (ex_intro _ c1 (conj E H)).
Defined.

(** ** Traps and CSRs *)

(** A new CPU with a trap handler at 0x100. *)
Definition trap_cpu : cpu := wc 0x305 0x100 (new_cpu false).

Lemma trap_cpu_wf : wf_cpu trap_cpu.
Proof. apply wc_wf; [apply new_cpu_ready|by split]. Qed.

Lemma trap_cpu_mtvec : cv trap_cpu 0x305 = 0x100.
Proof.
  unfold trap_cpu. rewrite cv_wc by (lia || apply wf_csrs_len, new_cpu_ready). reflexivity.
Qed.

Lemma trap_mret_roundtrip_witness :
  exists c1 c2, trap 11 0 true trap_cpu = (Ok tt, c1) /\ exec_MRET c1 = (Ok tt, c2) /\
    cv c1 0x342 = 11 /\ next_pc c2 = 0.
Proof.
  destruct (trap_mret_roundtrip trap_cpu 11 0 true trap_cpu_wf) as
    (c1 & c2 & E1 & E2 & _ & _ & Hcause & _ & _ & _ & Hpc & _);
    [by split|by split|by rewrite trap_cpu_mtvec|reflexivity|].
  exists c1, c2. split_and!; [exact E1|exact E2|exact Hcause|exact Hpc].
Defined.

Lemma timer_interrupt_witness : let c := new_cpu false in
  timer_update c =
    (if timer_fires c then trap 0x80000007 0 false (ticked c) else (Ok tt, ticked c)) /\
  mtime (ticked c) = mtime c + 1.
Proof.
  intros c. destruct (timer_interrupt c (proj1 (new_cpu_ready false))) as (H1 & H2 & _).
  exact (conj H1 H2).
Defined.

(** csrrw x5, mscratch, x6 *)
Lemma csr_instructions_witness : let c := new_cpu false in
  exec_CSR 0x340312F3 5 1 6 c =
    (Ok tt, write_back (Some (5, cv c 0x340)) (csr_write CSRRW 0x340 (csr_operand c (CReg 6)) c)).
Proof.
  intros c. apply (csr_instructions c 0x340312F3 5 1 6 CSRRW (CReg 6) 0x340);
    [apply new_cpu_ready|lia|lia|reflexivity|reflexivity].
Defined.

(** csrrw x0, marchid, x1 *)
Lemma readonly_csr_is_written_witness :
  exists c', exec_CSR 0xF1209073 0 1 1 trap_cpu = (Ok tt, c') /\ cv c' 0x342 = 2 /\
    cv c' (field 0xF1209073 20 12) = rv trap_cpu 1.
Proof.
  destruct (readonly_csr_is_written trap_cpu 0xF1209073 0 1 trap_cpu_wf) as (c' & E & _ & H);
    [lia|lia|by split|reflexivity|by rewrite trap_cpu_mtvec|].
  exact (ex_intro _ c' (conj E H)).
Defined.

(** ** Peripherals *)

Lemma timer_mtime_atomic_witness : let c := new_cpu false in
  exists t1 t2, MMIOTimer_write32 REG_MTIME_LO 5 (c, MMIOTimer_init) = (Ok tt, (c, t1)) /\
    MMIOTimer_write32 REG_MTIME_HI 1 (c, t1) = (Ok tt, (set_mtime (1 * 2 ^ 32 + 5) c, t2)).
Proof.
  intros c. destruct (timer_mtime_atomic c MMIOTimer_init 5 1) as [(t1 & t2 & E1 & E2 & _) _];
    [by split|by split|by split|].
  exists t1, t2. exact (conj E1 E2).
Defined.

Lemma timer_mtimecmp_halves_witness : let c := new_cpu false in
  MMIOTimer_write32 REG_MTIMECMP_LO 7 (c, MMIOTimer_init) =
    (Ok tt, (set_mtimecmp (mtimecmp c / 2 ^ 32 * 2 ^ 32 + 7) c, MMIOTimer_init)).
Proof.
  intros c. apply (timer_mtimecmp_halves c MMIOTimer_init 7);
    [by split|apply wf_mtimecmp, new_cpu_ready|reflexivity].
Defined.

Lemma uart_fifo_witness :
  let ops := [ReadRX; WriteTX 0x141; Poll; WriteTX 0x42; ReadRX; WriteTX 0x43] in
  let u := mkUart 0 [65] [None; Some (RxData [66; 67])] [TxAccepted; TxBlocking] [] in
  let '(delivered, u') := uart_steps ops u in
  (exists ev, pty_events u = ev ++ pty_events u' /\
    delivered ++ rx_buf u' = rx_buf u ++ host_data ev) /\
  pty_written u' = [0x41; 0x43].
Proof.
  apply (uart_fifo [ReadRX; WriteTX 0x141; Poll; WriteTX 0x42; ReadRX; WriteTX 0x43]
    (mkUart 0 [65] [None; Some (RxData [66; 67])] [TxAccepted; TxBlocking] [])).
  split; repeat constructor; done.
Defined.

(** A write of block 1 of a device of two blocks of four bytes; the host fails with the next
    command. *)
Lemma block_device_array_witness :
  let d := mkBlk 0 4 2 1 1 0 0 (replicate 8 7) [DiskDone; DiskFailed 2] in
  let d1 := set_disk_events [DiskFailed 2] d in
  exists img, execute_cmd (R := SafeRAM_ops) (d, new_ram) =
      (Ok tt, (set_status 1 (set_image img d1), new_ram)) /\
    block img 4 1 = bytes_at new_ram 0 4.
Proof.
  intros d d1. destruct (block_device_array true d new_ram new_ram_wf) as (_ & _ & H & _);
    [reflexivity|split; [reflexivity|by repeat constructor]|done|].
  destruct H as (img & _ & _ & E & Hb); [reflexivity..|].
  exact (ex_intro _ img (conj E Hb)).
Defined.

(** ** The machine *)

Lemma fetch_agree_witness : let w := (new_cpu true, new_ram) in
  (inst <- fetch_word (R := SafeRAM_ops) ;; execute_by_length (R := SafeRAM_ops) None inst) w =
  (inst <- fetch_halves (R := SafeRAM_ops) ;; execute (R := SafeRAM_ops) None inst) w.
Proof.
  intros w. apply (fetch_agree None w); [apply new_ram_wf|reflexivity|reflexivity].
Defined.

(** A world without peripherals, whose memory has 64 bytes. *)
Definition ram64 : ram := from_ok (mkRam [] 0 0 []) (RAM_init (fun _ => 0) 64 0 None).
Definition machine64 : machine :=
  mkMachine true false true false false None true (Some "early"%string) true []
    None None (Some 0) None None None ∅ None.
Definition world64 : world :=
  mkWorld (new_cpu true) ram64 machine64 MMIOTimer_init (PtyUART_init 0 [] [])
    (MMIOBlockDevice_init 0 4 2 None []).

Lemma ram64_wf : wf_ram ram64.
Proof. split; [|done..]. repeat (apply Forall_cons; split; [by split|]). by apply Forall_nil. Qed.

Lemma run_invariant_witness :
  match run (R := SafeRAM_ops) None (fun _ => ret tt) 100 world64 with
  | (Ok _, w') => world_inv wf_cpu w' /\ wf_cpu (view w')
  | (Exn e, w') => world_inv wf_cpu w' /\ wf_cpu (view w') /\ machine_error e
  end.
Proof.
  assert (world_inv wf_cpu world64) as Hw
    by (split_and!; [apply new_cpu_ready|apply ram64_wf|done]).
  pose proof (run_invariant (W := world) (R := SafeRAM_ops) (world_inv wf_cpu) None (fun _ => ret tt)
    (fun h E => match E with end)) as H.
  specialize (H (fun p => keeps_ret _ _ tt _ I)).
  assert (forall w m, world_inv wf_cpu w -> start_checks m <> None ->
    world_inv wf_cpu (put m w)) as H1 by (by intros w m (? & ? & ?)).
  assert (forall w, world_inv wf_cpu w -> start_checks (view (A := machine) w) <> None) as H2
    by (by intros w (? & ? & ?)).
  exact (H H1 H2 100%nat world64 Hw).
Defined.

Lemma check_invariants_exact_witness :
  verdict (invariants_hold world64) world64 (check_invariants (R := SafeRAM_ops) world64).
Proof.
  apply (check_invariants_exact (R := SafeRAM_ops) world64); [apply new_cpu_ready|reflexivity].
Defined.

Lemma setup_argv_layout_witness : let argv := [[97]; [98; 99]] in
  exists w', setup_argv (R := SafeRAM_ops) argv world64 = (Ok tt, w') /\
    Forall2 (cstring_at (w_ram w')) (arg_pointers 0 argv) argv /\ rv (w_cpu w') 10 = 2.
Proof.
  intros argv. destruct (setup_argv_layout world64 argv 0) as (w' & E & H & _ & _ & H10 & _);
    [apply new_cpu_ready|apply ram64_wf|reflexivity|lia|repeat constructor; lia|by vm_compute|].
  exact (ex_intro _ w' (conj E (conj H H10))).
Defined.

(** ** System calls *)

(** A host that can open any file as descriptor 42. *)
#[local] Instance host42 : Host unit := {|
  host_print _ := ret tt;
  host_input := ret None;
  host_read_char := ret (Some 10);
  os_write _ data := ret (Done (py_len data));
  os_read _ _ := ret (Done [1; 2; 3]);
  os_open _ _ _ := ret (Done 42);
  os_close _ := ret (Done tt);
  os_lseek _ _ _ := ret (Done 0);
  os_fstat _ := ret (Done (0, 0));
  os_umask _ := ret 18;
  os_mkdir _ _ := ret (Done tt);
  os_rmdir _ := ret (Done tt);
  os_unlink _ := ret (Done tt)
|}.

Definition sys0 : syscalls := SyscallHandler_init true false 0 1 2.

(** The machine with a heap from 0 and a stack from 32 on. *)
Definition world_heap : world :=
  put (set_stack_bottom (Some 32) machine64) world64.

Lemma sbrk_bounds_witness :
  exists w' heap', handle_sbrk ((world_heap, (sys0, tt)) : guest (H := unit)) =
      (Ok tt, (w', (sys0, tt))) /\
    heap_end (w_machine w') = Some heap' /\ heap' < 32 /\ 0 <= heap'.
Proof.
  destruct (sbrk_bounds world_heap sys0 tt 32 0) as (w' & heap' & E & Hh & Hb & Hu & _);
    [reflexivity|reflexivity|reflexivity|reflexivity|].
  exists w', heap'. split_and!; [exact E|exact Hh|exact Hb|apply Hu, (rv_u32 _ 10), new_cpu_ready].
Defined.

(** a0 is AT_FDCWD, a1 points to an empty string. *)
Definition world_open : world := put (wr 10 0xFFFFFF9C (new_cpu true)) world64.

Lemma world_open_wf : wf_cpu (w_cpu world_open).
Proof. apply wr_wf; [apply new_cpu_ready|by split]. Qed.

Lemma open_close_roundtrip_witness :
  exists w1 s1 w2 s2,
    handle_openat ((world_open, (sys0, tt)) : guest (H := unit)) = (Ok tt, (w1, (s1, tt))) /\
    rv (w_cpu w1) 10 = 3 /\
    handle_close ((w1, (s1, tt)) : guest (H := unit)) = (Ok tt, (w2, (s2, tt))) /\
    fd_map s2 = fd_map sys0.
Proof.
  destruct (open_close_roundtrip host42 world_open sys0 tt tt tt tt tt [] 18 18 42)
    as (w1 & s1 & w2 & s2 & E1 & H10 & _ & _ & _ & E2 & _ & Hm & _).
  - apply world_open_wf.
  - intros fd Hfd. simpl in Hfd. cbn [fd_map sys0 SyscallHandler_init].
    by rewrite !lookup_insert_ne by lia.
  - by split.
  - reflexivity.
  - reflexivity.
  - reflexivity.
  - reflexivity.
  - reflexivity.
  - reflexivity.
  - exact (ex_intro _ w1 (ex_intro _ s1 (ex_intro _ w2 (ex_intro _ s2
      (conj E1 (conj H10 (conj E2 Hm))))))).
Defined.

(** a0 is descriptor 3, a1 address 0, a2 the count 0. *)
Definition world_file : world := put (wr 10 3 (new_cpu true)) world64.

Lemma file_transfer_witness :
  let s := opened 42 sys0 in
  handle_read ((world_file, (s, tt)) : guest (H := unit)) =
    (Ok tt, (with_cpu (put (with_bytes ram64 0 [1; 2; 3]) world_file)
               (wr 10 3 (w_cpu world_file)), (s, tt))).
Proof.
  intros s.
  assert (wf_cpu (w_cpu world_file)) as Hc by (apply wr_wf; [apply new_cpu_ready|by split]).
  destruct (file_transfer host42 world_file s tt tt 42 0 [1; 2; 3] Hc ram64_wf) as (_ & _ & H & _);
    [reflexivity|reflexivity|].
  exact (H eq_refl).
Defined.

Lemma error_result_negative_witness :
  let w' := with_cpu world_file (wr 10 (- EBADF) (w_cpu world_file)) in
  handle_close ((world_file, (sys0, tt)) : guest (H := unit)) = (Ok tt, (w', (sys0, tt))) /\
  rv (w_cpu w') 10 = -9 /\ ~ wf_cpu (w_cpu w').
Proof.
  assert (wf_cpu (w_cpu world_file)) as Hc by (apply wr_wf; [apply new_cpu_ready|by split]).
  destruct (error_result_negative host42 world_file sys0 tt Hc) as (E & H); [reflexivity|].
  exact (conj E H).
Defined.

(** ** The debugger *)

Lemma packet_corruption_detected_witness :
  decode (chr 36 :: ([] ++ chr 104 :: []) ++ chr 35 :: hex2 (checksum (escape (lit "g")))) = None.
Proof. apply (packet_corruption_detected (lit "g") [] [] (chr 103) (chr 104)); done. Defined.

Definition world_gdb : dworld := (world64, (GDBStub_init, mkConn [] false [])).

Lemma gdb_registers_roundtrip_witness :
  let vs := replicate 33 0x12345678 in
  let w' := put (with_registers vs (view world_gdb)) world_gdb in
  handle_command (R := SafeRAM_ops) (fun _ _ => []) (lit "g") w' =
    (Ok (Some (concat (map hex_le (rv (view world_gdb) 0 :: drop 1 vs)))), w').
Proof.
  intros vs. destruct (gdb_registers_roundtrip (W := dworld) (R := SafeRAM_ops) (fun _ _ => [])
    world_gdb vs) as [_ H];
    [apply new_cpu_ready|reflexivity|by apply Forall_replicate|exact H].
Defined.

(** Register 833 is mstatus. *)
Lemma gdb_register_access_witness :
  handle_command (R := SafeRAM_ops) (fun _ _ => []) (lit "p" ++ lit "341") world_gdb =
    (Ok (Some (from_option hex_le (lit "E01") (reg_view (view world_gdb) 833))), world_gdb).
Proof.
  destruct (gdb_register_access (W := dworld) (R := SafeRAM_ops) (fun _ _ => []) world_gdb
    (lit "341") 833 0) as [H _];
    [apply new_cpu_ready|reflexivity|lia|by repeat constructor|by split|exact H].
Defined.

Lemma gdb_memory_access_witness :
  let w' := put (with_bytes (view world_gdb) 2 (take (fitting (view world_gdb) 2 [1; 2; 3]) [1; 2; 3]))
              world_gdb in
  handle_command (R := SafeRAM_ops) (fun _ _ => []) (lit "m" ++ lit "2" ++ lit "," ++ lit "3") w' =
    (Ok (Some (concat (map hex2 [1; 2; 3]))), w').
Proof.
  destruct (gdb_memory_access (W := dworld) (fun _ _ => []) world_gdb (lit "2") (lit "3") 2 [1; 2; 3])
    as (_ & _ & H);
    [apply ram64_wf|by repeat constructor|done|reflexivity|reflexivity|by repeat constructor|].
  exact (H eq_refl).
Defined.

(** The same machine with the invariant checks off. *)
Definition world_plain : dworld :=
  put (mkMachine true false true false false None false (Some "early"%string) false []
         None None (Some 0) None None None ∅ None) world_gdb.

Lemma gdb_round_transparent_witness :
  gdb_round (R := SafeRAM_ops) None (fun _ => ret tt) (timer (view world_plain))
    (mmio (view world_plain)) (0, 0) world_plain =
    (div <- step_with_checks (R := SafeRAM_ops) None (fun _ => ret tt) [] 0 ;; ret (0 + 1, div))
      world_plain.
Proof.
  assert (pc (view world_plain) ∉ sw_breakpoints (view world_plain)) as Hbp
    by (apply not_elem_of_empty).
  assert (Z.land (0 + 1) 0xFFF <> 0) as Hpoll by done.
  exact (gdb_round_transparent None (fun _ => ret tt) world_plain 0 0 ram64_wf (or_introl eq_refl) eq_refl
    Hbp Hpoll).
Defined.

(** A fetch outside the memory. *)
Lemma gdb_stop_reported_witness :
  let w := mkWorld (set_pc 64 (new_cpu true)) ram64 machine64 MMIOTimer_init (PtyUART_init 0 [] [])
             (MMIOBlockDevice_init 0 4 2 None []) in
  let s := mkStub true false SIGTRAP ∅ in
  gdb_run (R := SafeRAM_ops) None (fun _ => ret tt) 1 (w, (s, mkConn [] false [])) =
    (Ok Ready, (w, (mkStub false false SIGSEGV ∅, mkConn [] false (stop_packet SIGSEGV)))).
Proof.
  intros w s.
  apply (gdb_stop_reported (R := SafeRAM_ops) None (fun _ => ret tt) w w s s (mkConn [] false [])
           (mkConn [] false []) 1 (out_of_bounds 64)); [|done|by split].
  reflexivity.
Defined.

Lemma gdb_session_breakpoint_witness :
  let s := mkStub false false SIGTRAP {[0]} in
  let c' := mkConn [] false (lit "+") in
  gdb_command (R := SafeRAM_ops) None (fun _ => ret tt) (fun _ _ => []) 5
    (world64, (s, mkConn [lit "$c#63"] false [])) =
    (Ok Ready, (world64, (mkStub false false SIGTRAP (sw_breakpoints s),
       mkConn (rx c') (rx_reset c') (tx c' ++ stop_packet SIGTRAP)))).
Proof.
  intros s c'.
  assert (recv_packet (mkConn [lit "$c#63"] false []) = (Ok (Some (lit "c")), c')) as Hrecv
    by reflexivity.
  assert (pc (w_cpu world64) ∈ sw_breakpoints s) as Hbp.
  { change (0 ∈ ({[0]} : gset Z)). by apply elem_of_singleton. }
  exact (gdb_session_breakpoint (R := SafeRAM_ops) None (fun _ => ret tt) (fun _ _ => []) world64 s
    (mkConn [lit "$c#63"] false []) c' 4 Hrecv Hbp).
Defined.
