(* ===== verification/AppWitnesses.v ===== *)
(** * Concrete instances: sessions, tests and devices

    A web session that loads the four bytes of "j ." from a flat binary, a configuration
    of the command line, a test of three instructions, a guest that waits for the timer:
    the theorems about the programs around the emulator, applied. *)

From Stdlib Require Import ZArith Lia Bool Ascii String.
From stdpp Require Import base numbers list option gmap strings.
From S2P Require Import CommandLine Prelude PyStr Isa Ram Cpu Rvc CpuSem Exec ExecSem ExecSafe RamSafe Core.
From S2P Require Import IsaMachine IsaRefine Lift IsaRun IsaMonitor Hosted.
From S2P Require Import MemInstr Trap Machine Peripherals World MachineThms Syscalls MemClass MmioSafe.
From S2P Require Import GdbPacket Gdb Robust SyscallSafe Log ArgParse Emu EmuThms EmuSafe EmuBoot Unix EmuIsa.
From S2P Require Import Board BoardRefine HostedBoard EmuBoard Script ScriptThms.
From S2P Require Import UnitTests Liveness BrowserSyscalls Browser BrowserThms Witnesses.

Local Open Scope Z_scope.
Local Open Scope py_scope.

(** ** A program on the reference machine *)

(** "li a0, 40; addi a0, a0, 2; sw a0, 48(zero); lw a1, 48(zero); j ." with the compressed
    form of the second instruction, in 64 bytes of memory with the timer. *)
Definition isa_program : list Z :=
  [0x13; 0x05; 0x80; 0x02;  0x09; 0x05;  0x23; 0x28; 0xA0; 0x02;
   0x83; 0x25; 0x00; 0x03;  0x01; 0xA0].

Definition isa_ram : ram := mkRam (isa_program ++ replicate 52 0) 64 0 [].

Definition isa_machine : machine :=
  mkMachine true false true false false None false None false []
    None None None None None None ∅ None.

Definition isa_world : world :=
  mkWorld (new_cpu true) isa_ram isa_machine MMIOTimer_init (PtyUART_init 0 [] [])
    (MMIOBlockDevice_init 0 4 2 None []).

Lemma isa_ram_wf : wf_ram isa_ram.
Proof. split; [|done..]. repeat (apply Forall_cons; split; [by split|]). by apply Forall_nil. Qed.

Lemma isa_world_ready : isa_ready (node_of isa_world).
Proof.
  split; [apply new_cpu_ready|apply isa_ram_wf|vm_compute; reflexivity|vm_compute; reflexivity].
Qed.

Abbreviation isa_platform := (mkPlatform 64 true true true).

Lemma run_refines_isa_witness :
  exists nd, run (R := SafeRAM_ops) None (fun _ => ret tt) 7 isa_world = (Ok tt, with_node nd isa_world) /\
    rv (fst nd) 11 = 42 /\ pc (fst nd) = 14 /\ mtime (fst nd) = 7.
Proof.
  pose proof (run_refines_isa stops SafeRAM_ops (fun msg H => H) None (fun _ => ret tt) 7 isa_world
    isa_world_ready) as H. cbv zeta in H.
  change (mkPlatform (size (view isa_world)) (rvc_enabled (view isa_world)) true
            (timer (view isa_world))) with isa_platform in H.
  assert (match isa_run isa_platform 7 (hart_of (node_of isa_world)) with
          | IsaMachine.Running h => x h 11 = 42 /\ hpc h = 14 /\ htime h = 7
          | _ => False
          end) as E by (vm_compute; repeat split; reflexivity).
  destruct (isa_run isa_platform 7 (hart_of (node_of isa_world))) as [h|s h|]; [|destruct E..].
  destruct H as (nd & E1 & Ha & Hpc); [split; reflexivity|reflexivity|].
  destruct E as (E2 & E3 & E4). exists nd. split; [exact E1|]. split_and!.
  - rewrite <- (ag_x Ha 11) by lia. exact E2.
  - rewrite Hpc. exact E3.
  - rewrite <- (ag_time Ha). exact E4.
Defined.

(** The same program with --check-inv. *)
Definition checked_world : world :=
  mkWorld (new_cpu true) isa_ram
    (mkMachine true false true false false None true (Some "early"%string) false []
       None None None None None None ∅ None)
    MMIOTimer_init (PtyUART_init 0 [] []) (MMIOBlockDevice_init 0 4 2 None []).

Lemma monitored_run_refines_isa_witness :
  let '(r, w') := run (R := SafeRAM_ops) None (fun _ => ret tt) 7 checked_world in
  r = Ok tt /\ rv (w_cpu w') 11 = 42 /\ pc (w_cpu w') = 14.
Proof.
  pose proof (monitored_run_refines_isa SafeRAM_ops None (fun _ => ret tt) 7 checked_world) as H.
  cbv zeta in H.
  change (mkPlatform (size (view checked_world)) (rvc_enabled (view checked_world)) false
            (timer (view checked_world))) with (mkPlatform 64 true false true) in H.
  assert (match isa_run (mkPlatform 64 true false true) 7 (hart_of (node_of checked_world)) with
          | IsaMachine.Running h => x h 11 = 42 /\ hpc h = 14
          | _ => False
          end) as E by (vm_compute; repeat split; reflexivity).
  assert (fst (run (R := SafeRAM_ops) None (fun _ => ret tt) 7 checked_world) = Ok tt) as Er
    by (vm_compute; reflexivity).
  specialize (H isa_world_ready eq_refl eq_refl eq_refl ltac:(discriminate) eq_refl).
  destruct (run (R := SafeRAM_ops) None (fun _ => ret tt) 7 checked_world) as [r w'].
  cbn [fst] in Er. subst r. split; [reflexivity|].
  destruct (isa_run _ 7 (hart_of (node_of checked_world))) as [h|s h|]; [|destruct E..].
  destruct H as [Ha Hpc], E as [E1 E2]. split.
  - rewrite <- E1. symmetry. apply (ag_x Ha 11). lia.
  - rewrite <- E2. exact Hpc.
Defined.

(** ** The web application *)

(** Every path holds the instruction "j ."; there are no ELF files. *)
Definition page_binary (path : string) : res (list Z) := Ok [0x6F; 0; 0; 0].
Definition page_elf (path : string) : res elf_file := Exn OSError.

Definition page_options : options :=
  mkOptions None None (Some true) None None (Some true) None (Some 64).

Abbreviation page_serve := (serve (J := unit) None true page_binary page_elf).

Definition page_initialized : emulator (J := unit) :=
  snd (page_serve (Initialize page_options) (EmulatorState_init (mkTerminal [] tt))).
Definition page_loaded : emulator (J := unit) :=
  snd (page_serve (LoadFile "/tmp/a.bin" None) page_initialized).
Definition page_started : emulator (J := unit) := snd (page_serve Start page_loaded).

Lemma page_reachable : reachable None true page_binary page_elf page_started.
Proof. repeat apply reach_serve. apply reach_boot. Qed.

Lemma page_start : start page_loaded = (Ok tt, page_started).
Proof. vm_compute. reflexivity. Qed.

Lemma chunks_and_pauses_witness :
  run_segments None true [(false, 2%nat); (true, 3%nat); (false, 1%nat)] page_started =
    run_chunk None true 6 page_started /\
  fst (run_chunk None true 6 page_started) = Ok true.
Proof.
  split; [|vm_compute; reflexivity].
  apply (chunks_and_pauses None true [(false, 2%nat); (true, 3%nat); (false, 1%nat)] page_loaded);
    [vm_compute; reflexivity|exact page_start|discriminate].
Defined.

Lemma session_invariant_witness : session_ok page_started /\ running page_started = true.
Proof.
  split; [|vm_compute; reflexivity].
  apply (session_invariant None true page_binary page_elf). exact page_reachable.
Defined.

Lemma run_chunk_contained_witness :
  match run_chunk None true 5 page_started with
  | (Ok true, s') => running s' = true /\ instruction_count s' = 0 + 5
  | _ => False
  end.
Proof.
  pose proof (run_chunk_contained None true page_binary page_elf 5 page_started page_reachable) as H.
  assert (fst (run_chunk None true 5 page_started) = Ok true) as E by (vm_compute; reflexivity).
  assert (instruction_count page_started = 0) as Hc by (vm_compute; reflexivity).
  rewrite Hc in H. destruct (run_chunk None true 5 page_started) as [[[]|e] s'];
    [exact H|discriminate E|discriminate E].
Defined.

Lemma reset_fresh_witness :
  let fresh := (initialize page_options ;;; load_file page_binary page_elf "/tmp/a.bin" None)
                 (EmulatorState_init (mkTerminal [] tt)) in
  fst (reset page_binary page_elf page_started) = Ok true /\
  same_machine (snd (reset page_binary page_elf page_started)) (snd fresh).
Proof.
  intros fresh.
  pose proof (reset_fresh page_binary page_elf "/tmp/a.bin" page_started) as H. cbv zeta in H.
  assert (es_options page_started = page_options) as Eo by (vm_compute; reflexivity).
  assert (es_terminal page_started = mkTerminal [] tt) as Et by (vm_compute; reflexivity).
  rewrite Eo, Et in H. fold fresh in H.
  assert (fst fresh = Ok true) as E by (vm_compute; reflexivity). rewrite E in H.
  apply H; [vm_compute; reflexivity|vm_compute; reflexivity|discriminate].
Defined.

(** A read of four bytes to address 16 when two keys have been pressed. *)
Definition machine_page : machine :=
  mkMachine false false true true false None false None false []
    None None None None None None ∅ None.
Definition objects_page : objects :=
  mkObjects Class_SafeRAM (wr 12 4 (wr 11 16 (new_cpu true))) ram64 machine_page MMIOTimer_init
    BrowserSyscallHandler_init.

Lemma objects_page_wf : wf_cpu (o_cpu objects_page).
Proof. apply wr_wf; [apply wr_wf; [apply new_cpu_ready|by split]|by split]. Qed.

Lemma terminal_read_witness :
  Browser_handle_read true ((objects_page, mkTerminal [104; 105] tt) : bworld (J := unit)) =
    (Ok tt, (with_a0 2 (put (with_bytes ram64 16 [104; 105]) objects_page), mkTerminal [] tt)).
Proof.
  pose proof (terminal_read objects_page (mkTerminal [104; 105] tt) objects_page_wf ram64_wf) as H.
  apply H. vm_compute. reflexivity.
Defined.

(** ** The command line *)

(** A program with the UART, a disk of one block, all checks and 1 kB of memory. *)
Definition args_all : args :=
  mkArgs (codes "/bin/a.elf") None false false false false true "auto" "zero" "0xAA" 1 true None
    true (Some (codes "disk")) 1 false false [codes "x"].

Definition world_all : world :=
  from_ok (mkWorld (new_cpu true) ram64 machine_page MMIOTimer_init (PtyUART_init 0 [] [])
             no_blkdev)
    (build (fun _ => 0) (fun _ => 0) [None; Some (RxData [10])] [] [] (fun _ => None) args_all).

Lemma world_all_build :
  build (fun _ => 0) (fun _ => 0) [None; Some (RxData [10])] [] [] (fun _ => None) args_all = Ok world_all.
Proof. vm_compute. reflexivity. Qed.

Lemma build_well_formed_witness :
  mmio_inv machine_error world_all /\ size (w_ram world_all) = 1024 /\
  mmio_ranges (w_ram world_all) =
    [(0x10000000, 0x10000008, PtyUART); (0x10010000, 0x10010014, MMIOBlockDevice)].
Proof.
  destruct (build_well_formed (fun _ => 0) (fun _ => 0) [None; Some (RxData [10])] []
    [] (fun _ => None) machine_error args_all world_all) as (_ & _ & H1 & H2 & _ & _ & H3);
    [by split|by split|simpl; lia|repeat constructor; done|constructor|constructor|done|exact world_all_build|].
  exact (conj (H3 eq_refl) (conj H1 H2)).
Defined.

(** A flat binary that exits with the code 42: the process ends with the status 0. *)
Definition args_bin : args :=
  mkArgs (codes "a.bin") None false false false false false "auto" "zero" "zero" 1 false None
    false None 0 false false [].

Definition exit_binary : list Z := [0x13; 0x05; 0xA0; 0x02; 0x93; 0x08; 0xD0; 0x05; 0x73; 0; 0; 0].

Abbreviation main_on binary elf :=
  (main host42 (fun _ => 0) (fun _ => 0) [] [] [] (fun _ => None) (fun _ => binary) (fun _ => elf)
     (fun _ _ => [])).

Example main_exit :
  fst (main_on (Ok exit_binary) (Exn OSError) args_bin 0 1 2 (mkConn [] false []) tt 10) = ExitStatus 0.
Proof. vm_compute. reflexivity. Qed.

(** The same program started with the extension of an unknown format. *)
Example main_unknown :
  fst (main_on (Ok []) (Exn OSError)
         (mkArgs (codes "a.txt") None false false false false false "auto" "zero" "zero" 1 false None
            false None 0 false false []) 0 1 2 (mkConn [] false []) tt 10) =
  ExitStatus 1.
Proof. vm_compute. reflexivity. Qed.

(** A host and files that provoke no exception of Python. *)
#[local] Instance no_lapses : Lapses := fun _ => False.

Lemma host42_safe : HostSafe (HO := host42) (fun _ : unit => True).
Proof.
  split; intros; intros [] _; split; try done; simpl; try by left.
  all: repeat (apply Forall_cons; split; [by split|]); by apply Forall_nil.
Qed.

Lemma surroundings42 : surroundings host42 (fun _ => 0) (fun _ => 0) [] (fun _ => None)
  (fun _ => Ok exit_binary) (fun _ => Exn OSError).
Proof.
  split; [by split|by split|done|done| |by right; right; left|exact host42_safe].
  intros _. repeat (apply Forall_cons; split; [by split|]). by apply Forall_nil.
Qed.

(** The program of the reference machine above as a flat binary, with 1 kB of memory, the
    timer, compressed instructions and --check-ram. *)
Example flat_program :
  match main_on (Ok isa_program) (Exn OSError)
          (mkArgs (codes "a.bin") None false false true false false "auto" "zero" "zero" 1 true
             (Some TimerCsr) false None 0 false false []) 0 1 2 (mkConn [] false []) tt 7 with
  | (Running, Some p) => rv (view p) 11 = 42 /\ mem_byte (view p) 48 = 42 /\ pc (view p) = 14
  | _ => False
  end.
Proof. vm_compute. repeat split; reflexivity. Qed.

Abbreviation bare_platform := (mkPlatform 1024 true true true).

(** A terminal that keeps what is printed. *)
Definition host_log : Host (list Z) := {|
  host_print data := fun out => (Ok tt, out ++ data);
  host_input := ret None;
  host_read_char := ret None;
  os_write _ data := ret (Done (py_len data));
  os_read _ _ := ret (Done []);
  os_open _ _ _ := ret (Fail ENOENT);
  os_close _ := ret (Done tt);
  os_lseek _ _ _ := ret (Done 0);
  os_fstat _ := ret (Done (0, 0));
  os_umask m := ret m;
  os_mkdir _ _ := ret (Done tt);
  os_rmdir _ := ret (Done tt);
  os_unlink _ := ret (Done tt)
|}.

(** write(1, argv[1], 1); exit(sbrk(16)), in two segments of an ELF file with a heap. *)
Definition isa_elf : elf_file :=
  mkElf [(0x40, [0x13; 0x05; 0x10; 0x00; 0x13; 0x06; 0x10; 0x00; 0x93; 0x08; 0x00; 0x04; 0x73; 0x00; 0x00; 0x00;
                 0x13; 0x05; 0x00; 0x01; 0x93; 0x08; 0x60; 0x0D; 0x73; 0x00; 0x00; 0x00;
                 0x93; 0x08; 0xD0; 0x05; 0x73; 0x00; 0x00; 0x00]);
         (0x3C, [0x83; 0xA5; 0x45; 0x00])] 0x3C
    (Some [mkSym "main" 0x3C true; mkSym "__heap_start" 0x100 false; mkSym "__stack_bottom" 0x300 false])
    (Some (0x3C, 40)).

Definition args_isa : args :=
  mkArgs (codes "d/a.elf") None false false true true false "auto" "zero" "zero" 1 true
    (Some TimerCsr) false None 0 false false [codes "x"].

(** "a.elf" and "x" with their zeros, and the table. *)
Definition isa_image : image :=
  mkImage (pt_load isa_elf ++
           [(0x100, [97; 46; 101; 108; 102; 0]); (0x108, [120; 0]);
            (0x10C, [0; 1; 0; 0]); (0x110, [8; 1; 0; 0]); (0x114, [0; 0; 0; 0])])
    0x3C (Some (2, 0x10C)) (Some 0x118) (Some 0x300).

Lemma isa_image_ok : image_ok 1024 2 isa_image.
Proof.
  split; [|by split|reflexivity|by repeat split].
  repeat constructor; (apply (bool_decide_unpack _); vm_compute; exact I).
Qed.

Lemma emulator_runs_isa_witness :
  exists p', main host_log (fun _ => 0) (fun _ => 0) [] [] [] (fun _ => None) (fun _ => Exn OSError)
      (fun _ => Ok isa_elf) (fun _ _ => []) args_isa 0 1 2 (mkConn [] false []) [] 10 =
      (ExitStatus 0, Some p') /\
    p_host p' = [120] /\ heap_end (view p') = Some 0x128 /\ rv (view p') 10 = 0x118.
Proof.
  pose proof (emulator_runs_isa host_log (fun _ => 0) (fun _ => 0) [] [] [] (fun _ => None)
    (fun _ => Exn OSError) (fun _ => Ok isa_elf) (fun _ _ => []) args_isa) as H.
  specialize (H ltac:(split; first [discriminate|reflexivity]) isa_image 0 1 2 (mkConn [] false []) []
    10%nat eq_refl ltac:(vm_compute; reflexivity) isa_image_ok). cbv zeta in H.
  change (mkPlatform (1024 * a_ram_size args_isa) (a_rvc args_isa) true
            (bool_decide (a_timer args_isa <> None))) with bare_platform in H.
  set (r := hosted_run _ _ _ _ _) in H.
  assert (match r with
          | HostedExit code h e => x h 10 = 0x118 /\ ux_host e = [120] /\ ux_break e = Some 0x128
          | _ => False
          end) as E by (vm_compute; repeat split; reflexivity).
  destruct r as [h e|s h e|code h e|]; [destruct E..| |destruct E].
  destruct H as (p' & E1 & Ha & Hu). destruct E as (E2 & E3 & E4).
  exists p'. split; [exact E1|]. injection Hu as Hh _ _ _ _ Hb _. split_and!.
  - rewrite <- E3. exact Hh.
  - rewrite <- E4. exact Hb.
  - rewrite <- E2. symmetry. apply (ag_x Ha 10). lia.
Defined.

(** A program that sends "A" on the line, receives a byte, writes the first 512 bytes of the
    memory to block 0 of the disk, reads the timer as an address, writes a byte from there to
    the terminal of the host and exits. *)
Definition board_program : list Z :=
  [0xB7; 0x02; 0x00; 0x10; 0x13; 0x03; 0x10; 0x04; 0x23; 0xA0; 0x62; 0x00;
   0x83; 0xA3; 0x42; 0x00; 0x37; 0x04; 0x01; 0x10; 0x93; 0x04; 0x10; 0x00;
   0x23; 0x20; 0x94; 0x00; 0x23; 0x24; 0x04; 0x00; 0x23; 0x26; 0x94; 0x00;
   0x37; 0xC5; 0x00; 0x02; 0x83; 0x25; 0x85; 0xFF; 0x13; 0x05; 0x20; 0x00;
   0x13; 0x06; 0x10; 0x00; 0x93; 0x08; 0x00; 0x04; 0x73; 0x00; 0x00; 0x00;
   0x93; 0x08; 0xD0; 0x05; 0x73; 0x00; 0x00; 0x00].

Definition args_board : args :=
  mkArgs (codes "a.bin") None false false true false false "auto" "zero" "zero" 1 true
    (Some TimerMmio) true (Some (codes "disk")) 2 false false [].

Definition board_image : image := mkImage [(0, board_program)] 0 None None None.

Lemma board_image_ok : image_ok 1024 2 board_image.
Proof.
  split; [|by split|reflexivity|exact I].
  repeat constructor; (apply (bool_decide_unpack _); vm_compute; exact I).
Qed.

Lemma emulator_runs_board_witness :
  exists p', main host_log (fun _ => 0) (fun _ => 0) [Some (RxData [66; 67])] [] [] (fun _ => None)
      (fun _ => Ok board_program) (fun _ => Exn OSError) (fun _ _ => []) args_board
      0 1 2 (mkConn [] false []) [] 17 = (ExitStatus 0, Some p') /\
    pty_written (w_uart (view p')) = [65] /\ rv (view p') 7 = 66 /\ rx_buf (w_uart (view p')) = [67] /\
    firstn 4 (PeriphThms.block (Peripherals.image (w_blk (view p'))) 512 0) = [0xB7; 2; 0; 0x10] /\
    rv (view p') 11 = 10 /\ p_host p' = [0x62].
Proof.
  pose proof (emulator_runs_board host_log (fun _ => 0) (fun _ => 0) [Some (RxData [66; 67])] [] [] (fun _ => None)
    (fun _ => Ok board_program) (fun _ => Exn OSError) (fun _ _ => []) args_board) as H.
  specialize (H ltac:(split; first [discriminate|reflexivity]) board_image 0 1 2 (mkConn [] false []) []
    17%nat eq_refl ltac:(discriminate) ltac:(intros _; split; [discriminate|discriminate]) eq_refl
    board_image_ok). cbv zeta in H.
  change (mkPlatform (1024 * a_ram_size args_board) (a_rvc args_board) true
            (bool_decide (a_timer args_board <> None))) with bare_platform in H.
  set (r := hosted_board_run _ _ _ _ _ _) in H.
  assert (match r with
    | StationExit code s e => sr_sent (line s) = [65] /\ x (core s) 7 = 66 /\ sr_queue (line s) = [67] /\
        firstn 4 (dk_blocks (disk s) 0) = [0xB7; 2; 0; 0x10] /\ x (core s) 11 = 10 /\ ux_host e = [0x62]
    | _ => False
    end) as E by (vm_compute; repeat split; reflexivity).
  destruct r as [s e|c s e|code s e|]; [destruct E..| |destruct E].
  destruct H as (p' & Em & [Ha Hl Hd _] & Hu). destruct E as (E1 & E2 & E3 & E4 & E5 & E6).
  exists p'. split; [exact Em|]. split_and!.
  - rewrite <- E1. symmetry. apply (la_sent _ _ _ Hl).
  - rewrite <- E2. symmetry. apply (ag_x Ha 7). lia.
  - rewrite <- E3. symmetry. apply (la_queue _ _ _ Hl).
  - rewrite <- E4, (da_blocks _ _ _ Hd 0), (da_size _ _ _ Hd) by (simpl; lia). reflexivity.
  - rewrite <- E5. symmetry. apply (ag_x Ha 11). lia.
  - rewrite <- E6. by injection Hu.
Defined.

(** The program that exits from the command line, on a terminal in raw mode with 1 kB of memory:
    the settings of the terminal are the word "raw" or "cooked". *)
Definition no_help (v : string) : parsed := SystemExit 2.

Definition exit_argv : list pystr :=
  map codes ["--raw-tty"; "--ram-size=1"; "--check-inv"; "a.bin"; "--"; "x"]%string.

Abbreviation script_on argv n interrupt :=
  (script host42 (fun _ => 0) (fun _ => 0) [] [] [] (fun _ => None) (fun _ => Ok exit_binary)
     (fun _ => Exn OSError) (fun _ _ => []) (fun _ => Some "raw"%string) (fun _ => []) no_help
     (fun _ => Ok tt) true argv 0 1 2 (mkConn [] false []) tt n interrupt
     (Script.mkTerminal "cooked"%string [])).


(** The same program stopped with Ctrl-C after one instruction, and without raw mode restored
    by anything but the clauses of the run. *)
Example script_interrupted :
  let '(out, p, t') := script_on exit_argv 1 true in
  out = ExitStatus 0 /\ settings t' = "cooked"%string /\ length (written t') = 3%nat.
Proof. vm_compute. repeat split; reflexivity. Qed.


(** ** Programs that end the emulator with a traceback *)

Definition args_elf : args :=
  mkArgs (codes "a.elf") None false false false false false "auto" "zero" "zero" 1 false None
    false None 0 false false [].

(** The calls of a program, and the division that follows them: the error code of kill is a
    negative integer in a0, which moves the end of the heap below zero, and sbrk is then
    called with its own results, so that the end of the heap falls like the Fibonacci
    numbers rise. *)
Definition runaway : ST (process unit) unit :=
  let handle := handle (R := process_ops Class_RAM) (HO := process_Host host42) in
  zoom (set_reg 17 129) ;;; handle ;;;
  zoom (set_reg 17 214) ;;; handle ;;;
  loop 1500 (fun _ => handle) tt ;;;
  zoom (set_reg 6 1) ;;;
  zoom (exec_Rtype 0x02654533 10 4 10 6 1).

(** A guest program can end the emulator with an OverflowError: the end of the heap is not
    bounded below, and a register can hold an integer that is too large for a float. *)
Theorem division_overflows :
  fst (runaway (mkProcess (put (set_heap_end (Some 0) (view world_heap)) world_heap) sys0
                  GDBStub_init (mkConn [] false []) tt)) = Exn OverflowError.
Proof. vm_compute. reflexivity. Qed.

(** A program whose symbols give the bottom of the stack and not the start of the heap ends
    the emulator with a TypeError when it calls sbrk. *)
Theorem sbrk_without_heap :
  fst (main_on (Exn OSError)
         (Ok (mkElf [(0, [0x93; 8; 0x60; 0xD; 0x73; 0; 0; 0])] 0
                (Some [mkSym "__stack_bottom" 0x400 false]) None))
         args_elf 0 1 2 (mkConn [] false []) tt 10) = Traceback TypeError.
Proof. vm_compute. reflexivity. Qed.

(** ** The machine with devices *)

Lemma run_with_peripherals_witness :
  match run (R := class_ops world_read32 world_write32 Class_SafeRAM_MMIO) None world_runner 50
          world_all with
  | (Ok _, w') => mmio_inv machine_error w'
  | (Exn e, w') => mmio_inv machine_error w' /\ machine_error e
  end.
Proof.
  apply (run_with_peripherals Class_SafeRAM_MMIO None 50 world_all); [|discriminate].
  destruct (build_ok (fun _ => 0) (fun _ => 0) [None; Some (RxData [10])] []
    [] (fun _ => None) machine_error args_all world_all) as (_ & _ & _ & _ & _ & _ & H3 & _);
    [by split|by split|simpl; lia|repeat constructor; done|constructor|constructor|done|exact world_all_build|].
  exact (H3 eq_refl).
Defined.

(** A guest that waits at address 0 for the timer interrupt, due in five ticks. *)
Definition arm (c : cpu) : cpu :=
  set_mtimecmp 5 (wc 0x305 0x20 (wc 0x304 0x80 (wc 0x300 0x1808 c))).
Definition waiting_cpu : cpu := arm (new_cpu true).
Definition waiting_world : world :=
  mkWorld waiting_cpu (with_bytes ram64 0 [0x6F; 0; 0; 0]) machine_page MMIOTimer_init
    (PtyUART_init 0 [] []) no_blkdev.

Lemma arm_ready c : ready c -> ready (arm c).
Proof.
  intros (Hc & H0 & Hcoh).
  assert (wf_cpu (wc 0x305 0x20 (wc 0x304 0x80 (wc 0x300 0x1808 c)))) as Hw
    by (apply wc_wf; [apply wc_wf; [apply wc_wf; [exact Hc|by split]|by split]|by split]).
  split_and!; [|exact H0|].
  - destruct Hw. by split.
  - destruct Hcoh. by split.
Qed.

Lemma timer_interrupt_delivered_witness :
  exists c, run_timer (R := SafeRAM_ops) None 6 waiting_world = (Ok tt, put c waiting_world) /\
    pc c = 0x20 /\ cv c 0x341 = 0 /\ cv c 0x342 = 0x80000007.
Proof.
  assert (waiting 0 waiting_cpu) as Hwait
    by (split; [exact (arm_ready _ (new_cpu_ready true))|reflexivity|vm_compute; discriminate|vm_compute; reflexivity..]).
  assert (wf_ram (w_ram waiting_world)) as Hr.
  { split; [|done..]. repeat (apply Forall_cons; split; [by split|]). by apply Forall_nil. }
  destruct (timer_interrupt_delivered None 0 waiting_world Hwait Hr) as (_ & c & E & H1 & H2 & H3 & _);
    [reflexivity|reflexivity|vm_compute; reflexivity|vm_compute; discriminate|].
  exact (ex_intro _ c (conj E (conj H1 (conj H2 H3)))).
Defined.

(** ** A unit test *)

(** "lui x5, 0x80001; c.li x6, 1; sw x6, 0(x5)", with tohost at 0x80001000. *)
Definition pass_code : list Z := [0xB7; 0x12; 0x00; 0x80;  0x05; 0x43;  0x23; 0xA0; 0x62; 0x00].
Definition pass_elf : elf_file :=
  mkElf [(0x80000000, pass_code)] 0x80000000 (Some [mkSym "tohost" 0x80001000 false]) None.

(** The processor before the first, the second and the third instruction; the first two
    do not use the memory, so that it can be a small one here. *)
Definition small_test : world :=
  mkWorld (set_pc 0x80000000 (new_cpu true))
    (mkRam (memory (with_bytes ram64 0 pass_code)) 64 0x80000000 []) machine_page
    MMIOTimer_init (PtyUART_init 0 [] []) no_blkdev.
Definition test_cpu (k : nat) : cpu := w_cpu (snd (steps k small_test)).

Lemma lui_step r m t u b :
  (execute (R := SafeRAMOffset_ops) None 0x800012B7 ;;; advance) (mkWorld (test_cpu 0) r m t u b) =
  (Ok tt, mkWorld (test_cpu 1) r m t u b).
Proof. vm_compute. reflexivity. Qed.

Lemma li_step r m t u b :
  (execute (R := SafeRAMOffset_ops) None 0x4305 ;;; advance) (mkWorld (test_cpu 1) r m t u b) =
  (Ok tt, mkWorld (test_cpu 2) r m t u b).
Proof. vm_compute. reflexivity. Qed.

Lemma sw_step (R : RamOps world) r r' m t u b :
  (forall c, store_word 0x80001000 1 (mkWorld c r m t u b) = (Ok tt, mkWorld c r' m t u b)) -> exists c,
  (execute (R := R) None 0x0062A023 ;;; advance) (mkWorld (test_cpu 2) r m t u b) =
  (Ok tt, mkWorld c r' m t u b).
Proof. intros H. eexists. vm_compute in H |- *. rewrite H. reflexivity. Qed.

(** A memory with the program and the sentinel. *)
Definition holds_test (r : ram) : Prop :=
  wf_ram r /\ size r = 1024 * 1024 /\ base_addr r = 0x80000000 /\ mem_word r 0x1000 = 0xFFFFFFFF /\
  forall k, 0 <= k < 10 -> mem_byte r k = default 0 (pass_code !! Z.to_nat k).

Definition test_machine : machine :=
  from_ok isa_machine (Machine_init false false true false false None false None).

Lemma test_objects_ok : exists r, test_objects =
  Ok (mkWorld (new_cpu true) r test_machine MMIOTimer_init (PtyUART_init 0 [] []) (MMIOBlockDevice_init 0 0 0 None [])) /\
  wf_ram r /\ size r = 1024 * 1024 /\ base_addr r = 0x80000000.
Proof.
  unfold test_objects. destruct (RAM_init (fun _ => 0) (1024 * 1024) 0x80000000 None) as [r|] eqn:Er.
  2: { exfalso. revert Er. unfold RAM_init. cbv zeta. intros H. discriminate H. }
  assert (0 <= 1024 * 1024) as H0 by lia.
  destruct (RAM_init_wf _ _ _ _ _ (fun _ => conj (Z.le_refl 0) eq_refl) H0 Er) as (Hr & Hs & Hb & _).
  assert (CPU_init (fun _ => 0) true None false = Ok (new_cpu true)) as -> by reflexivity.
  exists r. split; [reflexivity|done].
Qed.

Lemma offset_store_binary_eq a b r : wf_ram r -> in_bounds r (a - base_addr r) (py_len b) = true ->
  SafeRAMOffset_store_binary a b r = (Ok tt, with_bytes r (a - base_addr r) b).
Proof.
  intros Hr Hb. pose proof (wf_len r Hr). apply in_bounds_spec in Hb.
  unfold SafeRAMOffset_store_binary, rebase, bind, SafeRAMOffset_check. destruct (_ || _) eqn:E; [lia|].
  unfold body_store_binary. by rewrite py_slice_set_in by lia.
Qed.

Lemma offset_store_word_eq a v r : wf_ram r -> in_bounds r (a - base_addr r) 4 = true ->
  SafeRAMOffset_store_word a v r = (Ok tt, upd4 r (a - base_addr r) v).
Proof.
  intros Hr Hb. pose proof (wf_len r Hr). apply in_bounds_spec in Hb.
  unfold SafeRAMOffset_store_word, rebase, bind, SafeRAMOffset_check. destruct (_ || _) eqn:E; [lia|].
  by apply body_store_word_eq; [|lia..].
Qed.

Lemma offset_load_half_eq a r : wf_ram r -> in_bounds r (a - base_addr r) 2 = true ->
  SafeRAMOffset_load_half a false r = (Ok (mem_half r (a - base_addr r)), r).
Proof.
  intros Hr Hb. pose proof (wf_len r Hr). apply in_bounds_spec in Hb.
  unfold SafeRAMOffset_load_half, rebase, bind, SafeRAMOffset_check. destruct (_ || _) eqn:E; [lia|].
  by rewrite body_load_half_eq by lia.
Qed.

Lemma pass_setup : exists w0 r m t u b, test_objects = Ok w0 /\
  test_setup pass_elf w0 = (Ok 0x80001000, mkWorld (test_cpu 0) r m t u b) /\ holds_test r.
Proof.
  destruct test_objects_ok as (r & Ho & Hr & Hs & Hb). pose proof (wf_len r Hr) as Hl.
  eexists _, (upd4 (with_bytes r 0 pass_code) 0x1000 SENTINEL), _, _, _, _. split; [exact Ho|].
  assert (py_len pass_code = 10) as Hp by done.
  assert (wf_ram (with_bytes r 0 pass_code)) as Hw by (apply with_bytes_wf; [done|by repeat constructor|lia..]).
  pose proof (wf_len _ Hw) as Hlw. assert (size (with_bytes r 0 pass_code) = 1024 * 1024) as Hsw by done.
  split.
  - unfold test_setup, load_elf, for_each, bind, pass_elf, zoom, mset, mget.
    cbn [pt_load e_entry symtab text_section fst snd].
    cbn [store_binary store_word SafeRAMOffset_ops]. unfold zoom. cbn [view put world_ram w_ram].
    rewrite offset_store_binary_eq; [|done|unfold in_bounds; rewrite Hb, Hs, Hp; done].
    rewrite Hb. change (0x80000000 - 0x80000000) with 0.
    unfold ret, modify, gets. cbn [view put world_ram world_cpu world_machine w_ram w_cpu w_machine].
    match goal with |- context [checks_auto ?s] =>
      let v := eval vm_compute in (checks_auto s) in change (checks_auto s) with v end.
    cbn [view put world_ram world_cpu world_machine w_ram w_cpu w_machine].
    change (get_symbol_address _ _) with (Ok 0x80001000). cbn [w_ram].
    rewrite offset_store_word_eq; [|done|unfold in_bounds; simpl base_addr; rewrite Hb, Hsw; done].
    simpl base_addr. rewrite Hb. reflexivity.
  - assert (stored (with_bytes r 0 pass_code) 0x1000 4 SENTINEL (upd4 (with_bytes r 0 pass_code) 0x1000 SENTINEL))
      as Hst by (apply stored_four; [done|lia..]).
    split_and!; [apply Hst|by rewrite (stored_size _ _ _ _ _ Hst)|by rewrite (stored_base _ _ _ _ _ Hst)
      |by rewrite (stored_word_same _ _ _ _ Hst)|].
    intros k Hk. rewrite (stored_bytes _ _ _ _ _ Hst) by lia.
    replace ((0x1000 <=? k) && (k <? 0x1000 + 4)) with false by lia.
    rewrite with_bytes_byte by lia. rewrite Hp. replace ((0 <=? k) && (k <? 0 + 10)) with true by lia.
    by rewrite Z.sub_0_r.
Qed.

(** The instructions of the program are fetched. *)
Lemma fetch_test c r m t u b k inst : holds_test r -> pc c = 0x80000000 + k ->
  let '(lo, hi) := (default 0 (pass_code !! Z.to_nat k), default 0 (pass_code !! Z.to_nat (k + 1))) in
  let low := Z.lor lo (Z.shiftl hi 8) in
  let high := Z.lor (default 0 (pass_code !! Z.to_nat (k + 2)))
                (Z.shiftl (default 0 (pass_code !! Z.to_nat (k + 3))) 8) in
  0 <= k -> k + 4 <= 10 ->
  inst = (if Z.land low 0x3 =? 0x3 then Z.lor low (Z.shiftl high 16) else low) ->
  fetch_halves (R := SafeRAMOffset_ops) (mkWorld c r m t u b) = (Ok inst, mkWorld c r m t u b).
Proof.
  intros (Hr & Hs & Hb & _ & Hc) Hpc. cbv zeta. intros H0 H10 Hi.
  assert (forall d, d = 0 \/ d = 2 ->
    SafeRAMOffset_load_half (0x80000000 + k + d) false r = (Ok (Z.lor (default 0 (pass_code !! Z.to_nat (k + d)))
                (Z.shiftl (default 0 (pass_code !! Z.to_nat (k + d + 1))) 8)), r)) as Hl.
  { intros d Hd. rewrite offset_load_half_eq; [|done|unfold in_bounds; rewrite Hb, Hs; lia].
    rewrite Hb. replace (0x80000000 + k + d - 0x80000000) with (k + d) by lia.
    unfold mem_half. by rewrite !Hc by lia. }
  unfold fetch_halves, bind, gets. cbn [view world_cpu w_cpu load_half SafeRAMOffset_ops]. rewrite Hpc.
  unfold zoom. cbn [view put world_ram w_ram].
  pose proof (Hl 0 (or_introl eq_refl)) as E0. rewrite !Z.add_0_r in E0. rewrite E0.
  cbn [w_cpu w_machine w_timer w_uart w_blk].
  destruct (_ =? 3); [|by rewrite Hi]. cbn [view world_ram w_ram]. rewrite (Hl 2) by auto.
  rewrite Hi. replace (k + 2 + 1) with (k + 3) by lia. done.
Qed.

Lemma progress_fetched c r m t u b inst : (pc c) mod 2 = 0 ->
  fetch_halves (R := SafeRAMOffset_ops) (mkWorld c r m t u b) = (Ok inst, mkWorld c r m t u b) ->
  progress (mkWorld c r m t u b) =
    (execute (R := SafeRAMOffset_ops) None inst ;;; advance) (mkWorld c r m t u b).
Proof.
  intros Hp Hf. unfold progress, bind at 1, gets. cbn [view world_cpu w_cpu]. rewrite Hp.
  unfold bind at 1. cbn [Z.eqb]. by rewrite Hf.
Qed.

(** The three steps of the program: two within the processor, the third stores 1. *)
Lemma pass_steps r m t u b : holds_test r ->
  let w k := mkWorld (test_cpu k) r m t u b in
  steps 1 (w 0%nat) = (Ok tt, w 1%nat) /\ steps 2 (w 0%nat) = (Ok tt, w 2%nat) /\
  exists c r', steps 3 (w 0%nat) = (Ok tt, mkWorld c r' m t u b) /\ mem_word r' 0x1000 = 1.
Proof.
  intros Hr w.
  assert (progress (w 0%nat) = (Ok tt, w 1%nat)) as H1.
  { unfold w. erewrite progress_fetched; [apply lui_step|done|].
    apply (fetch_test _ _ _ _ _ _ 0); [done|reflexivity|lia|lia|reflexivity]. }
  assert (progress (w 1%nat) = (Ok tt, w 2%nat)) as H2.
  { unfold w. erewrite progress_fetched; [apply li_step|done|].
    apply (fetch_test _ _ _ _ _ _ 4); [done|reflexivity|lia|lia|reflexivity]. }
  assert (exists c r', progress (w 2%nat) = (Ok tt, mkWorld c r' m t u b) /\ mem_word r' 0x1000 = 1)
    as (c & r' & H3 & Hw).
  { pose proof Hr as (Hwf & Hs & Hb & _). pose proof (wf_len r Hwf).
    destruct (sw_step SafeRAMOffset_ops r (upd4 r 0x1000 1) m t u b) as [c Hc].
    - intros c. cbn [store_word SafeRAMOffset_ops]. unfold zoom. cbn [view put world_ram w_ram].
      rewrite offset_store_word_eq; [|done|unfold in_bounds; rewrite Hb, Hs; done]. by rewrite Hb.
    - exists c, (upd4 r 0x1000 1). unfold w. split.
      + erewrite progress_fetched; [exact Hc|done|].
        apply (fetch_test _ _ _ _ _ _ 6); [done|reflexivity|lia|lia|reflexivity].
      + by rewrite (stored_word_same r _ 1) by (try (apply stored_four; [done|lia..]); lia). }
  split; [by rewrite (steps_cons _ _ 0 H1)|].
  split; [by rewrite (steps_cons _ _ 1 H1), (steps_cons _ _ 0 H2)|].
  exists c, r'. split; [|done]. by rewrite (steps_cons _ _ 2 H1), (steps_cons _ _ 1 H2), (steps_cons _ _ 0 H3).
Qed.

Lemma unit_test_verdict_witness :
  exists a w, test_starts (fun _ => Ok pass_elf) (codes "isa/t") a w /\
    run_test (fun _ => Ok pass_elf) 2 (codes "isa/t") = Ok None /\
    run_test (fun _ => Ok pass_elf) 10 (codes "isa/t") =
      Ok (Some [codes "Test t                             : PASS"]).
Proof.
  destruct pass_setup as (w0 & r & m & t & u & b & Ho & Hs & Hr).
  destruct (pass_steps r m t u b Hr) as (H1 & H2 & c & r' & H3 & Hv).
  assert (test_starts (fun _ => Ok pass_elf) (codes "isa/t") 0x80001000 (mkWorld (test_cpu 0) r m t u b)) as Hst.
  { exists w0, pass_elf. split_and!; [done|done| |done]. split; [by repeat constructor|by split]. }
  assert (quiet 0x80001000 (mkWorld (test_cpu 0) r m t u b) 3) as Hq.
  { destruct Hr as (_ & _ & _ & Ht & _). intros [|[|[|j]]] Hj; [..|lia]; eexists; (split; [done|exact Ht]). }
  exists 0x80001000, (mkWorld (test_cpu 0) r m t u b). split_and!; [done|..].
  - by apply (unit_test_verdict (fun _ => Ok pass_elf) 2 (codes "isa/t") _ _ Hst).
  - apply (unit_test_verdict (fun _ => Ok pass_elf) 10 (codes "isa/t") _ _ Hst).
    exists 3%nat, 1, (mkWorld c r' m t u b). split_and!; [lia| |reflexivity].
    split_and!; [done|done|exact Hv|lia].
Defined.
