(* ===== verification/ApiExample.v ===== *)
(** * Programs run through the API (tests/test_api_simple.py, tests/test_api_trap.py)

    The first script stores a small program into a RAM, runs it instruction by instruction
    until the pc reaches its end, and prints the sum of the integers from 1 to 100.  The
    second one loads a flat binary into 1 MB of memory and runs it until it traps; its
    result is computed on the reference machine, whose memory is a function, and carried
    over by the refinement of IsaRun.v. *)

From Stdlib Require Import ZArith Lia Bool String.
From stdpp Require Import base numbers list option gmap strings.
From S2P Require Import Prelude PyStr Isa Ram Cpu Rvc CpuSem Exec ExecSem ExecSafe RamSafe Core MemInstr Trap.
From S2P Require Import IsaMachine IsaRefine Machine Peripherals World Lift MachineThms IsaRun EmuThms.

Local Open Scope Z_scope.
Local Open Scope py_scope.

(** The CPU and the RAM of the script. *)
#[local] Existing Instance RAM_ops.

(** The words of the program, with their addresses. *)
Definition api_program : list (Z * Z) :=
  [(0x00, 0x00000293); (0x04, 0x00100313); (0x08, 0x06400393); (0x0c, 0x006282b3);
   (0x10, 0x00130313); (0x14, 0xfe63dce3); (0x18, 0x00100073)].

Definition api_setup : ST node unit :=
  for_each (fun x => store_word (fst x) (snd x)) api_program ;;;
  zoom (modify (set_pc 0)).

(** One round: fetch, execute, advance; true at the end of the program. *)
Definition api_round : ST node bool :=
  p <- gets (fun w => pc (view w)) ;;
  inst <- load_word p ;;
  execute None inst ;;;
  zoom (modify (fun c => set_pc (next_pc c) c)) ;;;
  p <- gets (fun w => pc (view w)) ;;
  ret (p =? 0x18).

(** The loop; [fuel] bounds the rounds, and None means that they did not suffice. *)
Fixpoint api_loop (fuel : nat) : ST node (option nat) :=
  match fuel with
  | O => ret None
  | S fuel' =>
      over <- api_round ;;
      if over : bool then ret (Some fuel') else api_loop fuel'
  end.

(** The result the script prints, with the rounds that were left. *)
Definition api_main (fuel : nat) : ST node (option (nat * Z)) :=
  api_setup ;;;
  r <- api_loop fuel ;;
  match r with
  | Some rest => t0 <- zoom (reg 5) ;; ret (Some (rest, t0))
  | None => ret None
  end.

Definition api_node : node :=
  (new_cpu false, from_ok (mkRam [] 0 0 []) (RAM_init (fun _ => 0) 1024 0 None)).

(** The script ends after exactly 303 instructions and prints 5050. *)
Theorem api_sum : fst (api_main 302 api_node) = Ok None /\ fst (api_main 303 api_node) = Ok (Some (O, 5050)).
Proof. split; vm_compute; reflexivity. Qed.

(** ** A flat binary that ends with a trap (tests/test_api_trap.py)

    The script loads a binary into 1 MB of memory, points mtvec to an address where there
    is no memory, and runs until the pc is there, which is the ECALL at the end of the
    program. *)

Definition STOP : Z := 0xDEAD0000.

(** The objects of the script. *)
Definition trap_objects : res world :=
  match RAM_init (fun _ => 0) (1024 * 1024) 0 None with
  | Exn e => Exn e
  | Ok r =>
      match CPU_init (fun _ => 0) false None false with
      | Exn e => Exn e
      | Ok c =>
          match Machine_init false false false false false None false None with
          | Exn e => Exn e
          | Ok m => Ok (mkWorld c r m MMIOTimer_init (PtyUART_init 0 [] [])
                          (MMIOBlockDevice_init 0 0 0 None []))
          end
      end
  end.

Definition trap_setup (binary : list Z) : ST world unit :=
  load_flatbinary binary ;;;
  zoom (modify (set_pc 0)) ;;;
  zoom (modify (wc 0x305 STOP)).

(** Fetch, execute, advance. *)
Definition trap_step : ST world unit :=
  inst <- fetch_word ;;
  execute None inst ;;;
  advance.

(** One round; true when the trap has occurred. *)
Definition trap_round : ST world bool :=
  trap_step ;;;
  p <- gets (fun w => pc (view w)) ;;
  ret (p =? STOP).

Fixpoint trap_loop (fuel : nat) : ST world (option nat) :=
  match fuel with
  | O => ret None
  | S fuel' =>
      over <- trap_round ;;
      if over : bool then ret (Some fuel') else trap_loop fuel'
  end.

(** The result the script prints, with the rounds that were left. *)
Definition trap_main (binary : list Z) (fuel : nat) : ST world (option (nat * Z)) :=
  trap_setup binary ;;;
  r <- trap_loop fuel ;;
  match r with
  | Some rest => a0 <- zoom (reg 10) ;; ret (Some (rest, a0))
  | None => ret None
  end.

(** *** The loop on the reference machine *)

(** Steps until the pc is [stop]: the steps left and the state. *)
Fixpoint isa_until (p : platform) (stop : Z) (fuel : nat) (h : hart) : option (nat * hart) :=
  match fuel with
  | O => None
  | S fuel' =>
      match isa_step p h with
      | Running h' => if hpc h' =? stop then Some (fuel', h') else isa_until p stop fuel' h'
      | _ => None
      end
  end.

Section Until.
Variable p : platform.
Hypothesis Hwide : p_wide p = true.
Hypothesis Htimer : p_timer p = false.

Lemma trap_step_lifts :
  lifts any_ram ends (inst <- fetch_word (R := SafeRAM_ops) ;; execute (R := SafeRAM_ops) None inst ;;;
              tick false ;;; advance) trap_step.
Proof using.
  apply lifts_bind; [apply (fetch_word_lifts any_ram ends _)|intros inst].
  apply lifts_bind; [apply (execute_lifts any_ram ends _ (fun msg H => H))|intros u].
  change (lifts any_ram ends (advance (W := node)) (advance (W := world))). apply lifts_zoom_cpu.
Qed.

(** A round of the script is a step. *)
Lemma trap_round_step h h' (w : world) : in_step p h (node_of w) -> isa_step p h = Running h' ->
  exists nd, trap_round w = (Ok (hpc h' =? STOP), with_node nd w) /\ in_step p h' nd.
Proof using Hwide Htimer.
  intros [Ha Hpc] Hs.
  pose proof (round_follows p h _ _ Ha (fetch_word (R := SafeRAM_ops))
    (execute (R := SafeRAM_ops) None)) as Hf.
  rewrite Hs, Htimer in Hf. destruct Hf as (nd & E & Hin);
    [by apply fetch_word_fetches|by apply execute_executes|].
  pose proof (trap_step_lifts w I) as Hl.
  change (node_of w) with (fst (node_of w), snd (node_of w)) in Hl. rewrite E in Hl.
  exists nd. split; [|done].
  unfold trap_round, bind, gets, ret. rewrite (proj2 (Hl I)).
  by rewrite <- (proj2 Hin), <- (f_equal fst (node_with nd w)).
Qed.

Lemma trap_loop_until fuel h (w : world) rest h' : in_step p h (node_of w) ->
  isa_until p STOP fuel h = Some (rest, h') ->
  exists nd, trap_loop fuel w = (Ok (Some rest), with_node nd w) /\ in_step p h' nd.
Proof using Hwide Htimer.
  revert h w. induction fuel as [|fuel IH]; intros h w Hin; simpl; [done|].
  destruct (isa_step p h) as [h1|s h1|] eqn:Hs; [|done..].
  destruct (trap_round_step h h1 w Hin Hs) as (nd & E & Hin1). unfold bind. rewrite E.
  destruct (hpc h1 =? STOP).
  - intros [= <- <-]. by exists nd.
  - intros Hu. destruct (IH h1 (with_node nd w)) as (nd' & -> & Hin'); [by rewrite node_with|done|].
    exists nd'. by rewrite with_with.
Qed.
End Until.

(** *** The program *)

(** prebuilt/test_bare1.bin: the sum of the integers below 100, in a local variable. *)
Definition test_bare1 : list Z :=
  flat_map (fun w => [w mod 256; w / 256 mod 256; w / 65536 mod 256; w / 16777216])
    [0x00100117; 0x00010113; 0x010000EF; 0x05D00893; 0x00000073; 0x0000006F; 0xFF010113;
     0x00012623; 0x00000793; 0x06400693; 0x00C12703; 0x00E78733; 0x00E12623; 0x00178793;
     0xFED798E3; 0x00C12503; 0x01010113; 0x00008067].

Definition trap_platform : platform := mkPlatform 0x100000 false true false.

(** The CPU after the set-up, and the hart; [m] is the rest of the memory. *)
Definition trap_cpu : cpu := wc 0x305 STOP (set_pc 0 (set_pc 0 (new_cpu false))).

Definition trap_hart (m : Z -> Z) : hart :=
  mkHart (rv trap_cpu) (pc trap_cpu) (cv trap_cpu)
    (fun a => if (0 <=? a) && (a <? 0 + py_len test_bare1)
              then default 0 (test_bare1 !! Z.to_nat (a - 0)) else m a)
    None (mtime trap_cpu) (mtimecmp trap_cpu).

(** The sum is computed in exactly 512 steps, whatever the rest of the memory holds. *)
Lemma trap_hart_until m :
  match isa_until trap_platform STOP 512 (trap_hart m) with
  | Some (rest, h) => rest = O /\ x h 10 = 4950
  | None => False
  end.
Proof. vm_compute. repeat split; reflexivity. Qed.

Lemma trap_setup_eq c r m t u b : wf_ram r -> size r = 0x100000 -> start_checks m = None ->
  trap_setup test_bare1 (mkWorld c r m t u b) =
    (Ok tt, mkWorld (wc 0x305 STOP (set_pc 0 (set_pc 0 c))) (with_bytes r 0 test_bare1)
              (set_start_checks (Some "first-call"%string) m) t u b).
Proof.
  intros Hr Hs Hm. pose proof (wf_len r Hr) as Hlen.
  assert (RAM_store_binary 0 test_bare1 r = (Ok tt, with_bytes r 0 test_bare1)) as E.
  { unfold RAM_store_binary, catch, body_store_binary.
    rewrite py_slice_set_in by (change (py_len test_bare1) with 72; lia). done. }
  unfold trap_setup, load_flatbinary. unfold bind at 1 2. cbn [store_binary RAM_ops]. unfold zoom at 1.
  cbn [view world_ram w_ram]. rewrite E.
  unfold bind, zoom, modify, mget, gets, mset, id. cbn [view put world_ram world_cpu world_machine
    w_ram w_cpu w_machine]. rewrite Hm. done.
Qed.

Lemma set_up_ready c : ready c -> ready (wc 0x305 STOP (set_pc 0 (set_pc 0 c))).
Proof.
  intros (Hc & H0 & [Hk1 Hk2]). split_and!; [|exact H0|by split].
  apply wc_wf; [by destruct Hc; split|by split].
Qed.

Lemma trap_in_step r m t u b : wf_ram r -> size r = 0x100000 ->
  in_step trap_platform (trap_hart (mem_byte r))
    (node_of (mkWorld trap_cpu (with_bytes r 0 test_bare1) m t u b)).
Proof.
  intros Hr Hs. pose proof (wf_len r Hr) as Hlen.
  assert (0 + py_len test_bare1 <= size r + 4) as Hfit by (change (py_len test_bare1) with 72; lia).
  split; [|reflexivity]. unfold node_of. cbn [fst snd view world_cpu world_ram w_cpu w_ram].
  split; [apply set_up_ready, new_cpu_ready| |exact Hs|reflexivity|reflexivity|reflexivity
         |reflexivity| |reflexivity|reflexivity|reflexivity|vm_compute; reflexivity].
  - apply with_bytes_wf; [exact Hr|by apply (bool_decide_unpack _); vm_compute|lia|exact Hfit].
  - intros a Ha. rewrite with_bytes_byte by lia. reflexivity.
Qed.

Lemma plain_RAM_init sz : 0 <= sz -> sz mod 4 = 0 -> exists r, RAM_init (fun _ => 0) sz 0 None = Ok r.
Proof.
  intros H1 H2. unfold RAM_init. rewrite (proj2 (Z.ltb_ge (sz + 4) 0)) by lia.
  replace ((sz + 4) mod 4) with 0 by (rewrite <- Z.add_mod_idemp_r by done; by rewrite Z.add_0_r).
  by eexists.
Qed.

Definition trap_machine : machine :=
  mkMachine false false false false false None false None false []
    None None None None None None ∅ None.

Definition trap_world (r : ram) : world :=
  mkWorld (new_cpu false) r trap_machine MMIOTimer_init (PtyUART_init 0 [] [])
    (MMIOBlockDevice_init 0 0 0 None []).

Lemma trap_objects_eq : exists r, trap_objects = Ok (trap_world r) /\ wf_ram r /\ size r = 0x100000.
Proof.
  destruct (plain_RAM_init (1024 * 1024)) as [r Er]; [lia|done|]. exists r.
  unfold trap_objects. rewrite Er.
  apply RAM_init_wf in Er as (Hr & Hs & _); [|by split|lia]. by split_and!.
Qed.

(** The script ends after exactly 512 instructions and prints 4950. *)
Theorem api_trap :
  match trap_objects with
  | Ok w => fst (trap_main test_bare1 512 w) = Ok (Some (O, 4950))
  | Exn _ => False
  end.
Proof.
  destruct trap_objects_eq as (r & -> & Hr & Hs). unfold trap_main, bind at 1, trap_world.
  rewrite (trap_setup_eq _ r trap_machine) by done. fold trap_cpu.
  pose proof (trap_hart_until (mem_byte r)) as Hu.
  destruct (isa_until trap_platform STOP 512 (trap_hart (mem_byte r))) as [[rest h]|] eqn:E; [|destruct Hu].
  destruct Hu as [-> Hx].
  destruct (trap_loop_until trap_platform eq_refl eq_refl _ _ _ _ _
    (trap_in_step r (set_start_checks (Some "first-call"%string) trap_machine) MMIOTimer_init
       (PtyUART_init 0 [] []) (MMIOBlockDevice_init 0 0 0 None []) Hr Hs) E) as ([c' r'] & El & Ha & _).
  unfold bind. rewrite El. unfold zoom. cbn [view put with_node world_cpu world_ram w_cpu w_ram fst snd].
  cbn [fst snd] in Ha. rewrite (reg_eq c' 10) by (lia || apply (ag_ready Ha)).
  rewrite <- (ag_x Ha 10) by lia. rewrite Hx. reflexivity.
Qed.
