(* ===== verification/Deviations.v ===== *)
(** * Where the emulator departs from the RISC-V manual

    The reference machine of IsaMachine.v leaves these cases open; here is what the emulator
    does in them, on a new processor with 16 bytes of checked memory. *)

From Stdlib Require Import ZArith Lia Bool String.
From stdpp Require Import base numbers list option gmap strings.
From S2P Require Import Prelude PyStr Isa Ram Cpu Rvc CpuSem Exec ExecSem ExecSafe RamSafe Core.
From S2P Require Import Machine Peripherals World GdbPacket Gdb GdbThms Witnesses.

Local Open Scope Z_scope.
Local Open Scope py_scope.

Abbreviation exec inst := (execute (R := SafeRAM_ops) None inst).

(** A program of some words on a processor, and what it leaves in a register, a CSR and the
    memory. *)
Definition after_words (words : list Z) (c : cpu) : res unit * (cpu * ram) :=
  for_each (fun inst => exec inst) words (c, new_ram).

(** A SC that fails does not end the reservation (the manual invalidates it on success and on
    failure): after LR.W at 0 and a SC.W at 4 that fails, a SC.W at 0 succeeds. *)
Theorem failing_sc_keeps_reservation :
  match after_words [0x100120AF; 0x1842A1AF; 0x1841232F] (wr 5 4 (wr 6 7 (new_cpu true))) with
  | (Ok _, (c, _)) => rv c 3 = 1 /\ rv c 6 = 0
  | (Exn _, _) => False
  end.
Proof. vm_compute. by split. Qed.

(** LR.W at an address that is not aligned traps with cause 6, of a store, and not 4, of a
    load. *)
Theorem misaligned_lr_cause :
  fst (after_words [0x100120AF] (wr 2 2 (new_cpu true))) =
    Exn (ExecutionTerminated (TrapWithoutHandler 0 6)).
Proof. vm_compute. done. Qed.

(** mepc keeps its low bits, which the manual fixes to zero: without compressed instructions
    MRET to a mepc of 2 traps. *)
Theorem mepc_keeps_low_bits :
  let c := wr 1 2 (new_cpu false) in
  (match after_words [0x34109073] c with
   | (Ok _, (c', _)) => cv c' 0x341 = 2
   | (Exn _, _) => False
   end) /\
  fst (after_words [0x34109073; 0x30200073] c) = Exn (ExecutionTerminated (TrapWithoutHandler 0 0)).
Proof. vm_compute. by split. Qed.

(** A CSR that does not exist (here 0x123) is storage, where the manual asks for an
    illegal-instruction exception. *)
Theorem unknown_csr_is_storage :
  match after_words [0x123312F3] (wr 6 9 (new_cpu true)) with
  | (Ok _, (c, _)) => cv c 0x123 = 9
  | (Exn _, _) => False
  end.
Proof. vm_compute. done. Qed.

(** The counter of instructions (minstret, 0xB02) does not count. *)
Theorem minstret_does_not_count :
  match after_words [0x00000013; 0x00000013; 0xB02022F3] (new_cpu true) with
  | (Ok _, (c, _)) => rv c 5 = 0
  | (Exn _, _) => False
  end.
Proof. vm_compute. done. Qed.

(** Hints of the compressed encodings that the manual asks to be executed as no-ops are
    illegal: C.LUI and C.SLLI with rd = x0, C.SRLI by zero. *)
Theorem compressed_hints_rejected :
  Forall (fun k => expand_compressed k = (0, false)) [0x6005; 0x0006; 0x8001].
Proof. repeat constructor. Qed.

(** A shift with bit 12 set is reserved on RV32.  The expansion reports success with a word
    that is no instruction, so that the trap has that word in mtval and not the instruction. *)
Theorem reserved_shift_expands :
  let '(word, success) := expand_compressed 0x9005 in
  success = true /\ Isa.decode word = None /\ word <> 0x9005 /\
  match after_words [0x9005] (wc 0x305 8 (new_cpu true)) with
  | (Ok _, (c, _)) => cv c 0x342 = 2 /\ cv c 0x343 = word
  | (Exn _, _) => False
  end.
Proof. vm_compute. by repeat split. Qed.

(** Without compressed instructions the loop of the debugger executes a compressed word (here
    C.LI x8, 1), where the other loops trap. *)
Theorem gdb_executes_compressed :
  let w : dworld := put (new_cpu false) (put (with_bytes ram64 0 [0x05; 0x44]) world_gdb) in
  (match gdb_instruction (R := SafeRAM_ops) None false w with
   | (Ok _, w') => rv (view w') 8 = 1
   | (Exn _, _) => False
   end) /\
  fst (instruction None false w) = Exn (ExecutionTerminated (TrapWithoutHandler 0 2)).
Proof. vm_compute. by split. Qed.
